(* ===== verification/_CoqProject ===== *)
-Q . S2P
Prelude.v
GoInt.v
GoString.v
GoTime.v
GoDate.v
Json.v
JsonParse.v
Base64.v
Sha256.v
Problem.v
Snowflake.v
RequestCtx.v
CoreModel.v
AssetService.v
GiftModel.v
RedemptionModel.v
PurchaseModel.v
RedemptionSlot.v
Integrity.v
AssetLaws.v
AssetLedger.v
Database.v
Pagination.v
FulfilmentTables.v
PurchaseTables.v
Steps.v
AssetRepository.v
IntegrityScan.v
Samples.v
AssetTheorems.v
AssetKeeps.v
LedgerEntries.v
ExpiryWorker.v
Idempotency.v
GiftDto.v
RedemptionDto.v
PurchaseDto.v
GiftRepository.v
RedemptionRepository.v
PurchaseRepository.v
ScheduledDispatch.v
GiftService.v
BusinessPayment.v
RedemptionService.v
RedemptionSettlement.v
PurchaseSettlement.v
PurchaseService.v
AfterSaleReturn.v
ReturnSettlement.v
RedemptionSamples.v
GiftList.v
GiftSelection.v
GiftInvariant.v
GiftState.v
GiftRuns.v
GiftCalls.v
GiftTheorems.v
RedemptionBooks.v
RedemptionHold.v
RedemptionRuns.v
RedemptionCancel.v
ReturnRuns.v
RedemptionState.v
RedemptionTheorems.v
ReturnTheorems.v
AssetFrame.v
PurchaseBooks.v
PurchaseRuns.v
PurchaseCalls.v
PurchaseFlow.v
PurchaseSamples.v
PurchaseTheorems.v
PaymentTheorems.v
CheckoutTheorems.v
SalesFrame.v
WineTickets.v
Paging.v
GiftSafety.v
GiftRetry.v
IntegrityTheorems.v
