(* ===== verification/Prelude.v ===== *)
(** * Verification of the jiuxiaoer back end

    The program is the back end of a liquor delivery platform, written in Go
    over MySQL ([src/internal], with the tables of [src/migrations]).  Its
    most delicate part is the wine-ticket module
    ([src/internal/modules/wineticket]): a customer buys bottles in advance, a
    lot of them, and later has them delivered, gives them away, renews or
    refunds them.  Bottles are money, so the module keeps a ledger next to the
    lots, serialises writers with row locks and versions, makes every write
    idempotent and lets an auditor compare the ledger with the lots.  This
    library models that core and the packages it stands on, and proves that it
    does what it means to do.

    ** The parts and how they interact

    - The asset core ([core/asset_service.go]) is the only writer of lots and
      of the ledger.  It has five operations (issue, transfer, freeze or
      redeem, restore, expire), each idempotent by an action key, and reaches
      the tables through a repository interface.
    - The purchase service ([purchase/service.go]) sells packages of bottles: it
      checks the package, the customer and the quota, writes a pending purchase
      with its payment, and submits the payment to the provider.  The payment
      service ([order/business_payment.go], [order/payment_settlement.go],
      [order/payment_state.go]) applies what the provider reports and calls the
      handler that registered for the business of the payment; the handler of
      purchases ([purchase/payment_settlement.go]) issues the lot through the
      asset core, closes the purchase, or opens the refund of a purchase that
      can no longer be issued.
    - The gift service ([gift/service.go]) freezes bottles for a gift, issues
      share tokens, and either transfers the bottles to the receiver or
      restores them to the giver.  It calls the asset core, the idempotency
      store and the identifier generator inside one database transaction.
    - The redemption service ([redemption/service.go]) has bottles delivered:
      it redeems them from the lots that expire first, takes a place in a
      delivery slot and bottles of the shop's stock, and opens an order with
      its delivery; a cancellation gives all of it back.  The fulfilment
      settlement ([redemption/settlement.go]) is called by dispatch and
      delivery, inside their transaction, and moves the redemption along.
      Dispatch is reached through an interface ([redemption/ports.go]).
    - The return settlement ([redemption/return_settlement.go]) is called by
      the delivery-return module in the same way when picked-up bottles come
      back to the shop: approval opens an after-sale without money
      ([aftersale/system_wine_ticket_return.go]), reception puts the bottles
      back into their lots.
    - The lot expiry worker ([core/expiry_worker.go]) and [ExpireDue] of the
      gift service settle what is due, in batches.
    - The integrity auditor ([integrity]) replays the ledger of every lot and
      checks that held bottles are backed by allocations.
    - The idempotency store ([pkg/idempotency]) claims a key for a request with
      a lease, keeps the response and replays it.
    - Under them are problem details, request values, snowflake identifiers
      and signed page tokens ([pkg/problem], [pkg/requestctx],
      [pkg/snowflake], [pkg/pagination]).

    ** The model

    A service call is a function in the state-and-error monad [M] of this file
    over a [World] (Database.v): the tables, a clock and an identifier
    generator whose readings are inputs, random bytes, and a fault oracle that
    may fail any SQL statement, BEGIN and COMMIT included.  A Go early return is
    [throw] or [fail_if], [err != nil] is an [Err], and an error leaves the
    changes made before it to the enclosing transaction.  Integers wrap at
    64 bits as Go's do (GoInt.v); strings are bytes with UTF-8 decoding
    (GoString.v); times are nanoseconds (GoTime.v); JSON is printed and parsed
    as [encoding/json] does (Json.v, JsonParse.v); SHA-256, HMAC and Base64 are
    computed (Sha256.v, Pagination.v, Base64.v).  A table is the list of its
    rows, with its CHECK constraints and unique keys; a statement is one of the
    generic operations of Database.v, and each repository function is the
    translation of its query.  All definitions evaluate, and the witnesses run
    them on the sample data of Samples.v.

    ** Files

    - Prelude, GoInt, GoString, GoTime, Json, JsonParse, Base64, Sha256: the
      monad with its inversion tactics [run_step] and [run], sorting, and what
      the program uses of Go's standard library.
    - Problem, RequestCtx, Snowflake: [pkg/problem/problem.go],
      [pkg/requestctx/requestctx.go], [pkg/snowflake/snowflake.go].
    - CoreModel: rows and constants of [core/lot.go], [core/transaction.go],
      [core/types.go], [core/support.go].  AssetService:
      [core/asset_service.go], one definition per method ([Issue], [Transfer],
      [Freeze], [Redeem], [Restore], [Expire]), over the record
      [AssetIssuanceRepository] of repository operations, as the Go interface.
    - AssetLaws: the type class [LawfulRepository] of what a repository
      promises, the abstract ledger with its steps [ledger_step], and the
      invariant [ledger_ok].  AssetLedger: each operation, over any lawful
      repository, refines a ledger step; each step keeps the invariant; the
      invariant is what the auditor checks.
    - Database, Steps: the world, the statements, transactions, and the
      calculus of relations between the database before and after a run.
      AssetRepository: [core/asset_repository.go], an instance of
      [LawfulRepository].  AssetTheorems: the operations on the database.
    - Integrity, IntegrityScan, IntegrityTheorems: the lot phase, the cursor
      and the deduplication of [integrity/types.go] and [integrity/lot.go].
    - ExpiryWorker: [core/expiry_worker.go] and [core/expiry_repository.go].
    - Idempotency: [pkg/idempotency/idempotency.go].
    - Pagination: [pkg/pagination/pagination.go].
    - GiftModel, GiftDto, GiftRepository, GiftService, GiftList: [gift/model.go],
      [gift/dto.go] with [gift/support.go], [gift/repository.go],
      [gift/service.go], and its list with the list handler of
      [gift/handler.go].  A long Go method is split where it branches:
      [create_started], [issue_token], [claim_gift] and [restore_timeout] are
      the bodies the methods run once their guards have passed.
    - GiftSelection, GiftInvariant, GiftState, GiftRuns, GiftCalls: what a gift
      may look like in each of its states, and what each operation does to it.
      GiftTheorems, GiftSafety, GiftRetry, Paging: the theorems about it.

    - LedgerEntries: the entry an asset operation leaves in the ledger, shared
      by gifts and redemptions.
    - GoDate, RedemptionModel, FulfilmentTables: calendar dates; the rows of
      [redemption/model.go], [order/model.go] and [dispatch/model.go] a
      redemption uses, and their tables.  RedemptionSlot, RedemptionDto,
      RedemptionRepository: the slot rules of [redemption/service.go],
      [redemption/dto.go] with [redemption/support.go], and
      [redemption/repository.go] with [redemption/settlement_repository.go].
    - ScheduledDispatch: [redemption/ports.go], [redemption/dispatch.go] and
      [dispatch/scheduled_coordination.go].  RedemptionService:
      [redemption/service.go] and [redemption/service_core.go]; the transaction
      bodies of [Create] and [Cancel] are split into what they check
      ([plan_redemption], [plan_cancellation]) and what they write
      ([execute_redemption], [give_back], [close_redemption]).
      RedemptionSettlement: [redemption/settlement.go].
    - RedemptionBooks, RedemptionHold, RedemptionRuns, RedemptionCancel,
      RedemptionState: the books a redemption changes (slots, redemptions and
      allocations, stock, orders), what each operation does to them, and what a
      redemption may look like in each of its states.  The class [Confined]
      states what a dispatch coordinator promises.  RedemptionTheorems: the
      theorems.
    - AfterSaleReturn: [aftersale/system_wine_ticket_return.go] with the
      queries of [aftersale/repository.go] and the helpers of
      [aftersale/service.go] it uses.  ReturnSettlement:
      [redemption/return_settlement.go] and
      [redemption/return_settlement_repository.go], configured and in their own
      transaction.  ReturnRuns, ReturnTheorems: what they do to the books, and
      the theorems.
    - AssetKeeps, AssetFrame, SalesFrame, WineTickets: what the assets, the
      gifts and the purchases write and so leave alone ([AssetWrites],
      [GiftWrites], [SalesWrites]), and the parts together.
    - PurchaseModel, PurchaseTables: the rows of [purchase/model.go],
      [catalog/model.go], [auth/model.go] and of the payments of
      [order/model.go], and their tables with their constraints.  PurchaseDto,
      PurchaseRepository, PurchaseService: [purchase/dto.go] with the package
      snapshot and the decoding of policies ([core/policy.go]),
      [purchase/repository.go], and [purchase/service.go] with
      [purchase/service_core.go] and [purchase/support.go].  [CreatePurchase] is
      split where its transaction branches and ends ([start_purchase],
      [resume_purchase], [open_purchase], [finish_purchase]).
    - BusinessPayment: payments of a business other than an order, over a
      provider and the settlement of orders as parameters
      ([order/business_payment.go], [order/payment_settlement.go],
      [order/payment_provider.go], and the parts of [order/payment_state.go],
      [order/repository.go] and [order/expiry_worker.go] they use, with
      [pkg/paygateway/error.go]).  PurchaseSettlement:
      [purchase/payment_settlement.go], the handler [purchase_handler].
    - PurchaseBooks: the tables a purchase changes, as the record [Counter],
      their invariant [sales_ok] and the steps [sale_step].  PurchaseRuns,
      PurchaseFlow: what the settlement and the service do to them.
      PurchaseCalls: the payment service over any handler that is [Orderly],
      with the class [Beside] for what the provider and the settlement of orders
      promise.  PurchaseTheorems, PaymentTheorems, CheckoutTheorems: the
      theorems.

    ** What the theorems show

    - Assets (AssetTheorems, over AssetLedger): over every history of
      operations, failed ones included, the balance of a lot stays within its
      bounds, is the sum of its ledger entries, and the auditor finds nothing;
      each operation does exactly its step of the abstract ledger or replays
      the entry of its first run; a freeze or redemption decides as a reference
      verdict, error by error.
    - Gifts (GiftTheorems): over every history of calls, interleaved with
      anything that respects the ledger, each gift is in one of its four states
      with its row, allocations, tokens and ledger entries in agreement, and
      moves along its state machine only; [Create], [Claim] and [Cancel] do
      what their names say.  GiftSafety: tokens, the due batch, what a failure
      leaves, what a stranger can learn.  GiftRetry: a repeated call returns
      the first answer and changes nothing.  GiftSelection: the loop that
      chooses lots equals first-expiry-first selection.  Paging: the pages of
      the list cover it exactly once, and tokens carry their cursor.
    - Redemptions (RedemptionTheorems): over every history of calls and
      deliveries, interleaved with anything that respects the books, each
      redemption is in a state of its life with allocations and ledger entries
      that agree with it, and no slot holds more redemptions than places;
      [Create] and [Cancel] do what their names say and undo each other; a
      delivery fact is one step of the state machine, settled once however
      often it is told; what fails changes nothing.
    - Returns (ReturnTheorems): a redemption follows its state machine; an
      approved return opens one after-sale without money; received bottles are
      back in their lots, once for each return.  That a redemption has one
      return only is the delivery-return module's to ensure.
    - Purchases (PurchaseTheorems): over every history of purchases,
      confirmations, reports of the provider and reconciliations, interleaved
      with anything that leaves the sales alone, a purchase has a lot or a
      refund or neither as its status says, never both; the quota counts the
      packages of its purchases; a purchase moves along its state machine only.
      PaymentTheorems: each state the provider may report, what it does and
      what its failure leaves; a succeeded payment stays so.  CheckoutTheorems:
      exact totals, a row its table accepts, one purchase for one key.
    - The whole (WineTickets): a call of purchases, gifts, redemptions or the
      expiry worker is a step of the environment of the others, so their
      invariants hold together over every interleaving of calls.
    - Idempotency: the claim protocol decides as a reference verdict, a lease
      excludes other attempts, a completed request replays, a stale attempt is
      fenced off.
    - ExpiryWorker: a run expires exactly the due and unguarded batch.
    - IntegrityTheorems: the checks are exact for the laws they stand for, the
      cursor visits every phase, deduplication loses nothing.
    - Snowflake, GiftDto: identifiers strictly increase whatever the clock
      does; responses and tokens read back unchanged.

    ** Bounds and fuel

    Recursion in the source is over finite rows, so almost everything is
    structural.  Fuel appears in decimal printing (20 digits hold any 64-bit
    value), in UTF-8, SHA-256 and the string scanner (the length of the input),
    in the JSON parser (twice the length, proved enough for printed documents),
    and in the client that follows page tokens (one request more than there are
    rows, proved enough).  Bounds of the code that matter are hypotheses where
    a theorem needs them: request quantities are unsigned, clock readings are
    after 2024 and fit 41 bits of milliseconds for identifiers.  One run of the
    reconciliation of payments claims as many as the batch it is given.

    ** Not modelled

    - Concurrency of transactions: a transaction runs alone, which is what the
      row locks give the rows it uses.  What optimistic control the source has
      (updates guarded by version, leases, fencing) is in the queries and is
      modelled; [SKIP LOCKED] therefore skips nothing, and a failed COMMIT rolls
      back.  An UPDATE reports the rows it matched.
    - Column lengths, the precision of DATETIME columns and the collation of
      string comparison.
    - Loops that only repeat a modelled call on a ticker ([gift/worker.go],
      [integrity/worker.go]), HTTP binding, and [ApplyTimeIDCursor] of
      pagination, which parses a timestamp.
    - The planning of a delivery by dispatch ([EnsurePaidOrderTask]): it is the
      parameter [ensure] of [FulfillmentDispatch], of which the theorems assume
      that it writes deliveries and dispatch tasks only.  Of the rows of
      orders, deliveries, shops and products the columns the redemption reads
      or writes appear.
    - The delivery-return and after-sale modules around the return of a
      redemption: the return, its after-sale and its order reach the settlement
      as records, and of the after-sale module only what opens the case is here.
      Whether the parts of a settlement handler are configured.
    - The payment provider and the parser of URLs, which are third-party code,
      and the settlement of the payment of an order: parameters.  While they
      run the books may move by the steps of the program and in no other way
      ([Beside], [ProgramOk]); every handler registered for a business keeps
      the promise of [Orderly], which the handler of purchases is proved to
      keep.  Names of JSON members are compared exactly, and case is folded as
      ASCII.
    - Around a purchase: the callback that verifies a notification before it
      reaches [ApplyProviderPaymentState], the refund a customer asks for, and
      the execution of refunds.  In the histories of PurchaseTheorems the rest
      of the program takes the steps [apart], which issue no lot for a purchase
      and leave purchases, quotas and ticket refunds alone; a refund a customer
      asks for is not such a step.
    - The other phases of the auditor, and the modules around the wine tickets
      (renewal, refund, catalogue, orders, dispatch, stores): their rows appear
      as far as the modelled code reads them.  Renewal and refund, which use
      the same asset core and the same payments, would come next, then the
      orders. *)

From Stdlib Require Export ZArith Lia Sorted.
From stdpp Require Export base tactics decidable strings list sorting gmap.

#[global] Open Scope Z_scope.

(** ** Results: the (value, error) pair a Go function returns

    A Go function of the program returns either a value with a nil error or
    an error; the value beside a non-nil error is never read by a caller. *)

Inductive result (E A : Type) : Type :=
| Ok (a : A)
| Err (e : E).
Arguments Ok {E A} a.
Arguments Err {E A} e.

Definition is_ok {E A} (r : result E A) : bool :=
  match r with Ok _ => true | Err _ => false end.

(** ** The state-and-error monad of the services

    A computation reads and changes a world [W] and ends with a result.  An
    error does not undo the changes made before it: only the database
    transaction that encloses the computation does. *)

Definition M (W E A : Type) : Type := W -> result E A * W.

Section Monad.
Context {W E : Type}.

Definition ret {A} (a : A) : M W E A := fun w => (Ok a, w).

Definition throw {A} (e : E) : M W E A := fun w => (Err e, w).

Definition bind {A B} (m : M W E A) (f : A -> M W E B) : M W E B :=
  fun w => match m w with
           | (Ok a, w') => f a w'
           | (Err e, w') => (Err e, w')
           end.

(** [if cond { return err }] *)
Definition fail_if (c : bool) (e : E) : M W E unit :=
  if c then throw e else ret tt.

(** A call whose error the caller inspects before deciding what to do. *)
Definition attempt {A} (m : M W E A) : M W E (result E A) :=
  fun w => let '(r, w') := m w in (Ok r, w').

Definition lift {A} (r : result E A) : M W E A := fun w => (r, w).

(** [for _, x := range l { body }] with an early return on error. *)
Fixpoint for_each {A} (l : list A) (body : A -> M W E unit) : M W E unit :=
  match l with
  | [] => ret tt
  | x :: l' => bind (body x) (fun _ => for_each l' body)
  end.
End Monad.

Declare Scope go_scope.
Delimit Scope go_scope with go.
Notation "x <- m ;; k" := (bind m (fun x => k))
  (at level 60, m at next level, right associativity) : go_scope.
Notation "m ;;; k" := (bind m (fun _ => k))
  (at level 60, right associativity) : go_scope.

(** ** Inversion of successful runs

    The proofs about a handler run it backwards: a successful run of a
    composed computation splits into successful runs of its parts. *)

Section Inversion.
Context {W E : Type}.
Implicit Types w : W.

Lemma bind_ok_inv {A B} (m : M W E A) (f : A -> M W E B) w b w' :
  bind m f w = (Ok b, w') -> exists a w1, m w = (Ok a, w1) /\ f a w1 = (Ok b, w').
Proof.
  unfold bind. destruct (m w) as [[a|e] w1]; [eauto | discriminate].
Qed.

Lemma bind_ok {A B} (m : M W E A) (f : A -> M W E B) w a w1 :
  m w = (Ok a, w1) -> bind m f w = f a w1.
Proof. unfold bind. now intros ->. Qed.

Lemma bind_err {A B} (m : M W E A) (f : A -> M W E B) w e w1 :
  m w = (Err e, w1) -> bind m f w = (Err e, w1).
Proof. unfold bind. now intros ->. Qed.

Lemma ret_ok_inv {A} (a b : A) w w' :
  ret (E:=E) a w = (Ok b, w') -> b = a /\ w' = w.
Proof. unfold ret. intros H. now simplify_eq. Qed.

Lemma lift_ok_inv {A} (r : result E A) w b w' :
  lift r w = (Ok b, w') -> r = Ok b /\ w' = w.
Proof. unfold lift. intros H. now simplify_eq. Qed.

Lemma fail_if_ok_inv c (e : E) w u w' :
  fail_if c e w = (Ok u, w') -> c = false /\ w' = w.
Proof. destruct c; cbv; intros H; now simplify_eq. Qed.

Lemma run_ok {A} (m : M W E A) w a : (m w).1 = Ok a -> m w = (Ok a, (m w).2).
Proof. intros <-. apply surjective_pairing. Qed.

Lemma run_err {A} (m : M W E A) w e : (m w).1 = Err e -> m w = (Err e, (m w).2).
Proof. intros <-. apply surjective_pairing. Qed.

Lemma fail_if_false c (e : E) w : c = false -> fail_if c e w = (Ok tt, w).
Proof. now intros ->. Qed.

Lemma attempt_ok_inv {A} (m : M W E A) w r w' :
  attempt m w = (Ok r, w') -> m w = (r, w').
Proof. unfold attempt. destruct (m w). intros H. now simplify_eq. Qed.

Lemma throw_ok_inv {A} (e : E) w (b : A) w' : throw e w <> (Ok b, w').
Proof. discriminate. Qed.

Lemma for_each_ok_ind {A} (body : A -> M W E unit) (P : list A -> W -> Prop) :
  forall l w u w',
    for_each l body w = (Ok u, w') ->
    P l w ->
    (forall x l' w1 w2, body x w1 = (Ok tt, w2) -> P (x :: l') w1 -> P l' w2) ->
    P [] w'.
Proof.
  induction l as [|x l IH]; cbn; intros w u w' H HP Hstep.
  - apply ret_ok_inv in H as [-> ->]. exact HP.
  - apply bind_ok_inv in H as ([] & w1 & H1 & H2). eauto.
Qed.

(** A property of worlds that every step of a loop keeps is kept by it. *)
Lemma for_each_pres {A} (body : A -> M W E unit) (P : W -> Prop) l w u w' :
  for_each l body w = (Ok u, w') -> P w ->
  (forall x w1 w2, x ∈ l -> body x w1 = (Ok tt, w2) -> P w1 -> P w2) -> P w'.
Proof.
  revert w. induction l as [|x l IH]; cbn; intros w H HP Hstep.
  - apply ret_ok_inv in H as [-> ->]. exact HP.
  - apply bind_ok_inv in H as ([] & w1 & H1 & H2).
    apply (IH w1); eauto using list_elem_of_here, list_elem_of_further.
Qed.
End Inversion.

(** [run_step H] takes one step of a successful run [H : c w = (Ok b, w')]. *)
Ltac run_step H :=
  lazymatch type of H with
  | bind ?m ?f ?w = (Ok ?b, ?w') =>
      let a := fresh "a" in let w1 := fresh "w" in let H1 := fresh "R" in
      apply bind_ok_inv in H as (a & w1 & H1 & H); cbv beta in H;
      try (lazymatch type of a with unit => destruct a end);
      try run_atom H1
  | _ => run_atom H
  end
with run_atom H :=
  lazymatch type of H with
  | ret ?a ?w = (Ok ?b, ?w') =>
      let e := fresh "E" in apply ret_ok_inv in H as [e H]; try subst
  | lift _ _ = (Ok _, _) =>
      let e := fresh "E" in apply lift_ok_inv in H as [e H]; try subst
  | fail_if ?c ?e ?w = (Ok ?b, ?w') =>
      let g := fresh "G" in apply fail_if_ok_inv in H as [g H]; try subst
  | attempt _ _ = (Ok _, _) => apply attempt_ok_inv in H
  | throw _ _ = (Ok _, _) => now apply throw_ok_inv in H
  | (Err _, _) = (Ok _, _) => discriminate H
  | (Ok _, _) = (Ok _, _) => simplify_eq H
  end.

(** [run H] repeats [run_step] and splits the branches it meets. *)
Ltac run_case H :=
  lazymatch type of H with
  | (if ?c then _ else _) ?w = (Ok _, _) =>
      let e := fresh "B" in destruct c eqn:e
  | match ?c with _ => _ end ?w = (Ok _, _) =>
      let e := fresh "B" in destruct c eqn:e
  end.

Ltac run H := repeat (first [run_step H | run_case H]).

(** ** Sorting: [ORDER BY] and [sort.Slice] *)

Definition sort_by {A} (le : A -> A -> bool) (l : list A) : list A :=
  merge_sort (fun a b => Is_true (le a b)) l.

(** [ORDER BY k1, k2, ...] *)
Fixpoint by_keys {A} (ks : list (A -> Z)) (a b : A) : bool :=
  match ks with
  | [] => true
  | k :: ks' => (k a <? k b) || ((k a =? k b) && by_keys ks' a b)
  end.

Lemma StronglySorted_weaken {A} (R1 R2 : A -> A -> Prop) l :
  (forall a b, R1 a b -> R2 a b) -> StronglySorted R1 l -> StronglySorted R2 l.
Proof. intros Hw. induction 1; constructor; auto. eapply Forall_impl; eauto. Qed.

Lemma StronglySorted_filter {A} (R : A -> A -> Prop) (f : A -> bool) l :
  StronglySorted R l -> StronglySorted R (List.filter f l).
Proof.
  induction 1 as [|x l Hs IH Hx]; simpl; [constructor|]. destruct (f x); [|done].
  constructor; [done|]. rewrite Forall_forall in Hx |- *. intros y Hy.
  apply Hx. apply list_elem_of_In, filter_In in Hy as [Hy _]. by apply list_elem_of_In.
Qed.

(** Sortedness, checked. *)
Fixpoint pairwise {A} (f : A -> A -> bool) (l : list A) : bool :=
  match l with
  | [] => true
  | x :: l' => forallb (f x) l' && pairwise f l'
  end.

Lemma pairwise_sorted {A} (f : A -> A -> bool) l :
  pairwise f l = true -> StronglySorted (fun a b => f a b = true) l.
Proof.
  induction l as [|x l IH]; simpl; [constructor|]. rewrite andb_true_iff, forallb_forall.
  intros [Hx Hl]. constructor; [auto|]. apply Forall_forall. intros y Hy.
  by apply Hx, list_elem_of_In.
Qed.

Lemma sort_by_perm {A} (le : A -> A -> bool) l : sort_by le l ≡ₚ l.
Proof. apply merge_sort_Permutation. Qed.

Lemma elem_of_sort_by {A} (le : A -> A -> bool) l x : x ∈ sort_by le l <-> x ∈ l.
Proof. by rewrite sort_by_perm. Qed.

Section Sorting.
Context {A : Type} (ks : list (A -> Z)).

Lemma by_keys_total a b : by_keys ks a b = true \/ by_keys ks b a = true.
Proof.
  induction ks as [|k l IH]; simpl; [auto|].
  rewrite !orb_true_iff, !andb_true_iff, !Z.ltb_lt, !Z.eqb_eq.
  destruct (Z.lt_total (k a) (k b)) as [|[|]]; destruct IH; auto.
Qed.

Lemma by_keys_trans a b c :
  by_keys ks a b = true -> by_keys ks b c = true -> by_keys ks a c = true.
Proof.
  induction ks as [|k l IH]; simpl; [auto|].
  rewrite !orb_true_iff, !andb_true_iff, !Z.ltb_lt, !Z.eqb_eq. intuition lia.
Qed.

#[local] Instance by_keys_Total : Total (fun a b => Is_true (by_keys ks a b)).
Proof. intros a b. rewrite !Is_true_true. apply by_keys_total. Qed.

#[local] Instance by_keys_Transitive : Transitive (fun a b => Is_true (by_keys ks a b)).
Proof. intros a b c. rewrite !Is_true_true. apply by_keys_trans. Qed.

Lemma sort_by_sorted l :
  StronglySorted (fun a b => by_keys ks a b = true) (sort_by (by_keys ks) l).
Proof.
  apply (StronglySorted_weaken (fun a b => Is_true (by_keys ks a b))).
  - intros a b. by rewrite Is_true_true.
  - apply (StronglySorted_merge_sort _).
Qed.

(** A list in strictly increasing order is the only sorted arrangement of
    its elements. *)
Lemma strictly_sorted_unique l1 l2 :
  StronglySorted (fun a b => by_keys ks a b = true) l1 ->
  StronglySorted (fun a b => by_keys ks b a = false) l2 -> l1 ≡ₚ l2 -> l1 = l2.
Proof.
  intros Hs1 Hs2 Hp. apply (StronglySorted_unique_strong (fun a b => by_keys ks a b = true)); auto.
  - intros x y Hx Hy H1 H2. rewrite Hp in Hx. clear - Hs2 Hx Hy H1 H2.
    induction Hs2 as [|z l Hs IH Hz]; [by apply not_elem_of_nil in Hx|].
    rewrite Forall_forall in Hz.
    apply elem_of_cons in Hx as [->|Hx]; apply elem_of_cons in Hy as [->|Hy]; auto.
    + apply Hz in Hy. congruence.
    + apply Hz in Hx. congruence.
  - eapply StronglySorted_weaken; [|exact Hs2]. simpl. intros a b Hab.
    destruct (by_keys_total a b); congruence.
Qed.
End Sorting.

(** ** Sums *)

Definition sum_Z (l : list Z) : Z := foldr Z.add 0 l.

Lemma sum_Z_app l1 l2 : sum_Z (l1 ++ l2) = sum_Z l1 + sum_Z l2.
Proof. unfold sum_Z. induction l1 as [|x l1 IH]; simpl; [done|]. rewrite IH. lia. Qed.

Lemma sum_Z_nonneg l : Forall (fun x => 0 <= x) l -> 0 <= sum_Z l.
Proof. unfold sum_Z. induction 1; simpl; lia. Qed.

(** ** [find] in changed lists *)

Lemma find_map_same {A} (p : A -> bool) (g : A -> A) l :
  (forall x, p (g x) = p x) -> find p (map g l) = g <$> find p l.
Proof.
  intros Hg. induction l as [|x l IH]; simpl; [done|]. rewrite Hg. by destruct (p x).
Qed.

Lemma find_app_one {A} (p : A -> bool) l x :
  find p (l ++ [x]) = match find p l with
                      | Some y => Some y
                      | None => if p x then Some x else None
                      end.
Proof. induction l as [|y l IH]; simpl; [done|]. by destruct (p y). Qed.

Lemma filter_none_in {A} (f : A -> bool) l : (forall x, x ∈ l -> f x = false) -> List.filter f l = [].
Proof.
  induction l as [|x l IH]; simpl; intros H; [done|]. rewrite H by by left.
  apply IH. intros y Hy. apply H. by right.
Qed.

Lemma NoDup_map_inj {A B} (f : A -> B) (l : list A) x y :
  NoDup (map f l) -> x ∈ l -> y ∈ l -> f x = f y -> x = y.
Proof.
  induction l as [|a l IH]; simpl; intros Hnd Hx Hy E; [by apply not_elem_of_nil in Hx|].
  apply NoDup_cons in Hnd as [Ha Hnd].
  assert (Hin : forall z, z ∈ l -> f z ∈ map f l).
  { intros z Hz. apply list_elem_of_In, in_map, list_elem_of_In, Hz. }
  apply elem_of_cons in Hx as [->|Hx]; apply elem_of_cons in Hy as [->|Hy]; auto.
  - exfalso. apply Ha. rewrite E. auto.
  - exfalso. apply Ha. rewrite <- E. auto.
Qed.
