(* ===== verification/GoInt.v ===== *)
(** * Machine integers of Go

    [uint] and [uint64] are 64 bits wide on the platforms the program is built
    for; [int] and [int64] are 64-bit two's complement.  A value of such a type
    is a [Z]; every operation that can leave the range wraps as Go's does.
    [INT UNSIGNED] and [INT] are the 32-bit column types of the tables. *)

From S2P Require Import Prelude.

Definition u64_mod : Z := 2 ^ 64.
Definition i64_half : Z := 2 ^ 63.

(** Conversion to [uint64], and the result of an unsigned operation. *)
Definition u64 (z : Z) : Z := z mod u64_mod.

(** Conversion to [int64], and the result of a signed operation. *)
Definition i64 (z : Z) : Z := (z + i64_half) mod u64_mod - i64_half.

Definition uint_add (a b : Z) : Z := u64 (a + b).
Definition uint_sub (a b : Z) : Z := u64 (a - b).
Definition int_add (a b : Z) : Z := i64 (a + b).
Definition int_neg (a : Z) : Z := i64 (- a).

(** [^uint(0)] *)
Definition max_uint : Z := u64_mod - 1.

Definition in_u64 (z : Z) : Prop := 0 <= z < u64_mod.
Definition in_i64 (z : Z) : Prop := - i64_half <= z < i64_half.

(** The column types: a value out of range is refused by the strict SQL mode. *)
Definition fits_uint32 (z : Z) : bool := (0 <=? z) && (z <? 2 ^ 32).
Definition fits_int32 (z : Z) : bool := (- 2 ^ 31 <=? z) && (z <? 2 ^ 31).

Lemma u64_small z : in_u64 z -> u64 z = z.
Proof. intros H. apply Z.mod_small. exact H. Qed.

Lemma i64_small z : in_i64 z -> i64 z = z.
Proof.
  unfold in_i64, i64, u64_mod, i64_half. intros H.
  rewrite Z.mod_small; lia.
Qed.

Lemma u64_range z : in_u64 (u64 z).
Proof. apply Z.mod_pos_bound. reflexivity. Qed.

Lemma i64_range z : in_i64 (i64 z).
Proof.
  unfold in_i64, i64. pose proof (Z.mod_pos_bound (z + i64_half) u64_mod eq_refl).
  unfold u64_mod, i64_half in *. lia.
Qed.

Lemma uint_add_small a b : in_u64 (a + b) -> uint_add a b = a + b.
Proof. apply u64_small. Qed.

Lemma uint_sub_small a b : in_u64 (a - b) -> uint_sub a b = a - b.
Proof. apply u64_small. Qed.

Lemma int_add_small a b : in_i64 (a + b) -> int_add a b = a + b.
Proof. apply i64_small. Qed.

Lemma int_neg_small a : in_i64 (- a) -> int_neg a = - a.
Proof. apply i64_small. Qed.

Lemma fits_uint32_spec z : fits_uint32 z = true <-> 0 <= z < 2 ^ 32.
Proof. unfold fits_uint32. lia. Qed.

Lemma fits_int32_spec z : fits_int32 z = true <-> - 2 ^ 31 <= z < 2 ^ 31.
Proof. unfold fits_int32. lia. Qed.

Create Rewrite HintDb go_int.
#[export] Hint Rewrite fits_uint32_spec fits_int32_spec : go_int.

(** Bounds goals about machine integers, with the ranges spelled out. *)
Ltac int_range :=
  unfold in_u64, in_i64, max_uint, u64_mod, i64_half in *; lia.
