(* ===== verification/GoString.v ===== *)
(** * The parts of Go's [strings], [strconv] and [unicode/utf8] the program uses

    A Go string is its sequence of bytes, a Stdlib [string]. *)

From S2P Require Import Prelude GoInt.
From Stdlib Require Import Ascii String.
#[local] Open Scope string_scope. #[local] Open Scope list_scope. #[local] Open Scope Z_scope.

Definition byte_val (c : ascii) : Z := Z.of_N (N_of_ascii c).
Definition val_byte (z : Z) : ascii := ascii_of_N (Z.to_N z).

Definition str_len (s : string) : Z := Z.of_nat (String.length s).

Definition bytes_of (s : string) : list Z := map byte_val (list_ascii_of_string s).
Definition of_bytes (l : list Z) : string := string_of_list_ascii (map val_byte l).

(** ** Decimal numbers: [strconv.FormatUint(v, 10)], [%d], [strconv.ParseUint] *)

(** The decimal digits of [z], most significant first; [fuel] bounds their
    number, and 20 digits are enough for any 64-bit value. *)
Fixpoint dec_digits (fuel : nat) (z : Z) (acc : string) : string :=
  match fuel with
  | O => acc
  | S fuel' =>
      let acc' := String (val_byte (48 + z mod 10)) acc in
      if z / 10 =? 0 then acc' else dec_digits fuel' (z / 10) acc'
  end.

Definition format_uint (z : Z) : string := dec_digits 20 z "".

Definition format_int (z : Z) : string :=
  if z <? 0 then "-" +:+ format_uint (- z) else format_uint z.

Fixpoint parse_digits (s : string) (acc : Z) : option Z :=
  match s with
  | EmptyString => Some acc
  | String c s' =>
      let d := byte_val c - 48 in
      if (0 <=? d) && (d <=? 9) then parse_digits s' (acc * 10 + d) else None
  end.

(** [strconv.ParseUint(s, 10, 64)]: [None] for a syntax or a range error. *)
Definition parse_uint (s : string) : option Z :=
  match s with
  | EmptyString => None
  | _ => match parse_digits s 0 with
         | Some v => if v <=? max_uint then Some v else None
         | None => None
         end
  end.

(** ** UTF-8 *)

(** One rune of a byte sequence: its value, its length, and whether the
    encoding is valid; an invalid byte decodes as U+FFFD of length one
    ([utf8.DecodeRuneInString]). *)
Definition decode_rune (l : list Z) : Z * nat * bool :=
  let cont b := (128 <=? b) && (b <=? 191) in
  let bad := (65533, 1%nat, false) in
  match l with
  | [] => (65533, 0%nat, false)
  | b0 :: r =>
      if b0 <? 128 then (b0, 1%nat, true)
      else if (194 <=? b0) && (b0 <=? 223) then
        match r with
        | b1 :: _ =>
            if cont b1 then ((b0 - 192) * 64 + (b1 - 128), 2%nat, true) else bad
        | _ => bad
        end
      else if (224 <=? b0) && (b0 <=? 239) then
        match r with
        | b1 :: b2 :: _ =>
            let lo := if b0 =? 224 then 160 else 128 in
            let hi := if b0 =? 237 then 159 else 191 in
            if (lo <=? b1) && (b1 <=? hi) && cont b2 then
              ((b0 - 224) * 4096 + (b1 - 128) * 64 + (b2 - 128), 3%nat, true)
            else bad
        | _ => bad
        end
      else if (240 <=? b0) && (b0 <=? 244) then
        match r with
        | b1 :: b2 :: b3 :: _ =>
            let lo := if b0 =? 240 then 144 else 128 in
            let hi := if b0 =? 244 then 143 else 191 in
            if (lo <=? b1) && (b1 <=? hi) && cont b2 && cont b3 then
              ((b0 - 240) * 262144 + (b1 - 128) * 4096 + (b2 - 128) * 64 + (b3 - 128),
               4%nat, true)
            else bad
        | _ => bad
        end
      else bad
  end.

(** The runes of a string, each with its bytes; the number of bytes bounds the
    number of runes, so it is the fuel. *)
Fixpoint runes_aux (fuel : nat) (l : list Z) : list (Z * bool * list Z) :=
  match fuel, l with
  | S fuel', _ :: _ =>
      let '(r, n, ok) := decode_rune l in
      (r, ok, take n l) :: runes_aux fuel' (drop n l)
  | _, _ => []
  end.

Definition runes (s : string) : list (Z * bool * list Z) :=
  runes_aux (String.length s) (bytes_of s).

(** [utf8.ValidString] *)
Definition valid_utf8 (s : string) : bool := forallb (fun r => r.1.2) (runes s).

(** [utf8.RuneCountInString] *)
Definition rune_count (s : string) : Z := Z.of_nat (List.length (runes s)).

(** [unicode.IsSpace] *)
Definition is_space (r : Z) : bool :=
  ((9 <=? r) && (r <=? 13)) || (r =? 32) || (r =? 133) || (r =? 160) || (r =? 5760) ||
  ((8192 <=? r) && (r <=? 8202)) || (r =? 8232) || (r =? 8233) || (r =? 8239) ||
  (r =? 8287) || (r =? 12288).

Fixpoint drop_space (l : list (Z * bool * list Z)) : list (Z * bool * list Z) :=
  match l with
  | [] => []
  | r :: l' => if is_space r.1.1 then drop_space l' else l
  end.

Definition bytes_of_runes (l : list (Z * bool * list Z)) : list Z :=
  List.concat (map snd l).

(** [strings.TrimSpace] *)
Definition trim_space (s : string) : string :=
  of_bytes (bytes_of_runes (rev (drop_space (rev (drop_space (runes s)))))).

(** ** Searching and case *)

(** [strings.HasPrefix] *)
Fixpoint has_prefix (s p : string) : bool :=
  match p, s with
  | EmptyString, _ => true
  | String c p', String d s' => Ascii.eqb c d && has_prefix s' p'
  | _, _ => false
  end.

(** [strings.Contains] *)
Fixpoint contains (s sub : string) : bool :=
  has_prefix s sub ||
  match s with
  | EmptyString => false
  | String _ s' => contains s' sub
  end.

Definition lower_byte (c : ascii) : ascii :=
  let b := byte_val c in
  if (65 <=? b) && (b <=? 90) then val_byte (b + 32) else c.

(** [strings.ToLower] on ASCII letters; other runes are left as they are. *)
Fixpoint to_lower (s : string) : string :=
  match s with
  | EmptyString => EmptyString
  | String c s' => String (lower_byte c) (to_lower s')
  end.

(** [encoding/hex.EncodeToString] *)
Definition hex_digit (d : Z) : ascii := val_byte (if d <? 10 then 48 + d else 87 + d).

Definition hex_encode (l : list Z) : string :=
  string_of_list_ascii
    (List.concat (map (fun b => [hex_digit (b / 16); hex_digit (b mod 16)]) l)).

(** ** Facts *)

Lemma byte_val_range c : 0 <= byte_val c < 256.
Proof. unfold byte_val. pose proof (N_ascii_bounded c). lia. Qed.

Lemma val_byte_val c : val_byte (byte_val c) = c.
Proof. unfold val_byte, byte_val. rewrite N2Z.id. apply ascii_N_embedding. Qed.

Lemma byte_val_byte z : 0 <= z < 256 -> byte_val (val_byte z) = z.
Proof.
  intros H. unfold val_byte, byte_val. rewrite N_ascii_embedding; lia.
Qed.

Lemma bytes_of_of_bytes l :
  Forall (fun b => 0 <= b < 256) l -> bytes_of (of_bytes l) = l.
Proof.
  unfold bytes_of, of_bytes. rewrite list_ascii_of_string_of_list_ascii, map_map.
  induction 1 as [|b l Hb _ IH]; [done|]. simpl. now rewrite byte_val_byte, IH.
Qed.

Lemma of_bytes_of s : of_bytes (bytes_of s) = s.
Proof.
  unfold bytes_of, of_bytes. rewrite map_map.
  rewrite (map_ext _ id) by apply val_byte_val.
  rewrite map_id. apply string_of_list_ascii_of_string.
Qed.

Lemma bytes_of_length s : List.length (bytes_of s) = String.length s.
Proof.
  unfold bytes_of. rewrite length_map.
  induction s as [|c s IH]; [done|]. simpl. now rewrite IH.
Qed.

Lemma of_bytes_length l : String.length (of_bytes l) = List.length l.
Proof.
  unfold of_bytes. induction l as [|b l IH]; [done|]. simpl. now rewrite IH.
Qed.

Lemma str_cons_app c (s t : string) : String c s +:+ t = String c (s +:+ t).
Proof. reflexivity. Qed.

Lemma str_app_nil_r s : s +:+ "" = s.
Proof. induction s as [|c s IH]; [reflexivity|]. now rewrite str_cons_app, IH. Qed.

Lemma str_len_app (s t : string) :
  String.length (s +:+ t) = (String.length s + String.length t)%nat.
Proof.
  induction s as [|c s IH]; [reflexivity|]. rewrite str_cons_app. simpl. now rewrite IH.
Qed.

Lemma str_app_assoc (a b c : string) : (a +:+ b) +:+ c = a +:+ (b +:+ c).
Proof. induction a as [|x a IH]; [reflexivity|]. now rewrite !str_cons_app, IH. Qed.

Lemma digit_byte d : 0 <= d <= 9 -> byte_val (val_byte (48 + d)) = 48 + d.
Proof. intros H. apply byte_val_byte. lia. Qed.

Lemma dec_digits_app fuel : forall z s,
  dec_digits fuel z s = dec_digits fuel z "" +:+ s.
Proof.
  induction fuel as [|fuel IH]; intros z s; [reflexivity|]. simpl.
  destruct (z / 10 =? 0); [reflexivity|].
  rewrite IH, (IH _ (String _ "")), str_app_assoc, str_cons_app.
  reflexivity.
Qed.

Lemma parse_dec_digits fuel : forall z s acc,
  0 <= z < 10 ^ Z.of_nat fuel ->
  parse_digits (dec_digits fuel z s) acc =
  parse_digits s (acc * 10 ^ Z.of_nat (String.length (dec_digits fuel z "")) + z).
Proof.
  induction fuel as [|fuel IH]; intros z s acc Hz.
  - simpl in *. f_equal. lia.
  - pose proof (Z.mod_pos_bound z 10 eq_refl) as Hm.
    pose proof (Z.div_mod z 10 ltac:(lia)) as Hd.
    simpl dec_digits. destruct (Z.eqb_spec (z / 10) 0) as [E|E].
    + simpl. rewrite digit_byte by lia.
      replace (48 + z mod 10 - 48) with (z mod 10) by lia.
      replace ((0 <=? z mod 10) && (z mod 10 <=? 9)) with true by lia.
      f_equal. lia.
    + assert (Hq : 0 <= z / 10 < 10 ^ Z.of_nat fuel).
      { split; [apply Z.div_pos; lia|]. apply Z.div_lt_upper_bound; [lia|].
        rewrite Nat2Z.inj_succ, Z.pow_succ_r in Hz; lia. }
      rewrite (IH _ _ _ Hq). simpl. rewrite digit_byte by lia.
      replace (48 + z mod 10 - 48) with (z mod 10) by lia.
      replace ((0 <=? z mod 10) && (z mod 10 <=? 9)) with true by lia.
      f_equal. rewrite (dec_digits_app _ _ (String _ "")).
      rewrite str_len_app. simpl String.length.
      rewrite Nat2Z.inj_add, Z.pow_add_r by lia. simpl (10 ^ Z.of_nat 1). lia.
Qed.

Lemma parse_digits_nil acc : parse_digits "" acc = Some acc.
Proof. reflexivity. Qed.

Lemma dec_digits_nonempty fuel z s : dec_digits (S fuel) z s <> "".
Proof.
  assert (H : forall f y c t, dec_digits f y (String c t) <> "").
  { induction f as [|f IH]; intros y c t; simpl; [done|].
    destruct (_ =? _); [done | apply IH]. }
  simpl. destruct (_ =? _); [done | apply H].
Qed.

(** A 64-bit identifier written in decimal reads back as itself. *)
Lemma parse_format_uint z : in_u64 z -> parse_uint (format_uint z) = Some z.
Proof.
  intros Hz. unfold parse_uint, format_uint.
  destruct (dec_digits 20 z "") as [|c s] eqn:E.
  - now apply dec_digits_nonempty in E.
  - rewrite <- E, parse_dec_digits by (split; int_range).
    rewrite parse_digits_nil, Z.mul_0_l, Z.add_0_l.
    replace (z <=? max_uint) with true by int_range. done.
Qed.

Lemma format_uint_inj a b : in_u64 a -> in_u64 b -> format_uint a = format_uint b -> a = b.
Proof.
  intros Ha Hb H. apply (f_equal parse_uint) in H.
  rewrite !parse_format_uint in H by done. congruence.
Qed.
