(* ===== verification/GoTime.v ===== *)
(** * [time.Time] as the program uses it

    A [time] is an instant in nanoseconds since the Unix epoch.  The location a
    Go [time.Time] also carries changes only how it prints; the program prints
    every time it exposes through [FormatShanghai], so [In] is the identity
    here and the zone is fixed in [format_shanghai]. *)

From S2P Require Import Prelude GoInt GoString.
From Stdlib Require Import String.
#[local] Open Scope string_scope. #[local] Open Scope list_scope. #[local] Open Scope Z_scope.

Definition time : Type := Z.

Definition nanosecond : Z := 1.
Definition millisecond : Z := 1000000.
Definition second : Z := 1000000000.
Definition hour : Z := 3600 * second.

(** January 1, year 1, 00:00:00 UTC. *)
Definition zero_time : time := - 62135596800 * second.

Definition is_zero (t : time) : bool := t =? zero_time.
Definition before (t u : time) : bool := t <? u.
Definition after (t u : time) : bool := u <? t.
Definition time_equal (t u : time) : bool := t =? u.
Definition add_duration (t d : Z) : time := t + d.
Definition unix_milli (t : time) : Z := t / millisecond.

(** [Truncate(time.Millisecond)] *)
Definition truncate_ms (t : time) : time := t - t mod millisecond.

Definition shanghai_offset : Z := 8 * 3600.

(** ** Printing: [In(ShanghaiLocation).Format(time.RFC3339Nano)] *)

(** Year, month and day of a number of days since the Unix epoch in the
    proleptic Gregorian calendar. *)
Definition civil_of_days (days : Z) : Z * Z * Z :=
  let z := days + 719468 in
  let era := z / 146097 in
  let doe := z mod 146097 in
  let yoe := (doe - doe / 1460 + doe / 36524 - doe / 146096) / 365 in
  let doy := doe - (365 * yoe + yoe / 4 - yoe / 100) in
  let mp := (5 * doy + 2) / 153 in
  let d := doy - (153 * mp + 2) / 5 + 1 in
  let m := if mp <? 10 then mp + 3 else mp - 9 in
  (yoe + era * 400 + (if m <=? 2 then 1 else 0), m, d).

(** [%0nd] for a non-negative number. *)
Definition pad (n : nat) (z : Z) : string :=
  let s := format_uint z in
  Nat.iter (n - String.length s) (fun t => "0" +:+ t) s.

(** The digits of a fraction without its trailing zeros. *)
Fixpoint trim_zeros (fuel : nat) (digits : nat) (z : Z) : string :=
  match fuel with
  | O => ""
  | S fuel' =>
      if z =? 0 then ""
      else if z mod 10 =? 0 then trim_zeros fuel' (digits - 1) (z / 10)
      else "." +:+ pad digits z
  end.

Definition format_shanghai (t : time) : string :=
  let secs := t / second + shanghai_offset in
  let frac := t mod second in
  let '(y, m, d) := civil_of_days (secs / 86400) in
  let sod := secs mod 86400 in
  pad 4 y +:+ "-" +:+ pad 2 m +:+ "-" +:+ pad 2 d +:+ "T" +:+
  pad 2 (sod / 3600) +:+ ":" +:+ pad 2 (sod / 60 mod 60) +:+ ":" +:+ pad 2 (sod mod 60) +:+
  trim_zeros 10 9 frac +:+ "+08:00".

(** ** Facts *)

Lemma truncate_ms_le t : truncate_ms t <= t.
Proof. unfold truncate_ms, millisecond. pose proof (Z.mod_pos_bound t 1000000 eq_refl). lia. Qed.

Lemma truncate_ms_idemp t : truncate_ms (truncate_ms t) = truncate_ms t.
Proof.
  unfold truncate_ms. replace ((t - t mod millisecond) mod millisecond) with 0; [lia|].
  symmetry. rewrite Zminus_mod_idemp_r, Z.sub_diag. reflexivity.
Qed.

Lemma truncate_ms_mono t u : t <= u -> truncate_ms t <= truncate_ms u.
Proof.
  intros H. unfold truncate_ms, millisecond.
  pose proof (Z.div_mod t 1000000 ltac:(lia)).
  pose proof (Z.div_mod u 1000000 ltac:(lia)).
  pose proof (Z.div_le_mono t u 1000000 ltac:(lia) H). lia.
Qed.

(** A deadline that is itself on a millisecond is passed by a clock reading
    exactly when it is passed by the reading's millisecond. *)
Lemma truncate_ms_deadline t d : d mod millisecond = 0 -> d <= truncate_ms t <-> d <= t.
Proof.
  intros H. unfold truncate_ms, millisecond in *.
  pose proof (Z.mod_pos_bound t 1000000 eq_refl).
  pose proof (Z.div_mod t 1000000 ltac:(lia)).
  pose proof (Z.div_mod d 1000000 ltac:(lia)). nia.
Qed.
