(* ===== verification/GoDate.v ===== *)
(** * Calendar dates and SQL clocks in the zone of Shanghai

    [ShanghaiLocation] is a fixed zone, so a day there is 86400 seconds and a
    date is the number of its day since 1970-01-01. *)

From S2P Require Import Prelude GoInt GoString GoTime.
From Stdlib Require Import String.
#[local] Open Scope string_scope. #[local] Open Scope list_scope. #[local] Open Scope Z_scope.

Definition day_seconds : Z := 86400.

(** The date of an instant, and the instant its day begins. *)
Definition shanghai_day (t : time) : Z := (t / second + shanghai_offset) / day_seconds.

Definition shanghai_instant (day seconds : Z) : time :=
  (day * day_seconds + seconds - shanghai_offset) * second.

Definition leap_year (y : Z) : bool :=
  (y mod 4 =? 0) && (negb (y mod 100 =? 0) || (y mod 400 =? 0)).

Definition days_in_month (y m : Z) : Z :=
  if m =? 2 then (if leap_year y then 29 else 28)
  else if (m =? 4) || (m =? 6) || (m =? 9) || (m =? 11) then 30 else 31.

(** The number of days from 1970-01-01 to a date of the proleptic Gregorian
    calendar. *)
Definition days_of_civil (y m d : Z) : Z :=
  let y' := if m <=? 2 then y - 1 else y in
  let era := y' / 400 in
  let yoe := y' mod 400 in
  let mp := if 2 <? m then m - 3 else m + 9 in
  let doy := (153 * mp + 2) / 5 + d - 1 in
  era * 146097 + (yoe * 365 + yoe / 4 - yoe / 100 + doy) - 719468.

(** The value of [n] digits, [None] when one is not a digit. *)
Definition digits_value (s : string) : option Z :=
  match s with EmptyString => None | _ => parse_digits s 0 end.

(** [time.ParseInLocation("2006-01-02", s, shanghaiLocation)]: the day. *)
Definition parse_date (s : string) : option Z :=
  if negb (Nat.eqb (String.length s) 10) || negb (String.eqb (String.substring 4 1 s) "-") ||
     negb (String.eqb (String.substring 7 1 s) "-")
  then None
  else
    y ← digits_value (String.substring 0 4 s);
    m ← digits_value (String.substring 5 2 s);
    d ← digits_value (String.substring 8 2 s);
    if (1 <=? m) && (m <=? 12) && (1 <=? d) && (d <=? days_in_month y m)
    then Some (days_of_civil y m d) else None.

(** [time.Parse("15:04:05", s)] of eight bytes: the seconds since midnight.  A
    text of that length has two digits for the hour, because what follows a
    one-digit hour would be a byte too many. *)
Definition parse_clock (s : string) : option Z :=
  if negb (Nat.eqb (String.length s) 8) || negb (String.eqb (String.substring 2 1 s) ":") ||
     negb (String.eqb (String.substring 5 1 s) ":")
  then None
  else
    h ← digits_value (String.substring 0 2 s);
    m ← digits_value (String.substring 3 2 s);
    sec ← digits_value (String.substring 6 2 s);
    if (h <? 24) && (m <? 60) && (sec <? 60) then Some (h * 3600 + m * 60 + sec) else None.

(** ** Facts *)

Lemma parse_digits_nonneg s : forall acc v, 0 <= acc -> parse_digits s acc = Some v -> 0 <= v.
Proof.
  induction s as [|c s IH]; simpl; intros acc v Ha H; [simplify_eq; done|].
  destruct (_ && _) eqn:E in H; [|discriminate]. apply IH in H; lia.
Qed.

Lemma digits_value_nonneg s v : digits_value s = Some v -> 0 <= v.
Proof. destruct s; [discriminate|]. by apply parse_digits_nonneg. Qed.

(** A clock is within its day. *)
Lemma parse_clock_range s v : parse_clock s = Some v -> 0 <= v < day_seconds.
Proof.
  unfold parse_clock. destruct (_ || _); [discriminate|]. intros H.
  destruct (digits_value (String.substring 0 2 s)) as [h|] eqn:Eh; [|discriminate].
  destruct (digits_value (String.substring 3 2 s)) as [m|] eqn:Em; [|discriminate].
  destruct (digits_value (String.substring 6 2 s)) as [k|] eqn:Ek; [|discriminate].
  simpl in H. destruct (_ && _) eqn:E; [|discriminate]. simplify_eq.
  apply digits_value_nonneg in Eh, Em, Ek. unfold day_seconds. lia.
Qed.

(** An instant of a day is on that day, and on a whole second. *)
Lemma shanghai_day_instant day s : 0 <= s < day_seconds -> shanghai_day (shanghai_instant day s) = day.
Proof.
  intros H. unfold shanghai_day, shanghai_instant, second, day_seconds in *.
  rewrite Z.div_mul by lia. replace (_ - shanghai_offset + shanghai_offset) with (s + day * 86400) by lia.
  rewrite Z.div_add by lia. rewrite Z.div_small by lia. lia.
Qed.

Lemma shanghai_instant_ms day s : truncate_ms (shanghai_instant day s) = shanghai_instant day s.
Proof.
  unfold truncate_ms, shanghai_instant, second, millisecond.
  set (k := day * day_seconds + s - shanghai_offset).
  replace (k * 1000000000) with (k * 1000 * 1000000) by lia. rewrite Z.mod_mul; lia.
Qed.

Example parse_date_epoch : parse_date "1970-01-01" = Some 0.
Proof. reflexivity. Qed.

Example parse_date_leap : parse_date "2024-02-29" = Some 19782 /\ parse_date "2023-02-29" = None.
Proof. split; reflexivity. Qed.

Example parse_clock_text : parse_clock "23:59:59" = Some 86399 /\ parse_clock "24:00:00" = None.
Proof. split; reflexivity. Qed.
