(* ===== verification/Json.v ===== *)
(** * JSON documents and [encoding/json.Marshal]

    A value of type [any] that the program stores in a JSON column or hashes is
    a [json] document.  A Go struct is a [JObj], whose members are printed in
    the order of the fields; a [map[string]any] is a [JMap], whose keys
    [Marshal] sorts.  A number is an integer, or a coordinate: a [float64] read
    from a DECIMAL(10,7) column, which is its number of units of 10^-7. *)

From S2P Require Import Prelude GoInt GoString.
From Stdlib Require Import Ascii String.
#[local] Open Scope string_scope. #[local] Open Scope list_scope. #[local] Open Scope Z_scope.

#[warnings="-register-all"]
Inductive json : Type :=
| JNull
| JBool (b : bool)
| JNum (z : Z)
| JDec (units : Z)
| JStr (s : string)
| JArr (l : list json)
| JObj (fields : list (string * json))
| JMap (entries : list (string * json)).

Definition quote : string := String (ascii_of_nat 34) "".
Definition backslash : string := String (ascii_of_nat 92) "".

(** The four hexadecimal digits of a [\uXXXX] escape. *)
Definition u_escape (r : Z) : string :=
  backslash +:+ "u" +:+
  string_of_list_ascii
    [hex_digit (r / 4096); hex_digit (r / 256 mod 16);
     hex_digit (r / 16 mod 16); hex_digit (r mod 16)].

(** One rune of a string literal, with HTML escaping. *)
Definition escape_rune (x : Z * bool * list Z) : string :=
  let '(r, ok, bs) := x in
  if negb ok then u_escape 65533
  else if r =? 34 then backslash +:+ quote
  else if r =? 92 then backslash +:+ backslash
  else if r =? 8 then backslash +:+ "b"
  else if r =? 12 then backslash +:+ "f"
  else if r =? 10 then backslash +:+ "n"
  else if r =? 13 then backslash +:+ "r"
  else if r =? 9 then backslash +:+ "t"
  else if (r <? 32) || (r =? 60) || (r =? 62) || (r =? 38) || (r =? 8232) || (r =? 8233)
       then u_escape r
  else of_bytes bs.

Definition marshal_string (s : string) : string :=
  quote +:+ fold_right (fun r acc => escape_rune r +:+ acc) quote (runes s).

Fixpoint insert_key {A} (kv : string * A) (l : list (string * A)) : list (string * A) :=
  match l with
  | [] => [kv]
  | kv' :: l' => if String.leb kv.1 kv'.1 then kv :: l else kv' :: insert_key kv l'
  end.

Definition sort_keys {A} (l : list (string * A)) : list (string * A) :=
  fold_right insert_key [] l.

Fixpoint join (sep : string) (l : list string) : string :=
  match l with
  | [] => ""
  | [x] => x
  | x :: l' => x +:+ sep +:+ join sep l'
  end.

Definition member (kv : string * string) : string := marshal_string kv.1 +:+ ":" +:+ kv.2.

(** The digits of a fraction of [width] digits, without trailing zeros. *)
Fixpoint fraction_digits (width : nat) (z : Z) : string :=
  match width with
  | O => ""
  | S width' =>
      if z =? 0 then ""
      else format_uint (z / 10 ^ Z.of_nat width') +:+ fraction_digits width' (z mod 10 ^ Z.of_nat width')
  end.

(** The shortest text of a [float64] with at most seven decimals: an exponent
    below a millionth, a plain decimal from there on. *)
Definition format_decimal (units : Z) : string :=
  let a := Z.abs units in
  (if units <? 0 then "-" else "") +:+
  (if (0 <? a) && (a <? 10) then format_uint a +:+ "e-7"
   else format_uint (a / 10 ^ 7) +:+
        (if a mod 10 ^ 7 =? 0 then "" else "." +:+ fraction_digits 7 (a mod 10 ^ 7))).

(** [json.Marshal] *)
Fixpoint marshal (j : json) : string :=
  match j with
  | JNull => "null"
  | JBool b => if b then "true" else "false"
  | JNum z => format_int z
  | JDec z => format_decimal z
  | JStr s => marshal_string s
  | JArr l => "[" +:+ join "," (map marshal l) +:+ "]"
  | JObj l => "{" +:+ join "," (map member (map (fun kv => (kv.1, marshal kv.2)) l)) +:+ "}"
  | JMap l => "{" +:+ join "," (map member (sort_keys (map (fun kv => (kv.1, marshal kv.2)) l)))
                  +:+ "}"
  end.

(** ** Members of an object *)

(** The first member named [k]. *)
Fixpoint assoc {A} (k : string) (l : list (string * A)) : option A :=
  match l with
  | [] => None
  | (k', v) :: l' => if String.eqb k k' then Some v else assoc k l'
  end.

Definition field (k : string) (j : json) : option json :=
  match j with
  | JObj l | JMap l => assoc k l
  | _ => None
  end.

(** Decoding of the Go types the program stores; [json.Unmarshal] leaves a
    missing member at its zero value. *)
Definition as_string (j : option json) : option string :=
  match j with Some (JStr s) => Some s | None | Some JNull => Some "" | _ => None end.

Definition as_string_ptr (j : option json) : option (option string) :=
  match j with Some (JStr s) => Some (Some s) | None | Some JNull => Some None | _ => None end.

Definition as_uint (j : option json) : option Z :=
  match j with
  | Some (JNum z) => if (0 <=? z) && (z <? u64_mod) then Some z else None
  | None | Some JNull => Some 0
  | _ => None
  end.

Definition as_bool (j : option json) : option bool :=
  match j with Some (JBool b) => Some b | None | Some JNull => Some false | _ => None end.

Definition opt_str (o : option string) : json :=
  match o with Some s => JStr s | None => JNull end.

(** A type the program stores as a JSON column and reads back. *)
Class JsonCodec (A : Type) := {
  encode : A -> json;
  decode : json -> option A;
}.

(** What a type promises to the store of cached responses. *)
Class LawfulCodec (A : Type) `{JsonCodec A} := {
  codec_ok : A -> Prop;
  decode_encode : forall a : A, codec_ok a -> decode (encode a) = Some a;
}.

(** ** Facts *)

Lemma as_string_ptr_opt_str o : as_string_ptr (Some (opt_str o)) = Some o.
Proof. now destruct o. Qed.

Lemma assoc_here {A} k (v : A) l : assoc k ((k, v) :: l) = Some v.
Proof. simpl. now rewrite String.eqb_refl. Qed.
