(* ===== verification/JsonParse.v ===== *)
(** * JSON texts and [encoding/json.Unmarshal]

    The scanner of [encoding/json] as a recursive descent over bytes: it
    accepts the texts [checkValid] accepts, with the limit on nesting, and
    decodes string literals the way [unquote] does.  Numbers keep their
    literal, because the Go type they are decoded into decides what is valid.
    What [Marshal] prints for a document of plain strings parses back to that
    document. *)

From S2P Require Import Prelude GoInt GoString Json.
From Stdlib Require Import Ascii String.
#[local] Open Scope string_scope. #[local] Open Scope list_scope. #[local] Open Scope Z_scope.

#[warnings="-register-all"]
Inductive doc : Type :=
| DNull
| DBool (b : bool)
| DNum (literal : list Z)
| DStr (s : string)
| DArr (l : list doc)
| DObj (members : list (string * doc)).

(** ** Tokens *)

Definition is_ws (b : Z) : bool := (b =? 32) || (b =? 9) || (b =? 10) || (b =? 13).
Definition is_digit (b : Z) : bool := (48 <=? b) && (b <=? 57).

Fixpoint skip_ws (l : list Z) : list Z :=
  match l with
  | b :: r => if is_ws b then skip_ws r else l
  | [] => []
  end.

(** The longest prefix of bytes that satisfy [p], and the rest. *)
Fixpoint span (p : Z -> bool) (l : list Z) : list Z * list Z :=
  match l with
  | b :: r => if p b then (b :: (span p r).1, (span p r).2) else ([], l)
  | [] => ([], [])
  end.

Fixpoint strip (word l : list Z) : option (list Z) :=
  match word, l with
  | [], _ => Some l
  | c :: word', b :: l' => if b =? c then strip word' l' else None
  | _, [] => None
  end.

(** The digits of the integer part: a leading zero stands alone. *)
Definition scan_int (l : list Z) : option (list Z * list Z) :=
  match l with
  | 48 :: r => Some ([48], r)
  | _ => match span is_digit l with
         | ([], _) => None
         | (digits, r) => Some (digits, r)
         end
  end.

Definition scan_fraction (l : list Z) : option (list Z * list Z) :=
  match l with
  | 46 :: r => match span is_digit r with
               | ([], _) => None
               | (digits, r') => Some (46 :: digits, r')
               end
  | _ => Some ([], l)
  end.

Definition scan_exponent (l : list Z) : option (list Z * list Z) :=
  match l with
  | e :: r =>
      if (e =? 101) || (e =? 69) then
        let '(sign, r1) := match r with
                           | s :: r' => if (s =? 43) || (s =? 45) then ([s], r') else ([], r)
                           | [] => ([], r)
                           end in
        match span is_digit r1 with
        | ([], _) => None
        | (digits, r2) => Some (e :: sign ++ digits, r2)
        end
      else Some ([], l)
  | [] => Some ([], l)
  end.

Definition scan_number (l : list Z) : option (list Z * list Z) :=
  let '(sign, l1) := match l with 45 :: r => ([45], r) | _ => ([], l) end in
  match scan_int l1 with
  | None => None
  | Some (int_, l2) =>
      match scan_fraction l2 with
      | None => None
      | Some (frac, l3) =>
          match scan_exponent l3 with
          | None => None
          | Some (expo, l4) => Some (sign ++ int_ ++ frac ++ expo, l4)
          end
      end
  end.

(** ** String literals *)

Definition hex_value (b : Z) : option Z :=
  if is_digit b then Some (b - 48)
  else if (97 <=? b) && (b <=? 102) then Some (b - 87)
  else if (65 <=? b) && (b <=? 70) then Some (b - 55)
  else None.

(** [utf8.EncodeRune] *)
Definition encode_rune (r : Z) : list Z :=
  if (r <? 0) || (1114111 <? r) || ((55296 <=? r) && (r <=? 57343)) then [239; 191; 189]
  else if r <? 128 then [r]
  else if r <? 2048 then [192 + r / 64; 128 + r mod 64]
  else if r <? 65536 then [224 + r / 4096; 128 + r / 64 mod 64; 128 + r mod 64]
  else [240 + r / 262144; 128 + r / 4096 mod 64; 128 + r / 64 mod 64; 128 + r mod 64].

(** The value of a [\uXXXX] escape, past its backslash and [u]. *)
Definition scan_hex4 (l : list Z) : option (Z * list Z) :=
  match l with
  | a :: b :: c :: d :: r =>
      match hex_value a, hex_value b, hex_value c, hex_value d with
      | Some x, Some y, Some z, Some w => Some (x * 4096 + y * 256 + z * 16 + w, r)
      | _, _, _, _ => None
      end
  | _ => None
  end.

(** An escape that may be the first half of a surrogate pair. *)
Definition unescape_u (l : list Z) : option (list Z * list Z) :=
  match scan_hex4 l with
  | None => None
  | Some (hi, r) =>
      if (55296 <=? hi) && (hi <=? 57343) then
        match r with
        | 92 :: 117 :: r1 =>
            match scan_hex4 r1 with
            | Some (lo, r2) =>
                if (hi <=? 56319) && (56320 <=? lo) && (lo <=? 57343)
                then Some (encode_rune ((hi - 55296) * 1024 + (lo - 56320) + 65536), r2)
                else Some (encode_rune 65533, r)
            | None => None
            end
        | _ => Some (encode_rune 65533, r)
        end
      else Some (encode_rune hi, r)
  end.

Definition unescape (c : Z) : option Z :=
  if (c =? 34) || (c =? 92) || (c =? 47) then Some c
  else if c =? 98 then Some 8
  else if c =? 102 then Some 12
  else if c =? 110 then Some 10
  else if c =? 114 then Some 13
  else if c =? 116 then Some 9
  else None.

(** The bytes of a literal past its opening quote; the length is fuel enough. *)
Fixpoint scan_string (fuel : nat) (l : list Z) : option (list Z * list Z) :=
  match fuel, l with
  | S fuel', b :: r =>
      if b =? 34 then Some ([], r)
      else if b =? 92 then
        match r with
        | 117 :: r1 =>
            match unescape_u r1 with
            | Some (bs, r2) =>
                match scan_string fuel' r2 with
                | Some (t, r3) => Some (bs ++ t, r3)
                | None => None
                end
            | None => None
            end
        | c :: r1 =>
            match unescape c, scan_string fuel' r1 with
            | Some x, Some (t, r2) => Some (x :: t, r2)
            | _, _ => None
            end
        | [] => None
        end
      else if b <? 32 then None
      else
        let '(_, n, ok) := decode_rune l in
        match scan_string fuel' (drop n l) with
        | Some (t, r2) => Some ((if ok : bool then take n l else [239; 191; 189]) ++ t, r2)
        | None => None
        end
  | _, _ => None
  end.

Definition scan_literal (l : list Z) : option (string * list Z) :=
  match scan_string (List.length l) l with
  | Some (bs, r) => Some (of_bytes bs, r)
  | None => None
  end.

(** ** Values *)

Definition max_depth : Z := 10000.

Definition word_null : list Z := bytes_of "null".
Definition word_true : list Z := bytes_of "true".
Definition word_false : list Z := bytes_of "false".

(** A value, the elements of an array past its bracket, the members of an
    object past its brace; [depth] counts the composites around. *)
Fixpoint parse_value (fuel : nat) (depth : Z) (l : list Z) : option (doc * list Z) :=
  match fuel with
  | O => None
  | S fuel' =>
      match skip_ws l with
      | [] => None
      | b :: r =>
          if b =? 123 then
            if max_depth <=? depth then None
            else match skip_ws r with
                 | 125 :: r1 => Some (DObj [], r1)
                 | _ => match parse_members fuel' (depth + 1) r with
                        | Some (ms, r1) => Some (DObj ms, r1)
                        | None => None
                        end
                 end
          else if b =? 91 then
            if max_depth <=? depth then None
            else match skip_ws r with
                 | 93 :: r1 => Some (DArr [], r1)
                 | _ => match parse_elements fuel' (depth + 1) r with
                        | Some (ds, r1) => Some (DArr ds, r1)
                        | None => None
                        end
                 end
          else if b =? 34 then
            match scan_literal r with
            | Some (s, r1) => Some (DStr s, r1)
            | None => None
            end
          else if b =? 110 then
            match strip word_null (b :: r) with Some r1 => Some (DNull, r1) | None => None end
          else if b =? 116 then
            match strip word_true (b :: r) with
            | Some r1 => Some (DBool true, r1) | None => None
            end
          else if b =? 102 then
            match strip word_false (b :: r) with
            | Some r1 => Some (DBool false, r1) | None => None
            end
          else
            match scan_number (b :: r) with
            | Some (lit, r1) => Some (DNum lit, r1)
            | None => None
            end
      end
  end
with parse_elements (fuel : nat) (depth : Z) (l : list Z) : option (list doc * list Z) :=
  match fuel with
  | O => None
  | S fuel' =>
      match parse_value fuel' depth l with
      | None => None
      | Some (d, r) =>
          match skip_ws r with
          | 93 :: r1 => Some ([d], r1)
          | 44 :: r1 =>
              match parse_elements fuel' depth r1 with
              | Some (ds, r2) => Some (d :: ds, r2)
              | None => None
              end
          | _ => None
          end
      end
  end
with parse_members (fuel : nat) (depth : Z) (l : list Z) : option (list (string * doc) * list Z) :=
  match fuel with
  | O => None
  | S fuel' =>
      match skip_ws l with
      | 34 :: r =>
          match scan_literal r with
          | None => None
          | Some (k, r1) =>
              match skip_ws r1 with
              | 58 :: r2 =>
                  match parse_value fuel' depth r2 with
                  | None => None
                  | Some (d, r3) =>
                      match skip_ws r3 with
                      | 125 :: r4 => Some ([(k, d)], r4)
                      | 44 :: r4 =>
                          match parse_members fuel' depth r4 with
                          | Some (ms, r5) => Some ((k, d) :: ms, r5)
                          | None => None
                          end
                      | _ => None
                      end
                  end
              | _ => None
              end
          end
      | _ => None
      end
  end.

(** A whole text.  Every second call consumes a byte, so twice the length is
    fuel enough. *)
Definition parse_json (l : list Z) : option doc :=
  match parse_value (2 * List.length l + 2) 0 l with
  | Some (d, r) => match skip_ws r with [] => Some d | _ => None end
  | None => None
  end.

(** A text written with apostrophes for quotation marks. *)
Definition quoted (s : string) : list Z := map (fun b => if b =? 39 then 34 else b) (bytes_of s).

Example parse_sample :
  parse_json (quoted " { 'a' : [1, -2.5e3, true, null], 'b\u00e9': 'x\ny' } ") =
  Some (DObj [("a", DArr [DNum (bytes_of "1"); DNum (bytes_of "-2.5e3"); DBool true; DNull]);
              (of_bytes [98; 195; 169], DStr (of_bytes [120; 10; 121]))]).
Proof. vm_compute. reflexivity. Qed.

Example parse_rejects :
  map (fun s => parse_json (quoted s)) ["01"; "[1,]"; "{a:1}"; "nul"; "1 2"; "'a"] =
  repeat None 6.
Proof. vm_compute. reflexivity. Qed.

(** ** Printed documents parse back *)

(** A byte [Marshal] prints as itself. *)
Definition plain_byte (b : Z) : bool :=
  (32 <=? b) && (b <=? 127) &&
  negb ((b =? 34) || (b =? 92) || (b =? 60) || (b =? 62) || (b =? 38)).

Definition plain_str (s : string) : bool := forallb plain_byte (bytes_of s).

Definition number_byte (b : Z) : bool :=
  is_digit b || (b =? 46) || (b =? 101) || (b =? 69).

(** What may follow a number. *)
Definition ends_number (l : list Z) : Prop :=
  match l with [] => True | b :: _ => number_byte b = false end.

Lemma bytes_of_app s t : bytes_of (s +:+ t) = bytes_of s ++ bytes_of t.
Proof.
  induction s as [|c s IH]; [done|]. rewrite str_cons_app. unfold bytes_of in *. simpl. by rewrite IH.
Qed.

Lemma of_bytes_app l l' : of_bytes (l ++ l') = of_bytes l +:+ of_bytes l'.
Proof.
  unfold of_bytes. induction l as [|b l IH]; [done|]. simpl. by rewrite IH, str_cons_app.
Qed.

Lemma runes_aux_plain l : forallb plain_byte l = true ->
  forall fuel, (List.length l <= fuel)%nat -> runes_aux fuel l = map (fun b => (b, true, [b])) l.
Proof.
  induction l as [|b l IH]; simpl; intros Hp fuel Hf; [by destruct fuel|].
  apply andb_true_iff in Hp as [Hb Hp]. destruct fuel as [|fuel]; [lia|]. simpl.
  replace (b <? 128) with true by (unfold plain_byte in Hb; lia). simpl.
  rewrite drop_0, IH by (done || lia). done.
Qed.

Lemma marshal_plain s : plain_str s = true -> marshal_string s = quote +:+ s +:+ quote.
Proof.
  intros Hs. unfold marshal_string, runes.
  rewrite (runes_aux_plain _ Hs) by (rewrite bytes_of_length; lia). f_equal.
  rewrite <- (of_bytes_of s) at 2. unfold plain_str in Hs. revert Hs.
  generalize (bytes_of s) as l. induction l as [|b l IH]; [done|]. simpl.
  intros Hp. apply andb_true_iff in Hp as [Hb Hp]. rewrite (IH Hp).
  change (b :: l) with ([b] ++ l). rewrite of_bytes_app, str_app_assoc. f_equal.
  unfold plain_byte in Hb.
  repeat match goal with |- context [if ?c then _ else _] => replace c with false by lia end.
  done.
Qed.

Lemma scan_string_plain l rest : forallb plain_byte l = true ->
  forall fuel, (List.length l < fuel)%nat -> scan_string fuel (l ++ 34 :: rest) = Some (l, rest).
Proof.
  induction l as [|b l IH]; simpl; intros Hp fuel Hf; (destruct fuel as [|fuel]; [lia|]); [done|].
  apply andb_true_iff in Hp as [Hb Hp]. cbn [scan_string app]. unfold plain_byte in Hb.
  repeat match goal with |- context [if ?c then _ else _] => replace c with false by lia end.
  unfold decode_rune. replace (b <? 128) with true by lia. cbn [drop take].
  rewrite drop_0, (IH Hp) by lia. done.
Qed.

Lemma scan_literal_plain s rest : plain_str s = true ->
  scan_literal (bytes_of s ++ 34 :: rest) = Some (s, rest).
Proof.
  intros Hs. unfold scan_literal. rewrite scan_string_plain; [by rewrite of_bytes_of|done|].
  rewrite length_app. simpl. lia.
Qed.

(** The digits of a number. *)
Lemma dec_digits_bytes fuel : forall z s, 0 <= z < 10 ^ Z.of_nat (S fuel) ->
  exists ds, bytes_of (dec_digits (S fuel) z s) = ds ++ bytes_of s /\
    forallb is_digit ds = true /\ ds <> [] /\
    (head ds = Some 48 -> z = 0 /\ ds = [48]).
Proof.
  induction fuel as [|fuel IH]; intros z s Hz.
  - assert (E : z / 10 = 0) by (apply Z.div_small; simpl in Hz; lia).
    assert (Em : z mod 10 = z) by (apply Z.mod_small; simpl in Hz; lia).
    exists [48 + z]. cbn [dec_digits]. rewrite E, Em. unfold bytes_of. simpl in *.
    rewrite byte_val_byte by lia. split; [done|].
    unfold is_digit. split; [lia|]. split; [done|]. intros [= H]. split; [lia|f_equal; lia].
  - pose proof (Z.mod_pos_bound z 10 eq_refl) as Hm.
    pose proof (Z.div_mod z 10 ltac:(lia)) as Hd.
    remember (S fuel) as f eqn:Ef. simpl dec_digits. destruct (Z.eqb_spec (z / 10) 0) as [E|E].
    + exists [48 + z mod 10]. unfold bytes_of. simpl. rewrite byte_val_byte by lia.
      split; [done|]. unfold is_digit. split; [lia|]. split; [done|].
      intros [= H]. split; [lia|f_equal; lia].
    + assert (Hq : 0 <= z / 10 < 10 ^ Z.of_nat f).
      { split; [apply Z.div_pos; lia|]. apply Z.div_lt_upper_bound; [lia|].
        rewrite Nat2Z.inj_succ, Z.pow_succ_r in Hz by lia. lia. }
      subst f. destruct (IH (z / 10) (String (val_byte (48 + z mod 10)) s) Hq)
        as (ds & H1 & H2 & H3 & H4).
      exists (ds ++ [48 + z mod 10]). rewrite H1. unfold bytes_of at 1. simpl.
      rewrite byte_val_byte by lia. rewrite <- (assoc_L (++)). split; [done|].
      rewrite forallb_app, H2. simpl. unfold is_digit. split; [lia|]. split; [by destruct ds|].
      intros H. destruct ds as [|d ds]; [done|]. simpl in *. by destruct (H4 H).
Qed.

Lemma span_digits ds rest : forallb is_digit ds = true -> ends_number rest ->
  span is_digit (ds ++ rest) = (ds, rest).
Proof.
  intros Hd Hr. induction ds as [|d ds IH]; simpl in *.
  - destruct rest as [|b r]; [done|]. simpl in *. unfold number_byte in Hr.
    replace (is_digit b) with false by (destruct (is_digit b); done). done.
  - apply andb_true_iff in Hd as [-> Hd]. by rewrite (IH Hd).
Qed.

Lemma scan_int_digits ds rest : forallb is_digit ds = true -> ds <> [] ->
  (head ds = Some 48 -> ds = [48]) -> ends_number rest ->
  scan_int (ds ++ rest) = Some (ds, rest).
Proof.
  intros Hd Hne H0 Hr. destruct ds as [|d ds]; [done|].
  destruct (Z.eq_dec d 48) as [->|Hd0]; [by injection (H0 eq_refl) as ->|].
  assert (E : scan_int ((d :: ds) ++ rest) =
              match span is_digit ((d :: ds) ++ rest) with
              | ([], _) => None | (digits, r) => Some (digits, r) end).
  { unfold scan_int. cbn [app]. by repeat case_match; simplify_eq. }
  by rewrite E, span_digits.
Qed.

Lemma scan_digits_number ds rest : forallb is_digit ds = true -> ds <> [] ->
  (head ds = Some 48 -> ds = [48]) -> ends_number rest ->
  scan_number (ds ++ rest) = Some (ds, rest) /\
  scan_number (45 :: ds ++ rest) = Some (45 :: ds, rest).
Proof.
  intros Hd Hne H0 Hr.
  assert (Hf : scan_fraction rest = Some ([], rest)).
  { destruct rest as [|b r]; [done|]. simpl in Hr. unfold number_byte in Hr. unfold scan_fraction.
    destruct (Z.eq_dec b 46) as [->|Hb]; [done|]. by repeat case_match. }
  assert (He : scan_exponent rest = Some ([], rest)).
  { destruct rest as [|b r]; [done|]. simpl in Hr. unfold number_byte in Hr. unfold scan_exponent.
    by replace ((b =? 101) || (b =? 69)) with false by (destruct (is_digit b); simpl in *; lia). }
  pose proof (scan_int_digits ds rest Hd Hne H0 Hr) as Hi.
  split; [|by cbn [scan_number]; rewrite Hi, Hf, He, app_nil_r].
  destruct ds as [|d ds]; [done|].
  assert (Hd45 : d <> 45) by (simpl in Hd; unfold is_digit in Hd; lia).
  assert (E : scan_number ((d :: ds) ++ rest) =
              match scan_int ((d :: ds) ++ rest) with
              | None => None
              | Some (i, l2) => match scan_fraction l2 with
                                | None => None
                                | Some (f, l3) => match scan_exponent l3 with
                                                  | None => None
                                                  | Some (x, l4) => Some (i ++ f ++ x, l4)
                                                  end
                                end
              end).
  { unfold scan_number. cbn [app]. destruct d as [|p|p]; try done.
    by do 6 (destruct p as [p|p|]; try done). }
  by rewrite E, Hi, Hf, He, app_nil_r.
Qed.

(** A Go integer of either sign. *)
Definition go_integer (z : Z) : bool := (- 2 ^ 63 <=? z) && (z <? 2 ^ 64).

Lemma scan_number_plain z rest : go_integer z = true -> ends_number rest ->
  scan_number (bytes_of (format_int z) ++ rest) = Some (bytes_of (format_int z), rest).
Proof.
  intros Hz Hr. unfold go_integer in Hz. unfold format_int.
  assert (Hb : forall y, 0 <= y < 2 ^ 64 -> 0 <= y < 10 ^ Z.of_nat 20) by (intros; lia).
  destruct (Z.ltb_spec z 0).
  - destruct (dec_digits_bytes 19 (- z) "") as (ds & H1 & H2 & H3 & H4); [apply Hb; lia|].
    unfold format_uint. rewrite bytes_of_app. rewrite H1.
    change (bytes_of "-") with [45]. change (bytes_of "") with (@nil Z). rewrite app_nil_r.
    apply (scan_digits_number ds rest); auto. intros H5. apply H4 in H5 as [? ?]. done.
  - destruct (dec_digits_bytes 19 z "") as (ds & H1 & H2 & H3 & H4); [apply Hb; lia|].
    unfold format_uint. rewrite H1. change (bytes_of "") with (@nil Z). rewrite app_nil_r.
    apply (scan_digits_number ds rest); auto. intros H5. apply H4 in H5 as [? ?]. done.
Qed.

(** The document a printed value is read as. *)
Fixpoint doc_of (j : json) : doc :=
  match j with
  | JNull => DNull
  | JBool b => DBool b
  | JNum z => DNum (bytes_of (format_int z))
  | JDec z => DNum (bytes_of (format_decimal z))
  | JStr s => DStr s
  | JArr l => DArr (map doc_of l)
  | JObj l | JMap l => DObj (map (fun kv => (kv.1, doc_of kv.2)) l)
  end.

(** Plain strings, Go integers, and structs rather than maps; no coordinates. *)
Fixpoint plain (j : json) : bool :=
  match j with
  | JNull | JBool _ => true
  | JNum z => go_integer z
  | JDec _ => false
  | JStr s => plain_str s
  | JArr l => forallb plain l
  | JObj l => forallb (fun kv => plain_str kv.1 && plain kv.2) l
  | JMap _ => false
  end.

Fixpoint height (j : json) : Z :=
  match j with
  | JArr l => 1 + fold_right (fun x acc => Z.max (height x) acc) 0 l
  | JObj l | JMap l => 1 + fold_right (fun kv acc => Z.max (height kv.2) acc) 0 l
  | _ => 0
  end.

(** The calls the parser makes for a document. *)
Fixpoint calls (j : json) : nat :=
  match j with
  | JArr l => 1 + fold_right (fun x acc => calls x + 1 + acc)%nat 0%nat l
  | JObj l | JMap l => 1 + fold_right (fun kv acc => calls kv.2 + 1 + acc)%nat 0%nat l
  | _ => 1
  end%nat.

Lemma json_nested_ind (P : json -> Prop) :
  P JNull -> (forall b, P (JBool b)) -> (forall z, P (JNum z)) -> (forall z, P (JDec z)) -> (forall s, P (JStr s)) ->
  (forall l, Forall P l -> P (JArr l)) ->
  (forall l, Forall (fun kv => P kv.2) l -> P (JObj l)) ->
  (forall l, Forall (fun kv => P kv.2) l -> P (JMap l)) -> forall j, P j.
Proof.
  intros H1 H2 H3 Hd H4 H5 H6 H7. fix IH 1. intros [|b|z|z|s|l|l|l].
  - exact H1.
  - apply H2.
  - apply H3.
  - apply Hd.
  - apply H4.
  - apply H5. induction l as [|x l IHl]; constructor; [apply IH|exact IHl].
  - apply H6. induction l as [|[k x] l IHl]; constructor; [apply IH|exact IHl].
  - apply H7. induction l as [|[k x] l IHl]; constructor; [apply IH|exact IHl].
Qed.

(** The bytes of a printed value. *)
Definition text (j : json) : list Z := bytes_of (marshal j).

Fixpoint elements_text (l : list json) : list Z :=
  match l with
  | [] => []
  | [x] => text x
  | x :: l' => text x ++ 44 :: elements_text l'
  end.

Definition member_text (kv : string * json) : list Z :=
  34 :: bytes_of kv.1 ++ 34 :: 58 :: text kv.2.

Fixpoint members_text (l : list (string * json)) : list Z :=
  match l with
  | [] => []
  | [x] => member_text x
  | x :: l' => member_text x ++ 44 :: members_text l'
  end.

Lemma text_str s : plain_str s = true -> text (JStr s) = 34 :: bytes_of s ++ [34].
Proof. intros Hs. unfold text. simpl. by rewrite (marshal_plain s Hs), !bytes_of_app. Qed.

Lemma text_arr l : text (JArr l) = 91 :: elements_text l ++ [93].
Proof.
  unfold text. simpl. rewrite !bytes_of_app. change (bytes_of "[") with [91].
  change (bytes_of "]") with [93]. simpl. f_equal. f_equal.
  induction l as [|x l IH]; [done|]. destruct l as [|y l]; [done|].
  change (join "," (map marshal (x :: y :: l)))
    with (marshal x +:+ "," +:+ join "," (map marshal (y :: l))).
  rewrite !bytes_of_app, IH. done.
Qed.

Lemma text_obj l : forallb (fun kv => plain_str kv.1) l = true ->
  text (JObj l) = 123 :: members_text l ++ [125].
Proof.
  intros Hl. unfold text. simpl. rewrite !bytes_of_app. change (bytes_of "{") with [123].
  change (bytes_of "}") with [125]. simpl. f_equal. f_equal. rewrite map_map.
  induction l as [|x l IH]; [done|]. simpl in Hl. apply andb_true_iff in Hl as [Hx Hl].
  assert (Hm : bytes_of (member (x.1, marshal x.2)) = member_text x).
  { unfold member, member_text. simpl. rewrite (marshal_plain _ Hx), !bytes_of_app.
    change (bytes_of quote) with [34]. change (bytes_of ":") with [58].
    simpl. by rewrite <- (assoc_L (++)). }
  destruct l as [|y l]; [exact Hm|].
  change (join "," (map ?f (x :: y :: l))) with (f x +:+ "," +:+ join "," (map f (y :: l))).
  rewrite !bytes_of_app, IH by done. cbv beta. rewrite Hm. done.
Qed.

Lemma number_head z : go_integer z = true ->
  exists b t, bytes_of (format_int z) = b :: t /\ (b = 45 \/ is_digit b = true).
Proof.
  intros Hz. unfold go_integer in Hz. unfold format_int.
  assert (Hb : forall y, 0 <= y < 2 ^ 64 -> 0 <= y < 10 ^ Z.of_nat 20) by (intros; lia).
  destruct (Z.ltb_spec z 0).
  - rewrite bytes_of_app. eexists _, _. split; [reflexivity|by left].
  - destruct (dec_digits_bytes 19 z "") as (ds & H1 & H2 & H3 & _); [apply Hb; lia|].
    unfold format_uint. rewrite H1. destruct ds as [|d ds]; [done|].
    simpl in H2. apply andb_true_iff in H2 as [H2 _]. eexists _, _. split; [reflexivity|by right].
Qed.

Lemma text_head j : plain j = true -> exists b t, text j = b :: t /\
  is_ws b = false /\ b <> 93.
Proof.
  destruct j as [|[]|z|z|s|l|l|l]; intros Hp; [by eexists _, _| by eexists _, _|by eexists _, _|..].
  - destruct (number_head z Hp) as (b & t & E & Hb). exists b, t. split; [exact E|].
    unfold is_ws, is_digit in *. lia.
  - done.
  - rewrite (text_str s Hp). by eexists _, _.
  - rewrite text_arr. by eexists _, _.
  - rewrite text_obj; [by eexists _, _|].
    simpl in Hp. rewrite !forallb_forall in Hp |- *. intros x Hx.
    by specialize (Hp x Hx) as [? _]%andb_true_iff.
  - done.
Qed.

Lemma skip_ws_head b t : is_ws b = false -> skip_ws (b :: t) = b :: t.
Proof. intros H. simpl. by rewrite H. Qed.

Definition parses (j : json) : Prop := forall fuel depth rest,
  (calls j <= fuel)%nat -> depth + height j <= max_depth -> ends_number rest ->
  parse_value fuel depth (text j ++ rest) = Some (doc_of j, rest).

Lemma max_nonneg {A} (f : A -> Z) l : 0 <= fold_right (fun x acc => Z.max (f x) acc) 0 l.
Proof. induction l; simpl; lia. Qed.

Lemma parse_elements_text x l fuel depth rest :
  Forall parses (x :: l) -> forallb plain (x :: l) = true ->
  (fold_right (fun x acc => calls x + 1 + acc) 0 (x :: l) <= fuel)%nat ->
  depth + fold_right (fun x acc => Z.max (height x) acc) 0 (x :: l) <= max_depth ->
  parse_elements fuel depth (elements_text (x :: l) ++ 93 :: rest) =
  Some (map doc_of (x :: l), rest).
Proof.
  revert x fuel. induction l as [|y l IH]; intros x fuel Hall Hp Hc Hh;
    apply Forall_cons in Hall as [Hx Hall];
    (destruct fuel as [|fuel]; [simpl in Hc; lia|]).
  - cbn [elements_text parse_elements]. simpl in Hc, Hh.
    rewrite Hx by (done || lia). done.
  - change (elements_text (x :: y :: l)) with (text x ++ 44 :: elements_text (y :: l)).
    rewrite <- (assoc_L (++)), <- app_comm_cons. cbn [parse_elements].
    cbn [fold_right] in Hc, Hh. rewrite Hx by (done || lia). cbn [skip_ws].
    change (is_ws 44) with false. cbv iota.
    rewrite IH; [done|done| |cbn [fold_right]; lia|cbn [fold_right]; lia].
    simpl in Hp. by apply andb_true_iff in Hp as [_ Hp].
Qed.

Lemma parse_members_text x l fuel depth rest :
  Forall (fun kv => parses kv.2) (x :: l) ->
  forallb (fun kv => plain_str kv.1 && plain kv.2) (x :: l) = true ->
  (fold_right (fun kv acc => calls kv.2 + 1 + acc) 0 (x :: l) <= fuel)%nat ->
  depth + fold_right (fun kv acc => Z.max (height kv.2) acc) 0 (x :: l) <= max_depth ->
  parse_members fuel depth (members_text (x :: l) ++ 125 :: rest) =
  Some (map (fun kv => (kv.1, doc_of kv.2)) (x :: l), rest).
Proof.
  revert x fuel. induction l as [|y l IH]; intros x fuel Hall Hp Hc Hh;
    apply Forall_cons in Hall as [Hx Hall]; cbn [forallb] in Hp;
    apply andb_true_iff in Hp as [[Hk Hpx]%andb_true_iff Hp];
    (destruct fuel as [|fuel]; [simpl in Hc; lia|]);
    destruct x as [k v]; cbn [fst snd] in *.
  - cbn [members_text]. unfold member_text. cbn [fst snd app]. rewrite <- !(assoc_L (++)).
    cbn [app parse_members skip_ws]. change (is_ws 34) with false. cbv iota.
    rewrite (scan_literal_plain k _ Hk). simpl skip_ws. cbv iota.
    cbn [fold_right snd] in Hc, Hh. rewrite Hx by (done || lia). done.
  - change (members_text ((k, v) :: y :: l)) with (member_text (k, v) ++ 44 :: members_text (y :: l)).
    unfold member_text. cbn [fst snd app]. rewrite <- !(assoc_L (++)), <- !app_comm_cons.
    cbn [app parse_members skip_ws]. change (is_ws 34) with false. cbv iota.
    rewrite (scan_literal_plain k _ Hk). cbn [skip_ws]. change (is_ws 58) with false. cbv iota.
    cbn [fold_right snd] in Hc, Hh. rewrite Hx by (done || lia).
    cbn [skip_ws]. change (is_ws 44) with false. cbv iota.
    rewrite IH; [done|done|exact Hp|cbn [fold_right]; lia|cbn [fold_right]; lia].
Qed.

(** A list that starts with another byte does not close the composite. *)
Lemma open_array {A} (l : list Z) (X : list Z -> A) (Y : A) b t : l = b :: t -> b <> 93 ->
  match l with 93 :: r => X r | _ => Y end = Y.
Proof.
  intros -> Hb. destruct b as [|p|p]; [done| |done]. by do 7 (destruct p as [p|p|]; try done).
Qed.

Lemma open_object {A} (l : list Z) (X : list Z -> A) (Y : A) b t : l = b :: t -> b <> 125 ->
  match l with 125 :: r => X r | _ => Y end = Y.
Proof.
  intros -> Hb. destruct b as [|p|p]; [done| |done]. by do 7 (destruct p as [p|p|]; try done).
Qed.

Lemma elements_head x l rest : plain x = true -> exists b t,
  skip_ws (elements_text (x :: l) ++ 93 :: rest) = b :: t /\ b <> 93.
Proof.
  intros Hp. destruct (text_head x Hp) as (b & t & E & Hw & Hb).
  assert (H : exists t', elements_text (x :: l) ++ 93 :: rest = b :: t')
    by (destruct l; cbn [elements_text]; rewrite E; by eexists).
  destruct H as [t' ->]. rewrite (skip_ws_head _ _ Hw). by exists b, t'.
Qed.

Lemma members_head x l rest : exists t,
  skip_ws (members_text (x :: l) ++ 125 :: rest) = 34 :: t.
Proof. destruct l; by eexists. Qed.

(** A printed document parses to itself, whatever follows it. *)
Lemma parse_text j : plain j = true -> parses j.
Proof.
  induction j as [|b|z|z|s|l IH|l IH|l IH] using json_nested_ind; intros Hp fuel depth rest Hc Hh Hr;
    (destruct fuel as [|fuel]; [simpl in Hc; lia|]); cbn [parse_value].
  - done.
  - by destruct b.
  - destruct (number_head z Hp) as (b & t & E & Hb). change (text (JNum z)) with (bytes_of (format_int z)).
    pose proof (scan_number_plain z rest Hp Hr) as Hs. rewrite E in *. cbn [app] in *.
    unfold is_digit in Hb. rewrite skip_ws_head by (unfold is_ws; lia).
    repeat match goal with |- context [if b =? ?c then _ else _] =>
      replace (b =? c) with false by lia end.
    rewrite Hs. simpl. by rewrite E.
  - done.
  - rewrite (text_str s Hp). cbn [app skip_ws]. rewrite <- (assoc_L (++)).
    change (is_ws 34) with false. cbn. by rewrite (scan_literal_plain s rest Hp).
  - rewrite text_arr. cbn [app]. rewrite skip_ws_head by done. rewrite <- (assoc_L (++)).
    change ([93] ++ rest) with (93 :: rest). cbn [calls height plain] in *. change (91 =? 123) with false. change (91 =? 91) with true.
    cbv iota. replace (max_depth <=? depth) with false.
    2: { symmetry. apply Z.leb_gt. pose proof (max_nonneg height l). lia. }
    destruct l as [|x l]; [done|].
    destruct (elements_head x l rest) as (b & t & E & Hb).
    { cbn [forallb] in Hp. by apply andb_true_iff in Hp as [? _]. }
    rewrite (open_array _ _ _ b t E Hb).
    rewrite parse_elements_text; [done| |done|lia|lia].
    rewrite Forall_forall in IH |- *. intros y Hy. apply IH; [done|].
    rewrite forallb_forall in Hp. apply Hp. by apply list_elem_of_In.
  - cbn [calls height plain] in *. rewrite text_obj.
    2: { rewrite !forallb_forall in Hp |- *. intros x Hx.
         by specialize (Hp x Hx) as [? _]%andb_true_iff. }
    cbn [app]. rewrite skip_ws_head by done. rewrite <- (assoc_L (++)).
    change ([125] ++ rest) with (125 :: rest). change (123 =? 123) with true. cbv iota. replace (max_depth <=? depth) with false.
    2: { symmetry. apply Z.leb_gt. pose proof (max_nonneg (fun kv : string * json => height kv.2) l). lia. }
    destruct l as [|x l]; [done|].
    destruct (members_head x l rest) as [t E].
    rewrite (open_object _ _ _ 34 t E) by done.
    rewrite parse_members_text; [done| |done|lia|lia].
    rewrite Forall_forall in IH |- *. intros y Hy. apply IH; [done|].
    rewrite forallb_forall in Hp. apply list_elem_of_In, Hp in Hy.
    by apply andb_true_iff in Hy as [_ ?].
  - done.
Qed.

(** The parser makes at most two calls per byte. *)
Lemma calls_text j : plain j = true -> (calls j <= 2 * List.length (text j))%nat.
Proof.
  induction j as [|b|z|z|s|l IH|l IH|l IH] using json_nested_ind; intros Hp.
  - unfold text. simpl. lia.
  - destruct b; unfold text; simpl; lia.
  - destruct (number_head z Hp) as (b & t & E & _). change (text (JNum z)) with (bytes_of (format_int z)).
    rewrite E. simpl. lia.
  - done.
  - rewrite (text_str s Hp). simpl. lia.
  - rewrite text_arr. cbn [calls List.length]. rewrite length_app. cbn [List.length plain] in *.
    enough (fold_right (fun x acc => calls x + 1 + acc) 0 l
            <= 2 * List.length (elements_text l) + 1)%nat by lia.
    induction l as [|x l IHl]; [simpl; lia|]. apply Forall_cons in IH as [Hx IH].
    cbn [forallb] in Hp. apply andb_true_iff in Hp as [Hpx Hp]. specialize (Hx Hpx).
    specialize (IHl IH Hp). destruct l as [|y l]; [simpl in *; lia|].
    change (elements_text (x :: y :: l)) with (text x ++ 44 :: elements_text (y :: l)).
    rewrite length_app. cbn [List.length fold_right] in *. lia.
  - cbn [plain] in Hp. rewrite text_obj.
    2: { rewrite !forallb_forall in Hp |- *. intros x Hx.
         by specialize (Hp x Hx) as [? _]%andb_true_iff. }
    cbn [calls List.length]. rewrite length_app. cbn [List.length] in *.
    enough (fold_right (fun kv acc => calls kv.2 + 1 + acc) 0 l
            <= 2 * List.length (members_text l) + 1)%nat by lia.
    induction l as [|x l IHl]; [simpl; lia|]. apply Forall_cons in IH as [Hx IH].
    cbn [forallb] in Hp. apply andb_true_iff in Hp as [[_ Hpx]%andb_true_iff Hp]. specialize (Hx Hpx).
    specialize (IHl IH Hp).
    assert (Hm : (List.length (text x.2) + 3 <= List.length (member_text x))%nat).
    { unfold member_text. simpl. rewrite length_app. simpl. lia. }
    destruct l as [|y l]; [simpl in *; lia|].
    change (members_text (x :: y :: l)) with (member_text x ++ 44 :: members_text (y :: l)).
    rewrite length_app. cbn [List.length fold_right] in *. lia.
  - done.
Qed.

(** [Unmarshal] reads what [Marshal] printed. *)
Lemma parse_marshal j : plain j = true -> height j <= max_depth ->
  parse_json (bytes_of (marshal j)) = Some (doc_of j).
Proof.
  intros Hp Hh. unfold parse_json.
  pose proof (parse_text j Hp (2 * List.length (text j) + 2)%nat 0 []) as H.
  rewrite app_nil_r in H. fold (text j). rewrite H; [done| |lia|done].
  pose proof (calls_text j Hp). lia.
Qed.
