(* ===== verification/Base64.v ===== *)
(** * [base64.RawURLEncoding] *)

From S2P Require Import Prelude GoInt GoString.
From Stdlib Require Import Ascii String.
#[local] Open Scope string_scope. #[local] Open Scope list_scope. #[local] Open Scope Z_scope.

(** The digit of a 6-bit value in the URL-safe alphabet. *)
Definition b64_digit (v : Z) : Z :=
  if v <? 26 then 65 + v
  else if v <? 52 then 97 + (v - 26)
  else if v <? 62 then 48 + (v - 52)
  else if v =? 62 then 45 else 95.

Definition b64_value (b : Z) : option Z :=
  if (65 <=? b) && (b <=? 90) then Some (b - 65)
  else if (97 <=? b) && (b <=? 122) then Some (b - 97 + 26)
  else if (48 <=? b) && (b <=? 57) then Some (b - 48 + 52)
  else if b =? 45 then Some 62
  else if b =? 95 then Some 63
  else None.

Fixpoint encode_bytes (l : list Z) : list Z :=
  match l with
  | a :: b :: c :: r =>
      b64_digit (a / 4) :: b64_digit (a mod 4 * 16 + b / 16) ::
      b64_digit (b mod 16 * 4 + c / 64) :: b64_digit (c mod 64) :: encode_bytes r
  | [a; b] =>
      [b64_digit (a / 4); b64_digit (a mod 4 * 16 + b / 16); b64_digit (b mod 16 * 4)]
  | [a] => [b64_digit (a / 4); b64_digit (a mod 4 * 16)]
  | [] => []
  end.

(** [EncodeToString] *)
Definition b64_encode (l : list Z) : string := of_bytes (encode_bytes l).

(** The decoder is not strict: the unused low bits of a last digit are not
    looked at. *)
Fixpoint decode_values (l : list Z) : option (list Z) :=
  match l with
  | w :: x :: y :: z :: r =>
      match decode_values r with
      | Some t => Some (w * 4 + x / 16 :: x mod 16 * 16 + y / 4 :: y mod 4 * 64 + z :: t)
      | None => None
      end
  | [w; x; y] => Some [w * 4 + x / 16; x mod 16 * 16 + y / 4]
  | [w; x] => Some [w * 4 + x / 16]
  | [_] => None
  | [] => Some []
  end.

Fixpoint all_some {A} (l : list (option A)) : option (list A) :=
  match l with
  | [] => Some []
  | Some x :: l' => match all_some l' with Some t => Some (x :: t) | None => None end
  | None :: _ => None
  end.

Definition is_newline (b : Z) : bool := (b =? 10) || (b =? 13).

(** [DecodeString]: carriage returns and line feeds are skipped. *)
Definition b64_decode (s : string) : option (list Z) :=
  match all_some (map b64_value (List.filter (fun b => negb (is_newline b)) (bytes_of s))) with
  | Some vs => decode_values vs
  | None => None
  end.

(** ** Round trip *)

Definition byte_list (l : list Z) : Prop := Forall (fun b => 0 <= b < 256) l.

Lemma b64_digit_props v : 0 <= v < 64 ->
  0 <= b64_digit v < 256 /\ is_newline (b64_digit v) = false /\
  b64_value (b64_digit v) = Some v.
Proof.
  intros H. unfold b64_digit, b64_value, is_newline.
  repeat match goal with |- context [if ?c then _ else _] => destruct c eqn:? end;
    repeat split; try lia; f_equal; lia.
Qed.

(** The 6-bit values that [encode_bytes] writes. *)
Fixpoint six_bits (l : list Z) : list Z :=
  match l with
  | a :: b :: c :: r =>
      a / 4 :: a mod 4 * 16 + b / 16 :: b mod 16 * 4 + c / 64 :: c mod 64 :: six_bits r
  | [a; b] => [a / 4; a mod 4 * 16 + b / 16; b mod 16 * 4]
  | [a] => [a / 4; a mod 4 * 16]
  | [] => []
  end.

(** Induction three bytes at a time. *)
Lemma list_ind3 {A} (P : list A -> Prop) :
  P [] -> (forall a, P [a]) -> (forall a b, P [a; b]) ->
  (forall a b c r, P r -> P (a :: b :: c :: r)) -> forall l, P l.
Proof.
  intros H0 H1 H2 H3 l.
  enough (P l /\ (forall a, P (a :: l)) /\ (forall a b, P (a :: b :: l))) by tauto.
  induction l as [|x l (IH1 & IH2 & IH3)]; eauto.
Qed.

Lemma encode_six_bits l : encode_bytes l = map b64_digit (six_bits l).
Proof. induction l using list_ind3; simpl; congruence. Qed.

Ltac six_bit_bound := Z.to_euclidean_division_equations; lia.

Lemma six_bits_range l : byte_list l -> Forall (fun v => 0 <= v < 64) (six_bits l).
Proof.
  unfold byte_list. induction l using list_ind3; simpl; rewrite ?Forall_cons; intros H;
    destruct_and?; repeat split; auto; six_bit_bound.
Qed.

Lemma join_bits a b k m : 0 < k -> 0 < m -> 0 <= b < k * m ->
  a * k + b / m = a * k + b / m /\ (a * k + b / m) / k = a /\ (a * k + b / m) mod k = b / m.
Proof.
  intros Hk Hm Hb. assert (0 <= b / m < k).
  { split; [apply Z.div_pos; lia|]. apply Z.div_lt_upper_bound; lia. }
  split; [done|]. rewrite Z.add_comm, Z.div_add, Z.mod_add by lia.
  rewrite Z.div_small, Z.mod_small by lia. lia.
Qed.

Lemma decode_six_bits l : byte_list l -> decode_values (six_bits l) = Some l.
Proof.
  unfold byte_list. induction l using list_ind3; simpl; rewrite ?Forall_cons; intros H;
    destruct_and?; [done | | |].
  - rewrite Z.div_mul by lia. f_equal. f_equal. six_bit_bound.
  - destruct (join_bits (a mod 4) b 16 16) as (_ & -> & ->); [lia..|].
    rewrite Z.div_mul by lia. repeat f_equal; six_bit_bound.
  - rewrite IHl by done. f_equal.
    destruct (join_bits (a mod 4) b 16 16) as (_ & -> & ->); [lia..|].
    destruct (join_bits (b mod 16) c 4 64) as (_ & -> & ->); [lia..|].
    repeat f_equal; six_bit_bound.
Qed.

Lemma all_some_map {A B} (f : A -> B) (g : B -> option A) l :
  Forall (fun x => g (f x) = Some x) l -> all_some (map g (map f l)) = Some l.
Proof. induction 1 as [|x l Hx _ IH]; [done|]. simpl. now rewrite Hx, IH. Qed.

Lemma b64_roundtrip l : byte_list l -> b64_decode (b64_encode l) = Some l.
Proof.
  intros H. pose proof (six_bits_range l H) as Hs.
  unfold b64_decode, b64_encode. rewrite encode_six_bits.
  rewrite bytes_of_of_bytes.
  2:{ rewrite Forall_map. eapply Forall_impl; [exact Hs|].
      intros v Hv. apply (b64_digit_props v Hv). }
  assert (Hf : forall vs, Forall (fun v => 0 <= v < 64) vs ->
            List.filter (fun b => negb (is_newline b)) (map b64_digit vs) = map b64_digit vs).
  { induction 1 as [|v vs Hv _ IH]; [done|]. simpl.
    destruct (b64_digit_props v Hv) as (_ & -> & _). simpl. now rewrite IH. }
  rewrite (Hf _ Hs), all_some_map; [now apply decode_six_bits|].
  eapply Forall_impl; [exact Hs|]. intros v Hv. apply (b64_digit_props v Hv).
Qed.

Lemma six_bits_length l :
  Z.of_nat (List.length (six_bits l)) = (8 * Z.of_nat (List.length l) + 5) / 6.
Proof.
  induction l using list_ind3; try reflexivity.
  cbn [six_bits List.length]. rewrite !Nat2Z.inj_succ, IHl.
  replace (8 * Z.succ (Z.succ (Z.succ (Z.of_nat (List.length l)))) + 5)
    with (8 * Z.of_nat (List.length l) + 5 + 4 * 6) by lia.
  rewrite Z.div_add by lia. lia.
Qed.

Lemma b64_encode_length l :
  str_len (b64_encode l) = (8 * Z.of_nat (List.length l) + 5) / 6.
Proof.
  unfold str_len, b64_encode. rewrite of_bytes_length, encode_six_bits, length_map.
  apply six_bits_length.
Qed.
