(* ===== verification/Sha256.v ===== *)
(** * [crypto/sha256] (FIPS 180-4), executable

    The services use SHA-256 as a fingerprint: idempotency keys, request
    bodies and gift share tokens are stored and compared as hexadecimal
    digests.  The theorems never look inside the digest; the definition is here
    so that the handlers that call it evaluate. *)

From S2P Require Import Prelude GoInt GoString.
From Stdlib Require Import String.
#[local] Open Scope string_scope. #[local] Open Scope list_scope. #[local] Open Scope Z_scope.

Definition w32 (z : Z) : Z := z mod 2 ^ 32.
Definition add32 (a b : Z) : Z := w32 (a + b).
Definition rotr (n x : Z) : Z := Z.lor (Z.shiftr x n) (w32 (Z.shiftl x (32 - n))).
Definition not32 (x : Z) : Z := 2 ^ 32 - 1 - x.

Definition ch (x y z : Z) : Z := Z.lxor (Z.land x y) (Z.land (not32 x) z).
Definition maj (x y z : Z) : Z :=
  Z.lxor (Z.lxor (Z.land x y) (Z.land x z)) (Z.land y z).
Definition big_sigma0 (x : Z) : Z := Z.lxor (Z.lxor (rotr 2 x) (rotr 13 x)) (rotr 22 x).
Definition big_sigma1 (x : Z) : Z := Z.lxor (Z.lxor (rotr 6 x) (rotr 11 x)) (rotr 25 x).
Definition small_sigma0 (x : Z) : Z :=
  Z.lxor (Z.lxor (rotr 7 x) (rotr 18 x)) (Z.shiftr x 3).
Definition small_sigma1 (x : Z) : Z :=
  Z.lxor (Z.lxor (rotr 17 x) (rotr 19 x)) (Z.shiftr x 10).

(** The constants are bits of the roots of the first primes: word [i] of the
    initial hash is the first 32 bits of the fraction of a square root, a
    round constant those of a cube root. *)
Definition is_prime (n : Z) : bool :=
  forallb (fun d => negb (n mod Z.of_nat d =? 0)) (seq 2 (Z.to_nat (Z.sqrt n) - 1)).

Definition primes : list Z :=
  Eval vm_compute in List.filter is_prime (map Z.of_nat (seq 2 310)).

(** The largest [r] below [2 ^ bits] with [r ^ 3 <= n], bit by bit. *)
Fixpoint cube_root (bits : nat) (n r : Z) : Z :=
  match bits with
  | O => r
  | S b => let r' := r + 2 ^ Z.of_nat b in cube_root b n (if r' ^ 3 <=? n then r' else r)
  end.

Definition round_constants : list Z :=
  Eval vm_compute in map (fun p => w32 (cube_root 36 (p * 2 ^ 96) 0)) primes.

Definition initial_hash : list Z :=
  Eval vm_compute in map (fun p => w32 (Z.sqrt (p * 2 ^ 64))) (firstn 8 primes).

(** The message schedule: the last sixteen words, most recent first. *)
Fixpoint schedule (n : nat) (recent : list Z) (acc : list Z) : list Z :=
  match n with
  | O => rev acc
  | S n' =>
      let w := add32 (add32 (small_sigma1 (nth 1 recent 0)) (nth 6 recent 0))
                     (add32 (small_sigma0 (nth 14 recent 0)) (nth 15 recent 0)) in
      schedule n' (w :: firstn 15 recent) (w :: acc)
  end.

Definition step (s : list Z) (kw : Z * Z) : list Z :=
  match s with
  | [a; b; c; d; e; f; g; h] =>
      let t1 := add32 (add32 (add32 h (big_sigma1 e)) (add32 (ch e f g) kw.1)) kw.2 in
      let t2 := add32 (big_sigma0 a) (maj a b c) in
      [add32 t1 t2; a; b; c; add32 d t1; e; f; g]
  | _ => s
  end.

Fixpoint words (l : list Z) : list Z :=
  match l with
  | a :: b :: c :: d :: r => (a * 2 ^ 24 + b * 2 ^ 16 + c * 2 ^ 8 + d) :: words r
  | _ => []
  end.

Definition compress (h : list Z) (block : list Z) : list Z :=
  let m := words block in
  let ws := m ++ schedule 48 (rev m) [] in
  map (fun p => add32 p.1 p.2) (combine h (fold_left step (combine round_constants ws) h)).

Definition be_bytes (n : nat) (z : Z) : list Z :=
  map (fun i => z / 256 ^ Z.of_nat i mod 256) (rev (seq 0 n)).

(** The message with its padding: a multiple of 64 bytes. *)
Definition padded (l : list Z) : list Z :=
  let n := List.length l in
  let zeros := Nat.modulo (119 - Nat.modulo n 64) 64 in
  l ++ [128] ++ repeat 0 zeros ++ be_bytes 8 (8 * Z.of_nat n).

Fixpoint blocks (fuel : nat) (l : list Z) (h : list Z) : list Z :=
  match fuel, l with
  | S fuel', _ :: _ => blocks fuel' (skipn 64 l) (compress h (firstn 64 l))
  | _, _ => h
  end.

(** [sha256.Sum256]; every block has 64 bytes, so the length is fuel enough. *)
Definition sum256 (l : list Z) : list Z :=
  let p := padded l in
  flat_map (be_bytes 4) (blocks (List.length p) p initial_hash).

(** [hex.EncodeToString(sha256.Sum256(...)[:])] *)
Definition sha256_hex (s : string) : string := hex_encode (sum256 (bytes_of s)).

(** The one-block and two-block test vectors of FIPS 180-4. *)
Example sha256_abc :
  sha256_hex "abc" = "ba7816bf8f01cfea414140de5dae2223b00361a396177a9cb410ff61f20015ad".
Proof. vm_compute. reflexivity. Qed.

Example sha256_two_blocks :
  sha256_hex "abcdbcdecdefdefgefghfghighijhijkijkljklmklmnlmnomnopnopq" =
  "248d6a61d20638b8e5c026930c3e6039a33ce45964ff2167f6ecedd419db06c1".
Proof. vm_compute. reflexivity. Qed.

(** ** Shape of a digest *)

Lemma be_bytes_range n z : Forall (fun b => 0 <= b < 256) (be_bytes n z).
Proof.
  unfold be_bytes. apply Forall_forall. intros b Hb.
  apply list_elem_of_In, in_map_iff in Hb as (i & <- & _). apply Z.mod_pos_bound. lia.
Qed.

Lemma sum256_range l : Forall (fun b => 0 <= b < 256) (sum256 l).
Proof.
  unfold sum256. apply Forall_forall. intros b Hb.
  apply list_elem_of_In, in_flat_map in Hb as (z & _ & Hb).
  pose proof (be_bytes_range 4 z) as H. rewrite Forall_forall in H.
  apply H. by apply list_elem_of_In.
Qed.

(** The hexadecimal digits. *)
Definition hex_byte (b : Z) : bool := ((48 <=? b) && (b <=? 57)) || ((97 <=? b) && (b <=? 102)).

Lemma sha256_hex_digits s : Forall (fun b => hex_byte b = true) (bytes_of (sha256_hex s)).
Proof.
  unfold sha256_hex, hex_encode, bytes_of. rewrite list_ascii_of_string_of_list_ascii.
  pose proof (sum256_range (map byte_val (list_ascii_of_string s))) as H.
  induction H as [|b l Hb _ IH]; simpl; [constructor|].
  assert (Hd : forall d, 0 <= d < 16 -> hex_byte (byte_val (hex_digit d)) = true).
  { intros d Hd. unfold hex_digit, hex_byte. destruct (Z.ltb_spec d 10); rewrite byte_val_byte; lia. }
  assert (0 <= b / 16 < 16) by (split; [apply Z.div_pos; lia|apply Z.div_lt_upper_bound; lia]).
  pose proof (Z.mod_pos_bound b 16 eq_refl). repeat constructor; auto.
Qed.

#[global] Opaque sha256_hex.
