(* ===== verification/Problem.v ===== *)
(** * Errors: [internal/pkg/problem] and the sentinel errors of the services

    [Details] is the error the services raise on purpose and the client sees.
    The other constructors of [error] are the errors a call can return that
    are not a [*problem.Details]. *)

From S2P Require Import Prelude GoInt GoString Json.
From Stdlib Require Import String.
#[local] Open Scope string_scope. #[local] Open Scope list_scope. #[local] Open Scope Z_scope.

Record Details := {
  Details_Type : string;
  Details_Title : string;
  Details_Status : Z;
  Details_Detail : string;
  Details_Instance : string;
  Details_ErrorCode : string;
  Details_RequestID : string;
  Details_Data : option json;
}.

(** [Details.Error] *)
Definition Details_Error (d : Details) : string :=
  if negb (String.eqb (Details_Detail d) "") then Details_Detail d else Details_Title d.

Definition New (status : Z) (code title detail : string) : Details := {|
  Details_Type := "https://api.jiuxiaoer.com/problems/" +:+ code;
  Details_Title := title;
  Details_Status := status;
  Details_Detail := detail;
  Details_Instance := "";
  Details_ErrorCode := code;
  Details_RequestID := "";
  Details_Data := None;
|}.

Inductive error : Type :=
| EProblem (d : Details)          (* a problem.Details *)
| ERecordNotFound                 (* gorm.ErrRecordNotFound *)
| EAssetRecordNotFound            (* core.ErrAssetRecordNotFound *)
| EMessage (msg : string).        (* errors.New, fmt.Errorf and driver errors *)

(** [err.Error()] *)
Definition error_text (e : error) : string :=
  match e with
  | EProblem d => Details_Error d
  | ERecordNotFound => "record not found"
  | EAssetRecordNotFound => "wine ticket asset record not found"
  | EMessage msg => msg
  end.

Definition Internal (detail : string) : error :=
  EProblem (New 500 "INTERNAL_ERROR" "Internal Error" detail).
Definition InvalidArgument (code detail : string) : error :=
  EProblem (New 400 code "Invalid Argument" detail).
Definition Unauthorized (code detail : string) : error :=
  EProblem (New 401 code "Unauthorized" detail).
Definition Forbidden (code detail : string) : error :=
  EProblem (New 403 code "Forbidden" detail).
Definition NotFound (code detail : string) : error :=
  EProblem (New 404 code "Not Found" detail).
Definition Conflict (code detail : string) : error :=
  EProblem (New 409 code "Conflict" detail).
Definition TooManyRequests (code detail : string) : error :=
  EProblem (New 429 code "Too Many Requests" detail).
Definition RequestTooLarge (code detail : string) : error :=
  EProblem (New 413 code "Request Entity Too Large" detail).
Definition GatewayTimeout (code detail : string) : error :=
  EProblem (New 504 code "Gateway Timeout" detail).

(** [FromError]: the error the HTTP layer shows for an error of a service. *)
Definition FromError (err : option error) : option Details :=
  match err with
  | None => None
  | Some (EProblem d) => Some d
  | Some _ => match Internal "internal server error" with
              | EProblem d => Some d
              | _ => None
              end
  end.

(** [errors.Is(err, gorm.ErrRecordNotFound)] *)
Definition is_record_not_found (e : error) : bool :=
  match e with ERecordNotFound => true | _ => false end.

(** [errors.Is(err, ErrAssetRecordNotFound)] *)
Definition is_asset_record_not_found (e : error) : bool :=
  match e with EAssetRecordNotFound => true | _ => false end.

(** The error code of a problem, [""] for any other error. *)
Definition error_code (e : error) : string :=
  match e with EProblem d => Details_ErrorCode d | _ => "" end.

Definition res (A : Type) : Type := result error A.
