(* ===== verification/Snowflake.v ===== *)
(** * Identifiers: [internal/pkg/snowflake]

    A [Generator] is the state the mutex guards; [Next] is the critical section
    of [Generator.Next], given the reading of the millisecond clock. *)

From S2P Require Import Prelude GoInt.
From Stdlib Require Import Sorted.

Record Generator := {
  lastMS : Z;
  sequence : Z;
  nodeID : Z;
  rollbacks : Z;
}.

Definition epochMS : Z := 1704067200000.

(** [New] panics on a node outside 0..1023. *)
Definition New (node : Z) : option Generator :=
  if (node <? 0) || (1023 <? node) then None
  else Some {| lastMS := 0; sequence := 0; nodeID := node; rollbacks := 0 |}.

Definition pack (ms node seq : Z) : Z :=
  u64 (Z.lor (Z.lor (i64 (Z.shiftl (i64 (ms - epochMS)) 22)) (Z.shiftl node 12)) seq).

Definition Next (nowMS0 : Z) (g : Generator) : Z * Generator :=
  let rolled := nowMS0 <? lastMS g in
  let rollbacks' := if rolled then uint_add (rollbacks g) 1 else rollbacks g in
  let nowMS := if rolled then lastMS g else nowMS0 in
  let '(nowMS, seq) :=
    if nowMS =? lastMS g then
      let seq := sequence g + 1 in
      if 0xfff <? seq then (lastMS g + 1, 0) else (nowMS, seq)
    else (nowMS, 0) in
  (pack nowMS (nodeID g) seq,
   {| lastMS := nowMS; sequence := seq; nodeID := nodeID g; rollbacks := rollbacks' |}).

Definition ClockRollbackCount (g : Generator) : Z := rollbacks g.

(** ** Correctness

    The generator is well formed when its node and sequence fit their fields,
    and its clock fits the 41 bits the identifier leaves for it. *)

Definition maxMS : Z := epochMS + 2 ^ 41.

Definition generator_ok (g : Generator) : Prop :=
  0 <= nodeID g < 1024 /\ 0 <= sequence g < 4096 /\ lastMS g < maxMS.

(** The value of an identifier whose clock part is in range. *)
Definition packed (ms node seq : Z) : Z := (ms - epochMS) * 2 ^ 22 + node * 2 ^ 12 + seq.

Lemma lor_disjoint a b n : 0 <= n -> 0 <= b < 2 ^ n -> Z.lor (Z.shiftl a n) b = a * 2 ^ n + b.
Proof.
  intros Hn Hb.
  assert (Hl : Z.land (Z.shiftl a n) b = 0).
  { apply Z.bits_inj'. intros i Hi. rewrite Z.land_spec, Z.bits_0, Z.shiftl_spec by lia.
    destruct (Z.ltb_spec i n) as [Hin|Hin].
    - now rewrite (Z.testbit_neg_r a) by lia.
    - rewrite <- (Z.mod_small b (2 ^ n)), Z.mod_pow2_bits_high by lia.
      apply andb_false_r. }
  pose proof (Z.add_lor_land (Z.shiftl a n) b) as H.
  rewrite Hl in H. rewrite <- Z.shiftl_mul_pow2 by lia. lia.
Qed.

Lemma pack_packed ms node seq :
  epochMS <= ms < maxMS -> 0 <= node < 1024 -> 0 <= seq < 4096 ->
  pack ms node seq = packed ms node seq.
Proof.
  intros Hms Hn Hs. unfold pack, packed, maxMS, epochMS in *.
  rewrite (i64_small (ms - _)) by int_range.
  rewrite i64_small by (rewrite Z.shiftl_mul_pow2; int_range).
  rewrite (lor_disjoint _ (Z.shiftl node 12)) by (rewrite ?Z.shiftl_mul_pow2; lia).
  rewrite (Z.shiftl_mul_pow2 node) by lia.
  replace ((ms - 1704067200000) * 2 ^ 22 + node * 2 ^ 12)
    with (Z.shiftl ((ms - 1704067200000) * 2 ^ 10 + node) 12)
    by (rewrite Z.shiftl_mul_pow2; lia).
  rewrite lor_disjoint by lia. rewrite Z.shiftl_mul_pow2 by lia.
  apply u64_small. int_range.
Qed.

(** One call: the clock part never goes back, the node is kept, and the pair
    of clock and sequence increases. *)
Lemma next_spec now g id g' :
  Next now g = (id, g') -> generator_ok g -> 0 <= lastMS g ->
  nodeID g' = nodeID g /\ 0 <= sequence g' < 4096 /\
  id = pack (lastMS g') (nodeID g) (sequence g') /\
  (lastMS g < lastMS g' \/ lastMS g' = lastMS g /\ sequence g' = sequence g + 1).
Proof.
  unfold Next, generator_ok. intros H (Hn & Hs & Hm) H0.
  destruct (Z.ltb_spec now (lastMS g)) as [Hr|Hr].
  - rewrite Z.eqb_refl in H.
    destruct (Z.ltb_spec 4095 (sequence g + 1)); simplify_eq/=; repeat split; lia.
  - destruct (Z.eqb_spec now (lastMS g)) as [->|Hne].
    + destruct (Z.ltb_spec 4095 (sequence g + 1)); simplify_eq/=; repeat split; lia.
    + simplify_eq/=. repeat split; lia.
Qed.

(** The identifiers a generator hands out while its clock is read as [nows]. *)
Fixpoint generate (nows : list Z) (g : Generator) : list Z * Generator :=
  match nows with
  | [] => ([], g)
  | n :: nows' =>
      let '(id, g1) := Next n g in
      let '(ids, g2) := generate nows' g1 in
      (id :: ids, g2)
  end.

(** The position of a generator in the order of its identifiers. *)
Definition stamp (g : Generator) : Z := packed (lastMS g) (nodeID g) (sequence g).

Lemma next_increases now g id g' :
  Next now g = (id, g') -> generator_ok g -> epochMS <= lastMS g -> lastMS g' < maxMS ->
  generator_ok g' /\ epochMS <= lastMS g' /\ id = stamp g' /\ stamp g < stamp g'.
Proof.
  intros H Hg He Hm.
  destruct (next_spec _ _ _ _ H Hg ltac:(unfold epochMS in *; lia)) as (Hn & Hs & -> & Hc).
  pose proof Hg as (Hn0 & Hs0 & Hm0). rewrite <- Hn in *.
  rewrite pack_packed by lia. unfold generator_ok, stamp, packed in *. lia.
Qed.

Lemma next_clock_mono now g id g' : Next now g = (id, g') -> lastMS g <= lastMS g'.
Proof.
  unfold Next. intros H.
  repeat match type of H with
  | context [if ?c then _ else _] => destruct c eqn:?
  end; simplify_eq/=; lia.
Qed.

Lemma generate_clock_mono nows : forall g ids g',
  generate nows g = (ids, g') -> lastMS g <= lastMS g'.
Proof.
  induction nows as [|n nows IH]; simpl; intros g ids g' H; [simplify_eq; lia|].
  destruct (Next n g) as [id g1] eqn:E1. destruct (generate nows g1) as [rest g2] eqn:E2.
  simplify_eq. apply next_clock_mono in E1. apply IH in E2. lia.
Qed.

Lemma generate_increasing nows : forall g ids g',
  generate nows g = (ids, g') -> generator_ok g -> epochMS <= lastMS g -> lastMS g' < maxMS ->
  generator_ok g' /\ Forall (fun id => stamp g < id) ids /\
  StronglySorted Z.lt ids.
Proof.
  induction nows as [|n nows IH]; simpl; intros g ids g' H Hg He Hm.
  - simplify_eq. repeat split; auto; try apply Hg. constructor.
  - destruct (Next n g) as [id g1] eqn:E1. destruct (generate nows g1) as [rest g2] eqn:E2.
    simplify_eq. pose proof (generate_clock_mono _ _ _ _ E2).
    destruct (next_increases _ _ _ _ E1 Hg He ltac:(lia)) as (Hg1 & He1 & -> & Hlt).
    destruct (IH _ _ _ E2 Hg1 He1 Hm) as (Hg' & Hall & Hsort).
    split; [done|]. split.
    + constructor; [lia|]. eapply Forall_impl; [exact Hall|]. simpl. lia.
    + constructor; [done|]. exact Hall.
Qed.

(** The fields of an identifier can be read back. *)
Definition id_node (id : Z) : Z := (id / 2 ^ 12) mod 2 ^ 10.

Lemma packed_fields ms node seq :
  epochMS <= ms < maxMS -> 0 <= node < 1024 -> 0 <= seq < 4096 ->
  in_u64 (packed ms node seq) /\ id_node (packed ms node seq) = node.
Proof.
  unfold packed, id_node, in_u64, u64_mod, maxMS, epochMS. intros Hm Hn Hs. split; [lia|].
  replace ((ms - 1704067200000) * 2 ^ 22 + node * 2 ^ 12 + seq)
    with (((ms - 1704067200000) * 2 ^ 10 + node) * 2 ^ 12 + seq) by lia.
  rewrite Z.div_add_l, (Z.div_small seq), Z.add_0_r by lia.
  rewrite Z.add_comm, Z.mod_add by lia. by apply Z.mod_small.
Qed.

Lemma generate_fields nows : forall g ids g',
  generate nows g = (ids, g') -> generator_ok g -> epochMS <= lastMS g -> lastMS g' < maxMS ->
  Forall (fun id => in_u64 id /\ id_node id = nodeID g) ids.
Proof.
  induction nows as [|n nows IH]; simpl; intros g ids g' H Hg He Hm; [simplify_eq; constructor|].
  destruct (Next n g) as [id g1] eqn:E1. destruct (generate nows g1) as [rest g2] eqn:E2.
  simplify_eq. pose proof (generate_clock_mono _ _ _ _ E2).
  destruct (next_increases _ _ _ _ E1 Hg He ltac:(lia)) as (Hg1 & He1 & -> & _).
  destruct (next_spec _ _ _ _ E1 Hg ltac:(unfold epochMS in *; lia)) as (Hn & _).
  rewrite <- Hn. constructor; [|by eapply IH].
  destruct Hg1 as (? & ? & ?). apply packed_fields; lia.
Qed.

(** C38: Whatever the clock reads after the first identifier, going back or
    standing still for however many calls, the identifiers of a generator
    strictly increase, fit 64 bits and carry its node, so that generators of
    different nodes never hand out the same one.  It holds from 2024 on, for
    as long as the clock part fits 41 bits. *)
Theorem identifiers_strictly_increase node g now nows ids g' :
  New node = Some g -> generate (now :: nows) g = (ids, g') ->
  epochMS <= now -> lastMS g' < maxMS ->
  StronglySorted Z.lt ids /\ Forall (fun id => in_u64 id /\ id_node id = node) ids.
Proof.
  intros Hnew H He Hm. unfold New in Hnew. destruct (_ || _) eqn:Hr; [done|].
  injection Hnew as <-. cbn [generate] in H.
  assert (Hp : 0 < now) by (unfold epochMS in He; lia).
  unfold Next in H. cbn [lastMS sequence nodeID rollbacks] in H.
  replace (now <? 0) with false in H by lia. replace (now =? 0) with false in H by lia.
  set (g1 := {| lastMS := now; sequence := 0; nodeID := node; rollbacks := 0 |}) in H.
  destruct (generate nows g1) as [rest g2] eqn:E. injection H as <- <-.
  pose proof (generate_clock_mono _ _ _ _ E) as Hc. cbn [lastMS g1] in Hc.
  assert (Hg1 : generator_ok g1) by (unfold generator_ok; cbn; lia).
  destruct (generate_increasing _ _ _ _ E Hg1 He Hm) as (_ & Hall & Hs).
  rewrite (pack_packed now node 0) by (cbn in Hc; lia).
  change (packed now node 0) with (stamp g1). split; [by constructor|].
  constructor; [|by apply (generate_fields _ _ _ _ E)].
  change (stamp g1) with (packed now node 0). apply packed_fields; cbn in Hc; lia.
Qed.

Lemma identifiers_strictly_increase_witness : exists g ids g',
  New 5 = Some g /\
  generate [1767225600000; 1767225600000; 1767225599000; 1767225600001] g = (ids, g') /\
  StronglySorted Z.lt ids.
Proof.
  eexists _, _, _. split; [reflexivity|]. split; [vm_compute; reflexivity|].
  eapply (proj1 (identifiers_strictly_increase 5 _ 1767225600000
    [1767225600000; 1767225599000; 1767225600001] _ _ eq_refl eq_refl _ _)).
  Unshelve. all: vm_compute; congruence.
Defined.
