(* ===== verification/RequestCtx.v ===== *)
(** * [internal/pkg/requestctx]: what a request's [context.Context] carries *)

From S2P Require Import Prelude GoInt GoString Sha256.
From Stdlib Require Import String.
#[local] Open Scope string_scope. #[local] Open Scope list_scope. #[local] Open Scope Z_scope.

(** The values of the four context keys; [""] when a key is not set. *)
Record Context := {
  ctx_request_id : string;
  ctx_ip : string;
  ctx_user_agent : string;
  ctx_account_id : string;
}.

Definition Background : Context :=
  {| ctx_request_id := ""; ctx_ip := ""; ctx_user_agent := ""; ctx_account_id := "" |}.

Definition WithRequestID (ctx : Context) (requestID : string) : Context :=
  if String.eqb requestID "" then ctx
  else {| ctx_request_id := requestID; ctx_ip := ctx_ip ctx;
          ctx_user_agent := ctx_user_agent ctx; ctx_account_id := ctx_account_id ctx |}.

Definition WithHTTPMeta (ctx : Context) (ip userAgent : string) : Context :=
  {| ctx_request_id := ctx_request_id ctx;
     ctx_ip := if String.eqb ip "" then ctx_ip ctx else ip;
     ctx_user_agent := if String.eqb userAgent "" then ctx_user_agent ctx else userAgent;
     ctx_account_id := ctx_account_id ctx |}.

Definition WithAccountID (ctx : Context) (accountID : string) : Context :=
  if String.eqb accountID "" then ctx
  else {| ctx_request_id := ctx_request_id ctx; ctx_ip := ctx_ip ctx;
          ctx_user_agent := ctx_user_agent ctx; ctx_account_id := accountID |}.

Definition RequestID (ctx : Context) : string := ctx_request_id ctx.
Definition IP (ctx : Context) : string := ctx_ip ctx.
Definition UserAgent (ctx : Context) : string := ctx_user_agent ctx.

(** Zero for an anonymous caller and for a value that is not a number;
    [strconv.ParseUint] saturates on overflow, and its error is dropped. *)
Definition AccountID (ctx : Context) : Z :=
  match ctx_account_id ctx with
  | EmptyString => 0
  | s => match parse_digits s 0 with
         | Some v => Z.min v max_uint
         | None => 0
         end
  end.

Definition stringPtr (value : string) : option string :=
  if String.eqb value "" then None else Some value.

Definition RequestIDPtr (ctx : Context) : option string := stringPtr (RequestID ctx).
Definition IPPtr (ctx : Context) : option string := stringPtr (IP ctx).

(** [securevalue.Digest] *)
Definition Digest (value : string) : string := sha256_hex value.

Definition IPHashPtr (ctx : Context) : option string :=
  if String.eqb (IP ctx) "" then None else Some (Digest (IP ctx)).

Definition UserAgentPtr (ctx : Context) : option string := stringPtr (UserAgent ctx).
