(* ===== verification/CoreModel.v ===== *)
(** * The shared data of the wine-ticket module: [wineticket/core]

    A lot is a batch of bottle entitlements of one owner; the transactions of
    a lot are its append-only ledger. *)

From S2P Require Import Prelude GoInt GoString GoTime Json Problem.
From Stdlib Require Import String.
#[local] Open Scope string_scope. #[local] Open Scope list_scope. #[local] Open Scope Z_scope.

Definition LotSourcePurchase : string := "purchase".
Definition LotSourceGift : string := "gift".

Definition LotStatusActive : string := "active".
Definition LotStatusDepleted : string := "depleted".
Definition LotStatusExpired : string := "expired".
Definition LotStatusRefunded : string := "refunded".

Definition TransactionTypePurchaseIssue : string := "purchase_issue".
Definition TransactionTypeRedemptionHold : string := "redemption_hold".
Definition TransactionTypeRedemptionRestore : string := "redemption_restore".
Definition TransactionTypeRedemptionReturnRestore : string := "redemption_return_restore".
Definition TransactionTypeRedemptionReturnExpire : string := "redemption_return_expire".
Definition TransactionTypeGiftHold : string := "gift_hold".
Definition TransactionTypeGiftClaim : string := "gift_claim".
Definition TransactionTypeGiftRestore : string := "gift_restore".
Definition TransactionTypeRefundHold : string := "refund_hold".
Definition TransactionTypeRefundRestore : string := "refund_restore".
Definition TransactionTypeExpiry : string := "expiry".

Definition MaxWineTicketAmount : Z := 100000000.
Definition MaxPurchaseQuantity : Z := 10000.

Record Lot := {
  Lot_ID : Z;
  Lot_LotNo : string;
  Lot_OwnerCustomerID : Z;
  Lot_PurchaseID : Z;
  Lot_SourceType : string;
  Lot_SourceLotID : option Z;
  Lot_SourceGiftID : option Z;
  Lot_IssuerMerchantID : Z;
  Lot_ProductID : Z;
  Lot_RedeemCityCode : string;
  Lot_TotalQuantity : Z;
  Lot_AvailableQuantity : Z;
  Lot_OriginalExpiresAt : time;
  Lot_ExpiresAt : time;
  Lot_ExpiryChangedAt : time;
  Lot_RenewalCount : Z;
  Lot_EverUsed : bool;
  Lot_Status : string;
  Lot_Version : Z;
  Lot_CreatedAt : time;
  Lot_UpdatedAt : time;
}.

Record Transaction := {
  Tx_ID : Z;
  Tx_TransactionNo : string;
  Tx_LotID : Z;
  Tx_OwnerCustomerID : Z;
  Tx_TransactionType : string;
  Tx_QuantityDelta : Z;
  Tx_BeforeAvailableQuantity : Z;
  Tx_AfterAvailableQuantity : Z;
  Tx_BizType : string;
  Tx_BizID : Z;
  Tx_ActionKey : string;
  Tx_MetadataJSON : json;
  Tx_RequestID : option string;
  Tx_CreatedAt : time;
}.

(** The fields of a lot that a change of its balance writes. *)
Definition lot_with_balance
    (lot : Lot) (available : Z) (status : string) (everUsed : bool) (version : Z)
    (updatedAt : time) : Lot := {|
  Lot_ID := Lot_ID lot;
  Lot_LotNo := Lot_LotNo lot;
  Lot_OwnerCustomerID := Lot_OwnerCustomerID lot;
  Lot_PurchaseID := Lot_PurchaseID lot;
  Lot_SourceType := Lot_SourceType lot;
  Lot_SourceLotID := Lot_SourceLotID lot;
  Lot_SourceGiftID := Lot_SourceGiftID lot;
  Lot_IssuerMerchantID := Lot_IssuerMerchantID lot;
  Lot_ProductID := Lot_ProductID lot;
  Lot_RedeemCityCode := Lot_RedeemCityCode lot;
  Lot_TotalQuantity := Lot_TotalQuantity lot;
  Lot_AvailableQuantity := available;
  Lot_OriginalExpiresAt := Lot_OriginalExpiresAt lot;
  Lot_ExpiresAt := Lot_ExpiresAt lot;
  Lot_ExpiryChangedAt := Lot_ExpiryChangedAt lot;
  Lot_RenewalCount := Lot_RenewalCount lot;
  Lot_EverUsed := everUsed;
  Lot_Status := status;
  Lot_Version := version;
  Lot_CreatedAt := Lot_CreatedAt lot;
  Lot_UpdatedAt := updatedAt;
|}.

(** ** Helpers of [core/support.go] *)

Definition IDString (value : Z) : string := format_uint value.

Definition OptionalIDString (value : option Z) : option string := IDString <$> value.

Definition NowShanghai (reading : time) : time := truncate_ms reading.

Definition FormatShanghai (value : time) : string := format_shanghai value.

Definition OptionalTimeString (value : option time) : option string :=
  FormatShanghai <$> value.

(** [^[A-Za-z0-9_-]+$] *)
Definition business_no_byte (b : Z) : bool :=
  ((65 <=? b) && (b <=? 90)) || ((97 <=? b) && (b <=? 122)) || ((48 <=? b) && (b <=? 57)) ||
  (b =? 95) || (b =? 45).

Definition businessNoPattern (value : string) : bool :=
  (1 <=? str_len value) && forallb business_no_byte (bytes_of value).

Definition ValidateBusinessNo (value fieldName : string) : res unit :=
  if (str_len value <? 1) || (64 <? str_len value) || negb (businessNoPattern value)
  then Err (InvalidArgument "VALIDATION_FAILED" ("invalid " +:+ fieldName))
  else Ok tt.

(** [json.Marshal] into a JSON column keeps the document. *)
Definition JSONData (value : json) : json := value.

Definition CloneJSON (value : option json) : option json := value.

(** ** Policies of [core/policy.go] *)

Record RefundPolicy := {
  Refund_SchemaVersion : Z;
  Refund_Enabled : bool;
  Refund_WindowHours : Z;
  Refund_RequireNeverUsed : bool;
  Refund_FeeAmount : Z;
}.

Record RenewalPolicy := {
  Renewal_SchemaVersion : Z;
  Renewal_Enabled : bool;
  Renewal_ExtensionDays : Z;
  Renewal_MaxCount : Z;
  Renewal_GraceDays : Z;
  Renewal_FeeAmount : Z;
}.

Record DeliveryPolicy := {
  Delivery_SchemaVersion : Z;
  Delivery_DeliveryFeeIncluded : bool;
  Delivery_DispatchLeadMinutes : Z;
}.

Definition RefundPolicySummary (policy : RefundPolicy) : string :=
  if negb (Refund_Enabled policy) then "不支持退款"
  else "支付后" +:+ format_int (Refund_WindowHours policy) +:+
       "小时内且酒票全部未使用可退款，手续费0元".

Definition DeliveryPolicySummary (policy : DeliveryPolicy) : string :=
  "配送费已包含，最晚提前" +:+ format_int (Delivery_DispatchLeadMinutes policy) +:+
  "分钟调度".

(** ** The ledger's balance equation *)

(** [ValidateAssetTransaction] *)
Definition ValidateAssetTransaction (t : Transaction) : res unit :=
  if Tx_QuantityDelta t =? 0
  then Err (EMessage "wine ticket transaction delta must not be zero")
  else
    let calculated := int_add (i64 (Tx_BeforeAvailableQuantity t)) (Tx_QuantityDelta t) in
    if (calculated <? 0) || negb (calculated =? i64 (Tx_AfterAvailableQuantity t))
    then Err (EMessage "wine ticket transaction balance equation is invalid")
    else Ok tt.
