(* ===== verification/AssetService.v ===== *)
(** * The asset core: [wineticket/core/asset_service.go]

    [AssetService] changes the balance of a lot and writes the ledger evidence
    of the change, in the transaction its caller opened.  It reaches the
    database only through the repository interface below, which the program
    declares for the same purpose; [LawfulRepository] states what an
    implementation promises, and the theorems of [AssetLedger] are proved
    against it. *)

From S2P Require Import Prelude GoInt GoString GoTime Json Problem RequestCtx CoreModel.
From Stdlib Require Import String.
#[local] Open Scope string_scope. #[local] Open Scope list_scope. #[local] Open Scope Z_scope.
#[local] Open Scope go_scope.

Record LotAssetChange := {
  Change_AvailableQuantity : Z;
  Change_Status : string;
  Change_EverUsed : bool;
  Change_SetEverUsed : bool;
  Change_UpdatedAt : time;
}.

Record AssetLedgerRepository (W : Type) := {
  TransactionByActionKey : string -> M W error Transaction;
  LockLot : Z -> M W error Lot;
  UpdateLot : Z -> Z -> LotAssetChange -> M W error bool;
  CreateTransaction : Transaction -> M W error unit;
}.
Arguments TransactionByActionKey {W}.
Arguments LockLot {W}.
Arguments UpdateLot {W}.
Arguments CreateTransaction {W}.

Record AssetIssuanceRepository (W : Type) := {
  ledger_repository :> AssetLedgerRepository W;
  CreateLot : Lot -> M W error unit;
}.
Arguments ledger_repository {W}.
Arguments CreateLot {W}.

Record AssetMutation := {
  Mutation_Lot : Lot;
  Mutation_Transactions : list Transaction;
  Mutation_Replayed : bool;
}.

Record AssetEvidence := {
  Evidence_TransactionType : string;
  Evidence_BizType : string;
  Evidence_BizID : Z;
  Evidence_ActionKey : string;
  Evidence_Metadata : json;
}.

Record AssetCommand := {
  Cmd_LotID : Z;
  Cmd_OwnerCustomerID : Z;
  Cmd_Quantity : Z;
  Cmd_MarkUsed : bool;
  Cmd_TransactionType : string;
  Cmd_BizType : string;
  Cmd_BizID : Z;
  Cmd_ActionKey : string;
  Cmd_Metadata : json;
  Cmd_OccurredAt : time;
  Cmd_ExpiryEvidence : option AssetEvidence;
}.

Record IssueCommand := {
  Issue_Lot : Lot;
  Issue_TransactionType : string;
  Issue_BizType : string;
  Issue_BizID : Z;
  Issue_ActionKey : string;
  Issue_Metadata : json;
  Issue_OccurredAt : time;
}.

Record TransferCommand := {
  Transfer_ReceiverLot : Lot;
  Transfer_TransactionType : string;
  Transfer_BizType : string;
  Transfer_BizID : Z;
  Transfer_ActionKey : string;
  Transfer_Metadata : json;
  Transfer_OccurredAt : time;
}.

Record ExpireCommand := {
  Expire_LotID : Z;
  Expire_OwnerCustomerID : Z;
  Expire_TransactionType : string;
  Expire_BizType : string;
  Expire_BizID : Z;
  Expire_ActionKey : string;
  Expire_Metadata : json;
  Expire_OccurredAt : time;
}.

(** The service holds an identifier generator and a clock, either of which
    may be missing. *)
Record AssetService (W : Type) := {
  svc_ids : option (M W error Z);
  svc_now : option (M W error time);
}.
Arguments svc_ids {W}.
Arguments svc_now {W}.

(** [NewAssetService]: the clock is [time.Now], [wall_clock] here. *)
Definition NewAssetService {W} (wall_clock : M W error time) (ids : M W error Z) : AssetService W :=
  {| svc_ids := Some ids; svc_now := Some wall_clock |}.

Definition WithClock {W} (s : AssetService W) (now : option (M W error time)) : AssetService W :=
  match now with
  | Some _ => {| svc_ids := svc_ids s; svc_now := now |}
  | None => s
  end.

Definition assetReplayConflict : error :=
  Conflict "WT_IDEMPOTENCY_CONFLICT"
    "wine ticket asset replay does not match the original mutation".

Definition concurrentAssetMutation : error :=
  Conflict "WT_CONCURRENT_MODIFICATION" "wine ticket lot changed concurrently".

Definition lotNotFound : error := NotFound "WT_LOT_NOT_FOUND" "wine ticket lot not found".

Definition validateAssetEvidence
    (transactionType bizType : string) (bizID : Z) (actionKey : string) : res unit :=
  if String.eqb transactionType "" || String.eqb bizType "" || (bizID =? 0) ||
     (str_len actionKey =? 0) || (160 <? str_len actionKey)
  then Err (Internal "wine ticket asset evidence is incomplete")
  else Ok tt.

Definition validateAssetCommand (command : AssetCommand) : res unit :=
  if (Cmd_LotID command =? 0) || (Cmd_OwnerCustomerID command =? 0) ||
     (Cmd_Quantity command =? 0)
  then Err (Internal "wine ticket asset command is incomplete")
  else validateAssetEvidence (Cmd_TransactionType command) (Cmd_BizType command)
         (Cmd_BizID command) (Cmd_ActionKey command).

Definition sameOptionalID (left right : option Z) : bool :=
  match left, right with
  | Some l, Some r => l =? r
  | None, None => true
  | _, _ => false
  end.

Definition sameLotLineage (actual expected : Lot) : bool :=
  (Lot_OwnerCustomerID actual =? Lot_OwnerCustomerID expected) &&
  (Lot_PurchaseID actual =? Lot_PurchaseID expected) &&
  String.eqb (Lot_SourceType actual) (Lot_SourceType expected) &&
  sameOptionalID (Lot_SourceLotID actual) (Lot_SourceLotID expected) &&
  sameOptionalID (Lot_SourceGiftID actual) (Lot_SourceGiftID expected) &&
  (Lot_IssuerMerchantID actual =? Lot_IssuerMerchantID expected) &&
  (Lot_ProductID actual =? Lot_ProductID expected) &&
  String.eqb (Lot_RedeemCityCode actual) (Lot_RedeemCityCode expected) &&
  (Lot_TotalQuantity actual =? Lot_TotalQuantity expected) &&
  time_equal (Lot_OriginalExpiresAt actual) (Lot_OriginalExpiresAt expected).

Definition restoreExpiryEvidence (command : AssetCommand) : AssetEvidence :=
  match Cmd_ExpiryEvidence command with
  | Some e => e
  | None => {|
      Evidence_TransactionType := TransactionTypeExpiry;
      Evidence_BizType := Cmd_BizType command;
      Evidence_BizID := Cmd_BizID command;
      Evidence_ActionKey := Cmd_ActionKey command +:+ ":expiry";
      Evidence_Metadata := JMap [("restore_action_key", JStr (Cmd_ActionKey command))];
    |}
  end.

(** A lot about to be inserted, with the defaults [Issue] fills in. *)
Definition issued_lot (lot : Lot) (newID : Z) (now : time) : Lot :=
  let id := if Lot_ID lot =? 0 then newID else Lot_ID lot in {|
  Lot_ID := id;
  Lot_LotNo := if String.eqb (Lot_LotNo lot) "" then "WTL" +:+ IDString id else Lot_LotNo lot;
  Lot_OwnerCustomerID := Lot_OwnerCustomerID lot;
  Lot_PurchaseID := Lot_PurchaseID lot;
  Lot_SourceType := Lot_SourceType lot;
  Lot_SourceLotID := Lot_SourceLotID lot;
  Lot_SourceGiftID := Lot_SourceGiftID lot;
  Lot_IssuerMerchantID := Lot_IssuerMerchantID lot;
  Lot_ProductID := Lot_ProductID lot;
  Lot_RedeemCityCode := Lot_RedeemCityCode lot;
  Lot_TotalQuantity := Lot_TotalQuantity lot;
  Lot_AvailableQuantity := Lot_AvailableQuantity lot;
  Lot_OriginalExpiresAt := Lot_OriginalExpiresAt lot;
  Lot_ExpiresAt := Lot_ExpiresAt lot;
  Lot_ExpiryChangedAt :=
    if is_zero (Lot_ExpiryChangedAt lot) then now else Lot_ExpiryChangedAt lot;
  Lot_RenewalCount := Lot_RenewalCount lot;
  Lot_EverUsed := Lot_EverUsed lot;
  Lot_Status := if String.eqb (Lot_Status lot) "" then LotStatusActive else Lot_Status lot;
  Lot_Version := if Lot_Version lot =? 0 then 1 else Lot_Version lot;
  Lot_CreatedAt := if is_zero (Lot_CreatedAt lot) then now else Lot_CreatedAt lot;
  Lot_UpdatedAt := now;
|}.

Section Service.
Context {W : Type}.
Implicit Types (s : AssetService W).

(** [(s).ready]: every operation first checks that it is configured; what
    the rest of the operation uses is then there. *)
Definition ready {R} s (repo : option R) : res (M W error Z * M W error time * R) :=
  match svc_ids s, svc_now s, repo with
  | Some ids, Some now, Some r => Ok (ids, now, r)
  | _, _, _ => Err (Internal "wine ticket asset service is not configured")
  end.

(** The time of a change: the caller's, or the clock's when it has none, on
    the millisecond. *)
Definition occurredAt (now : M W error time) (value : time) : M W error time :=
  if is_zero value then reading <- now ;; ret (NowShanghai reading)
  else ret (truncate_ms value).

Definition newTransaction
    (ids : M W error Z) (ctx : Context) (lot : Lot) (transactionType : string)
    (delta before after : Z) (bizType : string) (bizID : Z) (actionKey : string)
    (metadata : json) (now : time) : M W error Transaction :=
  id <- ids ;;
  ret {|
    Tx_ID := id;
    Tx_TransactionNo := "WTT" +:+ IDString id;
    Tx_LotID := Lot_ID lot;
    Tx_OwnerCustomerID := Lot_OwnerCustomerID lot;
    Tx_TransactionType := transactionType;
    Tx_QuantityDelta := delta;
    Tx_BeforeAvailableQuantity := before;
    Tx_AfterAvailableQuantity := after;
    Tx_BizType := bizType;
    Tx_BizID := bizID;
    Tx_ActionKey := actionKey;
    Tx_MetadataJSON := JSONData metadata;
    Tx_RequestID := RequestIDPtr ctx;
    Tx_CreatedAt := now;
  |}.

(** [replayAssetMutation]: [None] when the action key is new. *)
Definition replayAssetMutation
    (repo : AssetLedgerRepository W) (actionKey : string) (lotID : Z)
    (transactionType bizType : string) (bizID delta : Z)
    : M W error (option AssetMutation) :=
  r <- attempt (TransactionByActionKey repo actionKey) ;;
  match r with
  | Err e => if is_asset_record_not_found e then ret None else throw e
  | Ok existing =>
      fail_if ((negb (lotID =? 0) && negb (Tx_LotID existing =? lotID)) ||
               negb (String.eqb (Tx_TransactionType existing) transactionType) ||
               negb (String.eqb (Tx_BizType existing) bizType) ||
               negb (Tx_BizID existing =? bizID) ||
               negb (Tx_QuantityDelta existing =? delta))
        (Conflict "WT_IDEMPOTENCY_CONFLICT"
           "wine ticket asset action key was used by another mutation") ;;;
      lot <- LockLot repo (Tx_LotID existing) ;;
      ret (Some {| Mutation_Lot := lot; Mutation_Transactions := [existing];
                   Mutation_Replayed := true |})
  end.

(** [replay.Transactions[0]] of a replay, which always has one. *)
Definition first_transaction (m : AssetMutation) (k : Transaction -> M W error AssetMutation)
    : M W error AssetMutation :=
  match Mutation_Transactions m with
  | t :: _ => k t
  | [] => throw (EMessage "runtime error: index out of range [0] with length 0")
  end.

(** [replayIssueAssetMutation] *)
Definition replayIssueAssetMutation
    (repo : AssetLedgerRepository W) (command : IssueCommand)
    : M W error (option AssetMutation) :=
  let lot := Issue_Lot command in
  replay <- replayAssetMutation repo (Issue_ActionKey command) (Lot_ID lot)
              (Issue_TransactionType command) (Issue_BizType command)
              (Issue_BizID command) (i64 (Lot_TotalQuantity lot)) ;;
  match replay with
  | None => ret None
  | Some m =>
      m' <- first_transaction m (fun issuance =>
        fail_if (negb (Tx_OwnerCustomerID issuance =? Lot_OwnerCustomerID lot) ||
                 negb (Tx_BeforeAvailableQuantity issuance =? 0) ||
                 negb (Tx_AfterAvailableQuantity issuance =? Lot_TotalQuantity lot) ||
                 negb (sameLotLineage (Mutation_Lot m) lot))
          assetReplayConflict ;;;
        ret m) ;;
      ret (Some m')
  end.

(** [LockLot], with a missing lot reported as a problem. *)
Definition lockLotOrNotFound (repo : AssetLedgerRepository W) (lotID : Z) : M W error Lot :=
  r <- attempt (LockLot repo lotID) ;;
  match r with
  | Ok lot => ret lot
  | Err e => throw (if is_asset_record_not_found e then lotNotFound else e)
  end.

(** [Issue] *)
Definition Issue s (ctx : Context) (repo0 : option (AssetIssuanceRepository W))
    (command : IssueCommand) : M W error AssetMutation :=
  deps <- lift (ready s repo0) ;;
  let '(ids, now_, repo) := deps in
  let lot0 := Issue_Lot command in
  fail_if ((Lot_TotalQuantity lot0 =? 0) ||
           negb (Lot_AvailableQuantity lot0 =? Lot_TotalQuantity lot0))
    (Internal "issued wine ticket lot must start with a positive full balance") ;;;
  fail_if ((Lot_OwnerCustomerID lot0 =? 0) || (Lot_PurchaseID lot0 =? 0) ||
           (Lot_ProductID lot0 =? 0) || (Lot_IssuerMerchantID lot0 =? 0))
    (Internal "issued wine ticket lot lineage is incomplete") ;;;
  lift (validateAssetEvidence (Issue_TransactionType command) (Issue_BizType command)
          (Issue_BizID command) (Issue_ActionKey command)) ;;;
  fail_if (is_zero (Lot_OriginalExpiresAt lot0) || is_zero (Lot_ExpiresAt lot0) ||
           before (Lot_ExpiresAt lot0) (Lot_OriginalExpiresAt lot0))
    (Internal "issued wine ticket lot expiry is invalid") ;;;
  replay <- replayIssueAssetMutation repo command ;;
  match replay with
  | Some m => ret m
  | None =>
      now <- occurredAt now_ (Issue_OccurredAt command) ;;
      newID <- (if Lot_ID lot0 =? 0 then ids else ret 0) ;;
      let lot := issued_lot lot0 newID now in
      CreateLot repo lot ;;;
      transaction <- newTransaction ids ctx lot (Issue_TransactionType command)
                       (i64 (Lot_TotalQuantity lot)) 0 (Lot_TotalQuantity lot)
                       (Issue_BizType command) (Issue_BizID command)
                       (Issue_ActionKey command) (Issue_Metadata command) now ;;
      CreateTransaction repo transaction ;;;
      ret {| Mutation_Lot := lot; Mutation_Transactions := [transaction];
             Mutation_Replayed := false |}
  end.

(** [debit]: the guarded deduction shared by [Freeze] and [Redeem]. *)
Definition debit s (ctx : Context) (repo0 : option (AssetLedgerRepository W))
    (command : AssetCommand) (markUsed : bool) : M W error AssetMutation :=
  deps <- lift (ready s repo0) ;;
  let '(ids, now_, repo) := deps in
  lift (validateAssetCommand command) ;;;
  let delta := int_neg (i64 (Cmd_Quantity command)) in
  replay <- replayAssetMutation repo (Cmd_ActionKey command) (Cmd_LotID command)
              (Cmd_TransactionType command) (Cmd_BizType command) (Cmd_BizID command)
              delta ;;
  match replay with
  | Some m =>
      first_transaction m (fun transaction =>
        fail_if
          (negb (Tx_OwnerCustomerID transaction =? Cmd_OwnerCustomerID command) ||
           negb (Lot_OwnerCustomerID (Mutation_Lot m) =? Cmd_OwnerCustomerID command) ||
           (Tx_BeforeAvailableQuantity transaction <? Tx_AfterAvailableQuantity transaction) ||
           negb (uint_sub (Tx_BeforeAvailableQuantity transaction)
                          (Tx_AfterAvailableQuantity transaction) =? Cmd_Quantity command))
          assetReplayConflict ;;;
        ret m)
  | None =>
      lot <- lockLotOrNotFound repo (Cmd_LotID command) ;;
      now <- occurredAt now_ (Cmd_OccurredAt command) ;;
      fail_if (negb (Lot_OwnerCustomerID lot =? Cmd_OwnerCustomerID command)) lotNotFound ;;;
      fail_if (negb (String.eqb (Lot_Status lot) LotStatusActive) ||
               negb (after (Lot_ExpiresAt lot) now) ||
               (Lot_AvailableQuantity lot <? Cmd_Quantity command))
        (Conflict "WT_INSUFFICIENT_AVAILABLE_QUANTITY"
           "wine ticket available quantity is insufficient") ;;;
      let rest := uint_sub (Lot_AvailableQuantity lot) (Cmd_Quantity command) in
      let status := if rest =? 0 then LotStatusDepleted else LotStatusActive in
      changed <- UpdateLot repo (Lot_ID lot) (Lot_Version lot)
                   {| Change_AvailableQuantity := rest;
                      Change_Status := status;
                      Change_EverUsed := markUsed || Lot_EverUsed lot;
                      Change_SetEverUsed := markUsed;
                      Change_UpdatedAt := now |} ;;
      fail_if (negb changed) concurrentAssetMutation ;;;
      transaction <- newTransaction ids ctx lot (Cmd_TransactionType command) delta
                       (Lot_AvailableQuantity lot) rest (Cmd_BizType command)
                       (Cmd_BizID command) (Cmd_ActionKey command) (Cmd_Metadata command)
                       now ;;
      CreateTransaction repo transaction ;;;
      ret {| Mutation_Lot :=
               lot_with_balance lot rest status (markUsed || Lot_EverUsed lot)
                 (uint_add (Lot_Version lot) 1) now;
             Mutation_Transactions := [transaction];
             Mutation_Replayed := false |}
  end.

Definition Freeze s ctx repo (command : AssetCommand) : M W error AssetMutation :=
  debit s ctx repo command (Cmd_MarkUsed command).

Definition Redeem s ctx repo (command : AssetCommand) : M W error AssetMutation :=
  debit s ctx repo command true.

Definition Transfer s (ctx : Context) (repo : option (AssetIssuanceRepository W))
    (command : TransferCommand) : M W error AssetMutation :=
  let lot := Transfer_ReceiverLot command in
  fail_if (negb (String.eqb (Lot_SourceType lot) LotSourceGift) ||
           bool_decide (Lot_SourceLotID lot = None) ||
           bool_decide (Lot_SourceGiftID lot = None))
    (Internal "transferred wine ticket lot lineage is incomplete") ;;;
  Issue s ctx repo {|
    Issue_Lot := lot;
    Issue_TransactionType := Transfer_TransactionType command;
    Issue_BizType := Transfer_BizType command;
    Issue_BizID := Transfer_BizID command;
    Issue_ActionKey := Transfer_ActionKey command;
    Issue_Metadata := Transfer_Metadata command;
    Issue_OccurredAt := Transfer_OccurredAt command |}.

(** [validateRestoreReplay] *)
Definition validateRestoreReplay (repo : AssetLedgerRepository W) (command : AssetCommand)
    (replay : AssetMutation) : M W error AssetMutation :=
  first_transaction replay (fun restore =>
  let lot := Mutation_Lot replay in
  fail_if (negb (Tx_OwnerCustomerID restore =? Cmd_OwnerCustomerID command) ||
           negb (Lot_OwnerCustomerID lot =? Cmd_OwnerCustomerID command) ||
           negb (uint_add (Tx_BeforeAvailableQuantity restore) (Cmd_Quantity command) =?
                 Tx_AfterAvailableQuantity restore))
    assetReplayConflict ;;;
  if after (Lot_ExpiresAt lot) (Tx_CreatedAt restore) then ret replay
  else
    let evidence := restoreExpiryEvidence command in
    lift (validateAssetEvidence (Evidence_TransactionType evidence)
            (Evidence_BizType evidence) (Evidence_BizID evidence)
            (Evidence_ActionKey evidence)) ;;;
    r <- attempt (TransactionByActionKey repo (Evidence_ActionKey evidence)) ;;
    match r with
    | Err e => throw (if is_asset_record_not_found e then assetReplayConflict else e)
    | Ok expiry =>
        fail_if
          (negb (Tx_LotID expiry =? Tx_LotID restore) ||
           negb (Tx_OwnerCustomerID expiry =? Cmd_OwnerCustomerID command) ||
           negb (String.eqb (Tx_TransactionType expiry) (Evidence_TransactionType evidence)) ||
           negb (String.eqb (Tx_BizType expiry) (Evidence_BizType evidence)) ||
           negb (Tx_BizID expiry =? Evidence_BizID evidence) ||
           negb (Tx_QuantityDelta expiry =? int_neg (i64 (Tx_AfterAvailableQuantity restore))) ||
           negb (Tx_BeforeAvailableQuantity expiry =? Tx_AfterAvailableQuantity restore) ||
           negb (Tx_AfterAvailableQuantity expiry =? 0) ||
           negb (time_equal (Tx_CreatedAt expiry) (Tx_CreatedAt restore)) ||
           negb (Lot_AvailableQuantity lot =? 0) ||
           negb (String.eqb (Lot_Status lot) LotStatusExpired))
          assetReplayConflict ;;;
        ret {| Mutation_Lot := lot;
               Mutation_Transactions := Mutation_Transactions replay ++ [expiry];
               Mutation_Replayed := Mutation_Replayed replay |}
    end).

(** The second half of [Restore] on an expired lot: the balance just
    returned is taken out again with its own evidence. *)
Definition restoreExpiry (ids : M W error Z) (ctx : Context) (repo : AssetLedgerRepository W)
    (lot : Lot) (restored : Z) (evidence : AssetEvidence) (now : time)
    : M W error (Lot * Transaction) :=
  changed <- UpdateLot repo (Lot_ID lot) (Lot_Version lot)
               {| Change_AvailableQuantity := 0;
                  Change_Status := LotStatusExpired;
                  Change_EverUsed := false;
                  Change_SetEverUsed := false;
                  Change_UpdatedAt := now |} ;;
  fail_if (negb changed) concurrentAssetMutation ;;;
  expiry <- newTransaction ids ctx lot (Evidence_TransactionType evidence)
              (int_neg (i64 restored)) restored 0 (Evidence_BizType evidence)
              (Evidence_BizID evidence) (Evidence_ActionKey evidence)
              (Evidence_Metadata evidence) now ;;
  CreateTransaction repo expiry ;;;
  ret (lot_with_balance lot 0 LotStatusExpired (Lot_EverUsed lot)
         (uint_add (Lot_Version lot) 1) (Lot_UpdatedAt lot), expiry).

(** [Restore] *)
Definition Restore s (ctx : Context) (repo0 : option (AssetLedgerRepository W))
    (command : AssetCommand) : M W error AssetMutation :=
  deps <- lift (ready s repo0) ;;
  let '(ids, now_, repo) := deps in
  lift (validateAssetCommand command) ;;;
  replay <- replayAssetMutation repo (Cmd_ActionKey command) (Cmd_LotID command)
              (Cmd_TransactionType command) (Cmd_BizType command) (Cmd_BizID command)
              (i64 (Cmd_Quantity command)) ;;
  match replay with
  | Some m => validateRestoreReplay repo command m
  | None =>
      lot <- lockLotOrNotFound repo (Cmd_LotID command) ;;
      fail_if (String.eqb (Lot_Status lot) LotStatusRefunded)
        (Conflict "WT_LOT_INVALID_STATUS" "refunded wine ticket lot cannot be restored") ;;;
      fail_if (negb (Lot_OwnerCustomerID lot =? Cmd_OwnerCustomerID command) ||
               (uint_sub (Lot_TotalQuantity lot) (Lot_AvailableQuantity lot) <?
                Cmd_Quantity command))
        (Internal "wine ticket restore would exceed lot quantity") ;;;
      now <- occurredAt now_ (Cmd_OccurredAt command) ;;
      let restored := uint_add (Lot_AvailableQuantity lot) (Cmd_Quantity command) in
      let expired := negb (after (Lot_ExpiresAt lot) now) in
      let evidence := restoreExpiryEvidence command in
      (if expired then
         lift (validateAssetEvidence (Evidence_TransactionType evidence)
                 (Evidence_BizType evidence) (Evidence_BizID evidence)
                 (Evidence_ActionKey evidence))
       else ret tt) ;;;
      changed <- UpdateLot repo (Lot_ID lot) (Lot_Version lot)
                   {| Change_AvailableQuantity := restored;
                      Change_Status := LotStatusActive;
                      Change_EverUsed := false;
                      Change_SetEverUsed := false;
                      Change_UpdatedAt := now |} ;;
      fail_if (negb changed) concurrentAssetMutation ;;;
      restore <- newTransaction ids ctx lot (Cmd_TransactionType command)
                   (i64 (Cmd_Quantity command)) (Lot_AvailableQuantity lot) restored
                   (Cmd_BizType command) (Cmd_BizID command) (Cmd_ActionKey command)
                   (Cmd_Metadata command) now ;;
      CreateTransaction repo restore ;;;
      let lot1 := lot_with_balance lot restored LotStatusActive (Lot_EverUsed lot)
                    (uint_add (Lot_Version lot) 1) now in
      if expired then
        out <- restoreExpiry ids ctx repo lot1 restored evidence now ;;
        ret {| Mutation_Lot := out.1; Mutation_Transactions := [restore; out.2];
               Mutation_Replayed := false |}
      else
        ret {| Mutation_Lot := lot1; Mutation_Transactions := [restore];
               Mutation_Replayed := false |}
  end.

(** The branch of [Expire] that finds its action key in the ledger. *)
Definition replayExpire (repo : AssetLedgerRepository W) (command : ExpireCommand)
    (existing : Transaction) : M W error AssetMutation :=
  fail_if
    (negb (Tx_LotID existing =? Expire_LotID command) ||
     negb (Tx_OwnerCustomerID existing =? Expire_OwnerCustomerID command) ||
     negb (String.eqb (Tx_TransactionType existing) (Expire_TransactionType command)) ||
     negb (String.eqb (Tx_BizType existing) (Expire_BizType command)) ||
     negb (Tx_BizID existing =? Expire_BizID command) ||
     (0 <=? Tx_QuantityDelta existing) ||
     (Tx_BeforeAvailableQuantity existing =? 0) ||
     negb (Tx_QuantityDelta existing =? int_neg (i64 (Tx_BeforeAvailableQuantity existing))) ||
     negb (Tx_AfterAvailableQuantity existing =? 0))
    (Conflict "WT_EXPIRY_LEDGER_CONFLICT"
       "wine ticket expiry action key was used by another mutation") ;;;
  lot <- LockLot repo (Tx_LotID existing) ;;
  fail_if (negb (Lot_ID lot =? Expire_LotID command) ||
           negb (Lot_OwnerCustomerID lot =? Expire_OwnerCustomerID command) ||
           negb (Lot_AvailableQuantity lot =? 0) ||
           negb (String.eqb (Lot_Status lot) LotStatusExpired))
    (Conflict "WT_EXPIRY_LEDGER_CONFLICT"
       "wine ticket expiry replay does not match the terminal lot") ;;;
  ret {| Mutation_Lot := lot; Mutation_Transactions := [existing];
         Mutation_Replayed := true |}.

(** [Expire] *)
Definition Expire s (ctx : Context) (repo0 : option (AssetLedgerRepository W))
    (command : ExpireCommand) : M W error AssetMutation :=
  deps <- lift (ready s repo0) ;;
  let '(ids, now_, repo) := deps in
  fail_if ((Expire_LotID command =? 0) || (Expire_OwnerCustomerID command =? 0))
    (Internal "wine ticket expiry command is incomplete") ;;;
  lift (validateAssetEvidence (Expire_TransactionType command) (Expire_BizType command)
          (Expire_BizID command) (Expire_ActionKey command)) ;;;
  r <- attempt (TransactionByActionKey repo (Expire_ActionKey command)) ;;
  match r with
  | Ok existing => replayExpire repo command existing
  | Err e =>
      fail_if (negb (is_asset_record_not_found e)) e ;;;
      lot <- lockLotOrNotFound repo (Expire_LotID command) ;;
      fail_if (negb (Lot_OwnerCustomerID lot =? Expire_OwnerCustomerID command)) lotNotFound ;;;
      now <- occurredAt now_ (Expire_OccurredAt command) ;;
      fail_if (after (Lot_ExpiresAt lot) now)
        (Conflict "WT_LOT_NOT_EXPIRED" "wine ticket lot is not expired") ;;;
      fail_if (String.eqb (Lot_Status lot) LotStatusRefunded)
        (Conflict "WT_LOT_INVALID_STATUS" "refunded wine ticket lot cannot expire") ;;;
      if (Lot_AvailableQuantity lot =? 0) && String.eqb (Lot_Status lot) LotStatusExpired then
        ret {| Mutation_Lot := lot; Mutation_Transactions := []; Mutation_Replayed := true |}
      else
        fail_if (negb (String.eqb (Lot_Status lot) LotStatusActive) &&
                 negb (String.eqb (Lot_Status lot) LotStatusDepleted))
          (Conflict "WT_LOT_INVALID_STATUS"
             "wine ticket lot cannot enter expired status") ;;;
        let before := Lot_AvailableQuantity lot in
        changed <- UpdateLot repo (Lot_ID lot) (Lot_Version lot)
                     {| Change_AvailableQuantity := 0;
                        Change_Status := LotStatusExpired;
                        Change_EverUsed := false;
                        Change_SetEverUsed := false;
                        Change_UpdatedAt := now |} ;;
        fail_if (negb changed) concurrentAssetMutation ;;;
        let lot1 := lot_with_balance lot 0 LotStatusExpired (Lot_EverUsed lot)
                      (uint_add (Lot_Version lot) 1) now in
        if before =? 0 then
          ret {| Mutation_Lot := lot1; Mutation_Transactions := [];
                 Mutation_Replayed := false |}
        else
          transaction <- newTransaction ids ctx lot1 (Expire_TransactionType command)
                           (int_neg (i64 before)) before 0 (Expire_BizType command)
                           (Expire_BizID command) (Expire_ActionKey command)
                           (Expire_Metadata command) now ;;
          CreateTransaction repo transaction ;;;
          ret {| Mutation_Lot := lot1; Mutation_Transactions := [transaction];
                 Mutation_Replayed := false |}
  end.
End Service.
