(* ===== verification/GiftModel.v ===== *)
(** * Rows of the gift, redemption and refund tables

    [wineticket/gift/model.go], and the allocation rows of
    [wineticket/redemption/model.go] and [wineticket/refund/model.go]. *)

From S2P Require Import Prelude GoInt GoString GoTime.
From Stdlib Require Import String.
#[local] Open Scope string_scope. #[local] Open Scope list_scope. #[local] Open Scope Z_scope.

Record Gift := {
  Gift_ID : Z;
  Gift_GiftNo : string;
  Gift_GiverCustomerID : Z;
  Gift_ReceiverCustomerID : option Z;
  Gift_IssuerMerchantID : Z;
  Gift_ProductID : Z;
  Gift_RedeemCityCode : string;
  Gift_Quantity : Z;
  Gift_Message : option string;
  Gift_Status : string;
  Gift_ClaimDeadline : time;
  Gift_EarliestExpiresAt : time;
  Gift_Version : Z;
  Gift_ClaimedAt : option time;
  Gift_CancelledAt : option time;
  Gift_ReturnedAt : option time;
  Gift_CreatedAt : time;
  Gift_UpdatedAt : time;
}.

Record GiftAllocation := {
  GA_ID : Z;
  GA_GiftID : Z;
  GA_SourceLotID : Z;
  GA_ReceiverLotID : option Z;
  GA_Quantity : Z;
  GA_SourceExpiresAt : time;
  GA_Status : string;
  GA_CreatedAt : time;
  GA_UpdatedAt : time;
}.

Record GiftClaimToken := {
  Token_ID : Z;
  Token_GiftID : Z;
  Token_TokenDigest : string;
  Token_IssuedByCustomerID : Z;
  Token_ExpiresAt : time;
  Token_ConsumedAt : option time;
  Token_RevokedAt : option time;
  Token_RequestID : option string;
  Token_CreatedAt : time;
}.

(** The columns of [wine_ticket_renewals] the renewal guards read. *)
Record RenewalGuard := {
  RG_ID : Z;
  RG_LotID : Z;
  RG_Status : string;
}.

Record RedemptionAllocation := {
  RA_ID : Z;
  RA_RedemptionID : Z;
  RA_LotID : Z;
  RA_Quantity : Z;
  RA_SourceExpiresAt : time;
  RA_Status : string;
  RA_CreatedAt : time;
  RA_UpdatedAt : time;
}.

Record RefundAllocation := {
  FA_ID : Z;
  FA_WineTicketRefundID : Z;
  FA_LotID : Z;
  FA_Quantity : Z;
  FA_SourceExpiresAt : time;
  FA_Status : string;
  FA_CreatedAt : time;
  FA_UpdatedAt : time;
}.
