(* ===== verification/RedemptionModel.v ===== *)
(** * Rows of the redemption component and of what it shares with the orders

    [wineticket/redemption/model.go], the rows of [order/model.go] a
    redemption creates, and the rows of [dispatch/model.go] its cancellation
    changes.  Of the shop tables only the columns the redemption queries read
    appear. *)

From S2P Require Import Prelude GoInt GoString GoTime Json.
From Stdlib Require Import String.
#[local] Open Scope string_scope. #[local] Open Scope list_scope. #[local] Open Scope Z_scope.

Definition RedemptionStatusScheduled : string := "scheduled".
Definition RedemptionStatusAssigned : string := "assigned".
Definition RedemptionStatusPickedUp : string := "picked_up".
Definition RedemptionStatusDelivered : string := "delivered".
Definition RedemptionStatusCancelled : string := "cancelled".
Definition RedemptionStatusReturnInProgress : string := "return_in_progress".
Definition RedemptionStatusRestored : string := "restored".
Definition RedemptionStatusException : string := "exception".

Definition RedemptionAllocationStatusHeld : string := "held".
Definition RedemptionAllocationStatusConsumed : string := "consumed".
Definition RedemptionAllocationStatusRestored : string := "restored".

Definition redemptionOrderType : string := "wine_ticket_redemption".
Definition redemptionSettlementMode : string := "wine_ticket".
Definition redemptionPayStatus : string := "not_required".
Definition redemptionQuantityMax : Z := 1000.
Definition redemptionRemarkRuneMax : Z := 200.
Definition redemptionDispatchLead : Z := 30 * 60 * second.

(** A SQL DATE is its number of days since 1970-01-01; a SQL TIME is the text
    the driver hands over. *)
Record DeliveryTimeSlot := {
  Slot_ID : Z;
  Slot_ShopID : Z;
  Slot_ServiceDate : Z;
  Slot_StartTime : string;
  Slot_EndTime : string;
  Slot_CutoffAt : time;
  Slot_CapacityOrders : Z;
  Slot_ReservedOrders : Z;
  Slot_Status : string;
  Slot_Version : Z;
  Slot_UpdatedAt : time;
}.

Record Redemption := {
  Red_ID : Z;
  Red_RedemptionNo : string;
  Red_CustomerID : Z;
  Red_IssuerMerchantID : Z;
  Red_ProductID : Z;
  Red_ShopID : Z;
  Red_ShopProductID : Z;
  Red_DeliveryTimeSlotID : Z;
  Red_OrderID : Z;
  Red_Quantity : Z;
  Red_AddressID : Z;
  Red_AddressVersion : Z;
  Red_AddressSnapshot : json;
  Red_DeliveryTimeSlotSnapshot : json;
  Red_ProductSnapshot : json;
  Red_Status : string;
  Red_Version : Z;
  Red_ScheduledStartAt : time;
  Red_ScheduledEndAt : time;
  Red_NotBeforeAt : time;
  Red_PickedUpAt : option time;
  Red_CompletedAt : option time;
  Red_CancelledAt : option time;
  Red_RestoredAt : option time;
  Red_CreatedAt : time;
  Red_UpdatedAt : time;
}.

(** A coordinate is a DECIMAL(10,7): its number of units of 10^-7 degrees. *)
Record redemptionAddressRecord := {
  Addr_ID : Z;
  Addr_CustomerID : Z;
  Addr_ContactName : string;
  Addr_ContactPhone : string;
  Addr_Province : string;
  Addr_City : string;
  Addr_CityCode : option string;
  Addr_District : string;
  Addr_DistrictCode : option string;
  Addr_AddressDetail : string;
  Addr_Doorplate : option string;
  Addr_POIID : option string;
  Addr_FormattedAddress : option string;
  Addr_Latitude : option Z;
  Addr_Longitude : option Z;
  Addr_CoordinateSystem : string;
  Addr_LocationSource : string;
  Addr_GeocodeProvider : option string;
  Addr_GeocodeStatus : string;
  Addr_Version : Z;
  Addr_DeletedAt : option time;
}.

Record Shop := {
  Shop_ID : Z;
  Shop_MerchantID : Z;
  Shop_Name : string;
  Shop_Status : string;
  Shop_BusinessStatus : string;
  Shop_DeletedAt : option time;
}.

Record Merchant := {
  Merchant_ID : Z;
  Merchant_Name : string;
  Merchant_Status : string;
  Merchant_ReviewStatus : string;
  Merchant_DeletedAt : option time;
}.

Record ShopProduct := {
  SP_ID : Z;
  SP_MerchantID : Z;
  SP_ShopID : Z;
  SP_ProductID : Z;
  SP_Status : string;
  SP_DeletedAt : option time;
}.

Record Category := {
  Category_ID : Z;
  Category_Status : string;
  Category_AgeRestricted : bool;
  Category_DeletedAt : option time;
}.

Record PhysicalStock := {
  Stock_ID : Z;
  Stock_ShopProductID : Z;
  Stock_ShopID : Z;
  Stock_ProductID : Z;
  Stock_AvailableQty : Z;
  Stock_ReservedQty : Z;
  Stock_LockedQty : Z;
  Stock_Version : Z;
  Stock_UpdatedAt : time;
  Stock_DeletedAt : option time;
}.

Record StockRecord := {
  SR_ID : Z;
  SR_ShopProductID : Z;
  SR_ShopID : Z;
  SR_ProductID : Z;
  SR_ChangeType : string;
  SR_QuantityDelta : Z;
  SR_BeforeAvailableQty : Z;
  SR_AfterAvailableQty : Z;
  SR_TotalQuantityDelta : Z;
  SR_BeforeTotalQty : Z;
  SR_AfterTotalQty : Z;
  SR_SourceType : string;
  SR_SourceID : Z;
  SR_IdempotencyKey : string;
  SR_BusinessActionKey : option string;
  SR_CreatedAt : time;
  SR_UpdatedAt : time;
}.

(** ** [order/model.go] *)

Record Order := {
  Order_ID : Z;
  Order_OrderNo : string;
  Order_OrderType : string;
  Order_SettlementMode : string;
  Order_CustomerID : Z;
  Order_MerchantID : Z;
  Order_ShopID : Z;
  Order_Status : string;
  Order_PayStatus : string;
  Order_DeliveryStatus : string;
  Order_GoodsAmount : Z;
  Order_DiscountAmount : Z;
  Order_DeliveryFeeAmount : Z;
  Order_PayableAmount : Z;
  Order_PaidAmount : Z;
  Order_Remark : option string;
  Order_AddressSnapshot : json;
  Order_DeliveryTimeSlotID : option Z;
  Order_DeliveryTimeSlotSnapshot : json;
  Order_ComplianceSnapshot : json;
  Order_IdempotencyKey : option string;
  Order_CancelSource : option string;
  Order_CancelReasonCode : option string;
  Order_AfterSaleStatus : string;
  Order_Version : Z;
  Order_CancelledAt : option time;
  Order_CreatedAt : time;
  Order_UpdatedAt : time;
  Order_DeletedAt : option time;
}.

Record OrderItem := {
  Item_ID : Z;
  Item_OrderID : Z;
  Item_ShopProductID : Z;
  Item_ProductID : Z;
  Item_ProductSnapshot : json;
  Item_Quantity : Z;
  Item_SalePriceAmount : Z;
  Item_TotalAmount : Z;
  Item_DeletedAt : option time;
}.

Record OrderLog := {
  OLog_ID : Z;
  OLog_OrderID : Z;
  OLog_ActorType : string;
  OLog_ActorID : Z;
  OLog_Action : string;
  OLog_FromStatus : option string;
  OLog_ToStatus : option string;
  OLog_RequestID : option string;
}.

(** ** [aftersale/model.go] *)

Record AfterSale := {
  AS_ID : Z;
  AS_OrderID : Z;
  AS_CustomerID : Z;
  AS_MerchantID : Z;
  AS_ShopID : Z;
  AS_AfterSaleNo : string;
  AS_Type : string;
  AS_RequestedResolution : string;
  AS_Status : string;
  AS_InitiatorType : string;
  AS_SourceType : string;
  AS_SourceID : option Z;
  AS_ApprovedResolution : option string;
  AS_ReasonCode : option string;
  AS_RequestedAmount : Z;
  AS_ApprovedAmount : Z;
  AS_RefundedAmount : Z;
  AS_CompensationAmount : Z;
  AS_IncludeDeliveryFee : bool;
  AS_Description : string;
  AS_ApprovedAt : option time;
  AS_ClosedAt : option time;
  AS_SubmittedAt : time;
  AS_Version : Z;
  AS_DeletedAt : option time;
}.

Record AfterSaleItem := {
  ASI_ID : Z;
  ASI_AfterSaleID : Z;
  ASI_OrderID : Z;
  ASI_OrderItemID : Z;
  ASI_ShopProductID : Z;
  ASI_ProductID : Z;
  ASI_RequestedQuantity : Z;
  ASI_ApprovedQuantity : Z;
  ASI_RequestedAmount : Z;
  ASI_ApprovedAmount : Z;
  ASI_RefundedAmount : Z;
  ASI_ReturnDisposition : string;
}.

Record AfterSaleHistory := {
  ASH_ID : Z;
  ASH_AfterSaleID : Z;
  ASH_ActorID : Z;
  ASH_ActorType : string;
  ASH_Action : string;
  ASH_FromStatus : option string;
  ASH_ToStatus : option string;
  ASH_ReasonCode : option string;
  ASH_Remark : option string;
  ASH_RequestID : option string;
}.

Record AfterSaleBooks := {
  as_sales : list AfterSale;
  as_items : list AfterSaleItem;
  as_history : list AfterSaleHistory;
}.

Definition empty_after_sales : AfterSaleBooks :=
  {| as_sales := []; as_items := []; as_history := [] |}.

(** [delivery_returns]: the columns that lock them. *)
Record DeliveryReturnRef := {
  DR_ID : Z;
  DR_OrderID : Z;
}.

(** ** [dispatch/model.go] *)

Record DeliveryOrder := {
  Del_ID : Z;
  Del_OrderID : Z;
  Del_RiderID : option Z;
  Del_Status : string;
  Del_DispatchStatus : string;
  Del_PickupReadyStatus : string;
  Del_ScheduledStartAt : option time;
  Del_ScheduledEndAt : option time;
  Del_NotBeforeAt : option time;
  Del_AcceptedAt : option time;
  Del_PickedUpAt : option time;
  Del_CompletedAt : option time;
  Del_CancelledAt : option time;
  Del_DeletedAt : option time;
}.

Record DispatchJob := {
  Job_ID : Z;
  Job_DeliveryOrderID : Z;
  Job_Status : string;
  Job_StatusReasonCode : option string;
  Job_LockedUntil : option time;
  Job_LockedBy : option string;
  Job_Version : Z;
}.

Record DispatchOffer := {
  Offer_ID : Z;
  Offer_DeliveryOrderID : Z;
  Offer_Status : string;
  Offer_RespondedAt : option time;
  Offer_Version : Z;
}.

Record DispatchAssignment := {
  Assign_ID : Z;
  Assign_DeliveryOrderID : Z;
  Assign_Status : string;
}.

(** ** The tables of a redemption's fulfilment *)

Record Fulfilment := {
  ful_slots : list DeliveryTimeSlot;
  ful_redemptions : list Redemption;
  ful_addresses : list redemptionAddressRecord;
  ful_shops : list Shop;
  ful_merchants : list Merchant;
  ful_shop_products : list ShopProduct;
  ful_categories : list Category;
  ful_stocks : list PhysicalStock;
  ful_stock_records : list StockRecord;
  ful_orders : list Order;
  ful_order_items : list OrderItem;
  ful_order_logs : list OrderLog;
  ful_after_sales : AfterSaleBooks;
  ful_returns : list DeliveryReturnRef;
  ful_deliveries : list DeliveryOrder;
  ful_jobs : list DispatchJob;
  ful_offers : list DispatchOffer;
  ful_assignments : list DispatchAssignment;
}.

Definition empty_fulfilment : Fulfilment := {|
  ful_slots := []; ful_redemptions := []; ful_addresses := []; ful_shops := [];
  ful_merchants := []; ful_shop_products := []; ful_categories := []; ful_stocks := [];
  ful_stock_records := []; ful_orders := []; ful_order_items := []; ful_order_logs := [];
  ful_after_sales := empty_after_sales; ful_returns := []; ful_deliveries := []; ful_jobs := [];
  ful_offers := []; ful_assignments := [] |}.
