(* ===== verification/PurchaseModel.v ===== *)
(** * Rows of the purchase component and of the payments it shares

    [wineticket/purchase/model.go], the package of [wineticket/catalog/model.go]
    and the payment of [order/model.go]: what a customer buys, what she pays it
    with, and what is paid back. *)

From S2P Require Import Prelude GoInt GoString GoTime Json.
From Stdlib Require Import String.
#[local] Open Scope string_scope. #[local] Open Scope list_scope. #[local] Open Scope Z_scope.

Definition PurchasePaymentBusiness : string := "wine_ticket_purchase".

Definition PurchaseStatusPendingPayment : string := "pending_payment".
Definition PurchaseStatusPaymentUnknown : string := "payment_unknown".
Definition PurchaseStatusSettlementException : string := "settlement_exception".
Definition PurchaseStatusIssued : string := "issued".
Definition PurchaseStatusClosed : string := "closed".
Definition PurchaseStatusRefundHolding : string := "refund_holding".
Definition PurchaseStatusRefundException : string := "refund_exception".
Definition PurchaseStatusRefunded : string := "refunded".

Definition WineTicketPurchaseRefundBusiness : string := "wine_ticket_purchase_refund".
Definition RefundKindIssueCompensation : string := "issuance_compensation".
Definition RefundStatusHolding : string := "holding".

Definition wineTicketRefundActiveStatuses : list string :=
  ["holding"; "submitting"; "processing"; "submission_unknown"; "retry_pending"; "exception"].

(** ** [catalog/model.go] *)

Definition PackageTypeStockpile : string := "stockpile".
Definition PackageTypeCorporate : string := "corporate".
Definition PackageTypeGift : string := "gift".

Definition PackageStatusPublished : string := "published".

Record Package := {
  Pkg_ID : Z;
  Pkg_PackageNo : string;
  Pkg_PackageCode : string;
  Pkg_PackageVersion : Z;
  Pkg_IssuerMerchantID : Z;
  Pkg_SettlementShopID : Z;
  Pkg_SettlementShopProductID : Z;
  Pkg_ProductID : Z;
  Pkg_RedeemCityCode : string;
  Pkg_PackageType : string;
  Pkg_Name : string;
  Pkg_Subtitle : option string;
  Pkg_CoverImageURL : option string;
  Pkg_BottleQuantity : Z;
  Pkg_SalePriceAmount : Z;
  Pkg_MinPurchaseQuantity : Z;
  Pkg_MaxPurchaseQuantity : Z;
  Pkg_ValidityDays : Z;
  Pkg_PerCustomerLimit : option Z;
  Pkg_RefundPolicy : json;
  Pkg_RenewalPolicy : json;
  Pkg_DeliveryPolicy : json;
  Pkg_Status : string;
  Pkg_SaleStartAt : option time;
  Pkg_SaleEndAt : option time;
  Pkg_DeletedAt : option time;
}.

Record SettlementRelation := {
  Settle_MerchantID : Z;
  Settle_MerchantStatus : string;
  Settle_MerchantReviewStatus : string;
  Settle_ShopID : Z;
  Settle_ShopMerchantID : Z;
  Settle_ShopStatus : string;
  Settle_ShopBusinessStatus : string;
  Settle_ShopProductID : Z;
  Settle_ShopProductMerchant : Z;
  Settle_ShopProductShop : Z;
  Settle_ShopProductProduct : Z;
  Settle_ShopProductStatus : string;
  Settle_ProductID : Z;
  Settle_ProductStatus : string;
  Settle_ProductCategoryStatus : string;
  Settle_ProductAgeRestricted : bool;
}.

(** ** [purchase/model.go] *)

Record PurchaseQuota := {
  Quota_ID : Z;
  Quota_CustomerID : Z;
  Quota_PackageCode : string;
  Quota_ReservedQuantity : Z;
  Quota_ConsumedQuantity : Z;
  Quota_Version : Z;
  Quota_CreatedAt : time;
  Quota_UpdatedAt : time;
}.

Record Purchase := {
  Pur_ID : Z;
  Pur_PurchaseNo : string;
  Pur_CustomerID : Z;
  Pur_PackageID : Z;
  Pur_PackageVersion : Z;
  Pur_PaymentID : Z;
  Pur_IssuerMerchantID : Z;
  Pur_SettlementShopID : Z;
  Pur_SettlementShopProductID : Z;
  Pur_ProductID : Z;
  Pur_RedeemCityCode : string;
  Pur_PackageQuantity : Z;
  Pur_BottleQuantityPerPackage : Z;
  Pur_TotalBottleQuantity : Z;
  Pur_UnitPriceAmount : Z;
  Pur_PayableAmount : Z;
  Pur_PaidAmount : Z;
  Pur_Currency : string;
  Pur_PackageSnapshot : json;
  Pur_RefundPolicySnapshot : json;
  Pur_RenewalPolicySnapshot : json;
  Pur_Status : string;
  Pur_Version : Z;
  Pur_PaidAt : option time;
  Pur_IssuedAt : option time;
  Pur_RefundedAt : option time;
  Pur_CreatedAt : time;
  Pur_UpdatedAt : time;
}.

(** [wine_ticket_refunds]; [ActivePurchaseID] is the generated column. *)
Record issuanceCompensationRefund := {
  WTR_ID : Z;
  WTR_WineTicketRefundNo : string;
  WTR_PurchaseID : Z;
  WTR_CustomerID : Z;
  WTR_CurrentRefundID : Z;
  WTR_RefundKind : string;
  WTR_Amount : Z;
  WTR_Currency : string;
  WTR_ReasonCode : string;
  WTR_ReasonText : option string;
  WTR_EligibilitySnapshot : json;
  WTR_Status : string;
  WTR_Version : Z;
  WTR_RequestedAt : time;
  WTR_SucceededAt : option time;
  WTR_ClosedAt : option time;
  WTR_CreatedAt : time;
  WTR_UpdatedAt : time;
}.

(** [refunds]; the after-sale module reads [deleted_at] too. *)
Record commonRefundRow := {
  Refund_ID : Z;
  Refund_AfterSaleID : option Z;
  Refund_OrderID : option Z;
  Refund_PaymentID : Z;
  Refund_ReplacesRefundID : option Z;
  Refund_RefundNo : string;
  Refund_BizType : option string;
  Refund_BizID : option Z;
  Refund_Provider : string;
  Refund_ProviderRefundID : option string;
  Refund_Status : string;
  Refund_Currency : string;
  Refund_Reason : string;
  Refund_NotifyURL : option string;
  Refund_ProviderStatus : option string;
  Refund_FailureCode : option string;
  Refund_FailureDetail : option string;
  Refund_Amount : Z;
  Refund_TotalAmount : Z;
  Refund_Attempts : Z;
  Refund_NextRetryAt : option time;
  Refund_LockedUntil : option time;
  Refund_LockedBy : option string;
  Refund_RequestedAt : time;
  Refund_ProviderAcceptedAt : option time;
  Refund_SucceededAt : option time;
  Refund_FailedAt : option time;
  Refund_Version : Z;
  Refund_CreatedAt : time;
  Refund_UpdatedAt : time;
  Refund_DeletedAt : option time;
}.

(** ** [order/model.go]: [payments], with the column [deleted_at] *)

Record Payment := {
  Pay_ID : Z;
  Pay_PaymentNo : string;
  Pay_BizType : option string;
  Pay_BizID : option Z;
  Pay_OrderID : option Z;
  Pay_CustomerID : Z;
  Pay_Channel : string;
  Pay_Provider : string;
  Pay_ProviderTradeNo : option string;
  Pay_ProviderStatus : option string;
  Pay_ProviderPrepayID : option string;
  Pay_Status : string;
  Pay_Amount : Z;
  Pay_Currency : string;
  Pay_ClientPayload : option json;
  Pay_ExpiresAt : option time;
  Pay_PaidAt : option time;
  Pay_FailedAt : option time;
  Pay_FailureCode : option string;
  Pay_ReconcileAttempts : Z;
  Pay_NextReconcileAt : option time;
  Pay_RefundedAmount : Z;
  Pay_Version : Z;
  Pay_IdempotencyKey : option string;
  Pay_CreatedAt : time;
  Pay_UpdatedAt : time;
  Pay_DeletedAt : option time;
}.

(** [customer_identities]: the columns the purchase reads. *)
Record CustomerIdentity := {
  Ident_ID : Z;
  Ident_CustomerID : Z;
  Ident_Provider : string;
  Ident_AppID : string;
  Ident_ProviderSubject : string;
  Ident_Status : string;
  Ident_DeletedAt : option time;
}.

(** ** The tables of purchases and payments *)

Record Sales := {
  sales_packages : list Package;
  sales_quotas : list PurchaseQuota;
  sales_purchases : list Purchase;
  sales_payments : list Payment;
  sales_refunds : list commonRefundRow;
  sales_ticket_refunds : list issuanceCompensationRefund;
  sales_identities : list CustomerIdentity;
}.

Definition no_sales : Sales := {|
  sales_packages := []; sales_quotas := []; sales_purchases := []; sales_payments := [];
  sales_refunds := []; sales_ticket_refunds := []; sales_identities := [] |}.
