(* ===== verification/RedemptionSlot.v ===== *)
(** * Delivery windows: the slot rules of [wineticket/redemption/service.go]

    The row a slot joins to ([redemptionSlotRelation] of [model.go]), the
    window its clocks give, and the checks a slot passes before bottles are
    redeemed into it. *)

From S2P Require Import Prelude GoInt GoString GoTime GoDate Json Problem.
From S2P Require Import CoreModel RedemptionModel.
From Stdlib Require Import String.
#[local] Open Scope string_scope. #[local] Open Scope list_scope. #[local] Open Scope Z_scope.

Record redemptionSlotRelation := {
  Rel_SlotID : Z;
  Rel_ShopID : Z;
  Rel_ServiceDate : Z;
  Rel_StartTime : string;
  Rel_EndTime : string;
  Rel_CutoffAt : time;
  Rel_CapacityOrders : Z;
  Rel_ReservedOrders : Z;
  Rel_SlotStatus : string;
  Rel_SlotVersion : Z;
  Rel_ShopMerchantID : Z;
  Rel_ShopName : string;
  Rel_ShopStatus : string;
  Rel_ShopBusinessStatus : string;
  Rel_MerchantID : Z;
  Rel_MerchantName : string;
  Rel_MerchantStatus : string;
  Rel_MerchantReview : string;
  Rel_ShopProductID : Z;
  Rel_SPMerchantID : Z;
  Rel_SPShopID : Z;
  Rel_SPProductID : Z;
  Rel_ShopProductStatus : string;
  Rel_ProductID : Z;
  Rel_ProductName : string;
  Rel_ProductBrandName : option string;
  Rel_ProductSpec : option string;
  Rel_ProductImageURL : option string;
  Rel_ProductStatus : string;
  Rel_ProductAgeRestricted : bool;
  Rel_CategoryStatus : string;
  Rel_StockID : Z;
  Rel_StockAvailableQty : Z;
  Rel_StockReservedQty : Z;
  Rel_StockLockedQty : Z;
  Rel_StockVersion : Z;
}.

(** ** Clocks and windows *)

(** The loop of [normalizeRedemptionClock] over the start of its window of
    eight bytes; [fuel] windows are left. *)
Fixpoint find_clock (fuel index : nat) (value : string) : option string :=
  match fuel with
  | O => None
  | S fuel' =>
      let candidate := String.substring index 8 value in
      match parse_clock candidate with
      | Some _ => Some candidate
      | None => find_clock fuel' (S index) value
      end
  end.

Definition normalizeRedemptionClock (value : string) : res string :=
  let value := trim_space value in
  let windows := if 8 <=? str_len value then (String.length value - 7)%nat else 0%nat in
  match find_clock windows 0 value with
  | Some candidate => Ok candidate
  | None => Err (EMessage "invalid SQL clock")
  end.

Definition NormalizeClock (value : string) : res string := normalizeRedemptionClock value.

(** The instant a date and a normalised clock name. *)
Definition clock_instant (serviceDate : Z) (clock : string) : res time :=
  match parse_clock clock with
  | Some seconds => Ok (shanghai_instant serviceDate seconds)
  | None => Err (EMessage "parsing time")
  end.

Definition redemptionSlotWindow (serviceDate : Z) (startClock endClock : string)
    : res (time * time) :=
  match normalizeRedemptionClock startClock, normalizeRedemptionClock endClock with
  | Err e, _ | Ok _, Err e => Err e
  | Ok startClock, Ok endClock =>
      match clock_instant serviceDate startClock with
      | Err e => Err e
      | Ok startAt =>
          match clock_instant serviceDate endClock with
          | Err _ => Err (EMessage "invalid delivery slot window")
          | Ok endAt =>
              if negb (after endAt startAt)
              then Err (EMessage "invalid delivery slot window")
              else Ok (truncate_ms startAt, truncate_ms endAt)
          end
      end
  end.

Definition SlotWindow (serviceDate : Z) (startClock endClock : string) : res (time * time) :=
  redemptionSlotWindow serviceDate startClock endClock.

Definition sameMillisecond (left right : time) : bool :=
  time_equal (truncate_ms left) (truncate_ms right).

Definition SameMillisecond (left right : time) : bool := sameMillisecond left right.

(** ** Checks *)

Definition noFulfillableShop (detail : string) : error := Conflict "WT_NO_FULFILLABLE_SHOP" detail.

Definition concurrentModification (detail : string) : error :=
  Conflict "WT_CONCURRENT_MODIFICATION" detail.

Definition relation_stable (candidate live : redemptionSlotRelation) (slot : DeliveryTimeSlot)
    : bool :=
  (Rel_SlotID candidate =? Rel_SlotID live) && (Rel_SlotID live =? Slot_ID slot) &&
  (Rel_ShopID candidate =? Rel_ShopID live) && (Rel_ShopID live =? Slot_ShopID slot) &&
  (Rel_MerchantID candidate =? Rel_MerchantID live) &&
  (Rel_ShopProductID candidate =? Rel_ShopProductID live) &&
  (Rel_ProductID candidate =? Rel_ProductID live) &&
  (Rel_StockID candidate =? Rel_StockID live).

Definition validateStableRedemptionRelation
    (candidate live : redemptionSlotRelation) (slot : DeliveryTimeSlot) : res unit :=
  if negb (relation_stable candidate live slot)
  then Err (concurrentModification "delivery slot fulfillment relation changed")
  else Ok tt.

Definition relation_eligible (row : redemptionSlotRelation) : bool :=
  negb (Rel_SlotID row =? 0) && negb (Rel_ShopID row =? 0) && negb (Rel_MerchantID row =? 0) &&
  negb (Rel_ShopProductID row =? 0) && negb (Rel_ProductID row =? 0) &&
  negb (Rel_StockID row =? 0) &&
  (Rel_ShopMerchantID row =? Rel_MerchantID row) &&
  (Rel_SPMerchantID row =? Rel_MerchantID row) && (Rel_SPShopID row =? Rel_ShopID row) &&
  (Rel_SPProductID row =? Rel_ProductID row) &&
  String.eqb (Rel_MerchantStatus row) "active" &&
  String.eqb (Rel_MerchantReview row) "approved" &&
  String.eqb (Rel_ShopStatus row) "active" && String.eqb (Rel_ShopBusinessStatus row) "open" &&
  String.eqb (Rel_ShopProductStatus row) "on_sale" &&
  String.eqb (Rel_ProductStatus row) "on_sale" &&
  String.eqb (Rel_CategoryStatus row) "active" && Rel_ProductAgeRestricted row.

Definition validateRedemptionRelation (row : redemptionSlotRelation) : res unit :=
  if negb (relation_eligible row)
  then Err (noFulfillableShop "shop, merchant, product, and stock relation is not eligible")
  else Ok tt.

Definition validateLockedRedemptionSlot (slot : DeliveryTimeSlot) (startAt endAt now : time)
    : res unit :=
  if negb (String.eqb (Slot_Status slot) "open") || negb (before startAt endAt) ||
     negb (after startAt now) || negb (after (Slot_CutoffAt slot) now)
  then Err (Conflict "WT_SLOT_FULL" "delivery slot is closed or past cutoff")
  else if (Slot_CapacityOrders slot =? 0) || (Slot_CapacityOrders slot <=? Slot_ReservedOrders slot)
  then Err (Conflict "WT_SLOT_FULL" "delivery slot is full")
  else Ok tt.

Definition ValidateLockedSlot (slot : DeliveryTimeSlot) (startAt endAt now : time) : res unit :=
  validateLockedRedemptionSlot slot startAt endAt now.

(** ** Facts *)

Lemma find_clock_parses fuel : forall index value c,
  find_clock fuel index value = Some c -> exists s, parse_clock c = Some s.
Proof.
  induction fuel as [|fuel IH]; simpl; intros index value c H; [discriminate|].
  destruct (parse_clock _) eqn:E; [simplify_eq; eauto|eauto].
Qed.

Lemma normalizeRedemptionClock_parses value c :
  normalizeRedemptionClock value = Ok c -> exists s, parse_clock c = Some s.
Proof.
  unfold normalizeRedemptionClock. destruct (find_clock _ _ _) eqn:E; [|discriminate].
  intros H. simplify_eq. by eapply find_clock_parses.
Qed.

(** A window is on its date, on the second, and not empty. *)
Lemma redemptionSlotWindow_ok day startClock endClock s e :
  redemptionSlotWindow day startClock endClock = Ok (s, e) ->
  s < e /\ truncate_ms s = s /\ truncate_ms e = e /\
  shanghai_day s = day /\ shanghai_day e = day.
Proof.
  unfold redemptionSlotWindow.
  destruct (normalizeRedemptionClock startClock) as [c1|] eqn:E1; [|discriminate].
  destruct (normalizeRedemptionClock endClock) as [c2|] eqn:E2; [|discriminate].
  apply normalizeRedemptionClock_parses in E1 as [s1 E1].
  apply normalizeRedemptionClock_parses in E2 as [s2 E2].
  unfold clock_instant. rewrite E1, E2, !shanghai_instant_ms.
  destruct (after _ _) eqn:Ha; [|discriminate]. simpl. intros H. simplify_eq.
  apply parse_clock_range in E1, E2. rewrite !shanghai_instant_ms, !shanghai_day_instant by done.
  unfold after in Ha. repeat split; lia.
Qed.
