(* ===== verification/Integrity.v ===== *)
(** * The ledger auditor: [wineticket/integrity]

    The integrity service scans the tables in phases, checks every row against
    the ledger and records a discrepancy for each row that does not agree.
    This file models its cursor ([types.go]) and its checks of a lot
    ([lot.go]). *)

From S2P Require Import Prelude GoInt GoString GoTime Json Problem CoreModel GiftModel.
From Stdlib Require Import String.
#[local] Open Scope string_scope. #[local] Open Scope list_scope. #[local] Open Scope Z_scope.

(** ** Phases and cursor *)

Definition IntegrityPhase : Type := string.

Definition IntegrityPhasePayments : IntegrityPhase := "payments".
Definition IntegrityPhasePurchases : IntegrityPhase := "purchases".
Definition IntegrityPhaseLots : IntegrityPhase := "lots".
Definition IntegrityPhaseRedemptions : IntegrityPhase := "redemptions".
Definition IntegrityPhaseGifts : IntegrityPhase := "gifts".
Definition IntegrityPhaseRenewals : IntegrityPhase := "renewals".
Definition IntegrityPhaseRefunds : IntegrityPhase := "refunds".
Definition IntegrityPhaseSlots : IntegrityPhase := "slots".
Definition IntegrityPhaseReminders : IntegrityPhase := "reminders".

Definition reconciliationPhases : list IntegrityPhase :=
  [IntegrityPhasePayments; IntegrityPhasePurchases; IntegrityPhaseLots;
   IntegrityPhaseRedemptions; IntegrityPhaseGifts; IntegrityPhaseRenewals;
   IntegrityPhaseRefunds; IntegrityPhaseSlots; IntegrityPhaseReminders].

Definition reconciliationRuleLotReplay : string := "REC-WT-003".
Definition reconciliationRuleAllocationView : string := "REC-WT-003A".

Record IntegrityCursor := {
  Cursor_Phase : IntegrityPhase;
  Cursor_LastID : Z;
  Cursor_UpperID : option Z;
}.

(** The first phase is a constant of a non-empty list. *)
Definition first_phase : IntegrityPhase := IntegrityPhasePayments.

(** The error quotes the phase as [%q] does for printable ASCII. *)
Definition normalizeIntegrityCursor (cursor : IntegrityCursor) : res IntegrityCursor :=
  let cursor' :=
    if String.eqb (Cursor_Phase cursor) "" then
      {| Cursor_Phase := first_phase; Cursor_LastID := Cursor_LastID cursor;
         Cursor_UpperID := Cursor_UpperID cursor |}
    else cursor in
  if existsb (String.eqb (Cursor_Phase cursor')) reconciliationPhases then Ok cursor'
  else Err (EMessage ("unknown wine-ticket reconciliation phase " +:+
                      marshal_string (Cursor_Phase cursor'))).

Definition cursor_at (phase : IntegrityPhase) : IntegrityCursor :=
  {| Cursor_Phase := phase; Cursor_LastID := 0; Cursor_UpperID := None |}.

(** The loop of [nextIntegrityCursor] over the phases from one on. *)
Fixpoint advance_phase (phases : list IntegrityPhase) (phase : IntegrityPhase)
    : IntegrityCursor * bool :=
  match phases with
  | [] => (cursor_at first_phase, false)
  | current :: rest =>
      if negb (String.eqb current phase) then advance_phase rest phase
      else match rest with
           | [] => (cursor_at first_phase, true)
           | next :: _ => (cursor_at next, false)
           end
  end.

Definition nextIntegrityCursor (phase : IntegrityPhase) (lastID : Z) (phaseCompleted : bool)
    (upperID : option Z) : IntegrityCursor * bool :=
  if negb phaseCompleted then
    ({| Cursor_Phase := phase; Cursor_LastID := lastID; Cursor_UpperID := upperID |}, false)
  else advance_phase reconciliationPhases phase.

(** [seen] is the set of the identifiers met so far. *)
Fixpoint unique_ids (seen : list Z) (values : list Z) : list Z :=
  match values with
  | [] => []
  | v :: rest =>
      if (v =? 0) || existsb (Z.eqb v) seen then unique_ids seen rest
      else v :: unique_ids (v :: seen) rest
  end.

Definition reconciliationUniqueIDs (values : list Z) : list Z := unique_ids [] values.

(** ** Discrepancies *)

Record reconciliationDiscrepancy := {
  D_Rule : string;
  D_Kind : string;
  D_BizType : string;
  D_BizID : Z;
  D_BizNo : option string;
  D_IssuerMerchantID : option Z;
  D_Severity : string;
  D_Expected : json;
  D_Actual : json;
}.

Fixpoint spaces_to_underscores (s : string) : string :=
  match s with
  | EmptyString => EmptyString
  | String c s' =>
      String (if byte_val c =? 32 then val_byte 95 else c) (spaces_to_underscores s')
  end.

Definition exceptionType (d : reconciliationDiscrepancy) : string :=
  D_Rule d +:+ ":" +:+ spaces_to_underscores (to_lower (trim_space (D_Kind d))).

Definition discrepancy_key (d : reconciliationDiscrepancy) : string :=
  exceptionType d +:+ "|" +:+ D_BizType d +:+ "|" +:+ format_uint (D_BizID d).

Fixpoint dedup_discrepancies (seen : list string) (rows : list reconciliationDiscrepancy)
    : list reconciliationDiscrepancy :=
  match rows with
  | [] => []
  | row :: rest =>
      let key := discrepancy_key row in
      if existsb (String.eqb key) seen then dedup_discrepancies seen rest
      else row :: dedup_discrepancies (key :: seen) rest
  end.

Definition deduplicateIntegrityDiscrepancies (rows : list reconciliationDiscrepancy)
    : list reconciliationDiscrepancy :=
  match rows with
  | [] | [_] => rows
  | _ => dedup_discrepancies [] rows
  end.

(** ** [checkLotReplay]: the ledger of a lot, replayed from zero *)

Definition entry_invalid (lot : Lot) (balance : Z) (entry : Transaction) : bool :=
  let before := i64 (Tx_BeforeAvailableQuantity entry) in
  let after := i64 (Tx_AfterAvailableQuantity entry) in
  let next := int_add balance (Tx_QuantityDelta entry) in
  negb (Tx_OwnerCustomerID entry =? Lot_OwnerCustomerID lot) ||
  (Tx_QuantityDelta entry =? 0) ||
  negb (before =? balance) ||
  negb (after =? next) ||
  (next <? 0) ||
  (i64 (Lot_TotalQuantity lot) <? next).

(** The loop: the balance it ends with, and the entry it stopped at. *)
Fixpoint replay_ledger (lot : Lot) (balance : Z) (transactions : list Transaction)
    : Z * option Z :=
  match transactions with
  | [] => (balance, None)
  | entry :: rest =>
      if entry_invalid lot balance entry then (balance, Some (Tx_ID entry))
      else replay_ledger lot (int_add balance (Tx_QuantityDelta entry)) rest
  end.

Definition lot_status_valid (lot : Lot) : bool :=
  (String.eqb (Lot_Status lot) LotStatusActive && (0 <? Lot_AvailableQuantity lot)) ||
  ((String.eqb (Lot_Status lot) LotStatusDepleted ||
    String.eqb (Lot_Status lot) LotStatusExpired ||
    String.eqb (Lot_Status lot) LotStatusRefunded) &&
   (Lot_AvailableQuantity lot =? 0)).

Definition checkLotReplay (lot : Lot) (transactions : list Transaction)
    : option reconciliationDiscrepancy :=
  let '(balance, firstInvalid) := replay_ledger lot 0 transactions in
  let replayValid :=
    match transactions with [] => false | _ => bool_decide (firstInvalid = None) end in
  let statusValid := lot_status_valid lot in
  if replayValid && (balance =? i64 (Lot_AvailableQuantity lot)) && statusValid then None
  else Some {|
    D_Rule := reconciliationRuleLotReplay;
    D_Kind := "lot_transaction_replay";
    D_BizType := "wine_ticket_lot";
    D_BizID := Lot_ID lot;
    D_BizNo := Some (Lot_LotNo lot);
    D_IssuerMerchantID := Some (Lot_IssuerMerchantID lot);
    D_Severity := "P1";
    D_Expected := JMap [
      ("replayed_available_quantity", JNum (Lot_AvailableQuantity lot));
      ("transaction_chain_valid", JBool true);
      ("status_matches_quantity", JBool true)];
    D_Actual := JMap [
      ("stored_available_quantity", JNum (Lot_AvailableQuantity lot));
      ("replayed_available_quantity", JNum balance);
      ("transaction_chain_valid", JBool replayValid);
      ("status", JStr (Lot_Status lot));
      ("status_matches_quantity", JBool statusValid);
      ("transaction_count", JNum (Z.of_nat (List.length transactions)));
      ("first_invalid_transaction_id", JNum (default 0 firstInvalid))];
  |}.

(** ** [checkLotAllocationProjection]: holds of a lot, backed by its ledger *)

Record reconciliationTransactionKey := {
  Key_LotID : Z;
  Key_TransactionType : string;
  Key_BizType : string;
  Key_BizID : Z;
}.

#[export] Instance reconciliationTransactionKey_eq_dec : EqDecision reconciliationTransactionKey.
Proof. solve_decision. Defined.

(** [reconciliationTransactionAggregate]: count and sum of the deltas. *)
Record reconciliationTransactionAggregate := {
  Agg_Count : Z;
  Agg_Delta : Z;
}.

Definition transaction_key (entry : Transaction) : reconciliationTransactionKey := {|
  Key_LotID := Tx_LotID entry;
  Key_TransactionType := Tx_TransactionType entry;
  Key_BizType := Tx_BizType entry;
  Key_BizID := Tx_BizID entry;
|}.

(** [transactionFacts[key]] after the loop of [scanLots] over the entries. *)
Definition transaction_facts (transactions : list Transaction)
    (key : reconciliationTransactionKey) : reconciliationTransactionAggregate :=
  fold_left (fun agg entry =>
      if bool_decide (transaction_key entry = key) then
        {| Agg_Count := Agg_Count agg + 1;
           Agg_Delta := int_add (Agg_Delta agg) (Tx_QuantityDelta entry) |}
      else agg)
    transactions {| Agg_Count := 0; Agg_Delta := 0 |}.

Definition allocationHoldBacked
    (facts : reconciliationTransactionKey -> reconciliationTransactionAggregate)
    (key : reconciliationTransactionKey) (quantity : Z) : bool :=
  let fact := facts key in
  (Agg_Count fact =? 1) && (Agg_Delta fact =? int_neg (i64 quantity)).

(** The five local variables of [checkLotAllocationProjection]. *)
Record projection := {
  P_heldQuantity : Z;
  P_extractedQuantity : Z;
  P_backingValid : bool;
  P_invalidStatus : string;
  P_invalidBizID : Z;
}.

Definition hold_key (lot : Lot) (transactionType bizType : string) (bizID : Z) :=
  {| Key_LotID := Lot_ID lot; Key_TransactionType := transactionType;
     Key_BizType := bizType; Key_BizID := bizID |}.

Definition project_held (p : projection) (quantity : Z) (backed : bool) : projection := {|
  P_heldQuantity := uint_add (P_heldQuantity p) quantity;
  P_extractedQuantity := P_extractedQuantity p;
  P_backingValid := P_backingValid p && backed;
  P_invalidStatus := P_invalidStatus p;
  P_invalidBizID := P_invalidBizID p;
|}.

Definition project_extracted (p : projection) (quantity : Z) (backed : bool) : projection := {|
  P_heldQuantity := P_heldQuantity p;
  P_extractedQuantity := uint_add (P_extractedQuantity p) quantity;
  P_backingValid := P_backingValid p && backed;
  P_invalidStatus := P_invalidStatus p;
  P_invalidBizID := P_invalidBizID p;
|}.

Definition project_invalid (p : projection) (status : string) (bizID : Z) : projection := {|
  P_heldQuantity := P_heldQuantity p;
  P_extractedQuantity := P_extractedQuantity p;
  P_backingValid := P_backingValid p;
  P_invalidStatus := status;
  P_invalidBizID := bizID;
|}.

Section Projection.
Variable lot : Lot.
Variable facts : reconciliationTransactionKey -> reconciliationTransactionAggregate.

Definition project_redemption (p : projection) (a : RedemptionAllocation) : projection :=
  let backed := allocationHoldBacked facts
    (hold_key lot TransactionTypeRedemptionHold "wine_ticket_redemption" (RA_RedemptionID a))
    (RA_Quantity a) in
  if String.eqb (RA_Status a) "held" then project_held p (RA_Quantity a) backed
  else if String.eqb (RA_Status a) "consumed" then project_extracted p (RA_Quantity a) backed
  else if String.eqb (RA_Status a) "restored" then p
  else project_invalid p (RA_Status a) (RA_RedemptionID a).

Definition project_gift (p : projection) (a : GiftAllocation) : projection :=
  if String.eqb (GA_Status a) "held" then
    project_held p (GA_Quantity a)
      (allocationHoldBacked facts
         (hold_key lot TransactionTypeGiftHold "gift" (GA_GiftID a)) (GA_Quantity a))
  else if String.eqb (GA_Status a) "claimed" || String.eqb (GA_Status a) "restored" then p
  else project_invalid p (GA_Status a) (GA_GiftID a).

Definition project_refund (p : projection) (a : RefundAllocation) : projection :=
  if String.eqb (FA_Status a) "held" then
    project_held p (FA_Quantity a)
      (allocationHoldBacked facts
         (hold_key lot TransactionTypeRefundHold "refund" (FA_WineTicketRefundID a))
         (FA_Quantity a))
  else if String.eqb (FA_Status a) "consumed" || String.eqb (FA_Status a) "restored" then p
  else project_invalid p (FA_Status a) (FA_WineTicketRefundID a).

Definition lot_projection (redemptions : list RedemptionAllocation)
    (gifts : list GiftAllocation) (refunds : list RefundAllocation) : projection :=
  fold_left project_refund refunds
    (fold_left project_gift gifts
       (fold_left project_redemption redemptions
          {| P_heldQuantity := 0; P_extractedQuantity := 0; P_backingValid := true;
             P_invalidStatus := ""; P_invalidBizID := 0 |})).

Definition projection_bounded (p : projection) : bool :=
  uint_add (uint_add (Lot_AvailableQuantity lot) (P_heldQuantity p)) (P_extractedQuantity p)
  <=? Lot_TotalQuantity lot.

Definition checkLotAllocationProjection (redemptions : list RedemptionAllocation)
    (gifts : list GiftAllocation) (refunds : list RefundAllocation)
    : option reconciliationDiscrepancy :=
  let p := lot_projection redemptions gifts refunds in
  if P_backingValid p && String.eqb (P_invalidStatus p) "" && projection_bounded p then None
  else Some {|
    D_Rule := reconciliationRuleAllocationView;
    D_Kind := "allocation_projection";
    D_BizType := "wine_ticket_lot";
    D_BizID := Lot_ID lot;
    D_BizNo := Some (Lot_LotNo lot);
    D_IssuerMerchantID := Some (Lot_IssuerMerchantID lot);
    D_Severity := "P1";
    D_Expected := JMap [
      ("held_quantity_source",
       JStr "held_redemption_plus_held_gift_plus_held_refund");
      ("extracted_quantity_source", JStr "consumed_redemption_only");
      ("restored_excluded", JBool true);
      ("hold_transaction_backing", JBool true);
      ("projection_within_total", JBool true)];
    D_Actual := JMap [
      ("available_quantity", JNum (Lot_AvailableQuantity lot));
      ("held_quantity", JNum (P_heldQuantity p));
      ("extracted_quantity", JNum (P_extractedQuantity p));
      ("total_quantity", JNum (Lot_TotalQuantity lot));
      ("hold_transaction_backing", JBool (P_backingValid p));
      ("projection_within_total", JBool (projection_bounded p));
      ("invalid_status", JStr (P_invalidStatus p));
      ("invalid_business_id", JNum (P_invalidBizID p))];
  |}.
End Projection.

(** ** [scanLots]: the two checks over a batch of lots *)

Definition scan_lot (transactions : list Transaction)
    (redemptions : list RedemptionAllocation) (gifts : list GiftAllocation)
    (refunds : list RefundAllocation) (lot : Lot) : list reconciliationDiscrepancy :=
  option_list (checkLotReplay lot (List.filter (fun t => Tx_LotID t =? Lot_ID lot) transactions)) ++
  option_list (checkLotAllocationProjection lot (transaction_facts transactions)
    (List.filter (fun a => RA_LotID a =? Lot_ID lot) redemptions)
    (List.filter (fun a => GA_SourceLotID a =? Lot_ID lot) gifts)
    (List.filter (fun a => FA_LotID a =? Lot_ID lot) refunds)).
