(* ===== verification/AssetLaws.v ===== *)
(** * What an asset repository promises, and the abstract asset ledger

    The theorems about [AssetService] see the database through a [view]: the
    lots and the ledger of the current transaction.  [LawfulRepository] says
    what each method of the repository does to the view when it succeeds;
    [frame] is the rest of the world, which no method touches. *)

From S2P Require Import Prelude GoInt GoString GoTime Json Problem RequestCtx CoreModel.
From S2P Require Import AssetService Integrity.
From Stdlib Require Import String.
#[local] Open Scope string_scope. #[local] Open Scope list_scope. #[local] Open Scope Z_scope.

Record AssetView := {
  v_lots : list Lot;
  v_ledger : list Transaction;
}.

(** ** Row constraints: the columns and CHECKs of the two tables *)

Definition lot_source_check (l : Lot) : bool :=
  (String.eqb (Lot_SourceType l) LotSourcePurchase &&
   bool_decide (Lot_SourceLotID l = None) && bool_decide (Lot_SourceGiftID l = None)) ||
  (String.eqb (Lot_SourceType l) LotSourceGift &&
   negb (bool_decide (Lot_SourceLotID l = None)) &&
   negb (bool_decide (Lot_SourceGiftID l = None))).

Definition lot_status_check (l : Lot) : bool :=
  existsb (String.eqb (Lot_Status l))
    [LotStatusActive; LotStatusDepleted; LotStatusExpired; LotStatusRefunded].

Definition lot_values_check (l : Lot) : bool :=
  fits_uint32 (Lot_TotalQuantity l) && fits_uint32 (Lot_AvailableQuantity l) &&
  fits_uint32 (Lot_Version l) &&
  (0 <? Lot_TotalQuantity l) && (Lot_AvailableQuantity l <=? Lot_TotalQuantity l) &&
  (Lot_OriginalExpiresAt l <=? Lot_ExpiresAt l).

Definition lot_row_check (l : Lot) : bool :=
  lot_source_check l && lot_status_check l && lot_values_check l.

Definition transaction_type_check (t : Transaction) : bool :=
  existsb (String.eqb (Tx_TransactionType t))
    [TransactionTypePurchaseIssue; TransactionTypeRedemptionHold;
     TransactionTypeRedemptionRestore; TransactionTypeRedemptionReturnRestore;
     TransactionTypeRedemptionReturnExpire; TransactionTypeGiftHold; TransactionTypeGiftClaim;
     TransactionTypeGiftRestore; TransactionTypeRefundHold; TransactionTypeRefundRestore;
     TransactionTypeExpiry].

Definition transaction_row_check (t : Transaction) : bool :=
  transaction_type_check t &&
  fits_int32 (Tx_QuantityDelta t) && fits_uint32 (Tx_BeforeAvailableQuantity t) &&
  fits_uint32 (Tx_AfterAvailableQuantity t) &&
  negb (Tx_QuantityDelta t =? 0) &&
  (Tx_AfterAvailableQuantity t =? Tx_BeforeAvailableQuantity t + Tx_QuantityDelta t).

(** ** The change [UpdateLot] makes to a row *)

Definition apply_change (c : LotAssetChange) (l : Lot) : Lot :=
  lot_with_balance l (Change_AvailableQuantity c) (Change_Status c)
    (if Change_SetEverUsed c then Change_EverUsed c else Lot_EverUsed l)
    (Lot_Version l + 1) (Change_UpdatedAt c).

Definition is_version (id version : Z) (l : Lot) : bool :=
  (Lot_ID l =? id) && (Lot_Version l =? version).

Definition update_lots (id version : Z) (c : LotAssetChange) (lots : list Lot) : list Lot :=
  map (fun l => if is_version id version l then apply_change c l else l) lots.

Definition with_lots (v : AssetView) (lots : list Lot) : AssetView :=
  {| v_lots := lots; v_ledger := v_ledger v |}.

Definition append_ledger (v : AssetView) (t : Transaction) : AssetView :=
  {| v_lots := v_lots v; v_ledger := v_ledger v ++ [t] |}.

(** ** The interface *)

Section Laws.
Context {W F : Type} (view : W -> AssetView) (frame : W -> F).

Definition same (w w' : W) : Prop := view w' = view w /\ frame w' = frame w.

(** A computation that neither reads nor writes the tables. *)
Class Outside {A} (m : M W error A) : Prop :=
  outside : forall w r w', m w = (r, w') -> same w w'.

Class LawfulLedger (repo : AssetLedgerRepository W) : Prop := {
  law_find : forall key w t w',
    TransactionByActionKey repo key w = (Ok t, w') ->
    same w w' /\ t ∈ v_ledger (view w) /\ Tx_ActionKey t = key;
  law_find_none : forall key w w',
    TransactionByActionKey repo key w = (Err EAssetRecordNotFound, w') ->
    same w w' /\ forall t, t ∈ v_ledger (view w) -> Tx_ActionKey t <> key;
  law_lock : forall id w lot w',
    LockLot repo id w = (Ok lot, w') ->
    same w w' /\ lot ∈ v_lots (view w) /\ Lot_ID lot = id;
  law_update : forall id version c w w',
    UpdateLot repo id version c w = (Ok true, w') ->
    view w' = with_lots (view w) (update_lots id version c (v_lots (view w))) /\
    frame w' = frame w /\
    forall l, l ∈ v_lots (view w) -> is_version id version l = true ->
              lot_row_check (apply_change c l) = true;
  law_record : forall t w u w',
    CreateTransaction repo t w = (Ok u, w') ->
    view w' = append_ledger (view w) t /\ frame w' = frame w /\
    transaction_row_check t = true /\
    forall t', t' ∈ v_ledger (view w) -> Tx_ActionKey t' <> Tx_ActionKey t;
}.

Class LawfulRepository (repo : AssetIssuanceRepository W) : Prop := {
  lawful_ledger :: LawfulLedger (ledger_repository repo);
  law_create_lot : forall lot w u w',
    CreateLot repo lot w = (Ok u, w') ->
    view w' = with_lots (view w) (v_lots (view w) ++ [lot]) /\ frame w' = frame w /\
    lot_row_check lot = true /\
    forall l, l ∈ v_lots (view w) -> Lot_ID l <> Lot_ID lot;
}.

Lemma same_refl w : same w w.
Proof. done. Qed.

Lemma same_trans w1 w2 w3 : same w1 w2 -> same w2 w3 -> same w1 w3.
Proof. unfold same. intuition congruence. Qed.
End Laws.
Arguments same {W F}.

(** ** The abstract ledger: what an operation is allowed to do

    A balance change replaces one lot by a later version of itself and appends
    the entries that lead from the old balance to the new one. *)

(** The entries of a lot with owner [owner] and [total] bottles lead from
    balance [b] to the result. *)
Fixpoint chain (owner total b : Z) (txs : list Transaction) : option Z :=
  match txs with
  | [] => Some b
  | t :: rest =>
      if (Tx_OwnerCustomerID t =? owner) && negb (Tx_QuantityDelta t =? 0) &&
         (Tx_BeforeAvailableQuantity t =? b) &&
         (Tx_AfterAvailableQuantity t =? b + Tx_QuantityDelta t) &&
         (0 <=? b + Tx_QuantityDelta t) && (b + Tx_QuantityDelta t <=? total)
      then chain owner total (b + Tx_QuantityDelta t) rest
      else None
  end.

Definition lot_chain (l : Lot) (b : Z) (txs : list Transaction) : option Z :=
  chain (Lot_OwnerCustomerID l) (Lot_TotalQuantity l) b txs.

(** The same lot, seen by everything but its balance and bookkeeping. *)
Definition same_lot (a b : Lot) : Prop :=
  Lot_ID b = Lot_ID a /\ Lot_LotNo b = Lot_LotNo a /\
  Lot_OwnerCustomerID b = Lot_OwnerCustomerID a /\
  Lot_PurchaseID b = Lot_PurchaseID a /\ Lot_SourceType b = Lot_SourceType a /\
  Lot_SourceLotID b = Lot_SourceLotID a /\ Lot_SourceGiftID b = Lot_SourceGiftID a /\
  Lot_IssuerMerchantID b = Lot_IssuerMerchantID a /\ Lot_ProductID b = Lot_ProductID a /\
  Lot_RedeemCityCode b = Lot_RedeemCityCode a /\
  Lot_TotalQuantity b = Lot_TotalQuantity a /\
  Lot_OriginalExpiresAt b = Lot_OriginalExpiresAt a /\ Lot_ExpiresAt b = Lot_ExpiresAt a /\
  Lot_RenewalCount b = Lot_RenewalCount a /\ Lot_CreatedAt b = Lot_CreatedAt a.

Definition replace_lot (new : Lot) (lots : list Lot) : list Lot :=
  map (fun l => if Lot_ID l =? Lot_ID new then new else l) lots.

(** The abstract transitions of the ledger. *)
Inductive ledger_step (v : AssetView) : AssetMutation -> AssetView -> Prop :=
| step_replay m :
    Mutation_Replayed m = true -> Mutation_Lot m ∈ v_lots v ->
    Forall (fun t => t ∈ v_ledger v) (Mutation_Transactions m) ->
    ledger_step v m v
| step_issue lot t :
    (forall l, l ∈ v_lots v -> Lot_ID l <> Lot_ID lot) ->
    lot_row_check lot = true -> lot_status_valid lot = true ->
    Tx_LotID t = Lot_ID lot -> transaction_row_check t = true ->
    lot_chain lot 0 [t] = Some (Lot_AvailableQuantity lot) ->
    (forall t', t' ∈ v_ledger v -> Tx_ActionKey t' <> Tx_ActionKey t) ->
    ledger_step v
      {| Mutation_Lot := lot; Mutation_Transactions := [t]; Mutation_Replayed := false |}
      {| v_lots := v_lots v ++ [lot]; v_ledger := v_ledger v ++ [t] |}
| step_balance old new txs :
    old ∈ v_lots v -> same_lot old new -> Lot_Version old < Lot_Version new ->
    lot_row_check new = true -> lot_status_valid new = true ->
    Lot_Status old <> LotStatusRefunded ->
    Forall (fun t => Tx_LotID t = Lot_ID old) txs ->
    Forall (fun t => transaction_row_check t = true) txs ->
    lot_chain old (Lot_AvailableQuantity old) txs = Some (Lot_AvailableQuantity new) ->
    NoDup (map Tx_ActionKey (v_ledger v ++ txs)) ->
    ledger_step v
      {| Mutation_Lot := new; Mutation_Transactions := txs; Mutation_Replayed := false |}
      {| v_lots := replace_lot new (v_lots v); v_ledger := v_ledger v ++ txs |}.

(** ** The invariant of the ledger *)

(** The entries of a lot, in the order they were written. *)
Definition entries (v : AssetView) (id : Z) : list Transaction :=
  List.filter (fun t => Tx_LotID t =? id) (v_ledger v).

(** A lot agrees with its ledger. *)
Definition lot_agrees (v : AssetView) (l : Lot) : Prop :=
  entries v (Lot_ID l) <> [] /\
  lot_chain l 0 (entries v (Lot_ID l)) = Some (Lot_AvailableQuantity l) /\
  lot_status_valid l = true.

Record ledger_ok (v : AssetView) : Prop := {
  ok_lot_ids : NoDup (map Lot_ID (v_lots v));
  ok_lot_rows : Forall (fun l => lot_row_check l = true) (v_lots v);
  ok_action_keys : NoDup (map Tx_ActionKey (v_ledger v));
  ok_entry_rows : Forall (fun t => transaction_row_check t = true) (v_ledger v);
  ok_entry_lots : Forall (fun t => Tx_LotID t ∈ map Lot_ID (v_lots v)) (v_ledger v);
  ok_lots_agree : Forall (lot_agrees v) (v_lots v);
}.
