(* ===== verification/AssetLedger.v ===== *)
(** * The asset core is a ledger: refinement and invariant

    Every operation of [AssetService], run against a lawful repository,
    refines a [ledger_step]; every [ledger_step] keeps [ledger_ok]; and
    [ledger_ok] is what the integrity auditor checks. *)

From S2P Require Import Prelude GoInt GoString GoTime Json Problem RequestCtx CoreModel.
From S2P Require Import AssetService Integrity AssetLaws.
From Stdlib Require Import String.
#[local] Open Scope string_scope. #[local] Open Scope list_scope. #[local] Open Scope Z_scope.

(** ** Row constraints, read back *)

Lemma lot_row_values l : lot_row_check l = true ->
  0 < Lot_TotalQuantity l < 2 ^ 32 /\
  0 <= Lot_AvailableQuantity l <= Lot_TotalQuantity l /\
  0 <= Lot_Version l < 2 ^ 32 /\
  Lot_OriginalExpiresAt l <= Lot_ExpiresAt l.
Proof.
  unfold lot_row_check, lot_values_check, fits_uint32. intros H.
  rewrite !andb_true_iff in H. lia.
Qed.

Lemma transaction_row_values t : transaction_row_check t = true ->
  Tx_QuantityDelta t <> 0 /\ 0 <= Tx_BeforeAvailableQuantity t < 2 ^ 32 /\
  0 <= Tx_AfterAvailableQuantity t < 2 ^ 32 /\
  Tx_AfterAvailableQuantity t = Tx_BeforeAvailableQuantity t + Tx_QuantityDelta t.
Proof.
  unfold transaction_row_check, fits_uint32. intros H.
  rewrite !andb_true_iff in H. lia.
Qed.

(** ** Chains *)

Lemma chain_app owner total txs1 : forall b txs2 c,
  chain owner total b txs1 = Some c ->
  chain owner total b (txs1 ++ txs2) = chain owner total c txs2.
Proof.
  induction txs1 as [|t txs1 IH]; simpl; intros b txs2 c H; [congruence|].
  destruct (_ && _); [eauto | discriminate].
Qed.

Lemma chain_bounds owner total txs : forall b c,
  chain owner total b txs = Some c -> 0 <= b <= total -> 0 <= c <= total.
Proof.
  induction txs as [|t txs IH]; simpl; intros b c H Hb; [simplify_eq; lia|].
  destruct (_ && _) eqn:E; [|discriminate]. apply (IH _ _ H).
  rewrite !andb_true_iff in E. lia.
Qed.

(** The sum of the deltas of a chain is the change of balance. *)
Definition sum_deltas (txs : list Transaction) : Z :=
  fold_right (fun t acc => Tx_QuantityDelta t + acc) 0 txs.

Lemma chain_sum owner total txs : forall b c,
  chain owner total b txs = Some c -> c = b + sum_deltas txs.
Proof.
  induction txs as [|t txs IH]; simpl; intros b c H; [simplify_eq; lia|].
  destruct (_ && _); [|discriminate]. apply IH in H. lia.
Qed.

Lemma chain_one owner total b t c :
  Tx_OwnerCustomerID t = owner -> Tx_QuantityDelta t <> 0 ->
  Tx_BeforeAvailableQuantity t = b -> Tx_AfterAvailableQuantity t = c ->
  c = b + Tx_QuantityDelta t -> 0 <= c <= total ->
  chain owner total b [t] = Some c.
Proof.
  intros Ho Hd Hb Ha Hc Hr. simpl.
  replace ((Tx_OwnerCustomerID t =? owner) && negb (Tx_QuantityDelta t =? 0) &&
           (Tx_BeforeAvailableQuantity t =? b) &&
           (Tx_AfterAvailableQuantity t =? b + Tx_QuantityDelta t) &&
           (0 <=? b + Tx_QuantityDelta t) && (b + Tx_QuantityDelta t <=? total))
    with true; [congruence|].
  symmetry. rewrite !andb_true_iff, negb_true_iff. repeat split; lia.
Qed.

(** ** The auditor accepts exactly the lots that agree with their ledger *)

Lemma entry_invalid_chain l b t :
  lot_row_check l = true -> transaction_row_check t = true -> 0 <= b <= Lot_TotalQuantity l ->
  entry_invalid l b t =
  negb ((Tx_OwnerCustomerID t =? Lot_OwnerCustomerID l) && negb (Tx_QuantityDelta t =? 0) &&
        (Tx_BeforeAvailableQuantity t =? b) &&
        (Tx_AfterAvailableQuantity t =? b + Tx_QuantityDelta t) &&
        (0 <=? b + Tx_QuantityDelta t) && (b + Tx_QuantityDelta t <=? Lot_TotalQuantity l)).
Proof.
  intros Hl Ht Hb. apply lot_row_values in Hl. apply transaction_row_values in Ht.
  unfold entry_invalid, int_add. rewrite !i64_small by int_range.
  apply Bool.eq_iff_eq_true. rewrite negb_true_iff, <- not_true_iff_false.
  rewrite !orb_true_iff, !andb_true_iff, !negb_true_iff. lia.
Qed.

Lemma replay_ledger_chain l txs : forall b,
  lot_row_check l = true -> Forall (fun t => transaction_row_check t = true) txs ->
  0 <= b <= Lot_TotalQuantity l ->
  match lot_chain l b txs with
  | Some c => replay_ledger l b txs = (c, None)
  | None => exists c id, replay_ledger l b txs = (c, Some id)
  end.
Proof.
  unfold lot_chain. induction txs as [|t txs IH]; simpl; intros b Hl Ht Hb; [done|].
  apply Forall_cons in Ht as [Ht Hts].
  rewrite entry_invalid_chain by done.
  destruct (_ && _) eqn:E; simpl; [|eauto].
  rewrite !andb_true_iff in E.
  pose proof (lot_row_values _ Hl).
  unfold int_add. rewrite i64_small by int_range. apply IH; auto. lia.
Qed.

(** The auditor's verdict, declaratively. *)
Lemma checkLotReplay_iff l txs :
  lot_row_check l = true -> Forall (fun t => transaction_row_check t = true) txs ->
  checkLotReplay l txs = None <->
  txs <> [] /\ lot_chain l 0 txs = Some (Lot_AvailableQuantity l) /\ lot_status_valid l = true.
Proof.
  intros Hl Ht. pose proof (lot_row_values _ Hl) as Hv.
  pose proof (replay_ledger_chain l txs 0 Hl Ht ltac:(lia)) as Hr.
  unfold checkLotReplay. destruct (lot_chain l 0 txs) as [c|].
  - rewrite Hr. rewrite (i64_small (Lot_AvailableQuantity l)) by int_range.
    destruct txs as [|t txs]; simpl; [split; [done | by intros [? _]]|].
    destruct (Z.eqb_spec c (Lot_AvailableQuantity l)); simpl.
    + destruct (lot_status_valid l); split; try done; [subst; done | by intros (_ & _ & ?)].
    + split; [done|]. intros (_ & [= ?] & _). done.
  - destruct Hr as (c & id & ->).
    destruct txs as [|t txs]; simpl; split; try done; by intros (_ & ? & _).
Qed.

(** ** Lists of lots keyed by their identifiers *)

Lemma replace_lot_ids new lots : map Lot_ID (replace_lot new lots) = map Lot_ID lots.
Proof.
  unfold replace_lot. rewrite map_map. apply map_ext. intros l.
  destruct (Z.eqb_spec (Lot_ID l) (Lot_ID new)); congruence.
Qed.

Lemma elem_of_replace_lot l new lots :
  l ∈ replace_lot new lots -> l = new \/ l ∈ lots /\ Lot_ID l <> Lot_ID new.
Proof.
  unfold replace_lot. intros H. apply list_elem_of_In, in_map_iff in H as (l0 & <- & Hin).
  destruct (Z.eqb_spec (Lot_ID l0) (Lot_ID new)); [by left | right].
  split; [by apply list_elem_of_In | done].
Qed.

Lemma update_is_replace id version c lots lot :
  NoDup (map Lot_ID lots) -> lot ∈ lots -> is_version id version lot = true ->
  update_lots id version c lots = replace_lot (apply_change c lot) lots.
Proof.
  intros Hnd Hin Hv. unfold update_lots, replace_lot. apply map_ext_in. intros l Hl.
  apply list_elem_of_In in Hl. unfold is_version in *. apply andb_true_iff in Hv as [Hid Hve].
  change (Lot_ID (apply_change c lot)) with (Lot_ID lot).
  destruct (Z.eqb_spec (Lot_ID l) (Lot_ID lot)) as [E|E].
  - rewrite (NoDup_map_inj _ _ _ _ Hnd Hl Hin E), Hid, Hve. done.
  - destruct (Z.eqb_spec (Lot_ID l) id); simpl; [lia | done].
Qed.

Lemma replace_twice a b lots :
  Lot_ID b = Lot_ID a -> replace_lot b (replace_lot a lots) = replace_lot b lots.
Proof.
  intros E. unfold replace_lot. rewrite map_map. apply map_ext. intros l. rewrite E.
  destruct (Lot_ID l =? Lot_ID a) eqn:H; [|by rewrite H]. by rewrite Z.eqb_refl.
Qed.

Lemma elem_of_replaced new lots lot :
  lot ∈ lots -> Lot_ID lot = Lot_ID new -> new ∈ replace_lot new lots.
Proof.
  intros Hin E. unfold replace_lot. apply list_elem_of_In, in_map_iff. exists lot.
  rewrite E, Z.eqb_refl. split; [done|]. by apply list_elem_of_In.
Qed.

(** ** Every step of the ledger keeps it in agreement *)

Lemma entries_app lots lots' led txs id :
  entries {| v_lots := lots; v_ledger := led ++ txs |} id =
  entries {| v_lots := lots'; v_ledger := led |} id ++ List.filter (fun t => Tx_LotID t =? id) txs.
Proof. apply List.filter_app. Qed.

Lemma filter_all {A} (f : A -> bool) l : Forall (fun x => f x = true) l -> List.filter f l = l.
Proof. induction 1 as [|x l Hx _ IH]; simpl; [done|]. by rewrite Hx, IH. Qed.

Lemma filter_none {A} (f : A -> bool) l : Forall (fun x => f x = false) l -> List.filter f l = [].
Proof. induction 1 as [|x l Hx _ IH]; simpl; [done|]. by rewrite Hx. Qed.

Lemma lot_chain_same a b x txs : same_lot a b -> lot_chain b x txs = lot_chain a x txs.
Proof.
  unfold lot_chain. intros (_ & _ & -> & _ & _ & _ & _ & _ & _ & _ & -> & _). done.
Qed.

Lemma ledger_step_ids v m v' : ledger_step v m v' ->
  exists new, map Lot_ID (v_lots v') = map Lot_ID (v_lots v) ++ new.
Proof.
  intros []; simpl.
  - exists []. by rewrite app_nil_r.
  - rewrite map_app. by eexists.
  - rewrite replace_lot_ids. exists []. by rewrite app_nil_r.
Qed.

Lemma entries_other v lots txs id id' :
  Forall (fun t => Tx_LotID t = id') txs -> id <> id' ->
  entries {| v_lots := lots; v_ledger := v_ledger v ++ txs |} id = entries v id.
Proof.
  intros Ht Hne. unfold entries at 1. simpl. rewrite List.filter_app.
  rewrite (filter_none _ txs); [by rewrite app_nil_r|].
  eapply Forall_impl; [exact Ht|]. simpl. intros t E. lia.
Qed.

Lemma entries_own v lots txs id :
  Forall (fun t => Tx_LotID t = id) txs ->
  entries {| v_lots := lots; v_ledger := v_ledger v ++ txs |} id = entries v id ++ txs.
Proof.
  intros Ht. unfold entries at 1. simpl. rewrite List.filter_app.
  rewrite (filter_all _ txs); [done|].
  eapply Forall_impl; [exact Ht|]. simpl. intros t E. lia.
Qed.

Lemma entries_of_new v lot :
  ledger_ok v -> (forall l, l ∈ v_lots v -> Lot_ID l <> Lot_ID lot) -> entries v (Lot_ID lot) = [].
Proof.
  intros Hok Hnew. unfold entries. apply filter_none.
  eapply Forall_impl; [exact (ok_entry_lots _ Hok)|]. simpl. intros t Hin.
  apply list_elem_of_In, in_map_iff in Hin as (l & E & Hl).
  apply list_elem_of_In, Hnew in Hl. lia.
Qed.

(** The lots a step does not touch still agree with their ledger. *)
Lemma agrees_other v lots txs id l :
  Forall (fun t => Tx_LotID t = id) txs -> Lot_ID l <> id -> lot_agrees v l ->
  lot_agrees {| v_lots := lots; v_ledger := v_ledger v ++ txs |} l.
Proof.
  intros Ht Hne (H1 & H2 & H3). unfold lot_agrees.
  rewrite (entries_other v lots txs (Lot_ID l) id); auto.
Qed.

Lemma issue_step_ok v lot t :
  ledger_ok v -> (forall l, l ∈ v_lots v -> Lot_ID l <> Lot_ID lot) ->
  lot_row_check lot = true -> lot_status_valid lot = true -> Tx_LotID t = Lot_ID lot ->
  transaction_row_check t = true -> lot_chain lot 0 [t] = Some (Lot_AvailableQuantity lot) ->
  (forall t', t' ∈ v_ledger v -> Tx_ActionKey t' <> Tx_ActionKey t) ->
  ledger_ok {| v_lots := v_lots v ++ [lot]; v_ledger := v_ledger v ++ [t] |}.
Proof.
  intros Hok Hnew Hrow Hst Ht Htr Hch Hkey.
  assert (Hts : Forall (fun t => Tx_LotID t = Lot_ID lot) [t]) by auto.
  constructor; simpl.
  - rewrite map_app. apply NoDup_app. split; [apply Hok|]. split; [|apply NoDup_singleton].
    intros id Hin Hid. apply list_elem_of_singleton in Hid as ->.
    apply list_elem_of_In, in_map_iff in Hin as (l & E & Hl).
    apply list_elem_of_In, Hnew in Hl. done.
  - apply Forall_app. split; [apply Hok | by constructor].
  - rewrite map_app. apply NoDup_app. split; [apply Hok|]. split; [|apply NoDup_singleton].
    intros k Hin Hk. apply list_elem_of_singleton in Hk as ->.
    apply list_elem_of_In, in_map_iff in Hin as (l & E & Hl).
    apply list_elem_of_In, Hkey in Hl. done.
  - apply Forall_app. split; [apply Hok | by constructor].
  - rewrite map_app. apply Forall_app. split.
    + eapply Forall_impl; [exact (ok_entry_lots _ Hok)|]. simpl. intros x Hx. apply elem_of_app. by left.
    + constructor; [|done]. rewrite Ht. apply elem_of_app. right. by apply list_elem_of_singleton.
  - apply Forall_app. split.
    + apply Forall_forall. intros l Hl.
      apply (agrees_other v _ _ (Lot_ID lot)); auto.
      eapply Forall_forall in Hl; [exact Hl | apply Hok].
    + constructor; [|done]. unfold lot_agrees.
      rewrite (entries_own v _ [t] (Lot_ID lot)) by auto.
      rewrite entries_of_new by auto. simpl app. by repeat split.
Qed.

Lemma balance_step_ok v old new txs :
  ledger_ok v -> old ∈ v_lots v -> same_lot old new ->
  lot_row_check new = true -> lot_status_valid new = true ->
  Forall (fun t => Tx_LotID t = Lot_ID old) txs ->
  Forall (fun t => transaction_row_check t = true) txs ->
  lot_chain old (Lot_AvailableQuantity old) txs = Some (Lot_AvailableQuantity new) ->
  NoDup (map Tx_ActionKey (v_ledger v ++ txs)) ->
  ledger_ok {| v_lots := replace_lot new (v_lots v); v_ledger := v_ledger v ++ txs |}.
Proof.
  intros Hok Hin Hsame Hrow Hst Hts Htr Hch Hnd.
  assert (Hid : Lot_ID new = Lot_ID old) by apply Hsame.
  assert (Hagree : lot_agrees v old).
  { eapply Forall_forall in Hin; [exact Hin | apply Hok]. }
  constructor; simpl.
  - rewrite replace_lot_ids. apply Hok.
  - apply Forall_forall. intros l Hl. apply elem_of_replace_lot in Hl as [->|[Hl _]]; [done|].
    eapply Forall_forall in Hl; [exact Hl | apply Hok].
  - done.
  - apply Forall_app. split; [apply Hok | done].
  - rewrite replace_lot_ids. apply Forall_app. split; [apply Hok|].
    eapply Forall_impl; [exact Hts|]. simpl. intros t ->.
    apply list_elem_of_In, in_map, list_elem_of_In, Hin.
  - apply Forall_forall. intros l Hl. apply elem_of_replace_lot in Hl as [->|[Hl Hne]].
    + destruct Hagree as (Hne & Hc & _). unfold lot_agrees. rewrite Hid.
      rewrite (entries_own v _ txs (Lot_ID old)) by done.
      rewrite !(lot_chain_same _ _ _ _ Hsame). repeat split; auto.
      * intros E. apply app_eq_nil in E as [E _]. done.
      * unfold lot_chain in *. rewrite (chain_app _ _ _ _ _ _ Hc). exact Hch.
    + apply (agrees_other v _ _ (Lot_ID old)); auto; [congruence|].
      eapply Forall_forall in Hl; [exact Hl | apply Hok].
Qed.

Lemma ledger_step_ok v m v' : ledger_step v m v' -> ledger_ok v -> ledger_ok v'.
Proof.
  intros Hs Hok. destruct Hs.
  - done.
  - by apply issue_step_ok.
  - eapply balance_step_ok; eauto.
Qed.

(** The lot a step returns is the row it left. *)
Lemma ledger_step_lot v m v' : ledger_step v m v' -> Mutation_Lot m ∈ v_lots v'.
Proof.
  intros []; simpl; auto.
  - apply elem_of_app. right. by apply list_elem_of_singleton.
  - apply (elem_of_replaced _ _ old); [done|]. symmetry. match goal with H : same_lot _ _ |- _ => apply H end.
Qed.

(** The empty ledger agrees with itself. *)
Lemma empty_ledger_ok : ledger_ok {| v_lots := []; v_ledger := [] |}.
Proof. constructor; simpl; constructor. Qed.

Create HintDb ledger.
#[export] Hint Resolve ledger_step_ok empty_ledger_ok elem_of_replaced : ledger.

(** ** The operations refine the ledger *)

Section Refinement.
Context {W F : Type} (view : W -> AssetView) (frame : W -> F).
Context (repo : AssetIssuanceRepository W) `{!LawfulRepository view frame repo}.
Context (ids : M W error Z) `{!Outside view frame ids}.
Context (now_ : M W error time) `{!Outside view frame now_}.

(** The configured service these operations run on. *)
Definition service : AssetService W := {| svc_ids := Some ids; svc_now := Some now_ |}.

Notation "w ~~ w'" := (same view frame w w') (at level 70).

(** The changes a run made to the view, and nothing else. *)
Definition wrote (w w' : W) (v : AssetView) : Prop := view w' = v /\ frame w' = frame w.

Lemma occurredAt_same value w r w' : occurredAt now_ value w = (r, w') -> w ~~ w'.
Proof.
  unfold occurredAt. destruct (is_zero value); intros H.
  - unfold bind in H. destruct (now_ w) as [[t|e] w1] eqn:E; apply (outside view frame) in E;
      unfold ret in H; simplify_eq; done.
  - unfold ret in H. by simplify_eq.
Qed.

(** The entry [newTransaction] builds for a lot. *)
Record entry_of (lot : Lot) (ty : string) (d b a : Z) (bt : string) (bi : Z) (k : string)
    (md : json) (now : time) (t : Transaction) : Prop := {
  entry_lot : Tx_LotID t = Lot_ID lot;
  entry_owner : Tx_OwnerCustomerID t = Lot_OwnerCustomerID lot;
  entry_type : Tx_TransactionType t = ty;
  entry_delta : Tx_QuantityDelta t = d;
  entry_before : Tx_BeforeAvailableQuantity t = b;
  entry_after : Tx_AfterAvailableQuantity t = a;
  entry_biz : Tx_BizType t = bt /\ Tx_BizID t = bi;
  entry_key : Tx_ActionKey t = k;
  entry_metadata : Tx_MetadataJSON t = md;
  entry_time : Tx_CreatedAt t = now;
}.

Lemma newTransaction_ok ctx lot ty d b a bt bi k md now w t w' :
  newTransaction ids ctx lot ty d b a bt bi k md now w = (Ok t, w') ->
  w ~~ w' /\ entry_of lot ty d b a bt bi k md now t.
Proof.
  unfold newTransaction. intros H. run H. apply (outside view frame) in R.
  split; [done|]. by constructor.
Qed.

(** What a replay of an earlier change returns. *)
Record replayed (v : AssetView) (id : Z) (key ty bt : string) (bi delta : Z)
    (m : AssetMutation)
    : Prop := {
  replayed_flag : Mutation_Replayed m = true;
  replayed_lot : Mutation_Lot m ∈ v_lots v;
  replayed_id : id <> 0 -> Lot_ID (Mutation_Lot m) = id;
  replayed_entry : exists t, Mutation_Transactions m = [t] /\ t ∈ v_ledger v /\
    Tx_ActionKey t = key /\ Tx_LotID t = Lot_ID (Mutation_Lot m) /\
    Tx_TransactionType t = ty /\ Tx_BizType t = bt /\ Tx_BizID t = bi /\
    Tx_QuantityDelta t = delta;
}.

Lemma replayed_step v id key ty bt bi d m :
  replayed v id key ty bt bi d m -> ledger_step v m v.
Proof.
  intros [Hf Hl _ (t & Ht & Hin & _)]. apply step_replay; auto. rewrite Ht. by constructor.
Qed.

Lemma replayAssetMutation_ok key lotID ty bt bi d w o w' :
  replayAssetMutation repo key lotID ty bt bi d w = (Ok o, w') ->
  w ~~ w' /\
  match o with
  | Some m => replayed (view w) lotID key ty bt bi d m
  | None => forall t, t ∈ v_ledger (view w) -> Tx_ActionKey t <> key
  end.
Proof.
  unfold replayAssetMutation. intros H. run_step H. destruct a as [t|e]; run H.
  - apply (law_find view frame) in R as (Hs & Hin & Hk). apply (law_lock view frame) in R0 as (Hs1 & Hl & Hid).
    split; [eauto using same_trans|].
    rewrite !orb_false_iff, !negb_false_iff in G. destruct G as ((((G1 & G2) & G3) & G4) & G5).
    apply String.eqb_eq in G2, G3. destruct Hs as [Ev Ef]. rewrite Ev in Hl.
    constructor; simpl; auto; [lia|]. exists t. repeat split; auto; lia.
  - destruct e; try discriminate. by apply (law_find_none view frame) in R.
Qed.

Lemma lockLot_ok id w lot w' :
  lockLotOrNotFound repo id w = (Ok lot, w') ->
  w ~~ w' /\ lot ∈ v_lots (view w) /\ Lot_ID lot = id.
Proof.
  unfold lockLotOrNotFound. intros H. run_step H. destruct a as [l|e]; run H.
  by apply (law_lock view frame) in R.
Qed.

(** A guarded update of a lot just read replaces that lot. *)
Lemma update_ok c w w' lot :
  UpdateLot repo (Lot_ID lot) (Lot_Version lot) c w = (Ok true, w') ->
  lot ∈ v_lots (view w) -> NoDup (map Lot_ID (v_lots (view w))) ->
  wrote w w' (with_lots (view w) (replace_lot (apply_change c lot) (v_lots (view w)))) /\
  lot_row_check (apply_change c lot) = true.
Proof.
  intros H Hin Hnd. apply (law_update view frame) in H as (Hv & Hf & Hrow).
  assert (Hver : is_version (Lot_ID lot) (Lot_Version lot) lot = true)
    by (unfold is_version; lia).
  split; [|eauto]. split; [|done]. by rewrite Hv, (update_is_replace _ _ _ _ lot).
Qed.

(** The lot the Go code builds after an update is the row the update wrote. *)
Lemma updated_lot c lot ever :
  lot_row_check (apply_change c lot) = true ->
  (if Change_SetEverUsed c then Change_EverUsed c else Lot_EverUsed lot) = ever ->
  lot_with_balance lot (Change_AvailableQuantity c) (Change_Status c) ever
    (uint_add (Lot_Version lot) 1) (Change_UpdatedAt c) = apply_change c lot.
Proof.
  intros Hrow <-. apply lot_row_values in Hrow. simpl in Hrow.
  unfold apply_change. rewrite uint_add_small by int_range. done.
Qed.

Lemma same_lot_change c lot : same_lot lot (apply_change c lot).
Proof. by repeat split. Qed.

(** ** Debit *)

(** The row a debit writes. *)
Definition debited (lot : Lot) (quantity : Z) (markUsed : bool) (now : time) : Lot :=
  let rest := Lot_AvailableQuantity lot - quantity in
  lot_with_balance lot rest (if rest =? 0 then LotStatusDepleted else LotStatusActive)
    (markUsed || Lot_EverUsed lot) (Lot_Version lot + 1) now.

(** A debit that is not a replay: what held before it and what it wrote. *)
Record debit_done (v v' : AssetView) (command : AssetCommand) (markUsed : bool)
    (m : AssetMutation) (lot : Lot) (t : Transaction) : Prop := {
  debit_lot : lot ∈ v_lots v;
  debit_lot_id : Lot_ID lot = Cmd_LotID command;
  debit_owner : Lot_OwnerCustomerID lot = Cmd_OwnerCustomerID command;
  debit_active : Lot_Status lot = LotStatusActive;
  debit_unexpired : Tx_CreatedAt t < Lot_ExpiresAt lot;
  debit_enough : 0 < Cmd_Quantity command <= Lot_AvailableQuantity lot;
  debit_fresh : forall t', t' ∈ v_ledger v -> Tx_ActionKey t' <> Cmd_ActionKey command;
  debit_mutation : m = {|
    Mutation_Lot := debited lot (Cmd_Quantity command) markUsed (Tx_CreatedAt t);
    Mutation_Transactions := [t]; Mutation_Replayed := false |};
  debit_view : v' = {|
    v_lots := replace_lot (Mutation_Lot m) (v_lots v); v_ledger := v_ledger v ++ [t] |};
  debit_row : lot_row_check (Mutation_Lot m) = true;
  debit_entry_row : transaction_row_check t = true;
  debit_entry : entry_of lot (Cmd_TransactionType command) (- Cmd_Quantity command)
    (Lot_AvailableQuantity lot) (Lot_AvailableQuantity lot - Cmd_Quantity command)
    (Cmd_BizType command) (Cmd_BizID command) (Cmd_ActionKey command)
    (Cmd_Metadata command) (Tx_CreatedAt t) t;
}.

(** The range of a quantity, which the Go type [uint] gives. *)
Definition quantity_ok (command : AssetCommand) : Prop := 0 <= Cmd_Quantity command.

Lemma validateAssetCommand_ok command : validateAssetCommand command = Ok tt ->
  Cmd_LotID command <> 0 /\ Cmd_OwnerCustomerID command <> 0 /\ Cmd_Quantity command <> 0.
Proof.
  unfold validateAssetCommand. destruct (_ || _) eqn:E; [discriminate|].
  rewrite !orb_false_iff in E. lia.
Qed.
Lemma wrote_same w1 w2 w3 v : w1 ~~ w2 -> wrote w2 w3 v -> wrote w1 w3 v.
Proof. unfold wrote, same. intuition congruence. Qed.

Lemma in_ledger_row v lot : ledger_ok v -> lot ∈ v_lots v -> lot_row_check lot = true.
Proof. intros Hok Hin. eapply Forall_forall in Hin; [exact Hin | apply Hok]. Qed.

(** A guarded update followed by its entry: the write every operation ends
    with. *)
Lemma update_record_ok c lot lot' ctx ty d b a bt bi k md now t w w1 w2 w3 w4 u :
  w ~~ w1 -> lot ∈ v_lots (view w) -> ledger_ok (view w) ->
  UpdateLot repo (Lot_ID lot) (Lot_Version lot) c w1 = (Ok true, w2) ->
  newTransaction ids ctx lot' ty d b a bt bi k md now w2 = (Ok t, w3) ->
  CreateTransaction repo t w3 = (Ok u, w4) ->
  wrote w w4 {| v_lots := replace_lot (apply_change c lot) (v_lots (view w));
                v_ledger := v_ledger (view w) ++ [t] |} /\
  lot_row_check (apply_change c lot) = true /\ transaction_row_check t = true /\
  (forall t', t' ∈ v_ledger (view w) -> Tx_ActionKey t' <> k) /\
  entry_of lot' ty d b a bt bi k md now t.
Proof.
  intros [Hv1 Hf1] Hin Hok HU HN HC.
  apply update_ok in HU as [[Hv2 Hf2] Hrow]; [|by rewrite Hv1| rewrite Hv1; apply Hok].
  apply newTransaction_ok in HN as [[Hv3 Hf3] He].
  apply (law_record view frame) in HC as (Hv4 & Hf4 & Ht & Hk).
  rewrite (entry_key _ _ _ _ _ _ _ _ _ _ _ He) in Hk.
  rewrite Hv3, Hv2, Hv1 in Hk. split; [|done].
  split; [|congruence]. rewrite Hv4, Hv3, Hv2, Hv1. done.
Qed.

Lemma debit_ok ctx command markUsed w m w' :
  debit service ctx (Some (ledger_repository repo)) command markUsed w = (Ok m, w') ->
  quantity_ok command -> ledger_ok (view w) ->
  frame w' = frame w /\
  ((view w' = view w /\
    replayed (view w) (Cmd_LotID command) (Cmd_ActionKey command) (Cmd_TransactionType command)
      (Cmd_BizType command) (Cmd_BizID command) (int_neg (i64 (Cmd_Quantity command))) m) \/
   exists lot t, debit_done (view w) (view w') command markUsed m lot t).
Proof.
  unfold debit, quantity_ok. intros H Hq Hok.
  run_step H. unfold ready in E. simpl in E. simplify_eq.
  run_step H. apply validateAssetCommand_ok in E as (Hid & Hown & Hq0).
  run_step H. apply replayAssetMutation_ok in R as [Hs Hr]. destruct a as [m0|].
  { destruct (replayed_entry _ _ _ _ _ _ _ _ Hr) as (t & Ht & _).
    unfold first_transaction in H. rewrite Ht in H. run H.
    destruct Hs as [Hv Hf]. split; [done|]. left. by split. }
  run_step H. apply lockLot_ok in R as (Hs1 & Hin & HL). rename a into lot.
  pose proof Hs as [Ev _]. rewrite Ev in Hin.
  pose proof (lot_row_values _ (in_ledger_row _ _ Hok Hin)) as Hrow.
  run_step H. apply occurredAt_same in R as Hs2. rename a into now. run H. rename a0 into t.
  rewrite negb_false_iff in G1. subst. 
  rewrite !orb_false_iff, !negb_false_iff in G0. destruct G0 as ((G0 & G2) & G3).
  apply String.eqb_eq in G0. unfold after in G2.
  rewrite uint_sub_small, i64_small, int_neg_small in * by int_range.
  pose proof (same_trans _ _ _ _ _ Hs (same_trans _ _ _ _ _ Hs1 Hs2)) as Hs3.
  destruct (update_record_ok _ _ _ _ _ _ _ _ _ _ _ _ _ _ _ _ _ _ _ _ Hs3 Hin Hok R0 R1 R2)
    as ([Hv4 Hf4] & Hrow4 & Ht4 & Hk & He).
  assert (Hlot : lot_with_balance lot (Lot_AvailableQuantity lot - Cmd_Quantity command)
    (if Lot_AvailableQuantity lot - Cmd_Quantity command =? 0 then LotStatusDepleted
     else LotStatusActive) (markUsed || Lot_EverUsed lot) (uint_add (Lot_Version lot) 1) now =
    debited lot (Cmd_Quantity command) markUsed (Tx_CreatedAt t)).
  { unfold debited. rewrite uint_add_small by int_range.
    by rewrite (entry_time _ _ _ _ _ _ _ _ _ _ _ He). }
  split; [done|]. right. exists lot, t. rewrite Hlot. simpl in Hrow4.
  pose proof (entry_time _ _ _ _ _ _ _ _ _ _ _ He) as Ht.
  assert (Hch : apply_change {|
      Change_AvailableQuantity := Lot_AvailableQuantity lot - Cmd_Quantity command;
      Change_Status := if Lot_AvailableQuantity lot - Cmd_Quantity command =? 0
                       then LotStatusDepleted else LotStatusActive;
      Change_EverUsed := markUsed || Lot_EverUsed lot;
      Change_SetEverUsed := markUsed;
      Change_UpdatedAt := now |} lot =
    debited lot (Cmd_Quantity command) markUsed (Tx_CreatedAt t)).
  { rewrite Ht. unfold apply_change, debited. simpl. by destruct markUsed. }
  rewrite Hch in *. constructor; simpl; auto; try lia; try congruence.
Qed.
Lemma step_key_nodup v t : ledger_ok v ->
  (forall t', t' ∈ v_ledger v -> Tx_ActionKey t' <> Tx_ActionKey t) ->
  NoDup (map Tx_ActionKey (v_ledger v ++ [t])).
Proof.
  intros Hok Hk. rewrite map_app. apply NoDup_app. split; [apply Hok|].
  split; [|apply NoDup_singleton]. intros k Hin E. apply list_elem_of_singleton in E as ->.
  apply list_elem_of_In, in_map_iff in Hin as (t' & E & Hin).
  apply list_elem_of_In, Hk in Hin. done.
Qed.

(** A debit is a step of the ledger. *)
Lemma debit_step v v' command markUsed m lot t :
  ledger_ok v -> debit_done v v' command markUsed m lot t -> ledger_step v m v'.
Proof.
  intros Hok []. destruct debit_entry0. subst m v'. simpl in *.
  pose proof (lot_row_values _ debit_row0). simpl in *.
  apply (step_balance _ lot (debited _ _ _ _) [t]); simpl;
    try (constructor; [done|constructor]); auto; try lia.
  - apply same_lot_change with (c := {|
      Change_AvailableQuantity := _; Change_Status := _; Change_EverUsed := _;
      Change_SetEverUsed := _; Change_UpdatedAt := _ |}).
  - unfold lot_status_valid; simpl.
    destruct (Z.eqb_spec (Lot_AvailableQuantity lot - Cmd_Quantity command) 0) as [->|]; [done|].
    simpl. rewrite orb_true_iff. left. lia.
  - by rewrite debit_active0.
  - apply chain_one; auto; lia.
  - apply step_key_nodup; [done|]. intros t' Ht'. rewrite entry_key0. eauto.
Qed.

Lemma debit_refines ctx command markUsed w m w' :
  debit service ctx (Some (ledger_repository repo)) command markUsed w = (Ok m, w') ->
  quantity_ok command -> ledger_ok (view w) ->
  ledger_step (view w) m (view w') /\ frame w' = frame w.
Proof.
  intros H Hq Hok. destruct (debit_ok _ _ _ _ _ _ H Hq Hok) as [Hf [[Hv Hr]|(lot & t & Hd)]].
  - rewrite Hv. split; [eapply replayed_step; eauto | done].
  - split; [eapply debit_step; eauto | done].
Qed.

(** ** Issue *)

(** The numbers of an issued lot, which the Go types and the table give. *)
Definition issue_request_ok (lot : Lot) : Prop :=
  0 <= Lot_TotalQuantity lot /\
  (Lot_Status lot = "" \/ Lot_Status lot = LotStatusActive).

(** An issue that is not a replay. *)
Record issue_done (v v' : AssetView) (command : IssueCommand) (m : AssetMutation)
    (lot : Lot) (t : Transaction) : Prop := {
  issue_lot : exists newID now, lot = issued_lot (Issue_Lot command) newID now;
  issue_full : Lot_AvailableQuantity lot = Lot_TotalQuantity lot /\ 0 < Lot_TotalQuantity lot;
  issue_active : Lot_Status lot = LotStatusActive;
  issue_new : forall l, l ∈ v_lots v -> Lot_ID l <> Lot_ID lot;
  issue_fresh : forall t', t' ∈ v_ledger v -> Tx_ActionKey t' <> Issue_ActionKey command;
  issue_row : lot_row_check lot = true;
  issue_entry_row : transaction_row_check t = true;
  issue_entry : entry_of lot (Issue_TransactionType command) (Lot_TotalQuantity lot) 0
    (Lot_TotalQuantity lot) (Issue_BizType command) (Issue_BizID command)
    (Issue_ActionKey command) (Issue_Metadata command) (Tx_CreatedAt t) t;
  issue_mutation : m = {| Mutation_Lot := lot; Mutation_Transactions := [t];
                          Mutation_Replayed := false |};
  issue_view : v' = {| v_lots := v_lots v ++ [lot]; v_ledger := v_ledger v ++ [t] |};
}.

Lemma Issue_ok ctx command w m w' :
  Issue service ctx (Some repo) command w = (Ok m, w') ->
  issue_request_ok (Issue_Lot command) ->
  frame w' = frame w /\
  ((view w' = view w /\
    replayed (view w) (Lot_ID (Issue_Lot command)) (Issue_ActionKey command) (Issue_TransactionType command)
      (Issue_BizType command) (Issue_BizID command)
      (i64 (Lot_TotalQuantity (Issue_Lot command))) m /\
    sameLotLineage (Mutation_Lot m) (Issue_Lot command) = true) \/
   exists lot t, issue_done (view w) (view w') command m lot t).
Proof.
  unfold Issue. intros H [Hq Hst].
  run_step H. unfold ready in E. simpl in E. simplify_eq.
  do 4 run_step H.
  run_step H. unfold replayIssueAssetMutation in R.
  run_step R. apply replayAssetMutation_ok in R0 as [Hs Hr].
  destruct a0 as [m0|]; run_step R.
  { destruct (replayed_entry _ _ _ _ _ _ _ _ Hr) as (t & Ht & _).
    unfold first_transaction in R0. rewrite Ht in R0. run R0. run R. run H.
    rewrite !orb_false_iff, !negb_false_iff in G2.
    destruct Hs as [Hv Hf]. split; [done|]. left. split; [done|]. by split; [|apply G2]. }
  run_step H. apply occurredAt_same in R as Hs1. rename a into now.
  run R. clear R. run_step H. rename a into newID. assert (Hs2 : w0 ~~ w2).
  { destruct (Lot_ID _ =? 0); [by apply (outside view frame) in R | run R; apply same_refl]. }
  run H. set (lot := issued_lot _ _ _) in *.
  apply (law_create_lot view frame) in R0 as (Hv3 & Hf3 & Hrow & Hnew).
  apply newTransaction_ok in R1 as [[Hv4 Hf4] He].
  apply (law_record view frame) in R2 as (Hv5 & Hf5 & Ht & Hk).
  pose proof (lot_row_values _ Hrow) as Hval.
  rewrite i64_small in He by int_range.
  pose proof (entry_time _ _ _ _ _ _ _ _ _ _ _ He) as Htime. rewrite <- Htime in He.
  rewrite (entry_key _ _ _ _ _ _ _ _ _ _ _ He) in Hk.
  destruct Hs as [Hv0 Hf0], Hs1 as [Hv1 Hf1], Hs2 as [Hv2 Hf2].
  rewrite Hv2, Hv1, Hv0 in Hv3, Hnew.
  split; [congruence|]. right.
  exists lot, a. rewrite orb_false_iff, negb_false_iff in G.
  constructor; auto.
  - by exists newID, now.
  - split; [subst lot; simpl; lia | apply Hval].
  - subst lot. simpl. by destruct Hst as [-> | ->].
  - by rewrite Hv5, Hv4, Hv3.
Qed.

Lemma issue_step v v' command m lot t :
  issue_done v v' command m lot t -> ledger_step v m v'.
Proof.
  intros []. destruct issue_entry0, issue_full0. subst m v'.
  apply step_issue; auto.
  - unfold lot_status_valid. rewrite issue_active0. simpl. rewrite orb_true_iff. left. lia.
  - apply chain_one; auto; lia.
  - by rewrite entry_key0.
Qed.

Lemma Issue_refines ctx command w m w' :
  Issue service ctx (Some repo) command w = (Ok m, w') ->
  issue_request_ok (Issue_Lot command) ->
  ledger_step (view w) m (view w') /\ frame w' = frame w.
Proof.
  intros H Hq. destruct (Issue_ok _ _ _ _ _ H Hq) as [Hf [(Hv & Hr & _)|(lot & t & Hd)]].
  - rewrite Hv. split; [eapply replayed_step; eauto | done].
  - split; [eapply issue_step; eauto | done].
Qed.

(** ** Transfer *)

Definition transfer_issue (command : TransferCommand) : IssueCommand := {|
  Issue_Lot := Transfer_ReceiverLot command;
  Issue_TransactionType := Transfer_TransactionType command;
  Issue_BizType := Transfer_BizType command;
  Issue_BizID := Transfer_BizID command;
  Issue_ActionKey := Transfer_ActionKey command;
  Issue_Metadata := Transfer_Metadata command;
  Issue_OccurredAt := Transfer_OccurredAt command;
|}.

(** A transfer issues a lot of gift lineage. *)
Lemma Transfer_ok ctx command w m w' :
  Transfer service ctx (Some repo) command w = (Ok m, w') ->
  Lot_SourceType (Transfer_ReceiverLot command) = LotSourceGift /\
  Lot_SourceLotID (Transfer_ReceiverLot command) <> None /\
  Lot_SourceGiftID (Transfer_ReceiverLot command) <> None /\
  Issue service ctx (Some repo) (transfer_issue command) w = (Ok m, w').
Proof.
  unfold Transfer. intros H. run_step H.
  rewrite !orb_false_iff, negb_false_iff, !bool_decide_eq_false in G.
  destruct G as [[G1 G2] G3]. apply String.eqb_eq in G1. done.
Qed.

Lemma Transfer_refines ctx command w m w' :
  Transfer service ctx (Some repo) command w = (Ok m, w') ->
  issue_request_ok (Transfer_ReceiverLot command) ->
  ledger_step (view w) m (view w') /\ frame w' = frame w.
Proof. intros H Hq. apply Transfer_ok in H as (_ & _ & _ & H). by eapply Issue_refines. Qed.

(** ** Restore *)

(** The balance part of the row a change writes. *)
Definition rebalanced (lot : Lot) (available : Z) (status : string) (version : Z) (now : time)
    : Lot := lot_with_balance lot available status (Lot_EverUsed lot) version now.

(** A restore that is not a replay, of a lot that has not expired or of one
    that has: the expired lot gives the bottles up again at once. *)
Record restore_done (v v' : AssetView) (command : AssetCommand) (m : AssetMutation)
    (lot : Lot) (t : Transaction) (expiry : option Transaction) : Prop := {
  restore_lot : lot ∈ v_lots v;
  restore_lot_id : Lot_ID lot = Cmd_LotID command;
  restore_owner : Lot_OwnerCustomerID lot = Cmd_OwnerCustomerID command;
  restore_not_refunded : Lot_Status lot <> LotStatusRefunded;
  restore_fits : 0 < Cmd_Quantity command /\
    Lot_AvailableQuantity lot + Cmd_Quantity command <= Lot_TotalQuantity lot;
  restore_keys : NoDup (map Tx_ActionKey (v_ledger v ++ Mutation_Transactions m));
  restore_rows : Forall (fun t => transaction_row_check t = true) (Mutation_Transactions m);
  restore_entry : entry_of lot (Cmd_TransactionType command) (Cmd_Quantity command)
    (Lot_AvailableQuantity lot) (Lot_AvailableQuantity lot + Cmd_Quantity command)
    (Cmd_BizType command) (Cmd_BizID command) (Cmd_ActionKey command)
    (Cmd_Metadata command) (Tx_CreatedAt t) t;
  restore_row : lot_row_check (Mutation_Lot m) = true;
  restore_flag : Mutation_Replayed m = false;
  restore_view : v' = {| v_lots := replace_lot (Mutation_Lot m) (v_lots v);
                         v_ledger := v_ledger v ++ Mutation_Transactions m |};
  restore_outcome :
    let now := Tx_CreatedAt t in
    let restored := Lot_AvailableQuantity lot + Cmd_Quantity command in
    match expiry with
    | None =>
        now < Lot_ExpiresAt lot /\ Mutation_Transactions m = [t] /\
        Mutation_Lot m =
          rebalanced lot restored LotStatusActive (Lot_Version lot + 1) now
    | Some e =>
        Lot_ExpiresAt lot <= now /\ Mutation_Transactions m = [t; e] /\
        Mutation_Lot m =
          rebalanced lot 0 LotStatusExpired (Lot_Version lot + 2) now /\
        let ev := restoreExpiryEvidence command in
        entry_of lot (Evidence_TransactionType ev) (- restored) restored 0
          (Evidence_BizType ev) (Evidence_BizID ev) (Evidence_ActionKey ev)
          (Evidence_Metadata ev) now e
    end;
}.

Lemma validateRestoreReplay_ok command m w m' w' id key ty bt bi d :
  validateRestoreReplay repo command m w = (Ok m', w') ->
  replayed (view w) id key ty bt bi d m ->
  w ~~ w' /\ ledger_step (view w) m' (view w').
Proof.
  unfold validateRestoreReplay. intros H Hr.
  destruct (replayed_entry _ _ _ _ _ _ _ _ Hr) as (t & Ht & Hin & _).
  pose proof (replayed_flag _ _ _ _ _ _ _ _ Hr) as Hf.
  pose proof (replayed_lot _ _ _ _ _ _ _ _ Hr) as Hl.
  unfold first_transaction in H. rewrite Ht in H. run H.
  - split; [apply same_refl|]. by eapply replayed_step.
  - apply (law_find view frame) in R as ([Hv Hf'] & He & _).
    split; [done|]. rewrite Hv. apply step_replay; simpl; auto.
Qed.

Lemma restoreExpiry_ok ctx lot restored ev now w out w' :
  restoreExpiry ids ctx repo lot restored ev now w = (Ok out, w') ->
  ledger_ok (view w) -> lot ∈ v_lots (view w) -> 0 <= restored < 2 ^ 32 ->
  let c := {| Change_AvailableQuantity := 0; Change_Status := LotStatusExpired;
              Change_EverUsed := false; Change_SetEverUsed := false;
              Change_UpdatedAt := now |} in
  out.1 = lot_with_balance lot 0 LotStatusExpired (Lot_EverUsed lot)
            (Lot_Version lot + 1) (Lot_UpdatedAt lot) /\
  wrote w w' {| v_lots := replace_lot (apply_change c lot) (v_lots (view w));
                v_ledger := v_ledger (view w) ++ [out.2] |} /\
  lot_row_check (apply_change c lot) = true /\ transaction_row_check out.2 = true /\
  (forall t', t' ∈ v_ledger (view w) -> Tx_ActionKey t' <> Evidence_ActionKey ev) /\
  entry_of lot (Evidence_TransactionType ev) (- restored) restored 0 (Evidence_BizType ev)
    (Evidence_BizID ev) (Evidence_ActionKey ev) (Evidence_Metadata ev) now out.2.
Proof.
  unfold restoreExpiry. intros H Hok Hin Hres. simpl. run H.
  rewrite negb_false_iff in G. subst. simpl.
  destruct (update_record_ok _ _ _ _ _ _ _ _ _ _ _ _ _ _ _ _ _ _ _ _
              (same_refl view frame w) Hin Hok R R0 R1) as (Hw & Hrow & Ht & Hk & He).
  pose proof (lot_row_values _ Hrow). simpl in *.
  rewrite i64_small, int_neg_small in He by int_range.
  rewrite uint_add_small by int_range. done.
Qed.

(** The row and the entry of the first half of a restore. *)
Lemma restored_step_ok v lot q now t ty bt bi k md :
  ledger_ok v -> lot ∈ v_lots v -> 0 < q ->
  let b := Lot_AvailableQuantity lot in
  let lot1 := rebalanced lot (b + q) LotStatusActive (Lot_Version lot + 1) now in
  Lot_AvailableQuantity lot + q <= Lot_TotalQuantity lot ->
  lot_row_check lot1 = true -> transaction_row_check t = true ->
  (forall t', t' ∈ v_ledger v -> Tx_ActionKey t' <> k) ->
  entry_of lot ty q b (b + q) bt bi k md now t ->
  ledger_ok {| v_lots := replace_lot lot1 (v_lots v); v_ledger := v_ledger v ++ [t] |}.
Proof.
  intros Hok Hin Hq b lot1 Hfit Hrow Ht Hk He.
  pose proof (lot_row_values _ (in_ledger_row _ _ Hok Hin)). destruct He. subst b.
  apply (balance_step_ok v lot lot1 [t]); auto.
  - by repeat split.
  - unfold lot_status_valid. simpl. rewrite orb_true_iff. left. lia.
  - apply chain_one; simpl; auto; lia.
  - apply step_key_nodup; [done|]. by rewrite entry_key0.
Qed.

(** The second half of a restore of an expired lot. *)
Lemma restored_then_expired ctx command lot t ty bi bt w w1 out w2 :
  ledger_ok (view w) -> lot ∈ v_lots (view w) -> 0 < Cmd_Quantity command ->
  let q := Cmd_Quantity command in
  let restored := Lot_AvailableQuantity lot + q in
  let now := Tx_CreatedAt t in
  let lot1 := rebalanced lot restored LotStatusActive (Lot_Version lot + 1) now in
  let ev := restoreExpiryEvidence command in
  Lot_AvailableQuantity lot + q <= Lot_TotalQuantity lot ->
  lot_row_check lot1 = true -> transaction_row_check t = true ->
  (forall t', t' ∈ v_ledger (view w) -> Tx_ActionKey t' <> Cmd_ActionKey command) ->
  entry_of lot ty q (Lot_AvailableQuantity lot) restored bt bi (Cmd_ActionKey command)
    (Cmd_Metadata command) now t ->
  wrote w w1 {| v_lots := replace_lot lot1 (v_lots (view w));
                v_ledger := v_ledger (view w) ++ [t] |} ->
  restoreExpiry ids ctx repo lot1 restored ev now w1 = (Ok out, w2) ->
  out.1 = rebalanced lot 0 LotStatusExpired (Lot_Version lot + 2) now /\
  frame w2 = frame w /\
  view w2 = {| v_lots := replace_lot out.1 (v_lots (view w));
               v_ledger := v_ledger (view w) ++ [t; out.2] |} /\
  lot_row_check out.1 = true /\
  Forall (fun t => transaction_row_check t = true) [t; out.2] /\
  NoDup (map Tx_ActionKey (v_ledger (view w) ++ [t; out.2])) /\
  entry_of lot (Evidence_TransactionType ev) (- restored) restored 0
    (Evidence_BizType ev) (Evidence_BizID ev) (Evidence_ActionKey ev)
    (Evidence_Metadata ev) now out.2.
Proof.
  intros Hok Hin Hq q restored now lot1 ev Hfit Hrow Ht Hk He [Hv Hf] HE.
  pose proof (restored_step_ok _ _ _ _ _ _ _ _ _ _ Hok Hin Hq Hfit Hrow Ht Hk He) as Hok1.
  pose proof (lot_row_values _ (in_ledger_row _ _ Hok Hin)) as Hval.
  assert (Hin1 : lot1 ∈ v_lots (view w1)).
  { rewrite Hv. by apply (elem_of_replaced _ _ lot). }
  assert (Hok2 : ledger_ok (view w1)) by (by rewrite Hv).
  destruct (restoreExpiry_ok _ _ _ _ _ _ _ _ HE Hok2 Hin1 ltac:(lia))
    as (Hout & [Hv2 Hf2] & Hrow2 & Ht2 & Hk2 & He2).
  assert (Hout' : out.1 = rebalanced lot 0 LotStatusExpired (Lot_Version lot + 2) now).
  { rewrite Hout. unfold rebalanced. simpl. f_equal. lia. }
  change (apply_change _ lot1) with
    (lot_with_balance lot1 0 LotStatusExpired (Lot_EverUsed lot1)
       (Lot_Version lot1 + 1) (Lot_UpdatedAt lot1)) in Hv2, Hrow2.
  rewrite <- Hout in Hv2, Hrow2. rewrite Hv in Hv2, Hk2. simpl in Hv2, Hk2.
  rewrite replace_twice in Hv2 by (by rewrite Hout).
  rewrite <- app_assoc in Hv2. simpl in Hv2.
  split; [done|]. split; [congruence|]. split; [done|]. split; [done|].
  split; [by repeat constructor|]. split; [|by destruct He2; constructor].
  change [t; out.2] with ([t] ++ [out.2]). rewrite app_assoc.
  apply (step_key_nodup {| v_lots := _; v_ledger := _ |} _ Hok1). simpl.
  by rewrite (entry_key _ _ _ _ _ _ _ _ _ _ _ He2).
Qed.

Lemma Restore_ok ctx command w m w' :
  Restore service ctx (Some (ledger_repository repo)) command w = (Ok m, w') ->
  quantity_ok command -> ledger_ok (view w) ->
  frame w' = frame w /\
  ((view w' = view w /\ ledger_step (view w) m (view w') /\
    exists first, replayed (view w) (Cmd_LotID command) (Cmd_ActionKey command)
      (Cmd_TransactionType command) (Cmd_BizType command) (Cmd_BizID command)
      (i64 (Cmd_Quantity command)) first) \/
   exists lot t e, restore_done (view w) (view w') command m lot t e).
Proof.
  unfold Restore, quantity_ok. intros H Hq Hok.
  run_step H. unfold ready in E. simpl in E. simplify_eq.
  run_step H. apply validateAssetCommand_ok in E as (Hid & Hown & Hq0).
  run_step H. apply replayAssetMutation_ok in R as [Hs Hr]. destruct a as [m0|].
  { pose proof Hs as [Hv Hf]. pose proof Hr as Hr0. rewrite <- Hv in Hr.
    destruct (validateRestoreReplay_ok _ _ _ _ _ _ _ _ _ _ _ H Hr) as [[Hv1 Hf1] Hst].
    split; [congruence|]. left. rewrite Hv in Hst. split; [congruence|]. eauto. }
  run_step H. apply lockLot_ok in R as (Hs1 & Hin & HL). rename a into lot.
  pose proof Hs as [Ev _]. rewrite Ev in Hin.
  pose proof (lot_row_values _ (in_ledger_row _ _ Hok Hin)) as Hrow.
  do 2 run_step H. apply String.eqb_neq in G.
  run_step H. apply occurredAt_same in R as Hs2. rename a into now.
  pose proof (same_trans _ _ _ _ _ Hs (same_trans _ _ _ _ _ Hs1 Hs2)) as Hs3.
  rewrite orb_false_iff, negb_false_iff in G0. destruct G0 as [G0 G1].
  rewrite uint_sub_small in G1 by int_range.
  rewrite uint_add_small, i64_small in H by int_range.
  run_step H. assert (w2 = w3) as <-.
  { destruct (negb _); run R0; done. }
  do 4 run_step H. rewrite negb_false_iff in G2. subst.
  destruct (update_record_ok _ _ _ _ _ _ _ _ _ _ _ _ _ _ _ _ _ _ _ _ Hs3 Hin Hok R1 R2 R3)
    as (Hw & Hrow4 & Ht4 & Hk & He).
  pose proof (entry_time _ _ _ _ _ _ _ _ _ _ _ He) as Ht. rewrite <- Ht in He, H, Hw, Hrow4.
  rewrite uint_add_small in H by int_range. change (apply_change _ lot) with
    (rebalanced lot (Lot_AvailableQuantity lot + Cmd_Quantity command) LotStatusActive
       (Lot_Version lot + 1) (Tx_CreatedAt a0)) in Hw, Hrow4.
  destruct (negb (after _ _)) eqn:Eexp; unfold after in Eexp.
  - run H. destruct (restored_then_expired _ command lot a0 _ _ _ _ _ _ _ Hok Hin ltac:(lia) ltac:(lia)
      Hrow4 Ht4 Hk He Hw R4) as (Hout & Hf & Hv & Hrow5 & Hrows & Hkeys & He2).
    split; [done|]. right. exists lot, a0, (Some a.2).
    constructor; simpl; auto; [lia.. | split; [lia|done]].
  - run H. destruct Hw as [Hv Hf]. split; [done|]. right. exists lot, a0, None.
    constructor; simpl; auto; try lia.
    + apply step_key_nodup; [done|]. by rewrite (entry_key _ _ _ _ _ _ _ _ _ _ _ He).
    + repeat split. lia.
Qed.

Lemma restore_step v v' command m lot t e :
  ledger_ok v -> restore_done v v' command m lot t e -> ledger_step v m v'.
Proof.
  intros Hok []. destruct restore_entry0. destruct m as [new txs flag]. simpl in *. subst v' flag.
  pose proof (lot_row_values _ (in_ledger_row _ _ Hok restore_lot0)).
  destruct e as [e|].
  - destruct restore_outcome0 as (Hexp & -> & -> & []). simpl in *.
    apply (step_balance _ lot _ [t; e]); simpl; auto; try lia.
    + by repeat split.
    + unfold lot_chain. change [t; e] with ([t] ++ [e]).
      rewrite (chain_app _ _ _ _ _ (Lot_AvailableQuantity lot + Cmd_Quantity command))
        by (apply chain_one; auto; lia).
      apply chain_one; auto; lia.
  - destruct restore_outcome0 as (Hexp & -> & ->). simpl in *.
    apply (step_balance _ lot _ [t]); simpl; auto; try lia.
    + by repeat split.
    + unfold lot_status_valid. simpl. rewrite orb_true_iff. left. lia.
    + apply chain_one; auto; lia.
Qed.

Lemma Restore_refines ctx command w m w' :
  Restore service ctx (Some (ledger_repository repo)) command w = (Ok m, w') ->
  quantity_ok command -> ledger_ok (view w) ->
  ledger_step (view w) m (view w') /\ frame w' = frame w.
Proof.
  intros H Hq Hok. destruct (Restore_ok _ _ _ _ _ H Hq Hok) as [Hf [(_ & Hs & _)|(lot & t & e & Hd)]].
  - done.
  - split; [eapply restore_step; eauto | done].
Qed.

(** ** Expire *)

(** An expiry that is not a replay: the balance left is taken out, and a lot
    that had none only changes its status. *)
Record expire_done (v v' : AssetView) (command : ExpireCommand) (m : AssetMutation)
    (lot : Lot) : Prop := {
  expire_lot : lot ∈ v_lots v;
  expire_lot_id : Lot_ID lot = Expire_LotID command;
  expire_owner : Lot_OwnerCustomerID lot = Expire_OwnerCustomerID command;
  expire_status : Lot_Status lot = LotStatusActive \/ Lot_Status lot = LotStatusDepleted;
  expire_flag : Mutation_Replayed m = false;
  expire_row : lot_row_check (Mutation_Lot m) = true;
  expire_view : v' = {| v_lots := replace_lot (Mutation_Lot m) (v_lots v);
                        v_ledger := v_ledger v ++ Mutation_Transactions m |};
  expire_fresh : forall t', t' ∈ v_ledger v -> Tx_ActionKey t' <> Expire_ActionKey command;
  expire_outcome : exists now, Lot_ExpiresAt lot <= now /\
    Mutation_Lot m = rebalanced lot 0 LotStatusExpired (Lot_Version lot + 1) now /\
    ((Lot_AvailableQuantity lot = 0 /\ Mutation_Transactions m = []) \/
     (0 < Lot_AvailableQuantity lot /\ exists t, Mutation_Transactions m = [t] /\
      transaction_row_check t = true /\
      entry_of lot (Expire_TransactionType command) (- Lot_AvailableQuantity lot)
        (Lot_AvailableQuantity lot) 0 (Expire_BizType command) (Expire_BizID command)
        (Expire_ActionKey command) (Expire_Metadata command) now t));
}.

Lemma replayExpire_ok command t w m w' w0 :
  replayExpire repo command t w = (Ok m, w') -> w0 ~~ w -> t ∈ v_ledger (view w0) ->
  w0 ~~ w' /\ ledger_step (view w0) m (view w0) /\
  Lot_Status (Mutation_Lot m) = LotStatusExpired /\ Lot_AvailableQuantity (Mutation_Lot m) = 0 /\
  Lot_ID (Mutation_Lot m) = Expire_LotID command.
Proof.
  unfold replayExpire. intros H Hs Hin. run H.
  apply (law_lock view frame) in R as (Hs1 & Hl & Hid).
  split; [by eapply same_trans|]. destruct Hs as [Hv Hf]. rewrite Hv in Hl.
  rewrite !orb_false_iff, !negb_false_iff in G0. destruct G0 as [[[G0 _] G1] G2].
  apply String.eqb_eq in G2. split; [|simpl; split; [done|lia]].
  apply step_replay; simpl; auto.
Qed.

Lemma Expire_ok ctx command w m w' :
  Expire service ctx (Some (ledger_repository repo)) command w = (Ok m, w') ->
  ledger_ok (view w) ->
  frame w' = frame w /\
  (Lot_Status (Mutation_Lot m) = LotStatusExpired /\ Lot_AvailableQuantity (Mutation_Lot m) = 0 /\
   Lot_ID (Mutation_Lot m) = Expire_LotID command) /\
  ((view w' = view w /\ ledger_step (view w) m (view w')) \/
   exists lot, expire_done (view w) (view w') command m lot).
Proof.
  unfold Expire. intros H Hok.
  run_step H. unfold ready in E. simpl in E. simplify_eq.
  do 3 run_step H. destruct a as [t|err].
  { apply (law_find view frame) in R as (Hs & Hin & _).
    destruct (replayExpire_ok _ _ _ _ _ _ H Hs Hin) as ([Hv Hf] & Hst & H1).
    rewrite Hv. split; [done|]. split; [done|]. by left. }
  run_step H. rewrite negb_false_iff in G0. destruct err; try discriminate.
  apply (law_find_none view frame) in R as [Hs Hfresh].
  run_step H. apply lockLot_ok in R as (Hs1 & Hin & HL). rename a into lot.
  pose proof Hs as [Ev _]. rewrite Ev in Hin.
  pose proof (lot_row_values _ (in_ledger_row _ _ Hok Hin)) as Hrow.
  do 2 run_step H. apply occurredAt_same in R as Hs2. rename a into now.
  pose proof (same_trans _ _ _ _ _ Hs (same_trans _ _ _ _ _ Hs1 Hs2)) as Hs3.
  run_step H. run_step H. apply String.eqb_neq in G3. unfold after in G2.
  destruct (_ && _) eqn:Ez; [|run_step H; rewrite andb_false_iff, !negb_false_iff in G4].
  { run H. destruct Hs3 as [Hv Hf]. rewrite andb_true_iff in Ez. destruct Ez as [Ez1 Ez2].
    apply String.eqb_eq in Ez2. split; [done|]. simpl. split; [split; [done|lia]|].
    left. split; [done|]. rewrite Hv. by apply step_replay. }
  rewrite !String.eqb_eq in G4.
  do 2 run_step H. rewrite negb_false_iff in G5. subst.
  rewrite uint_add_small in H by int_range.
  destruct (Z.eqb_spec (Lot_AvailableQuantity lot) 0) as [E0|E0]; run H.
  - destruct Hs3 as [Hv3 Hf3].
    apply update_ok in R0 as [[Hv Hf] Hrow']; [|by rewrite Hv3 | rewrite Hv3; apply Hok].
    split; [congruence|]. split; [done|]. right. exists lot.
    constructor; simpl; auto; try lia.
    + rewrite Hv, Hv3, app_nil_r. done.
    + exists now. repeat split; [lia|]. by left.
  - destruct (update_record_ok _ _ _ _ _ _ _ _ _ _ _ _ _ _ _ _ _ _ _ _ Hs3 Hin Hok R0 R1 R2)
      as ([Hv Hf] & Hrow' & Ht & _ & []).
    rewrite i64_small, int_neg_small in entry_delta0 by int_range.
    split; [congruence|]. split; [done|]. right. exists lot.
    constructor; simpl; auto; try lia.
    exists now. repeat split; [lia|]. right. split; [lia|]. eexists.
    split; [done|]. split; [done|]. constructor; auto.
Qed.

Lemma expire_step v v' command m lot :
  ledger_ok v -> expire_done v v' command m lot -> ledger_step v m v'.
Proof.
  intros Hok []. destruct m as [new txs flag]. simpl in *. subst v' flag.
  pose proof (lot_row_values _ (in_ledger_row _ _ Hok expire_lot0)).
  destruct expire_outcome0 as (now & Hexp & -> & Hcase). simpl in *.
  assert (Hnr : Lot_Status lot <> LotStatusRefunded)
    by (by destruct expire_status0 as [-> | ->]).
  destruct Hcase as [[Hz ->] | (Hp & t & -> & Ht & [])].
  - apply (step_balance _ lot _ []); simpl; auto; try lia.
    + by repeat split.
    + unfold lot_chain. simpl. congruence.
    + rewrite app_nil_r. apply Hok.
  - apply (step_balance _ lot _ [t]); simpl; auto; try lia.
    + by repeat split.
    + apply chain_one; auto; lia.
    + apply step_key_nodup; [done|]. by rewrite entry_key0.
Qed.

Lemma Expire_refines ctx command w m w' :
  Expire service ctx (Some (ledger_repository repo)) command w = (Ok m, w') ->
  ledger_ok (view w) ->
  ledger_step (view w) m (view w') /\ frame w' = frame w.
Proof.
  intros H Hok. destruct (Expire_ok _ _ _ _ _ H Hok) as (Hf & _ & [[_ Hs]|(lot & Hd)]).
  - done.
  - split; [eapply expire_step; eauto | done].
Qed.
End Refinement.

Lemma in_entry_row v t : ledger_ok v -> t ∈ v_ledger v -> transaction_row_check t = true.
Proof. intros Hok Hin. eapply Forall_forall in Hin; [exact Hin | apply Hok]. Qed.

Lemma in_lot_agrees v lot : ledger_ok v -> lot ∈ v_lots v -> lot_agrees v lot.
Proof. intros Hok Hin. eapply Forall_forall in Hin; [exact Hin | apply Hok]. Qed.

(** ** The invariant, checked *)

Definition ledger_check (v : AssetView) : bool :=
  bool_decide (NoDup (map Lot_ID (v_lots v))) &&
  forallb lot_row_check (v_lots v) &&
  bool_decide (NoDup (map Tx_ActionKey (v_ledger v))) &&
  forallb transaction_row_check (v_ledger v) &&
  forallb (fun t => existsb (fun l => Lot_ID l =? Tx_LotID t) (v_lots v)) (v_ledger v) &&
  forallb (fun l => negb (bool_decide (entries v (Lot_ID l) = [])) &&
                    match lot_chain l 0 (entries v (Lot_ID l)) with
                    | Some b => b =? Lot_AvailableQuantity l
                    | None => false
                    end && lot_status_valid l) (v_lots v).

Lemma ledger_check_ok v : ledger_check v = true -> ledger_ok v.
Proof.
  unfold ledger_check. rewrite !andb_true_iff, !bool_decide_eq_true, !forallb_forall.
  intros (((((H1 & H2) & H3) & H4) & H5) & H6).
  constructor; auto; apply Forall_forall; intros x Hx; apply list_elem_of_In in Hx; auto.
  - apply H5, existsb_exists in Hx as (l & Hl & E). apply Z.eqb_eq in E. rewrite <- E.
    by apply list_elem_of_In, in_map.
  - apply H6 in Hx. rewrite !andb_true_iff, negb_true_iff, bool_decide_eq_false in Hx.
    destruct Hx as [[Hne Hc] Hst]. unfold lot_agrees. repeat split; auto.
    destruct (lot_chain x 0 _); [|done]. apply Z.eqb_eq in Hc. congruence.
Qed.
