(* ===== verification/Database.v ===== *)
(** * The database and the rest of the world the services run in

    The services reach MySQL through GORM.  A table is the list of its rows in
    the order they were inserted, with the CHECK constraints and unique keys
    of [migrations/202607270001_wine_ticket_expand.sql] and
    [migrations/202607090001_init_p0_schema.sql]; a statement is one of the
    generic operations below, and any statement can fail (a lost connection, a
    deadlock) as [w_fault] decides.  The repositories translate the queries of
    the source into these operations.

    A database transaction runs alone: the row locks the source takes make the
    rows it uses its own.  What optimistic concurrency the source has (the
    guarded updates by version) is in the queries and is kept. *)

From S2P Require Import Prelude GoInt GoString GoTime Json Problem Snowflake.
From S2P Require Import CoreModel GiftModel RedemptionModel PurchaseModel AssetLaws.
From Stdlib Require Import String.
#[local] Open Scope string_scope. #[local] Open Scope list_scope. #[local] Open Scope Z_scope.
#[local] Open Scope go_scope.

(** ** Rows of the tables the module shares with the rest of the program *)

(** [customers] *)
Record Customer := {
  Customer_ID : Z;
  Customer_Nickname : option string;
  Customer_Phone : string;
  Customer_Status : string;
  Customer_DeletedAt : option time;
}.

(** [customer_realname_verifications] *)
Record Realname := {
  Realname_CustomerID : Z;
  Realname_Status : string;
  Realname_AdultResult : string;
  Realname_ExpiresAt : option time;
  Realname_RevokedAt : option time;
}.

(** [identity_verification_requests] *)
Record IdentityRequest := {
  Identity_CustomerID : Z;
  Identity_Status : string;
  Identity_SessionExpiresAt : option time;
}.

(** [products] *)
Record Product := {
  Product_ID : Z;
  Product_Name : string;
  Product_BrandName : option string;
  Product_Spec : option string;
  Product_ImageURL : option string;
  Product_CategoryID : Z;
  Product_Status : string;
  Product_AgeRestricted : bool;
  Product_DeletedAt : option time;
}.

(** [audit_logs]; a column the writer leaves out is [None], so a missing
    [created_at] is the server's clock. *)
Record AuditLog := {
  Audit_ID : Z;
  Audit_EventID : option string;
  Audit_ActorType : string;
  Audit_ActorID : Z;
  Audit_AccountID : option Z;
  Audit_Action : string;
  Audit_ResourceType : string;
  Audit_ResourceID : Z;
  Audit_OrderID : option Z;
  Audit_DeliveryID : option Z;
  Audit_BeforeData : json;
  Audit_AfterData : json;
  Audit_Result : string;
  Audit_BeforeStatus : option string;
  Audit_AfterStatus : option string;
  Audit_Version : option Z;
  Audit_RequestID : option string;
  Audit_IPHash : option string;
  Audit_UserAgent : option string;
  Audit_CreatedAt : option time;
}.

(** [outbox_events], with the same convention *)
Record OutboxEvent := {
  Outbox_ID : Z;
  Outbox_EventID : string;
  Outbox_EventType : string;
  Outbox_EventVersion : Z;
  Outbox_SpecVersion : string;
  Outbox_AggregateType : string;
  Outbox_AggregateID : Z;
  Outbox_Producer : option string;
  Outbox_Payload : json;
  Outbox_Status : string;
  Outbox_RetryCount : Z;
  Outbox_RequestID : option string;
  Outbox_CreatedAt : option time;
}.

(** [idempotency_keys], the [Record] of [internal/pkg/idempotency] *)
Record IdempotencyRecord := {
  Idem_ID : Z;
  Idem_ActorType : string;
  Idem_ActorID : Z;
  Idem_Method : string;
  Idem_Path : string;
  Idem_KeyHash : string;
  Idem_RequestHash : string;
  Idem_ResponseStatus : option Z;
  Idem_ResponseBody : option json;
  Idem_Status : string;
  Idem_LockedUntil : option time;
  Idem_ExpiredAt : time;
  Idem_CreatedAt : time;
  Idem_UpdatedAt : time;
}.

Record Database := {
  db_lots : list Lot;
  db_transactions : list Transaction;
  db_gifts : list Gift;
  db_gift_allocations : list GiftAllocation;
  db_gift_tokens : list GiftClaimToken;
  db_renewals : list RenewalGuard;
  db_redemption_allocations : list RedemptionAllocation;
  db_refund_allocations : list RefundAllocation;
  db_customers : list Customer;
  db_realnames : list Realname;
  db_identity_requests : list IdentityRequest;
  db_products : list Product;
  db_audit_logs : list AuditLog;
  db_outbox : list OutboxEvent;
  db_idempotency : list IdempotencyRecord;
  db_fulfilment : Fulfilment;
  db_sales : Sales;
}.

Definition empty_database : Database := {|
  db_lots := []; db_transactions := []; db_gifts := []; db_gift_allocations := [];
  db_gift_tokens := []; db_renewals := []; db_redemption_allocations := []; db_refund_allocations := [];
  db_customers := [];
  db_realnames := []; db_identity_requests := []; db_products := []; db_audit_logs := [];
  db_outbox := []; db_idempotency := []; db_fulfilment := empty_fulfilment;
  db_sales := no_sales |}.

(** ** The world *)

Record World := {
  w_db : Database;
  (* what the environment will do: readings of the clock, faults of the
     statements, bytes of [crypto/rand], identifiers of [uuid.NewString] *)
  w_clock : nat -> time;
  w_fault : nat -> option string;
  w_random : nat -> option (list Z);
  w_uuid : nat -> string;
  (* how much of it has been used *)
  w_ticks : nat;
  w_stmts : nat;
  w_draws : nat;
  w_uuids : nat;
  (* the process's identifier generator *)
  w_gen : Generator;
}.

Definition with_db (w : World) (db : Database) : World := {|
  w_db := db; w_clock := w_clock w; w_fault := w_fault w; w_random := w_random w;
  w_uuid := w_uuid w; w_ticks := w_ticks w; w_stmts := w_stmts w; w_draws := w_draws w;
  w_uuids := w_uuids w; w_gen := w_gen w |}.

Definition with_counts (w : World) (ticks stmts draws uuids : nat) (gen : Generator) : World := {|
  w_db := w_db w; w_clock := w_clock w; w_fault := w_fault w; w_random := w_random w;
  w_uuid := w_uuid w; w_ticks := ticks; w_stmts := stmts; w_draws := draws;
  w_uuids := uuids; w_gen := gen |}.

(** The monad of the services over this world. *)
Definition G (A : Type) : Type := M World error A.

(** [time.Now()] *)
Definition time_now : G time := fun w =>
  (Ok (w_clock w (w_ticks w)),
   with_counts w (S (w_ticks w)) (w_stmts w) (w_draws w) (w_uuids w) (w_gen w)).

(** [(s.ids).Next()]: the generator reads the clock in milliseconds. *)
Definition next_id : G Z := fun w =>
  let '(id, gen) := Snowflake.Next (unix_milli (w_clock w (w_ticks w))) (w_gen w) in
  (Ok id, with_counts w (S (w_ticks w)) (w_stmts w) (w_draws w) (w_uuids w) gen).

(** [uuid.NewString()] *)
Definition new_uuid : G string := fun w =>
  (Ok (w_uuid w (w_uuids w)),
   with_counts w (w_ticks w) (w_stmts w) (w_draws w) (S (w_uuids w)) (w_gen w)).

(** [rand.Read]: the bytes, or an error. *)
Definition rand_read : G (list Z) := fun w =>
  (match w_random w (w_draws w) with
   | Some bytes => Ok bytes
   | None => Err (EMessage "crypto/rand: read failed")
   end,
   with_counts w (w_ticks w) (w_stmts w) (S (w_draws w)) (w_uuids w) (w_gen w)).

(** ** Statements *)

Class Table (R : Type) := {
  rows : Database -> list R;
  set_rows : list R -> Database -> Database;
  row_check : R -> bool;        (* the CHECK constraints and column types *)
  row_conflict : R -> R -> bool (* the primary key and the unique keys *)
}.

(** A statement on the database, which fails when the environment says so. *)
Definition exec {A} (f : Database -> result error (A * Database)) : G A := fun w =>
  let w1 := with_counts w (w_ticks w) (S (w_stmts w)) (w_draws w) (w_uuids w) (w_gen w) in
  match w_fault w (w_stmts w) with
  | Some msg => (Err (EMessage msg), w1)
  | None =>
      match f (w_db w) with
      | Ok (a, db) => (Ok a, with_db w1 db)
      | Err e => (Err e, w1)
      end
  end.

Definition duplicate_entry : error := EMessage "Error 1062 (23000): Duplicate entry for key".
Definition check_violated : error := EMessage "Error 3819 (HY000): Check violated.".

(** No two rows share a key. *)
Fixpoint no_conflict {R} (conflict : R -> R -> bool) (l : list R) : bool :=
  match l with
  | [] => true
  | r :: l' => negb (existsb (conflict r) l') && no_conflict conflict l'
  end.

(** An update that keeps what the keys read keeps the rows free of conflicts. *)
Lemma no_conflict_map_in {R} (conflict : R -> R -> bool) (f : R -> R) l :
  (forall x y, x ∈ l -> y ∈ l -> conflict x y = false -> conflict (f x) (f y) = false) ->
  no_conflict conflict l = true -> no_conflict conflict (map f l) = true.
Proof.
  induction l as [|x l IH]; simpl; intros Hf; [done|]. rewrite !andb_true_iff, !negb_true_iff.
  intros [Hx Hl]. split.
  - apply not_true_iff_false. intros E. apply existsb_exists in E as (z & Hz & E).
    apply in_map_iff in Hz as (y & <- & Hy). rewrite Hf in E; [done|by left| |].
    + right. by apply list_elem_of_In.
    + apply not_true_iff_false. intros C. apply not_true_iff_false in Hx. apply Hx.
      apply existsb_exists. eauto.
  - apply IH; [|done]. intros y z Hy Hz. apply Hf; by right.
Qed.

Lemma no_conflict_map {R} (conflict : R -> R -> bool) (f : R -> R) l :
  (forall x y, conflict (f x) (f y) = conflict x y) ->
  no_conflict conflict l = true -> no_conflict conflict (map f l) = true.
Proof. intros Hf. apply no_conflict_map_in. intros x y _ _. by rewrite Hf. Qed.

Lemma no_conflict_app_one {R} (conflict : R -> R -> bool) l x :
  no_conflict conflict l = true -> (forall y, y ∈ l -> conflict y x = false) ->
  no_conflict conflict (l ++ [x]) = true.
Proof.
  induction l as [|y l IH]; simpl; intros Hl Hx; [done|]. rewrite andb_true_iff in *.
  destruct Hl as [Hy Hl]. split.
  - rewrite negb_true_iff in *. rewrite existsb_app, Hy. simpl. by rewrite Hx by by left.
  - apply IH; [done|]. intros z Hz. apply Hx. by right.
Qed.

Section Statements.
Context {R : Type} `{Table R}.

(** [Where(p).Take(&row)]: one row, or [gorm.ErrRecordNotFound]. *)
Definition take_row (p : R -> bool) : G R :=
  exec (fun db => match find p (rows db) with
                  | Some r => Ok (r, db)
                  | None => Err ERecordNotFound
                  end).

(** [Where(p).Find(&rows)], with what [order] does with [Order] and [Limit]. *)
Definition find_rows (p : R -> bool) (order : list R -> list R) : G (list R) :=
  exec (fun db => Ok (order (List.filter p (rows db)), db)).

(** [Where(p).Count(&count)] *)
Definition count_rows (p : R -> bool) : G Z :=
  exec (fun db => Ok (Z.of_nat (List.length (List.filter p (rows db))), db)).

(** [Create(&row)] *)
Definition create_row (r : R) : G unit :=
  exec (fun db =>
    if negb (row_check r) then Err check_violated
    else if existsb (row_conflict r) (rows db) then Err duplicate_entry
    else Ok (tt, set_rows (rows db ++ [r]) db)).

(** [Create(&rows)]: one INSERT of all of them, or none. *)
Fixpoint insert_rows (l : list R) (db : Database) : result error (unit * Database) :=
  match l with
  | [] => Ok (tt, db)
  | r :: l' =>
      if negb (row_check r) then Err check_violated
      else if existsb (row_conflict r) (rows db) then Err duplicate_entry
      else insert_rows l' (set_rows (rows db ++ [r]) db)
  end.

Definition create_rows (l : list R) : G unit := exec (insert_rows l).

(** [Clauses(clause.OnConflict{DoNothing: true}).Create(&row)] *)
Definition create_or_ignore (r : R) : G unit :=
  exec (fun db =>
    if negb (row_check r) then Err check_violated
    else if existsb (row_conflict r) (rows db) then Ok (tt, db)
    else Ok (tt, set_rows (rows db ++ [r]) db)).

(** [Where(p).Updates(values)]: the number of rows it matched. *)
Definition update_rows (p : R -> bool) (f : R -> R) : G Z :=
  exec (fun db =>
    let new := map (fun r => if p r then f r else r) (rows db) in
    let hit := List.filter p (rows db) in
    if negb (forallb (fun r => row_check (f r)) hit) then Err check_violated
    else match hit with
         | [] => Ok (0, db)
         | _ => if no_conflict row_conflict new
                then Ok (Z.of_nat (List.length hit), set_rows new db)
                else Err duplicate_entry
         end).
End Statements.

(** ** Transactions *)

(** [db.Transaction(fn)]: [fn]'s error, or a failed BEGIN or COMMIT, puts the
    database back to what it was. *)
Definition transaction {A} (fn : G A) : G A := fun w =>
  let db0 := w_db w in
  match exec (fun db => Ok (tt, db)) w with
  | (Err e, w1) => (Err e, w1)
  | (Ok _, w1) =>
      match fn w1 with
      | (Err e, w2) => (Err e, with_db w2 db0)
      | (Ok a, w2) =>
          match exec (fun db => Ok (tt, db)) w2 with
          | (Ok _, w3) => (Ok a, w3)
          | (Err e, w3) => (Err e, with_db w3 db0)
          end
      end
  end.

(** ** The tables *)

Definition Build_Database_with
    (db : Database) lots txs gifts allocations tokens audits outbox idem : Database := {|
  db_lots := lots; db_transactions := txs; db_gifts := gifts;
  db_gift_allocations := allocations; db_gift_tokens := tokens;
  db_renewals := db_renewals db; db_redemption_allocations := db_redemption_allocations db;
  db_refund_allocations := db_refund_allocations db;
  db_customers := db_customers db; db_realnames := db_realnames db;
  db_identity_requests := db_identity_requests db; db_products := db_products db;
  db_audit_logs := audits; db_outbox := outbox; db_idempotency := idem;
  db_fulfilment := db_fulfilment db; db_sales := db_sales db |}.

Definition same_option (a b : option Z) : bool :=
  match a, b with Some x, Some y => x =? y | _, _ => false end.

Definition same_text (a b : option string) : bool :=
  match a, b with Some x, Some y => String.eqb x y | _, _ => false end.

#[export] Instance lots_table : Table Lot := {|
  rows := db_lots;
  set_rows l db := Build_Database_with db l (db_transactions db) (db_gifts db)
    (db_gift_allocations db) (db_gift_tokens db) (db_audit_logs db) (db_outbox db)
    (db_idempotency db);
  row_check := lot_row_check;
  row_conflict a b := (Lot_ID a =? Lot_ID b) || String.eqb (Lot_LotNo a) (Lot_LotNo b);
|}.

#[export] Instance transactions_table : Table Transaction := {|
  rows := db_transactions;
  set_rows l db := Build_Database_with db (db_lots db) l (db_gifts db)
    (db_gift_allocations db) (db_gift_tokens db) (db_audit_logs db) (db_outbox db)
    (db_idempotency db);
  row_check := transaction_row_check;
  row_conflict a b :=
    (Tx_ID a =? Tx_ID b) || String.eqb (Tx_TransactionNo a) (Tx_TransactionNo b) ||
    String.eqb (Tx_ActionKey a) (Tx_ActionKey b);
|}.

Definition gift_row_check (g : Gift) : bool :=
  existsb (String.eqb (Gift_Status g))
    ["pending"; "claimed"; "cancelled"; "expired_returned"; "exception"] &&
  fits_uint32 (Gift_Quantity g) && fits_uint32 (Gift_Version g) &&
  (0 <? Gift_Quantity g) && (Gift_CreatedAt g <? Gift_ClaimDeadline g) &&
  (Gift_ClaimDeadline g <=? Gift_EarliestExpiresAt g) &&
  (if String.eqb (Gift_Status g) "claimed" then
     match Gift_ReceiverCustomerID g with
     | Some r => negb (r =? Gift_GiverCustomerID g)
     | None => false
     end
   else true).

#[export] Instance gifts_table : Table Gift := {|
  rows := db_gifts;
  set_rows l db := Build_Database_with db (db_lots db) (db_transactions db) l
    (db_gift_allocations db) (db_gift_tokens db) (db_audit_logs db) (db_outbox db)
    (db_idempotency db);
  row_check := gift_row_check;
  row_conflict a b := (Gift_ID a =? Gift_ID b) || String.eqb (Gift_GiftNo a) (Gift_GiftNo b);
|}.

Definition allocation_row_check (a : GiftAllocation) : bool :=
  existsb (String.eqb (GA_Status a)) ["held"; "claimed"; "restored"; "exception"] &&
  fits_uint32 (GA_Quantity a) && (0 <? GA_Quantity a) &&
  (negb (String.eqb (GA_Status a) "claimed") || negb (bool_decide (GA_ReceiverLotID a = None))).

#[export] Instance gift_allocations_table : Table GiftAllocation := {|
  rows := db_gift_allocations;
  set_rows l db := Build_Database_with db (db_lots db) (db_transactions db) (db_gifts db)
    l (db_gift_tokens db) (db_audit_logs db) (db_outbox db) (db_idempotency db);
  row_check := allocation_row_check;
  row_conflict a b :=
    (GA_ID a =? GA_ID b) ||
    ((GA_GiftID a =? GA_GiftID b) && (GA_SourceLotID a =? GA_SourceLotID b)) ||
    same_option (GA_ReceiverLotID a) (GA_ReceiverLotID b);
|}.

#[export] Instance gift_tokens_table : Table GiftClaimToken := {|
  rows := db_gift_tokens;
  set_rows l db := Build_Database_with db (db_lots db) (db_transactions db) (db_gifts db)
    (db_gift_allocations db) l (db_audit_logs db) (db_outbox db) (db_idempotency db);
  row_check t :=
    bool_decide (Token_ConsumedAt t = None) || bool_decide (Token_RevokedAt t = None);
  row_conflict a b :=
    (Token_ID a =? Token_ID b) || String.eqb (Token_TokenDigest a) (Token_TokenDigest b);
|}.

#[export] Instance audit_logs_table : Table AuditLog := {|
  rows := db_audit_logs;
  set_rows l db := Build_Database_with db (db_lots db) (db_transactions db) (db_gifts db)
    (db_gift_allocations db) (db_gift_tokens db) l (db_outbox db) (db_idempotency db);
  row_check _ := true;
  row_conflict a b :=
    (Audit_ID a =? Audit_ID b) || same_text (Audit_EventID a) (Audit_EventID b);
|}.

#[export] Instance outbox_table : Table OutboxEvent := {|
  rows := db_outbox;
  set_rows l db := Build_Database_with db (db_lots db) (db_transactions db) (db_gifts db)
    (db_gift_allocations db) (db_gift_tokens db) (db_audit_logs db) l (db_idempotency db);
  row_check _ := true;
  row_conflict a b :=
    (Outbox_ID a =? Outbox_ID b) || String.eqb (Outbox_EventID a) (Outbox_EventID b);
|}.

(** The row an idempotency key names. *)
Definition idem_key (actorType : string) (actorID : Z) (path keyHash : string)
    (r : IdempotencyRecord) : bool :=
  String.eqb (Idem_ActorType r) actorType && (Idem_ActorID r =? actorID) &&
  String.eqb (Idem_Path r) path && String.eqb (Idem_KeyHash r) keyHash.

#[export] Instance idempotency_table : Table IdempotencyRecord := {|
  rows := db_idempotency;
  set_rows l db := Build_Database_with db (db_lots db) (db_transactions db) (db_gifts db)
    (db_gift_allocations db) (db_gift_tokens db) (db_audit_logs db) (db_outbox db) l;
  row_check _ := true;
  row_conflict a b :=
    (Idem_ID a =? Idem_ID b) ||
    idem_key (Idem_ActorType b) (Idem_ActorID b) (Idem_Path b) (Idem_KeyHash b) a;
|}.

(** The tables the module only reads. *)
#[export] Instance renewals_table : Table RenewalGuard :=
  {| rows := db_renewals; set_rows _ db := db; row_check _ := true;
     row_conflict a b := RG_ID a =? RG_ID b |}.
#[export] Instance refund_allocations_table : Table RefundAllocation :=
  {| rows := db_refund_allocations; set_rows _ db := db; row_check _ := true;
     row_conflict a b := FA_ID a =? FA_ID b |}.
#[export] Instance customers_table : Table Customer :=
  {| rows := db_customers; set_rows _ db := db; row_check _ := true;
     row_conflict a b := Customer_ID a =? Customer_ID b |}.
#[export] Instance realnames_table : Table Realname :=
  {| rows := db_realnames; set_rows _ db := db; row_check _ := true;
     row_conflict a b := Realname_CustomerID a =? Realname_CustomerID b |}.
#[export] Instance identity_requests_table : Table IdentityRequest :=
  {| rows := db_identity_requests; set_rows _ db := db; row_check _ := true;
     row_conflict _ _ := false |}.

(** ** What the statements do *)

Section StatementLemmas.
Context {R : Type} `{Table R}.
Implicit Types (w : World) (p : R -> bool).

Lemma exec_ok {A} (f : Database -> result error (A * Database)) w a w' :
  exec f w = (Ok a, w') -> f (w_db w) = Ok (a, w_db w').
Proof.
  unfold exec. destruct (w_fault w _); [discriminate|].
  destruct (f (w_db w)) as [[a' db]|e] eqn:E; [|discriminate].
  intros Heq. simplify_eq. done.
Qed.

Lemma exec_err {A} (f : Database -> result error (A * Database)) w e w' :
  exec f w = (Err e, w') -> w_db w' = w_db w /\
  ((exists msg, e = EMessage msg) \/ f (w_db w) = Err e).
Proof.
  unfold exec. destruct (w_fault w _) as [msg|]; [intros Heq; simplify_eq; eauto|].
  destruct (f (w_db w)) as [[a' db]|e'] eqn:E; [discriminate|].
  intros Heq. simplify_eq. auto.
Qed.

Lemma take_row_ok p w r w' : take_row p w = (Ok r, w') ->
  w_db w' = w_db w /\ r ∈ rows (w_db w) /\ p r = true.
Proof.
  intros E. apply exec_ok in E. destruct (find p _) eqn:F; [|discriminate].
  simplify_eq. apply find_some in F as [Hin Hp]. by rewrite list_elem_of_In.
Qed.

Lemma take_row_none p w w' : take_row p w = (Err ERecordNotFound, w') ->
  w_db w' = w_db w /\ forall r, r ∈ rows (w_db w) -> p r = false.
Proof.
  intros E. apply exec_err in E as [Hdb [[msg ?]|E]]; [done|]. split; [done|].
  destruct (find p _) eqn:F; [done|]. intros r Hin. apply list_elem_of_In in Hin.
  by apply (find_none _ _ F).
Qed.

Lemma take_row_err p w e w' : take_row p w = (Err e, w') -> w_db w' = w_db w.
Proof. intros E. by apply exec_err in E as [? _]. Qed.

Lemma find_rows_ok p order w l w' : find_rows p order w = (Ok l, w') ->
  w_db w' = w_db w /\ l = order (List.filter p (rows (w_db w))).
Proof. intros E. apply exec_ok in E. by simplify_eq. Qed.

Lemma count_rows_ok p w n w' : count_rows p w = (Ok n, w') ->
  w_db w' = w_db w /\ (0 < n <-> exists r, r ∈ rows (w_db w) /\ p r = true).
Proof.
  intros E. apply exec_ok in E. simplify_eq. split; [done|].
  destruct (List.filter p _) as [|r l] eqn:F; simpl; split; try lia.
  - intros (r & Hin & Hp). apply list_elem_of_In in Hin.
    pose proof (proj2 (filter_In p r _) (conj Hin Hp)) as Hf. by rewrite F in Hf.
  - intros _. exists r. rewrite list_elem_of_In. apply filter_In. rewrite F. by left.
Qed.

Lemma create_row_ok r w u w' : create_row r w = (Ok u, w') ->
  w_db w' = set_rows (rows (w_db w) ++ [r]) (w_db w) /\ row_check r = true /\
  forall r', r' ∈ rows (w_db w) -> row_conflict r r' = false.
Proof.
  intros E. apply exec_ok in E. destruct (row_check r); [|discriminate]. simpl in E.
  destruct (existsb _ _) eqn:F; [discriminate|]. simplify_eq. split; [done|].
  split; [done|]. intros r' Hin. apply list_elem_of_In in Hin.
  destruct (row_conflict r r') eqn:C; [|done]. rewrite <- F. symmetry.
  apply existsb_exists. eauto.
Qed.

Lemma create_or_ignore_ok r w u w' : create_or_ignore r w = (Ok u, w') ->
  row_check r = true /\
  ((w_db w' = set_rows (rows (w_db w) ++ [r]) (w_db w) /\
    forall r', r' ∈ rows (w_db w) -> row_conflict r r' = false) \/
   (w_db w' = w_db w /\ exists r', r' ∈ rows (w_db w) /\ row_conflict r r' = true)).
Proof.
  intros E. apply exec_ok in E. destruct (row_check r); [|discriminate]. simpl in E.
  split; [done|]. destruct (existsb _ _) eqn:F; simplify_eq.
  - right. split; [done|]. apply existsb_exists in F as (r' & Hin & C).
    exists r'. by rewrite list_elem_of_In.
  - left. split; [done|]. intros r' Hin. apply list_elem_of_In in Hin.
    destruct (row_conflict r r') eqn:C; [|done]. rewrite <- F. symmetry.
    apply existsb_exists. eauto.
Qed.

Lemma update_rows_ok p (f : R -> R) w n w' : update_rows p f w = (Ok n, w') ->
  (forall r, r ∈ rows (w_db w) -> p r = true -> row_check (f r) = true) /\
  n = Z.of_nat (List.length (List.filter p (rows (w_db w)))) /\
  (n = 0 /\ w_db w' = w_db w \/
   0 < n /\ w_db w' = set_rows (map (fun r => if p r then f r else r) (rows (w_db w))) (w_db w)).
Proof.
  intros E. apply exec_ok in E. cbv zeta in E.
  destruct (forallb _ _) eqn:F; [|discriminate]. simpl in E.
  rewrite forallb_forall in F. split.
  { intros r Hin Hp. apply F, filter_In. by rewrite <- list_elem_of_In. }
  destruct (List.filter p _) as [|r l]; [by simplify_eq; auto|].
  destruct (no_conflict _ _); [|discriminate]. injection E as <- <-.
  split; [done|]. right. split; [simpl; lia | done].
Qed.
End StatementLemmas.

(** ** Transactions are atomic *)

Lemma transaction_ok {A} (fn : G A) w a w' : transaction fn w = (Ok a, w') ->
  exists w1 w2, w_db w1 = w_db w /\ fn w1 = (Ok a, w2) /\ w_db w' = w_db w2.
Proof.
  unfold transaction. intros H.
  destruct (exec _ w) as [[u|e] w1] eqn:E1; [|discriminate]. apply exec_ok in E1. simplify_eq.
  destruct (fn w1) as [[a1|e] w2] eqn:E2; [|discriminate].
  destruct (exec _ w2) as [[u2|e] w3] eqn:E3; [|discriminate]. apply exec_ok in E3. simplify_eq.
  exists w1, w2. split; [congruence|]. split; [done|congruence].
Qed.

Lemma transaction_err {A} (fn : G A) w e w' : transaction fn w = (Err e, w') -> w_db w' = w_db w.
Proof.
  unfold transaction. intros H.
  destruct (exec _ w) as [[u|e1] w1] eqn:E1; [|simplify_eq; by apply exec_err in E1 as [? _]].
  destruct (fn w1) as [[a1|e1] w2]; [|by simplify_eq].
  destruct (exec _ w2) as [[u2|e2] w3]; by simplify_eq.
Qed.

(** Reading the clock, an identifier, a UUID or random bytes leaves the
    database as it is. *)
Lemma next_id_db w r w' : next_id w = (r, w') -> w_db w' = w_db w.
Proof. unfold next_id. destruct (Snowflake.Next _ _). intros E. by simplify_eq. Qed.

Lemma time_now_db w r w' : time_now w = (r, w') -> w_db w' = w_db w.
Proof. unfold time_now. intros E. by simplify_eq. Qed.

Lemma new_uuid_db w r w' : new_uuid w = (r, w') -> w_db w' = w_db w.
Proof. unfold new_uuid. intros E. by simplify_eq. Qed.

Lemma rand_read_db w r w' : rand_read w = (r, w') -> w_db w' = w_db w.
Proof. unfold rand_read. intros E. by simplify_eq. Qed.

(** ** Runs without faults *)

Definition no_faults (w : World) : Prop := forall n, w_fault w n = None.

(** The world after a statement that changed nothing. *)
Definition bump (w : World) : World :=
  with_counts w (w_ticks w) (S (w_stmts w)) (w_draws w) (w_uuids w) (w_gen w).

Lemma exec_run {A} (f : Database -> result error (A * Database)) w :
  no_faults w ->
  exec f w = match f (w_db w) with
             | Ok (a, db) => (Ok a, with_db (bump w) db)
             | Err e => (Err e, bump w)
             end.
Proof. unfold exec. intros ->. done. Qed.

Section Runs.
Context {R : Type} `{Table R}.

Lemma take_row_run (p : R -> bool) w : no_faults w ->
  take_row p w = (match find p (rows (w_db w)) with
                  | Some r => Ok r
                  | None => Err ERecordNotFound
                  end, bump w).
Proof. intros Hn. unfold take_row. rewrite exec_run by done. by destruct (find p _). Qed.

Lemma find_rows_run (p : R -> bool) order w : no_faults w ->
  find_rows p order w = (Ok (order (List.filter p (rows (w_db w)))), bump w).
Proof. intros Hn. unfold find_rows. by rewrite exec_run. Qed.

Lemma create_row_run r w : no_faults w -> row_check r = true ->
  (forall r', r' ∈ rows (w_db w) -> row_conflict r r' = false) ->
  create_row r w = (Ok tt, with_db (bump w) (set_rows (rows (w_db w) ++ [r]) (w_db w))).
Proof.
  intros Hn Hc Hno. unfold create_row. rewrite exec_run by done. rewrite Hc. simpl.
  replace (existsb _ _) with false; [done|]. symmetry. apply not_true_iff_false.
  intros E. apply existsb_exists in E as (r' & Hin & E).
  rewrite Hno in E; [done|]. by apply list_elem_of_In.
Qed.
End Runs.

Section MoreRuns.
Context {R : Type} `{Table R}.

Lemma create_or_ignore_run r w : no_faults w -> row_check r = true ->
  create_or_ignore r w =
  (Ok tt, if existsb (row_conflict r) (rows (w_db w)) then with_db (bump w) (w_db w)
          else with_db (bump w) (set_rows (rows (w_db w) ++ [r]) (w_db w))).
Proof.
  intros Hn Hc. unfold create_or_ignore. rewrite exec_run by done. rewrite Hc. simpl.
  by destruct (existsb _ _).
Qed.

Lemma update_rows_run (p : R -> bool) f w : no_faults w ->
  (forall r, r ∈ rows (w_db w) -> p r = true -> row_check (f r) = true) ->
  no_conflict row_conflict (map (fun r => if p r then f r else r) (rows (w_db w))) = true ->
  exists w', update_rows p f w =
    (Ok (Z.of_nat (List.length (List.filter p (rows (w_db w))))), w') /\ no_faults w' /\
    w_db w' = match List.filter p (rows (w_db w)) with
              | [] => w_db w
              | _ => set_rows (map (fun r => if p r then f r else r) (rows (w_db w))) (w_db w)
              end.
Proof.
  intros Hn Hc Hnc. unfold update_rows. rewrite exec_run by done. cbv zeta.
  replace (forallb _ _) with true; [simpl|].
  - destruct (List.filter p _) as [|r l]; [by eexists|]. rewrite Hnc. by eexists.
  - symmetry. apply forallb_forall. intros r Hr. apply filter_In in Hr as [Hr Hp].
    apply Hc; [by apply list_elem_of_In|done].
Qed.
End MoreRuns.

Lemma no_faults_bump w : no_faults w -> no_faults (bump w).
Proof. done. Qed.

Lemma no_faults_db w db : no_faults w -> no_faults (with_db w db).
Proof. done. Qed.

(** The row a unique key finds. *)
Lemma find_unique {R K} (key : R -> K) (p : R -> bool) l r :
  NoDup (map key l) -> r ∈ l -> p r = true ->
  (forall r', r' ∈ l -> p r' = true -> key r' = key r) -> find p l = Some r.
Proof.
  intros Hnd Hin Hp Hkey. induction l as [|x l IH]; [by apply not_elem_of_nil in Hin|].
  simpl in *. apply NoDup_cons in Hnd as [Hx Hnd].
  assert (Hmem : forall y, y ∈ l -> key y ∈ map key l).
  { intros y Hy. apply list_elem_of_In, in_map, list_elem_of_In, Hy. }
  apply elem_of_cons in Hin as [->|Hin]; [by rewrite Hp|].
  destruct (p x) eqn:E.
  - exfalso. apply Hx. rewrite (Hkey x); [auto| by left | done].
  - apply IH; auto. intros r' Hr'. apply Hkey. by right.
Qed.

Lemma find_absent {R} (p : R -> bool) l : (forall r, r ∈ l -> p r = false) -> find p l = None.
Proof.
  induction l as [|x l IH]; simpl; intros Hp; [done|]. rewrite Hp by by left.
  apply IH. intros r Hr. apply Hp. by right.
Qed.
