(* ===== verification/Pagination.v ===== *)
(** * Pagination

    [pkg/pagination/pagination.go]: page sizes, the whitelists of [order_by] and
    [filter], keyset conditions, and the signed page token, which binds a cursor
    to the query it continues.  [os.Getenv] is the argument [secret]; the parts
    of a request the package reads through gin are the record [Request]. *)

From S2P Require Import Prelude GoInt GoString GoTime Json JsonParse Base64 Sha256 Problem.
From S2P Require Import RequestCtx CoreModel GiftModel Snowflake AssetService Database.
From Stdlib Require Import Ascii String.
#[local] Open Scope string_scope. #[local] Open Scope list_scope. #[local] Open Scope Z_scope.
#[local] Open Scope go_scope.

(** ** [strings], [strconv], [net/url] and [crypto/hmac] *)

(** [strings.Split] at a separator of one byte. *)
Fixpoint split_on (sep : ascii) (s : string) : list string :=
  match s with
  | EmptyString => [""]
  | String c s' =>
      if Ascii.eqb c sep then "" :: split_on sep s'
      else match split_on sep s' with
           | part :: parts => String c part :: parts
           | [] => [String c ""]
           end
  end.

(** [strings.Fields] *)
Fixpoint fields_of (l : list (Z * bool * list Z)) (current : list Z) : list string :=
  let flush := match current with [] => [] | _ => [of_bytes current] end in
  match l with
  | [] => flush
  | r :: l' => if is_space r.1.1 then flush ++ fields_of l' [] else fields_of l' (current ++ r.2)
  end.

Definition fields (s : string) : list string := fields_of (runes s) [].

(** [strings.Index] *)
Fixpoint index_from (i : Z) (s sub : string) : Z :=
  if has_prefix s sub then i
  else match s with
       | EmptyString => -1
       | String _ s' => index_from (i + 1) s' sub
       end.

Definition index (s sub : string) : Z := index_from 0 s sub.

(** [s[:n]] and [s[n:]] *)
Definition slice_to (n : Z) (s : string) : string := substring 0 (Z.to_nat n) s.
Definition slice_from (n : Z) (s : string) : string :=
  substring (Z.to_nat n) (String.length s) s.

(** [strings.Trim(s, cutset)] for a cutset of ASCII characters. *)
Fixpoint trim_left (cutset : list Z) (l : list Z) : list Z :=
  match l with
  | b :: r => if existsb (Z.eqb b) cutset then trim_left cutset r else l
  | [] => []
  end.

Definition trim_bytes (cutset : list Z) (s : string) : string :=
  of_bytes (rev (trim_left cutset (rev (trim_left cutset (bytes_of s))))).

Definition upper_byte (c : ascii) : ascii :=
  let b := byte_val c in
  if (97 <=? b) && (b <=? 122) then val_byte (b - 32) else c.

(** [strings.ToUpper], of the ASCII words the package applies it to. *)
Fixpoint to_upper (s : string) : string :=
  match s with
  | EmptyString => EmptyString
  | String c s' => String (upper_byte c) (to_upper s')
  end.

(** [strconv.Atoi] and [strconv.ParseInt(s, 10, 64)] *)
Definition parse_int (s : string) : option Z :=
  let value digits sign :=
    match digits with
    | EmptyString => None
    | _ => match parse_digits digits 0 with
           | Some v =>
               let z := sign * v in
               if (- i64_half <=? z) && (z <? i64_half) then Some z else None
           | None => None
           end
    end in
  match s with
  | String c s' =>
      if Ascii.eqb c "-" then value s' (-1)
      else if Ascii.eqb c "+" then value s' 1 else value s 1
  | EmptyString => None
  end.

(** [url.QueryEscape] *)
Definition escape_byte (b : Z) : list Z :=
  if is_digit b || ((65 <=? b) && (b <=? 90)) || ((97 <=? b) && (b <=? 122)) ||
     (b =? 45) || (b =? 95) || (b =? 46) || (b =? 126)
  then [b]
  else if b =? 32 then [43]
  else let digit d := if d <? 10 then 48 + d else 55 + d in [37; digit (b / 16); digit (b mod 16)].

Definition query_escape (s : string) : string :=
  of_bytes (List.concat (map escape_byte (bytes_of s))).

(** [url.Values]: each key once, with its values. *)
Definition Values : Type := list (string * list string).

(** [Encode] *)
Definition encode_values (values : Values) : string :=
  join "&" (List.concat (map (fun kv => map (fun v => query_escape kv.1 +:+ "=" +:+ query_escape v) kv.2)
                       (sort_keys values))).

(** HMAC-SHA256 of a message under a key. *)
Definition hmac_sha256 (key message : list Z) : list Z :=
  let key0 := if (64 <? Z.of_nat (List.length key)) then sum256 key else key in
  let key1 := key0 ++ repeat 0 (64 - List.length key0) in
  let pad x := map (Z.lxor x) key1 in
  sum256 (pad 92 ++ sum256 (pad 54 ++ message)).

(** Test case 2 of RFC 4231. *)
Example hmac_rfc4231 :
  hex_encode (hmac_sha256 (bytes_of "Jefe") (bytes_of "what do ya want for nothing?")) =
  "5bdcc146bf60754e6a042426089575c75a003f089d2739839dec58b964ec3843".
Proof. vm_compute. reflexivity. Qed.

(** [Unix()] *)
Definition unix (t : time) : Z := t / second.

(** ** Queries *)

Definition DefaultPageSize : Z := 20.
Definition MaxPageSize : Z := 100.

Definition allowedOrderFields : list string :=
  ["id"; "created_at"; "updated_at"; "sort_order"; "sale_price_amount"; "available_qty";
   "reserved_qty"; "locked_qty"; "status"; "pay_status"; "delivery_status"; "review_status";
   "name"; "product_name"; "shop_id"; "merchant_id"; "customer_id"; "shop_product_id";
   "scope_type"; "scope_id"; "mode"; "published_at"; "version"; "policy_version";
   "next_action_at"; "assigned_at"; "dispatch_status"; "reported_at"; "incident_no";
   "rider_id"; "type"; "stage"].

Record Query := {
  Query_PageSize : Z;
  Query_PageToken : string;
  Query_OrderBy : string;
  Query_Filter : string;
  Query_Offset : Z;
  Query_TokenHash : string;
  Query_Cursor : list string;
}.

Record pageCursor := {
  Page_Version : Z;
  Page_Offset : Z;
  Page_QueryHash : string;
  Page_After : list string;
  Page_IssuedAt : Z;
}.

Definition zero_cursor : pageCursor := {|
  Page_Version := 0; Page_Offset := 0; Page_QueryHash := ""; Page_After := [];
  Page_IssuedAt := 0 |}.

(** What the package reads of a gin context. *)
Record Request := {
  Req_Method : string;
  Req_FullPath : string;
  Req_Path : string;
  Req_Query : Values;
}.

(** [c.Query(key)]: the first value, or nothing. *)
Definition query_value (c : Request) (key : string) : string :=
  match assoc key (Req_Query c) with Some (v :: _) => v | _ => "" end.

Definition invalid_query (detail : string) : error :=
  InvalidArgument "VALIDATION_INVALID_QUERY" detail.

Definition invalidPageToken (detail : string) : error := InvalidArgument "PAGE_TOKEN_INVALID" detail.

Definition member_of (l : list string) (s : string) : bool := existsb (String.eqb s) l.

Definition comma : ascii := ","%char.

(** ** [order_by] *)

Definition is_direction (s : string) : bool :=
  String.eqb (to_lower s) "asc" || String.eqb (to_lower s) "desc".

(** One item of [order_by]. *)
Definition order_item_valid (item : string) : res unit :=
  match fields (trim_space item) with
  | [field] =>
      if member_of allowedOrderFields field then Ok tt
      else Err (invalid_query "order_by field is not allowed")
  | [field; direction] =>
      if negb (member_of allowedOrderFields field)
      then Err (invalid_query "order_by field is not allowed")
      else if is_direction direction then Ok tt
      else Err (invalid_query "order_by direction must be asc or desc")
  | _ => Err (invalid_query "invalid order_by")
  end.

(** The first error of a list of checks. *)
Fixpoint check_all {A} (check : A -> res unit) (l : list A) : res unit :=
  match l with
  | [] => Ok tt
  | x :: l' => match check x with Ok _ => check_all check l' | Err e => Err e end
  end.

Definition validateOrderBy (raw : string) : res unit :=
  if String.eqb (trim_space raw) "" then Ok tt
  else check_all order_item_valid (split_on comma raw).

Record orderSpec := { Order_Field : string; Order_Direction : string }.

Definition order_spec (item : string) : orderSpec :=
  match fields (trim_space item) with
  | [field; direction] => {| Order_Field := field; Order_Direction := to_upper direction |}
  | field :: _ => {| Order_Field := field; Order_Direction := "ASC" |}
  | [] => {| Order_Field := ""; Order_Direction := "ASC" |}
  end.

Definition parseOrder (raw : string) : res (list orderSpec) :=
  match validateOrderBy raw with
  | Err e => Err e
  | Ok _ => Ok (map order_spec (split_on comma raw))
  end.

(** ** [filter] *)

Definition ident_start (b : Z) : bool :=
  ((65 <=? b) && (b <=? 90)) || ((97 <=? b) && (b <=? 122)) || (b =? 95).
Definition ident_byte (b : Z) : bool := ident_start b || is_digit b.

(** The operators in the order [parseFilterExpr] looks for them. *)
Definition filter_operators : list string := ["=="; "!="; ">="; "<="; ">"; "<"; ":"].

(** [[^,()]+] up to the end of the text. *)
Definition value_text (l : list Z) : bool :=
  match l with
  | [] => false
  | _ => forallb (fun b => negb ((b =? 44) || (b =? 40) || (b =? 41))) l
  end.

(** [filterExprPattern].  An identifier byte starts no operator, so the match
    of the identifier is the longest one; an operator may be read as a shorter
    one, the rest belonging to the value. *)
Definition filter_matches (expr : string) : bool :=
  match bytes_of expr with
  | b :: l =>
      ident_start b &&
      let rest := (span ident_byte l).2 in
      existsb (fun op => match strip (bytes_of op) rest with
                         | Some value => value_text value
                         | None => false
                         end) filter_operators
  | [] => false
  end.

Definition filter_item_valid (item : string) : res unit :=
  let expr := trim_space item in
  if String.eqb expr "" || negb (filter_matches expr)
  then Err (invalid_query "invalid filter syntax") else Ok tt.

Definition validateFilter (raw : string) : res unit :=
  if String.eqb (trim_space raw) "" then Ok tt
  else check_all filter_item_valid (split_on comma raw).

Record filterSpec := { Filter_Field : string; Filter_Operator : string; Filter_Value : string }.

(** The quotation mark and the apostrophe. *)
Definition quotes : list Z := [34; 39].

(** The first operator of the list that occurs past the first byte. *)
Fixpoint split_at_operator (ops : list string) (expr : string) : res filterSpec :=
  match ops with
  | [] => Err (invalid_query "invalid filter syntax")
  | op :: ops' =>
      let idx := index expr op in
      if 0 <? idx then
        let field := trim_space (slice_to idx expr) in
        let value := trim_bytes quotes (trim_space (slice_from (idx + str_len op) expr)) in
        if String.eqb field "" || String.eqb value ""
        then Err (invalid_query "invalid filter syntax")
        else Ok {| Filter_Field := field; Filter_Operator := op; Filter_Value := value |}
      else split_at_operator ops' expr
  end.

Definition parseFilterExpr (expr : string) : res filterSpec :=
  split_at_operator filter_operators expr.

Fixpoint map_res {A B} (f : A -> res B) (l : list A) : res (list B) :=
  match l with
  | [] => Ok []
  | x :: l' =>
      match f x with
      | Err e => Err e
      | Ok y => match map_res f l' with Ok ys => Ok (y :: ys) | Err e => Err e end
      end
  end.

Definition parseFilter (raw : string) : res (list filterSpec) :=
  match validateFilter raw with
  | Err e => Err e
  | Ok _ => map_res (fun item => parseFilterExpr (trim_space item)) (split_on comma raw)
  end.

(** ** Conditions and orders of a statement *)

(** What the package adds to a statement: a condition on a column with its
    argument, or a sort key. *)
Inductive clause :=
| Where (column operator argument : string)
| Order (key : string).

(** Column names by public field name. *)
Definition Columns : Type := list (string * string).

(** [columns[spec.Field]] for each item, and the clause it becomes. *)
Definition filter_clause (columns : Columns) (spec : filterSpec) : res clause :=
  match assoc (Filter_Field spec) columns with
  | None => Err (invalid_query "filter field is not allowed")
  | Some column =>
      let op := Filter_Operator spec in
      let value := Filter_Value spec in
      if String.eqb op ":" then Ok (Where column "LIKE" ("%" +:+ value +:+ "%"))
      else if String.eqb op "==" then Ok (Where column "=" value)
      else if String.eqb op "!=" then Ok (Where column "<>" value)
      else if member_of [">"; ">="; "<"; "<="] op then Ok (Where column op value)
      else Err (invalid_query "invalid filter operator")
  end.

Definition ApplyFilter (raw : string) (columns : Columns) : res (list clause) :=
  if String.eqb (trim_space raw) "" then Ok []
  else match parseFilter raw with
       | Err e => Err e
       | Ok specs => map_res (filter_clause columns) specs
       end.

Definition order_clause (columns : Columns) (spec : orderSpec) : res clause :=
  match assoc (Order_Field spec) columns with
  | None => Err (invalid_query "order_by field is not allowed")
  | Some column => Ok (Order (column +:+ " " +:+ Order_Direction spec))
  end.

Definition ApplyOrder (raw : string) (columns : Columns) (fallback : string) : res (list clause) :=
  if String.eqb (trim_space raw) "" then
    if String.eqb fallback "" then Ok [] else Ok [Order fallback]
  else match parseOrder raw with
       | Err e => Err e
       | Ok specs => map_res (order_clause columns) specs
       end.

(** ** Keyset conditions *)

Definition cursor_id (raw : string) : res Z :=
  match parse_uint raw with
  | Some id => if id =? 0 then Err (invalidPageToken "invalid cursor id") else Ok id
  | None => Err (invalidPageToken "invalid cursor id")
  end.

(** The rows a cursor leaves, by their identifier. *)
Definition ApplyIDCursor (query : Query) (direction : string) : res (Z -> bool) :=
  match Query_Cursor query with
  | [] => Ok (fun _ => true)
  | [raw] =>
      match cursor_id raw with
      | Err e => Err e
      | Ok id =>
          if String.eqb (to_lower direction) "desc" then Ok (fun i => i <? id)
          else if String.eqb (to_lower direction) "asc" then Ok (fun i => id <? i)
          else Err (Internal "invalid keyset direction")
      end
  | _ => Err (invalidPageToken "invalid id cursor")
  end.

(** The rows a cursor leaves, by a number and their identifier. *)
Definition ApplyIntIDCursor (query : Query) (direction : string) : res (Z -> Z -> bool) :=
  match Query_Cursor query with
  | [] => Ok (fun _ _ => true)
  | [raw; rawID] =>
      match parse_int raw with
      | None => Err (invalidPageToken "invalid cursor value")
      | Some value =>
          match cursor_id rawID with
          | Err e => Err e
          | Ok id =>
              if String.eqb (to_lower direction) "desc"
              then Ok (fun v i => (v <? value) || ((v =? value) && (i <? id)))
              else if String.eqb (to_lower direction) "asc"
              then Ok (fun v i => (value <? v) || ((v =? value) && (id <? i)))
              else Err (Internal "invalid keyset direction")
          end
      end
  | _ => Err (invalidPageToken "invalid keyset cursor")
  end.

(** The offset of a statement without a keyset. *)
Definition OffsetDB {A} (query : Query) (rows : list A) : list A :=
  match Query_Cursor query with
  | [] => skipn (Z.to_nat (Query_Offset query)) rows
  | _ => rows
  end.

(** ** Page tokens *)

(** The struct as [json.Marshal] prints it: an empty [After] is left out. *)
Definition pageCursor_json (c : pageCursor) : json :=
  JObj ([("version", JNum (Page_Version c)); ("offset", JNum (Page_Offset c));
         ("query_hash", JStr (Page_QueryHash c))] ++
        (match Page_After c with [] => [] | l => [("after", JArr (map JStr l))] end) ++
        [("issued_at", JNum (Page_IssuedAt c))]).

(** Field names match without regard to case: ASCII letters, and the two other
    letters that fold to one. *)
Definition fold_rune (r : Z * bool * list Z) : list Z :=
  if (65 <=? r.1.1) && (r.1.1 <=? 90) then [r.1.1 + 32]
  else if r.1.1 =? 383 then [115]
  else if r.1.1 =? 8490 then [107]
  else r.2.

Definition fold_name (s : string) : string := of_bytes (List.concat (map fold_rune (runes s))).

(** Decoding of one member into the types of the fields; [null] leaves the
    field, a value of another type is an error. *)
Definition decode_int (old : Z) (lo hi : Z) (d : doc) : option Z :=
  match d with
  | DNull => Some old
  | DNum lit => match parse_int (of_bytes lit) with
                | Some z => if (lo <=? z) && (z <=? hi) then Some z else None
                | None => None
                end
  | _ => None
  end.

Definition decode_string (old : string) (d : doc) : option string :=
  match d with DNull => Some old | DStr s => Some s | _ => None end.

(** The elements of a slice; an element left by [null] is what was there. *)
Fixpoint decode_strings (old : list string) (l : list doc) : option (list string) :=
  match l with
  | [] => Some []
  | d :: l' =>
      match decode_string (default "" (head old)) d, decode_strings (tail old) l' with
      | Some s, Some ss => Some (s :: ss)
      | _, _ => None
      end
  end.

Definition set_member (c : pageCursor) (kv : string * doc) : option pageCursor :=
  let name := fold_name kv.1 in
  let '{| Page_Version := v; Page_Offset := o; Page_QueryHash := h; Page_After := a;
          Page_IssuedAt := i |} := c in
  let build v o h a i := {| Page_Version := v; Page_Offset := o; Page_QueryHash := h;
                            Page_After := a; Page_IssuedAt := i |} in
  if String.eqb name "version" then
    (fun v => build v o h a i) <$> decode_int v 0 255 kv.2
  else if String.eqb name "offset" then
    (fun o => build v o h a i) <$> decode_int o (- i64_half) (i64_half - 1) kv.2
  else if String.eqb name "query_hash" then
    (fun h => build v o h a i) <$> decode_string h kv.2
  else if String.eqb name "after" then
    match kv.2 with
    | DNull => Some (build v o h [] i)
    | DArr l => (fun a => build v o h a i) <$> decode_strings a l
    | _ => None
    end
  else if String.eqb name "issued_at" then
    (fun i => build v o h a i) <$> decode_int i (- i64_half) (i64_half - 1) kv.2
  else Some c.

Fixpoint set_members (c : pageCursor) (l : list (string * doc)) : option pageCursor :=
  match l with
  | [] => Some c
  | kv :: l' => match set_member c kv with Some c' => set_members c' l' | None => None end
  end.

(** [json.Unmarshal(payload, &cursor)] into a zero cursor *)
Definition unmarshal_cursor (payload : list Z) : option pageCursor :=
  match parse_json payload with
  | Some DNull => Some zero_cursor
  | Some (DObj members) => set_members zero_cursor members
  | _ => None
  end.

Definition dot : ascii := "."%char.
Definition newline : string := String (ascii_of_nat 10) "".
Definition nul : string := String (ascii_of_nat 0) "".

(** A decoded cursor that continues the query of [expectedHash] at [now]. *)
Definition cursor_valid (c : pageCursor) (expectedHash : string) (now : Z) : bool :=
  negb (negb (Page_Version c =? 1) || (Page_Offset c <? 0) ||
        negb (String.eqb (Page_QueryHash c) expectedHash) ||
        (int_add now 300 <? Page_IssuedAt c) ||
        (Page_IssuedAt c <? int_add now (- (24 * 60 * 60)))).

Section Tokens.
Context (secret : string).

Definition pageTokenSigningKey : list Z :=
  let secret := if String.eqb secret "" then "local_access_secret_change_me" else secret in
  sum256 (bytes_of ("jiuxiaoer.pagination.v1" +:+ nul +:+ secret)).

(** The text of a token: a payload and the code that authenticates it. *)
Definition sign_token (payload : list Z) : string :=
  let encoded := b64_encode payload in
  encoded +:+ "." +:+ b64_encode (hmac_sha256 pageTokenSigningKey (bytes_of encoded)).

Definition nextPageToken (query : Query) (after : list string) : G string :=
  now <- time_now ;;
  ret (sign_token (bytes_of (marshal (pageCursor_json {|
    Page_Version := 1; Page_Offset := int_add (Query_Offset query) (Query_PageSize query);
    Page_QueryHash := Query_TokenHash query; Page_After := after;
    Page_IssuedAt := unix now |})))).

Definition NextPageToken (query : Query) : G string := nextPageToken query [].
Definition NextPageTokenWithCursor (query : Query) (after : list string) : G string :=
  nextPageToken query after.

Definition queryFingerprint (c : Request) (scope : list string) : string :=
  let values := List.filter (fun kv => negb (String.eqb kv.1 "page_token")) (Req_Query c) in
  let path := if String.eqb (Req_FullPath c) "" then Req_Path c else Req_FullPath c in
  sha256_hex (join newline [Req_Method c; path; encode_values values; join nul scope]).

(** The payload of a token with a valid code. *)
Definition token_payload (raw : string) : res (list Z) :=
  match split_on dot raw with
  | [encoded; code] =>
      match b64_decode code with
      | Some providedMAC =>
          if bool_decide (providedMAC = hmac_sha256 pageTokenSigningKey (bytes_of encoded)) then
            match b64_decode encoded with
            | Some payload => Ok payload
            | None => Err (invalidPageToken "invalid page_token")
            end
          else Err (invalidPageToken "invalid page_token signature")
      | None => Err (invalidPageToken "invalid page_token signature")
      end
  | _ => Err (invalidPageToken "invalid page_token")
  end.

Definition decodePageToken (raw expectedHash : string) : G pageCursor :=
  if String.eqb raw "" then ret zero_cursor
  else
    payload <- lift (token_payload raw) ;;
    now <- time_now ;;
    match unmarshal_cursor payload with
    | Some cursor =>
        if cursor_valid cursor expectedHash (unix now) then ret cursor
        else throw (invalidPageToken "page_token does not match query or has expired")
    | None => throw (invalidPageToken "page_token does not match query or has expired")
    end.

Definition page_size_of (raw : string) : res Z :=
  if String.eqb raw "" then Ok DefaultPageSize
  else match parse_int raw with
       | Some value =>
           if (value <=? 0) || (MaxPageSize <? value)
           then Err (invalid_query "page_size must be between 1 and 100") else Ok value
       | None => Err (invalid_query "page_size must be between 1 and 100")
       end.

Definition FromGin (c : Request) (scope : list string) : G Query :=
  pageSize <- lift (page_size_of (query_value c "page_size")) ;;
  let orderBy := query_value c "order_by" in
  lift (validateOrderBy orderBy) ;;;
  let filter := query_value c "filter" in
  lift (validateFilter filter) ;;;
  let tokenHash := queryFingerprint c scope in
  cursor <- decodePageToken (query_value c "page_token") tokenHash ;;
  ret {| Query_PageSize := pageSize; Query_PageToken := query_value c "page_token";
         Query_OrderBy := orderBy; Query_Filter := filter; Query_Offset := Page_Offset cursor;
         Query_TokenHash := tokenHash; Query_Cursor := Page_After cursor |}.
End Tokens.

Definition sample_request (token : string) : Request := {|
  Req_Method := "GET"; Req_FullPath := "/gifts"; Req_Path := "/gifts";
  Req_Query := [("page_size", ["2"]); ("order_by", ["created_at DESC, id"]);
                ("filter", ["status==pending"]); ("page_token", [token])] |}.

(** ** Facts about the texts *)

Lemma span_until sep s t : ~ sep ∈ list_ascii_of_string s ->
  split_on sep (s +:+ String sep t) = s :: split_on sep t.
Proof.
  induction s as [|c s IH]; intros H; cbn [list_ascii_of_string] in H.
  - change ("" +:+ String sep t) with (String sep t). simpl. by rewrite Ascii.eqb_refl.
  - rewrite str_cons_app. cbn [split_on]. destruct (Ascii.eqb_spec c sep) as [->|Hc].
    + exfalso. apply H. by left.
    + rewrite IH; [done|]. intros Hin. apply H. by right.
Qed.

Lemma split_on_none sep s : ~ sep ∈ list_ascii_of_string s -> split_on sep s = [s].
Proof.
  induction s as [|c s IH]; simpl; intros H; [done|].
  destruct (Ascii.eqb_spec c sep) as [->|Hc]; [exfalso; apply H; by left|].
  rewrite IH; [done|]. intros Hin. apply H. by right.
Qed.

(** Base64 text has no dot. *)
Lemma b64_no_dot l : byte_list l -> ~ dot ∈ list_ascii_of_string (b64_encode l).
Proof.
  intros Hl Hin. unfold b64_encode, of_bytes in Hin. rewrite list_ascii_of_string_of_list_ascii in Hin.
  rewrite encode_six_bits, map_map in Hin. apply list_elem_of_In, in_map_iff in Hin as (v & E & Hv).
  pose proof (six_bits_range l Hl) as Hr. rewrite Forall_forall in Hr.
  apply list_elem_of_In, Hr in Hv. pose proof (b64_digit_props v Hv) as (Hb & _).
  apply (f_equal byte_val) in E. rewrite byte_val_byte in E by done.
  change (byte_val dot) with 46 in E. unfold b64_digit in E. repeat case_match; lia.
Qed.

Lemma hmac_range key m : byte_list (hmac_sha256 key m).
Proof. apply sum256_range. Qed.

Lemma bytes_of_range s : byte_list (bytes_of s).
Proof. unfold byte_list, bytes_of. apply Forall_map, Forall_true. apply byte_val_range. Qed.

(** A signed payload comes back. *)
Lemma token_payload_signed secret payload : byte_list payload ->
  token_payload secret (sign_token secret payload) = Ok payload.
Proof.
  intros Hp. unfold sign_token, token_payload.
  change ("." +:+ ?t) with (String dot t).
  rewrite span_until by by apply b64_no_dot.
  rewrite split_on_none by apply b64_no_dot, hmac_range.
  rewrite b64_roundtrip by apply hmac_range. rewrite bool_decide_eq_true_2 by done.
  by rewrite b64_roundtrip.
Qed.

Lemma sign_token_nonempty secret payload : String.eqb (sign_token secret payload) "" = false.
Proof.
  apply String.eqb_neq. intros E. apply (f_equal String.length) in E. unfold sign_token in E.
  rewrite !str_len_app in E. simpl in E. lia.
Qed.

(** A 64-bit integer written in decimal reads back as itself. *)
Lemma parse_format_int z : in_i64 z -> parse_int (format_int z) = Some z.
Proof.
  intros Hz. unfold in_i64 in Hz. unfold format_int.
  assert (Hu : forall y, 0 <= y < u64_mod -> parse_digits (format_uint y) 0 = Some y).
  { intros y Hy. pose proof (parse_format_uint y Hy) as H. unfold parse_uint in H.
    destruct (format_uint y) eqn:E; [done|]. destruct (parse_digits _ 0) eqn:E2; [|done].
    destruct (_ <=? _); by simplify_eq. }
  assert (Hne : forall y, 0 <= y < u64_mod -> format_uint y <> "").
  { intros y Hy E. pose proof (parse_format_uint y Hy) as H. by rewrite E in H. }
  unfold i64_half in Hz. destruct (Z.ltb_spec z 0).
  - change ("-" +:+ ?t) with (String "-" t). unfold parse_int. cbn [Ascii.eqb].
    change (Ascii.eqb "-" "-") with true. cbv iota beta.
    specialize (Hu (- z)). specialize (Hne (- z)). unfold u64_mod in *.
    destruct (format_uint (- z)) eqn:E; [by destruct Hne; [lia|]|].
    rewrite Hu by lia. unfold i64_half.
    replace ((- 2 ^ 63 <=? -1 * - z) && (-1 * - z <? 2 ^ 63)) with true by lia. f_equal. lia.
  - specialize (Hu z). specialize (Hne z). unfold u64_mod in *.
    destruct (number_head z) as (b & t & Eb & Hb); [unfold go_integer; lia|].
    unfold format_int in Eb. replace (z <? 0) with false in Eb by lia.
    unfold parse_int. destruct (format_uint z) as [|c s] eqn:E; [by destruct Hne; [lia|]|].
    unfold bytes_of in Eb. simpl in Eb. injection Eb as Eb _.
    assert (Hc1 : Ascii.eqb c "-" = false).
    { destruct (Ascii.eqb_spec c "-") as [->|]; [|done]. exfalso.
      assert (parse_digits (String "-" s) 0 = Some z) as Hp by (apply Hu; lia). done. }
    assert (Hc2 : Ascii.eqb c "+" = false).
    { destruct (Ascii.eqb_spec c "+") as [->|]; [|done]. exfalso.
      assert (parse_digits (String "+" s) 0 = Some z) as Hp by (apply Hu; lia). done. }
    rewrite Hc1, Hc2, Hu by lia. unfold i64_half.
    replace ((- 2 ^ 63 <=? 1 * z) && (1 * z <? 2 ^ 63)) with true by lia. f_equal. lia.
Qed.

(** ** Round trip of a cursor *)

(** A cursor whose texts need no escape and whose numbers fit their types. *)
Record cursor_ok (c : pageCursor) : Prop := {
  cursor_version : 0 <= Page_Version c <= 255;
  cursor_offset : in_i64 (Page_Offset c);
  cursor_hash : plain_str (Page_QueryHash c) = true;
  cursor_after : forallb plain_str (Page_After c) = true;
  cursor_issued : in_i64 (Page_IssuedAt c);
}.

Lemma decode_printed_int old lo hi z : in_i64 z -> lo <= z <= hi ->
  decode_int old lo hi (DNum (bytes_of (format_int z))) = Some z.
Proof.
  intros Hz Hb. simpl. rewrite of_bytes_of, parse_format_int by done.
  by replace ((lo <=? z) && (z <=? hi)) with true by lia.
Qed.

Lemma decode_printed_strings l : decode_strings [] (map DStr l) = Some l.
Proof. induction l as [|s l IH]; [done|]. simpl. by rewrite IH. Qed.

Lemma cursor_json_height c : height (pageCursor_json c) <= max_depth.
Proof.
  unfold pageCursor_json, max_depth.
  assert (H : forall l, fold_right (fun x acc => Z.max (height x) acc) 0 (map JStr l) = 0).
  { induction l as [|s l IH]; [done|]. simpl. by rewrite IH. }
  destruct (Page_After c) as [|a l]; [by simpl|]. simpl. rewrite H. lia.
Qed.

Lemma cursor_json_plain c : cursor_ok c -> plain (pageCursor_json c) = true.
Proof.
  intros [Hv Ho Hh Ha Hi]. unfold pageCursor_json, in_i64, i64_half in *.
  assert (Hs : forall l, forallb plain_str l = true -> forallb plain (map JStr l) = true).
  { intros l. induction l as [|s l IH]; simpl; [done|]. rewrite !andb_true_iff. intuition. }
  assert (Hg : forall z, - 2 ^ 63 <= z < 2 ^ 63 -> go_integer z = true) by (unfold go_integer; lia).
  destruct (Page_After c) as [|a l].
  - cbn [app plain forallb fst snd]. rewrite Hh, !Hg by lia. done.
  - cbn [app plain forallb fst snd]. rewrite Hh, !Hg by lia.
    change (forallb plain (map JStr (a :: l))) with (forallb plain (map JStr (a :: l))).
    rewrite (Hs (a :: l)) by done. done.
Qed.

Definition build_cursor v o h a i : pageCursor := {|
  Page_Version := v; Page_Offset := o; Page_QueryHash := h; Page_After := a;
  Page_IssuedAt := i |}.

(** The member of each field, by its own name. *)
Lemma set_members_spec v o h a i d :
  set_member (build_cursor v o h a i) ("version", d) =
    (fun v => build_cursor v o h a i) <$> decode_int v 0 255 d /\
  set_member (build_cursor v o h a i) ("offset", d) =
    (fun o => build_cursor v o h a i) <$> decode_int o (- i64_half) (i64_half - 1) d /\
  set_member (build_cursor v o h a i) ("query_hash", d) =
    (fun h => build_cursor v o h a i) <$> decode_string h d /\
  set_member (build_cursor v o h a i) ("issued_at", d) =
    (fun i => build_cursor v o h a i) <$> decode_int i (- i64_half) (i64_half - 1) d /\
  (forall l, set_member (build_cursor v o h a i) ("after", DArr l) =
    (fun a => build_cursor v o h a i) <$> decode_strings a l).
Proof.
  unfold set_member, build_cursor. cbn [fst snd].
  assert (F1 : fold_name "version" = "version") by (vm_compute; reflexivity).
  assert (F2 : fold_name "offset" = "offset") by (vm_compute; reflexivity).
  assert (F3 : fold_name "query_hash" = "query_hash") by (vm_compute; reflexivity).
  assert (F4 : fold_name "after" = "after") by (vm_compute; reflexivity).
  assert (F5 : fold_name "issued_at" = "issued_at") by (vm_compute; reflexivity).
  rewrite F1, F2, F3, F4, F5. repeat split; reflexivity.
Qed.

Lemma unmarshal_printed c : cursor_ok c ->
  unmarshal_cursor (bytes_of (marshal (pageCursor_json c))) = Some c.
Proof.
  intros Hc. unfold unmarshal_cursor.
  rewrite parse_marshal by (by apply cursor_json_plain || apply cursor_json_height).
  destruct Hc as [Hv Ho Hh Ha Hi]. destruct c as [v o h a i].
  cbn [Page_Version Page_Offset Page_QueryHash Page_After Page_IssuedAt] in *.
  assert (Hv' : in_i64 v) by (unfold in_i64, i64_half; lia).
  unfold in_i64 in Ho, Hi.
  assert (E : doc_of (pageCursor_json (build_cursor v o h a i)) = DObj
    ([("version", DNum (bytes_of (format_int v))); ("offset", DNum (bytes_of (format_int o)));
      ("query_hash", DStr h)] ++
     (match a with [] => [] | _ => [("after", DArr (map DStr a))] end) ++
     [("issued_at", DNum (bytes_of (format_int i)))])).
  { destruct a as [|s a]; [done|]. unfold build_cursor, pageCursor_json. simpl.
    by rewrite map_map. }
  unfold build_cursor in E. rewrite E.
  change zero_cursor with (build_cursor 0 0 "" [] 0).
  assert (S1 := fun v o h a i d => proj1 (set_members_spec v o h a i d)).
  assert (S2 := fun v o h a i d => proj1 (proj2 (set_members_spec v o h a i d))).
  assert (S3 := fun v o h a i d => proj1 (proj2 (proj2 (set_members_spec v o h a i d)))).
  assert (S4 := fun v o h a i d => proj1 (proj2 (proj2 (proj2 (set_members_spec v o h a i d))))).
  assert (S5 := fun v o h a i l =>
    proj2 (proj2 (proj2 (proj2 (set_members_spec v o h a i DNull)))) l).
  destruct a as [|s a]; cbn [app set_members];
    rewrite S1, decode_printed_int by (done || unfold in_i64; lia); cbn [fmap option_fmap option_map];
    rewrite S2, decode_printed_int by (done || unfold in_i64; lia); cbn [fmap option_fmap option_map];
    rewrite S3; cbn [decode_string fmap option_fmap option_map].
  - by rewrite S4, decode_printed_int by (done || unfold in_i64; lia).
  - rewrite S5, decode_printed_strings. cbn [fmap option_fmap option_map].
    by rewrite S4, decode_printed_int by (done || unfold in_i64; lia).
Qed.

(** The run of [decodePageToken] on a signed payload. *)
Lemma decode_signed secret payload h w : byte_list payload ->
  decodePageToken secret (sign_token secret payload) h w =
  (match unmarshal_cursor payload with
   | Some c =>
       if cursor_valid c h (unix (w_clock w (w_ticks w))) then Ok c
       else Err (invalidPageToken "page_token does not match query or has expired")
   | None => Err (invalidPageToken "page_token does not match query or has expired")
   end, (time_now w).2).
Proof.
  intros Hp. unfold decodePageToken. rewrite sign_token_nonempty.
  unfold bind, lift. rewrite token_payload_signed by done.
  unfold time_now. simpl. destruct (unmarshal_cursor payload) as [c|]; [|done].
  by destruct (cursor_valid c h _).
Qed.

(** The cursor a query's next page starts at, issued at [now]. *)
Definition next_cursor (query : Query) (after : list string) (now : Z) : pageCursor := {|
  Page_Version := 1; Page_Offset := Query_Offset query + Query_PageSize query;
  Page_QueryHash := Query_TokenHash query; Page_After := after; Page_IssuedAt := now |}.

(** A query whose next cursor can be printed. *)
Record query_ok (query : Query) (after : list string) : Prop := {
  query_hash_plain : plain_str (Query_TokenHash query) = true;
  query_after_plain : forallb plain_str after = true;
  query_offset : 0 <= Query_Offset query + Query_PageSize query < i64_half;
}.

Lemma nextPageToken_run secret query after w : query_ok query after ->
  nextPageToken secret query after w =
  (Ok (sign_token secret (bytes_of (marshal (pageCursor_json
         (next_cursor query after (unix (w_clock w (w_ticks w)))))))), (time_now w).2).
Proof.
  intros [_ _ Ho]. unfold nextPageToken, bind, time_now, ret, next_cursor. simpl.
  unfold int_add. rewrite i64_small by (unfold in_i64, i64_half in *; lia). done.
Qed.

Lemma next_cursor_ok query after now : query_ok query after -> in_i64 now ->
  cursor_ok (next_cursor query after now).
Proof.
  intros [Hh Ha Ho] Hn. constructor; simpl; try done.
  unfold in_i64, i64_half in *. lia.
Qed.

(** A plausible clock reading, in seconds. *)
Definition clock_ok (now : Z) : Prop := 0 <= now < 2 ^ 62.

Lemma next_cursor_valid query after issued now h :
  query_ok query after -> clock_ok issued -> clock_ok now ->
  cursor_valid (next_cursor query after issued) h now =
  String.eqb (Query_TokenHash query) h && (issued <=? now + 300) && (now - 86400 <=? issued).
Proof.
  intros [_ _ Ho] Hi Hn. unfold cursor_valid, next_cursor, clock_ok, int_add in *. simpl.
  rewrite !i64_small by (unfold in_i64, i64_half in *; lia).
  replace (Query_Offset query + Query_PageSize query <? 0) with false by lia.
  destruct (String.eqb _ _); simpl; [|done].
  destruct (Z.ltb_spec (now + 300) issued), (Z.ltb_spec issued (now + -86400)),
    (Z.leb_spec issued (now + 300)), (Z.leb_spec (now - 86400) issued); simpl; lia || done.
Qed.

