(* ===== verification/FulfilmentTables.v ===== *)
(** * The tables of a redemption's fulfilment

    The instances of [Table] for the rows of [RedemptionModel], with the CHECK
    constraints and unique keys of [migrations/202607270001_wine_ticket_expand.sql],
    [202607090001_init_p0_schema.sql] and the migrations that altered them. *)

From S2P Require Import Prelude GoInt GoString GoTime.
From S2P Require Import GiftModel RedemptionModel Database.
From Stdlib Require Import String.
#[local] Open Scope string_scope. #[local] Open Scope list_scope. #[local] Open Scope Z_scope.

(** The tables of [f] a redemption's life writes, replaced. *)
Definition fulfilment_with (f : Fulfilment) slots redemptions stocks records orders items logs
    after_sales deliveries jobs offers assignments : Fulfilment := {|
  ful_slots := slots; ful_redemptions := redemptions; ful_addresses := ful_addresses f;
  ful_shops := ful_shops f; ful_merchants := ful_merchants f;
  ful_shop_products := ful_shop_products f; ful_categories := ful_categories f;
  ful_stocks := stocks; ful_stock_records := records; ful_orders := orders;
  ful_order_items := items; ful_order_logs := logs; ful_after_sales := after_sales;
  ful_returns := ful_returns f; ful_deliveries := deliveries; ful_jobs := jobs;
  ful_offers := offers; ful_assignments := assignments |}.

Definition db_with_fulfilment (db : Database) allocations (f : Fulfilment) : Database := {|
  db_lots := db_lots db; db_transactions := db_transactions db; db_gifts := db_gifts db;
  db_gift_allocations := db_gift_allocations db; db_gift_tokens := db_gift_tokens db;
  db_renewals := db_renewals db; db_redemption_allocations := allocations;
  db_refund_allocations := db_refund_allocations db; db_customers := db_customers db;
  db_realnames := db_realnames db; db_identity_requests := db_identity_requests db;
  db_products := db_products db; db_audit_logs := db_audit_logs db; db_outbox := db_outbox db;
  db_idempotency := db_idempotency db; db_fulfilment := f; db_sales := db_sales db |}.

(** A change of one of the tables. *)
Definition set_fulfilment (db : Database) (f : Fulfilment) : Database :=
  db_with_fulfilment db (db_redemption_allocations db) f.

Section Rows.
Variable db : Database.
Let f := db_fulfilment db.

Definition set_slots l := set_fulfilment db (fulfilment_with f l (ful_redemptions f)
  (ful_stocks f) (ful_stock_records f) (ful_orders f) (ful_order_items f) (ful_order_logs f)
  (ful_after_sales f) (ful_deliveries f) (ful_jobs f) (ful_offers f) (ful_assignments f)).
Definition set_redemptions l := set_fulfilment db (fulfilment_with f (ful_slots f) l
  (ful_stocks f) (ful_stock_records f) (ful_orders f) (ful_order_items f) (ful_order_logs f)
  (ful_after_sales f) (ful_deliveries f) (ful_jobs f) (ful_offers f) (ful_assignments f)).
Definition set_stocks l := set_fulfilment db (fulfilment_with f (ful_slots f)
  (ful_redemptions f) l (ful_stock_records f) (ful_orders f) (ful_order_items f)
  (ful_order_logs f) (ful_after_sales f) (ful_deliveries f) (ful_jobs f) (ful_offers f)
  (ful_assignments f)).
Definition set_stock_records l := set_fulfilment db (fulfilment_with f (ful_slots f)
  (ful_redemptions f) (ful_stocks f) l (ful_orders f) (ful_order_items f) (ful_order_logs f)
  (ful_after_sales f) (ful_deliveries f) (ful_jobs f) (ful_offers f) (ful_assignments f)).
Definition set_orders l := set_fulfilment db (fulfilment_with f (ful_slots f)
  (ful_redemptions f) (ful_stocks f) (ful_stock_records f) l (ful_order_items f)
  (ful_order_logs f) (ful_after_sales f) (ful_deliveries f) (ful_jobs f) (ful_offers f)
  (ful_assignments f)).
Definition set_order_items l := set_fulfilment db (fulfilment_with f (ful_slots f)
  (ful_redemptions f) (ful_stocks f) (ful_stock_records f) (ful_orders f) l
  (ful_order_logs f) (ful_after_sales f) (ful_deliveries f) (ful_jobs f) (ful_offers f)
  (ful_assignments f)).
Definition set_order_logs l := set_fulfilment db (fulfilment_with f (ful_slots f)
  (ful_redemptions f) (ful_stocks f) (ful_stock_records f) (ful_orders f) (ful_order_items f)
  l (ful_after_sales f) (ful_deliveries f) (ful_jobs f) (ful_offers f) (ful_assignments f)).
Definition set_after_sales l := set_fulfilment db (fulfilment_with f (ful_slots f)
  (ful_redemptions f) (ful_stocks f) (ful_stock_records f) (ful_orders f) (ful_order_items f)
  (ful_order_logs f) l (ful_deliveries f) (ful_jobs f) (ful_offers f) (ful_assignments f)).
Definition set_deliveries l := set_fulfilment db (fulfilment_with f (ful_slots f)
  (ful_redemptions f) (ful_stocks f) (ful_stock_records f) (ful_orders f) (ful_order_items f)
  (ful_order_logs f) (ful_after_sales f) l (ful_jobs f) (ful_offers f) (ful_assignments f)).
Definition set_jobs l := set_fulfilment db (fulfilment_with f (ful_slots f)
  (ful_redemptions f) (ful_stocks f) (ful_stock_records f) (ful_orders f) (ful_order_items f)
  (ful_order_logs f) (ful_after_sales f) (ful_deliveries f) l (ful_offers f)
  (ful_assignments f)).
Definition set_offers l := set_fulfilment db (fulfilment_with f (ful_slots f)
  (ful_redemptions f) (ful_stocks f) (ful_stock_records f) (ful_orders f) (ful_order_items f)
  (ful_order_logs f) (ful_after_sales f) (ful_deliveries f) (ful_jobs f) l
  (ful_assignments f)).
Definition set_assignments l := set_fulfilment db (fulfilment_with f (ful_slots f)
  (ful_redemptions f) (ful_stocks f) (ful_stock_records f) (ful_orders f) (ful_order_items f)
  (ful_order_logs f) (ful_after_sales f) (ful_deliveries f) (ful_jobs f) (ful_offers f) l).
End Rows.

Definition one_of (values : list string) (s : string) : bool := existsb (String.eqb s) values.

(** ** Slots *)

Definition slot_row_check (s : DeliveryTimeSlot) : bool :=
  one_of ["open"; "closed"] (Slot_Status s) &&
  fits_uint32 (Slot_CapacityOrders s) && fits_uint32 (Slot_ReservedOrders s) &&
  fits_uint32 (Slot_Version s) && String.ltb (Slot_StartTime s) (Slot_EndTime s) &&
  (0 <? Slot_CapacityOrders s) && (Slot_ReservedOrders s <=? Slot_CapacityOrders s).

(** [uk_delivery_time_slot_active_window] holds of open slots only. *)
Definition same_window (a b : DeliveryTimeSlot) : bool :=
  (Slot_ShopID a =? Slot_ShopID b) && (Slot_ServiceDate a =? Slot_ServiceDate b) &&
  String.eqb (Slot_StartTime a) (Slot_StartTime b) &&
  String.eqb (Slot_EndTime a) (Slot_EndTime b) &&
  String.eqb (Slot_Status a) "open" && String.eqb (Slot_Status b) "open".

#[export] Instance slots_table : Table DeliveryTimeSlot := {|
  rows db := ful_slots (db_fulfilment db);
  set_rows l db := set_slots db l;
  row_check := slot_row_check;
  row_conflict a b := (Slot_ID a =? Slot_ID b) || same_window a b;
|}.

(** ** Redemptions *)

Definition redemption_row_check (r : Redemption) : bool :=
  one_of [RedemptionStatusScheduled; RedemptionStatusAssigned; RedemptionStatusPickedUp;
          RedemptionStatusDelivered; RedemptionStatusCancelled;
          RedemptionStatusReturnInProgress; RedemptionStatusRestored;
          RedemptionStatusException] (Red_Status r) &&
  fits_uint32 (Red_Quantity r) && fits_uint32 (Red_Version r) &&
  fits_uint32 (Red_AddressVersion r) && (0 <? Red_Quantity r) &&
  (Red_ScheduledStartAt r <? Red_ScheduledEndAt r) &&
  (Red_NotBeforeAt r <=? Red_ScheduledStartAt r).

#[export] Instance redemptions_table : Table Redemption := {|
  rows db := ful_redemptions (db_fulfilment db);
  set_rows l db := set_redemptions db l;
  row_check := redemption_row_check;
  row_conflict a b :=
    (Red_ID a =? Red_ID b) || String.eqb (Red_RedemptionNo a) (Red_RedemptionNo b) ||
    (Red_OrderID a =? Red_OrderID b);
|}.

Definition redemption_allocation_row_check (a : RedemptionAllocation) : bool :=
  one_of [RedemptionAllocationStatusHeld; RedemptionAllocationStatusConsumed;
          RedemptionAllocationStatusRestored; "exception"] (RA_Status a) &&
  fits_uint32 (RA_Quantity a) && (0 <? RA_Quantity a).

#[export] Instance redemption_allocations_table : Table RedemptionAllocation := {|
  rows := db_redemption_allocations;
  set_rows l db := db_with_fulfilment db l (db_fulfilment db);
  row_check := redemption_allocation_row_check;
  row_conflict a b :=
    (RA_ID a =? RA_ID b) ||
    ((RA_RedemptionID a =? RA_RedemptionID b) && (RA_LotID a =? RA_LotID b));
|}.

(** ** Stocks *)

#[export] Instance stocks_table : Table PhysicalStock := {|
  rows db := ful_stocks (db_fulfilment db);
  set_rows l db := set_stocks db l;
  row_check s :=
    fits_int32 (Stock_AvailableQty s) && fits_int32 (Stock_ReservedQty s) &&
    fits_int32 (Stock_LockedQty s) && fits_int32 (Stock_Version s);
  row_conflict a b :=
    (Stock_ID a =? Stock_ID b) || (Stock_ShopProductID a =? Stock_ShopProductID b) ||
    ((Stock_ShopID a =? Stock_ShopID b) && (Stock_ProductID a =? Stock_ProductID b));
|}.

#[export] Instance stock_records_table : Table StockRecord := {|
  rows db := ful_stock_records (db_fulfilment db);
  set_rows l db := set_stock_records db l;
  row_check r :=
    fits_int32 (SR_QuantityDelta r) && fits_int32 (SR_BeforeAvailableQty r) &&
    fits_int32 (SR_AfterAvailableQty r) && fits_int32 (SR_TotalQuantityDelta r) &&
    fits_int32 (SR_BeforeTotalQty r) && fits_int32 (SR_AfterTotalQty r);
  row_conflict a b :=
    (SR_ID a =? SR_ID b) ||
    (String.eqb (SR_SourceType a) (SR_SourceType b) && (SR_SourceID a =? SR_SourceID b) &&
     (SR_ShopProductID a =? SR_ShopProductID b) &&
     String.eqb (SR_IdempotencyKey a) (SR_IdempotencyKey b)) ||
    same_text (SR_BusinessActionKey a) (SR_BusinessActionKey b);
|}.

(** ** Orders *)

Definition order_row_check (o : Order) : bool :=
  ((String.eqb (Order_OrderType o) "retail" && String.eqb (Order_SettlementMode o) "cash") ||
   (String.eqb (Order_OrderType o) redemptionOrderType &&
    String.eqb (Order_SettlementMode o) redemptionSettlementMode)) &&
  fits_int32 (Order_Version o).

#[export] Instance orders_table : Table Order := {|
  rows db := ful_orders (db_fulfilment db);
  set_rows l db := set_orders db l;
  row_check := order_row_check;
  row_conflict a b :=
    (Order_ID a =? Order_ID b) || String.eqb (Order_OrderNo a) (Order_OrderNo b);
|}.

#[export] Instance order_items_table : Table OrderItem := {|
  rows db := ful_order_items (db_fulfilment db);
  set_rows l db := set_order_items db l;
  row_check i := fits_int32 (Item_Quantity i);
  row_conflict a b := Item_ID a =? Item_ID b;
|}.

#[export] Instance order_logs_table : Table OrderLog := {|
  rows db := ful_order_logs (db_fulfilment db);
  set_rows l db := set_order_logs db l;
  row_check _ := true;
  row_conflict a b := OLog_ID a =? OLog_ID b;
|}.

(** ** Dispatch *)

Definition delivery_row_check (d : DeliveryOrder) : bool :=
  match Del_ScheduledStartAt d, Del_ScheduledEndAt d, Del_NotBeforeAt d with
  | None, None, None => true
  | Some s, Some e, Some n => (s <? e) && (n <=? s)
  | _, _, _ => false
  end.

#[export] Instance deliveries_table : Table DeliveryOrder := {|
  rows db := ful_deliveries (db_fulfilment db);
  set_rows l db := set_deliveries db l;
  row_check := delivery_row_check;
  row_conflict a b := (Del_ID a =? Del_ID b) || (Del_OrderID a =? Del_OrderID b);
|}.

#[export] Instance jobs_table : Table DispatchJob := {|
  rows db := ful_jobs (db_fulfilment db);
  set_rows l db := set_jobs db l;
  row_check j := one_of ["pending"; "scoring"; "offering"; "grab_open"; "manual_required";
                         "assigned"; "cancelled"] (Job_Status j) && fits_uint32 (Job_Version j);
  row_conflict a b := Job_ID a =? Job_ID b;
|}.

#[export] Instance offers_table : Table DispatchOffer := {|
  rows db := ful_offers (db_fulfilment db);
  set_rows l db := set_offers db l;
  row_check o := one_of ["pending"; "accepted"; "rejected"; "expired"; "cancelled"]
                   (Offer_Status o) && fits_uint32 (Offer_Version o);
  row_conflict a b := Offer_ID a =? Offer_ID b;
|}.

#[export] Instance assignments_table : Table DispatchAssignment := {|
  rows db := ful_assignments (db_fulfilment db);
  set_rows l db := set_assignments db l;
  row_check _ := true;
  row_conflict a b := Assign_ID a =? Assign_ID b;
|}.

(** ** The tables a redemption only reads *)

#[export] Instance addresses_table : Table redemptionAddressRecord :=
  {| rows db := ful_addresses (db_fulfilment db); set_rows _ db := db; row_check _ := true;
     row_conflict a b := Addr_ID a =? Addr_ID b |}.
#[export] Instance returns_table : Table DeliveryReturnRef :=
  {| rows db := ful_returns (db_fulfilment db); set_rows _ db := db; row_check _ := true;
     row_conflict a b := DR_ID a =? DR_ID b |}.

(** ** After-sales: [migrations/202607120001_l3_after_sales_refund.sql] *)

Definition set_sales (db : Database) sales items history : Database :=
  set_after_sales db {| as_sales := sales; as_items := items; as_history := history |}.

Definition after_sale_amounts_ok (requested approved refunded : Z) : bool :=
  (0 <=? requested) && (0 <=? approved) && (0 <=? refunded) && (approved <=? requested) &&
  (refunded <=? approved).

Definition same_id (a b : option Z) : bool :=
  match a, b with Some x, Some y => x =? y | _, _ => false end.

#[export] Instance after_sales_table : Table AfterSale := {|
  rows db := as_sales (ful_after_sales (db_fulfilment db));
  set_rows l db := let b := ful_after_sales (db_fulfilment db) in
                   set_sales db l (as_items b) (as_history b);
  row_check a :=
    after_sale_amounts_ok (AS_RequestedAmount a) (AS_ApprovedAmount a) (AS_RefundedAmount a) &&
    fits_uint32 (AS_Version a);
  row_conflict a b :=
    (AS_ID a =? AS_ID b) || String.eqb (AS_AfterSaleNo a) (AS_AfterSaleNo b) ||
    (String.eqb (AS_SourceType a) (AS_SourceType b) && same_id (AS_SourceID a) (AS_SourceID b));
|}.

#[export] Instance after_sale_items_table : Table AfterSaleItem := {|
  rows db := as_items (ful_after_sales (db_fulfilment db));
  set_rows l db := let b := ful_after_sales (db_fulfilment db) in
                   set_sales db (as_sales b) l (as_history b);
  row_check i :=
    after_sale_amounts_ok (ASI_RequestedAmount i) (ASI_ApprovedAmount i)
      (ASI_RefundedAmount i) &&
    (0 <? ASI_RequestedQuantity i) && (0 <=? ASI_ApprovedQuantity i) &&
    (ASI_ApprovedQuantity i <=? ASI_RequestedQuantity i) && fits_int32 (ASI_RequestedQuantity i);
  row_conflict a b :=
    (ASI_ID a =? ASI_ID b) ||
    ((ASI_AfterSaleID a =? ASI_AfterSaleID b) && (ASI_OrderItemID a =? ASI_OrderItemID b));
|}.

#[export] Instance after_sale_history_table : Table AfterSaleHistory := {|
  rows db := as_history (ful_after_sales (db_fulfilment db));
  set_rows l db := let b := ful_after_sales (db_fulfilment db) in
                   set_sales db (as_sales b) (as_items b) l;
  row_check _ := true;
  row_conflict a b := ASH_ID a =? ASH_ID b;
|}.
