(* ===== verification/PurchaseTables.v ===== *)
(** * The tables of purchases and payments

    The instances of [Table] for the rows of [PurchaseModel], with the CHECK
    constraints and unique keys of [migrations/202607270001_wine_ticket_expand.sql],
    [202607090001_init_p0_schema.sql], [202607120001_l3_after_sales_refund.sql]
    and the migrations that altered them, the manual one that makes the order
    of a payment or refund optional included. *)

From S2P Require Import Prelude GoInt GoString GoTime.
From S2P Require Import CoreModel GiftModel RedemptionModel PurchaseModel Database FulfilmentTables.
From Stdlib Require Import String.
#[local] Open Scope string_scope. #[local] Open Scope list_scope. #[local] Open Scope Z_scope.

(** The tables of [db] a purchase's life writes, replaced. *)
Definition set_sales_tables (db : Database) quotas purchases payments refunds ticket_refunds
    : Database :=
  let s := db_sales db in {|
  db_lots := db_lots db; db_transactions := db_transactions db; db_gifts := db_gifts db;
  db_gift_allocations := db_gift_allocations db; db_gift_tokens := db_gift_tokens db;
  db_renewals := db_renewals db; db_redemption_allocations := db_redemption_allocations db;
  db_refund_allocations := db_refund_allocations db; db_customers := db_customers db;
  db_realnames := db_realnames db; db_identity_requests := db_identity_requests db;
  db_products := db_products db; db_audit_logs := db_audit_logs db; db_outbox := db_outbox db;
  db_idempotency := db_idempotency db; db_fulfilment := db_fulfilment db;
  db_sales := {|
    sales_packages := sales_packages s; sales_quotas := quotas; sales_purchases := purchases;
    sales_payments := payments; sales_refunds := refunds;
    sales_ticket_refunds := ticket_refunds; sales_identities := sales_identities s |} |}.

Section Rows.
Variable db : Database.
Let s := db_sales db.

Definition set_quotas l := set_sales_tables db l (sales_purchases s) (sales_payments s)
  (sales_refunds s) (sales_ticket_refunds s).
Definition set_purchases l := set_sales_tables db (sales_quotas s) l (sales_payments s)
  (sales_refunds s) (sales_ticket_refunds s).
Definition set_payments l := set_sales_tables db (sales_quotas s) (sales_purchases s) l
  (sales_refunds s) (sales_ticket_refunds s).
Definition set_refunds l := set_sales_tables db (sales_quotas s) (sales_purchases s)
  (sales_payments s) l (sales_ticket_refunds s).
Definition set_ticket_refunds l := set_sales_tables db (sales_quotas s) (sales_purchases s)
  (sales_payments s) (sales_refunds s) l.
End Rows.

(** ** Packages: read by a purchase, written by the catalogue *)

Definition package_limit_check (p : Package) : bool :=
  match Pkg_PerCustomerLimit p with
  | None => true
  | Some limit => (Pkg_MinPurchaseQuantity p <=? limit) && (limit <=? 10000)
  end.

Definition package_row_check (p : Package) : bool :=
  one_of [PackageTypeStockpile; PackageTypeCorporate; PackageTypeGift] (Pkg_PackageType p) &&
  one_of ["draft"; PackageStatusPublished; "unpublished"; "archived"] (Pkg_Status p) &&
  fits_uint32 (Pkg_PackageVersion p) && (0 <? Pkg_PackageVersion p) &&
  (0 <? Pkg_BottleQuantity p) && (Pkg_BottleQuantity p <=? 10000) &&
  (0 <? Pkg_SalePriceAmount p) && (Pkg_SalePriceAmount p <=? 100000000) &&
  (0 <? Pkg_MinPurchaseQuantity p) && (Pkg_MinPurchaseQuantity p <=? 10000) &&
  (Pkg_MinPurchaseQuantity p <=? Pkg_MaxPurchaseQuantity p) &&
  (Pkg_MaxPurchaseQuantity p <=? 10000) &&
  (0 <? Pkg_ValidityDays p) && (Pkg_ValidityDays p <=? 3650) && package_limit_check p &&
  match Pkg_SaleStartAt p, Pkg_SaleEndAt p with
  | Some s, Some e => s <? e
  | _, _ => true
  end.

#[export] Instance packages_table : Table Package := {|
  rows db := sales_packages (db_sales db);
  set_rows _ db := db;
  row_check := package_row_check;
  row_conflict a b :=
    (Pkg_ID a =? Pkg_ID b) || String.eqb (Pkg_PackageNo a) (Pkg_PackageNo b);
|}.

(** ** Quotas and purchases *)

#[export] Instance quotas_table : Table PurchaseQuota := {|
  rows db := sales_quotas (db_sales db);
  set_rows l db := set_quotas db l;
  row_check q := fits_uint32 (Quota_ReservedQuantity q) &&
                 fits_uint32 (Quota_ConsumedQuantity q) && fits_uint32 (Quota_Version q);
  row_conflict a b :=
    (Quota_ID a =? Quota_ID b) ||
    ((Quota_CustomerID a =? Quota_CustomerID b) &&
     String.eqb (Quota_PackageCode a) (Quota_PackageCode b));
|}.

Definition purchase_statuses : list string :=
  [PurchaseStatusPendingPayment; PurchaseStatusPaymentUnknown; PurchaseStatusSettlementException;
   PurchaseStatusIssued; PurchaseStatusClosed; PurchaseStatusRefundHolding;
   PurchaseStatusRefundException; PurchaseStatusRefunded].

Definition purchase_row_check (p : Purchase) : bool :=
  one_of purchase_statuses (Pur_Status p) &&
  fits_uint32 (Pur_PackageVersion p) && (0 <? Pur_PackageVersion p) &&
  fits_uint32 (Pur_PackageQuantity p) && (0 <? Pur_PackageQuantity p) &&
  fits_uint32 (Pur_BottleQuantityPerPackage p) && (0 <? Pur_BottleQuantityPerPackage p) &&
  fits_uint32 (Pur_TotalBottleQuantity p) && fits_uint32 (Pur_Version p) &&
  (Pur_TotalBottleQuantity p =? Pur_PackageQuantity p * Pur_BottleQuantityPerPackage p) &&
  (0 <? Pur_UnitPriceAmount p) && (Pur_UnitPriceAmount p <=? 100000000) &&
  (Pur_PayableAmount p =? Pur_PackageQuantity p * Pur_UnitPriceAmount p) &&
  (Pur_PayableAmount p <=? 100000000) &&
  (0 <=? Pur_PaidAmount p) && (Pur_PaidAmount p <=? Pur_PayableAmount p).

#[export] Instance purchases_table : Table Purchase := {|
  rows db := sales_purchases (db_sales db);
  set_rows l db := set_purchases db l;
  row_check := purchase_row_check;
  row_conflict a b :=
    (Pur_ID a =? Pur_ID b) || String.eqb (Pur_PurchaseNo a) (Pur_PurchaseNo b) ||
    (Pur_PaymentID a =? Pur_PaymentID b);
|}.

(** ** Payments and refunds

    The business a row is for: an order, or what its [biz_type] and [biz_id]
    name. *)

Definition business_link_check (order_business : string) (bizType : option string)
    (bizID orderID : option Z) : bool :=
  match bizType, bizID with
  | Some t, Some id =>
      if String.eqb t order_business then same_id orderID (Some id)
      else bool_decide (orderID = None)
  | _, _ => false
  end.

Definition refund_link_check (r : commonRefundRow) : bool :=
  business_link_check "retail_after_sale" (Refund_BizType r) (Refund_BizID r)
    (Refund_AfterSaleID r) &&
  Bool.eqb (bool_decide (Refund_OrderID r = None)) (bool_decide (Refund_AfterSaleID r = None)).

#[export] Instance payments_table : Table Payment := {|
  rows db := sales_payments (db_sales db);
  set_rows l db := set_payments db l;
  row_check p := business_link_check "retail_order" (Pay_BizType p) (Pay_BizID p)
                   (Pay_OrderID p) &&
                 fits_uint32 (Pay_ReconcileAttempts p) && fits_int32 (Pay_Version p);
  row_conflict a b :=
    (Pay_ID a =? Pay_ID b) || String.eqb (Pay_PaymentNo a) (Pay_PaymentNo b) ||
    (same_id (Pay_OrderID a) (Pay_OrderID b) && String.eqb (Pay_Channel a) (Pay_Channel b)) ||
    (same_text (Pay_BizType a) (Pay_BizType b) && same_id (Pay_BizID a) (Pay_BizID b) &&
     String.eqb (Pay_Channel a) (Pay_Channel b)) ||
    (String.eqb (Pay_Provider a) (Pay_Provider b) &&
     same_text (Pay_ProviderTradeNo a) (Pay_ProviderTradeNo b));
|}.

#[export] Instance refunds_table : Table commonRefundRow := {|
  rows db := sales_refunds (db_sales db);
  set_rows l db := set_refunds db l;
  row_check r := refund_link_check r && (0 <? Refund_Amount r) && (0 <? Refund_TotalAmount r) &&
                 (Refund_Amount r <=? Refund_TotalAmount r) &&
                 fits_uint32 (Refund_Attempts r) && fits_uint32 (Refund_Version r);
  row_conflict a b :=
    (Refund_ID a =? Refund_ID b) || String.eqb (Refund_RefundNo a) (Refund_RefundNo b) ||
    (String.eqb (Refund_Provider a) (Refund_Provider b) &&
     same_text (Refund_ProviderRefundID a) (Refund_ProviderRefundID b)) ||
    same_id (Refund_ReplacesRefundID a) (Refund_ReplacesRefundID b);
|}.

(** The generated column [active_purchase_id]. *)
Definition ActivePurchaseID (r : issuanceCompensationRefund) : option Z :=
  if one_of wineTicketRefundActiveStatuses (WTR_Status r) then Some (WTR_PurchaseID r) else None.

#[export] Instance ticket_refunds_table : Table issuanceCompensationRefund := {|
  rows db := sales_ticket_refunds (db_sales db);
  set_rows l db := set_ticket_refunds db l;
  row_check r :=
    one_of (wineTicketRefundActiveStatuses ++ ["succeeded"; "cancelled"]) (WTR_Status r) &&
    one_of ["user_unused"; RefundKindIssueCompensation] (WTR_RefundKind r) &&
    (0 <? WTR_Amount r) && fits_uint32 (WTR_Version r);
  row_conflict a b :=
    (WTR_ID a =? WTR_ID b) ||
    String.eqb (WTR_WineTicketRefundNo a) (WTR_WineTicketRefundNo b) ||
    same_id (ActivePurchaseID a) (ActivePurchaseID b);
|}.

#[export] Instance identities_table : Table CustomerIdentity :=
  {| rows db := sales_identities (db_sales db); set_rows _ db := db; row_check _ := true;
     row_conflict a b := Ident_ID a =? Ident_ID b |}.
