(* ===== verification/Steps.v ===== *)
(** * Relations between the database before and after a run

    [steps R m] says that a successful run of [m] takes the database from one
    state to another related by the preorder [R].  The lemmas follow the shape
    of the code, so the tactic [steps] proves such a fact of a whole handler
    from the facts about its statements. *)

From S2P Require Import Prelude Problem GoTime Database.
#[local] Open Scope Z_scope.
#[local] Open Scope go_scope.

(** A run that fails may have written too; only a transaction undoes it. *)
Definition steps (R : Database -> Database -> Prop) {A} (m : G A) : Prop :=
  forall w a w', m w = (Ok a, w') -> R (w_db w) (w_db w').

Definition steps_any (R : Database -> Database -> Prop) {A} (m : G A) : Prop :=
  forall w r w', m w = (r, w') -> R (w_db w) (w_db w').

Create HintDb steps.
#[export] Hint Extern 1 (PreOrder _) => exact _ : steps.

Section Combinators.
Context (R : Database -> Database -> Prop) `{!PreOrder R}.

Lemma steps_any_steps {A} (m : G A) : steps_any R m -> steps R m.
Proof. intros H w a w'. apply H. Qed.

Lemma steps_ret {A} (a : A) : steps R (ret a).
Proof. intros w b w' H. apply ret_ok_inv in H as [_ ->]. reflexivity. Qed.

Lemma steps_throw {A} (e : error) : steps R (throw (A:=A) e).
Proof. intros w b w' H. by apply throw_ok_inv in H. Qed.

Lemma steps_lift {A} (r : res A) : steps R (lift r).
Proof. intros w b w' H. apply lift_ok_inv in H as [_ ->]. reflexivity. Qed.

Lemma steps_fail_if c e : steps R (fail_if c e).
Proof. intros w b w' H. apply fail_if_ok_inv in H as [_ ->]. reflexivity. Qed.

Lemma steps_bind {A B} (m : G A) (f : A -> G B) :
  steps R m -> (forall a, steps R (f a)) -> steps R (bind m f).
Proof.
  intros Hm Hf w b w' H. apply bind_ok_inv in H as (a & w1 & H1 & H2).
  transitivity (w_db w1); [exact (Hm _ _ _ H1)|exact (Hf _ _ _ _ H2)].
Qed.

Lemma steps_for_each {A} (l : list A) (body : A -> G unit) :
  (forall x, x ∈ l -> steps R (body x)) -> steps R (for_each l body).
Proof.
  intros Hb w u w' H.
  refine (for_each_pres body (fun w1 => R (w_db w) (w_db w1)) _ _ _ _ H _ _).
  - reflexivity.
  - intros x w1 w2 Hx H1 H2. transitivity (w_db w1); [done|]. by eapply Hb.
Qed.

Lemma steps_attempt {A} (m : G A) : steps_any R m -> steps R (attempt m).
Proof. intros Hm w r w' H. apply attempt_ok_inv in H. by apply Hm in H. Qed.

Lemma steps_transaction {A} (fn : G A) : steps R fn -> steps_any R (transaction fn).
Proof.
  intros Hf w [a|e] w' H.
  - apply transaction_ok in H as (w1 & w2 & <- & H & ->). by apply Hf in H.
  - apply transaction_err in H. by rewrite H.
Qed.

(** The same for runs that may fail. *)
Lemma steps_any_ret {A} (a : A) : steps_any R (ret a).
Proof. intros w r w' H. unfold ret in H. by simplify_eq. Qed.

Lemma steps_any_lift {A} (r : res A) : steps_any R (lift r).
Proof. intros w r' w' H. unfold lift in H. by simplify_eq. Qed.

Lemma steps_any_throw {A} (e : error) : steps_any R (throw (A:=A) e).
Proof. intros w r w' H. unfold throw in H. by simplify_eq. Qed.

Lemma steps_any_bind {A B} (m : G A) (f : A -> G B) :
  steps_any R m -> (forall a, steps_any R (f a)) -> steps_any R (bind m f).
Proof.
  intros Hm Hf w r w' H. unfold bind in H. destruct (m w) as [[a|e] w1] eqn:E.
  - transitivity (w_db w1); [exact (Hm _ _ _ E)|exact (Hf _ _ _ _ H)].
  - simplify_eq. exact (Hm _ _ _ E).
Qed.

(** ** Statements *)

Lemma steps_any_time_now : steps_any R time_now.
Proof. intros w r w' H. apply time_now_db in H. by rewrite H. Qed.

Lemma steps_any_next_id : steps_any R next_id.
Proof. intros w r w' H. apply next_id_db in H. by rewrite H. Qed.

Lemma steps_any_new_uuid : steps_any R new_uuid.
Proof. intros w r w' H. apply new_uuid_db in H. by rewrite H. Qed.

Lemma steps_any_rand_read : steps_any R rand_read.
Proof. intros w r w' H. apply rand_read_db in H. by rewrite H. Qed.

Lemma steps_any_exec {A} (f : Database -> result error (A * Database)) :
  (forall db a db', f db = Ok (a, db') -> R db db') -> steps_any R (exec f).
Proof.
  intros Hf w [a|e] w' H.
  - apply exec_ok in H. by apply Hf in H.
  - apply exec_err in H as [H _]. by rewrite H.
Qed.

Section Table.
Context {Row : Type} `{Table Row}.

Lemma steps_any_take (p : Row -> bool) : steps_any R (take_row p).
Proof.
  apply steps_any_exec. intros db a db' E. destruct (find _ _); [|discriminate].
  by simplify_eq.
Qed.

Lemma steps_any_find (p : Row -> bool) order : steps_any R (find_rows p order).
Proof. apply steps_any_exec. intros db a db' E. by simplify_eq. Qed.

Lemma steps_any_count (p : Row -> bool) : steps_any R (count_rows p).
Proof. apply steps_any_exec. intros db a db' E. by simplify_eq. Qed.

Lemma steps_any_create r :
  (forall db, row_check r = true ->
    (forall r', r' ∈ rows db -> row_conflict r r' = false) ->
    R db (set_rows (rows db ++ [r]) db)) ->
  steps_any R (create_row r).
Proof.
  intros HR w [u|e] w' E.
  - apply create_row_ok in E as (-> & Hc & Hno). auto.
  - apply exec_err in E as [-> _]. reflexivity.
Qed.

Lemma steps_any_create_or_ignore r :
  (forall db, R db (set_rows (rows db ++ [r]) db)) -> steps_any R (create_or_ignore r).
Proof.
  intros HR w [u|e] w' E.
  - apply create_or_ignore_ok in E as [_ [[-> _]|[-> _]]]; [apply HR|reflexivity].
  - apply exec_err in E as [-> _]. reflexivity.
Qed.

Lemma steps_any_create_rows (l : list Row) :
  (forall r db, R db (set_rows (rows db ++ [r]) db)) -> steps_any R (create_rows l).
Proof.
  intros HR. apply steps_any_exec. induction l as [|r l IH]; simpl; intros db a db' E.
  - by simplify_eq.
  - destruct (negb _); [discriminate|]. destruct (existsb _ _); [discriminate|].
    apply IH in E. etransitivity; [apply HR|exact E].
Qed.

Lemma steps_any_update (p : Row -> bool) f :
  (forall db, (forall r, r ∈ rows db -> p r = true -> row_check (f r) = true) ->
    no_conflict row_conflict (map (fun r => if p r then f r else r) (rows db)) = true ->
    R db (set_rows (map (fun r => if p r then f r else r) (rows db)) db)) ->
  steps_any R (update_rows p f).
Proof.
  intros HR. apply steps_any_exec. intros db a db' E. cbv zeta in E.
  destruct (forallb _ _) eqn:F; [|discriminate]. simpl in E.
  rewrite forallb_forall in F.
  destruct (List.filter p _) eqn:Hf; [by simplify_eq|].
  destruct (no_conflict _ _) eqn:Hc; simplify_eq. apply HR; [|done].
  intros x Hx Hp. apply F. rewrite <- Hf. apply filter_In. split; [|done].
  by apply list_elem_of_In.
Qed.
End Table.
End Combinators.

#[export] Hint Resolve steps_ret steps_throw steps_lift steps_fail_if : steps.
#[export] Hint Resolve steps_any_ret steps_any_throw steps_any_lift : steps.
#[export] Hint Resolve steps_any_time_now steps_any_next_id steps_any_new_uuid
  steps_any_rand_read : steps.
#[export] Hint Resolve steps_any_take steps_any_find steps_any_count : steps.

(** [go_steps] follows the code of the goal; what it cannot do, it leaves. *)
Ltac go_step :=
  lazymatch goal with
  | |- forall x : _, _ => intros ?
  | |- steps _ (bind _ _) => apply steps_bind; [exact _| |]
  | |- steps_any _ (bind _ _) => apply steps_any_bind; [exact _| |]
  | |- steps _ (attempt _) => apply steps_attempt
  | |- steps _ (if ?c then _ else _) => destruct c
  | |- steps_any _ (if ?c then _ else _) => destruct c
  | |- steps _ (match ?c with _ => _ end) => destruct c
  | |- steps_any _ (match ?c with _ => _ end) => destruct c
  | |- steps _ (let _ := _ in _) => cbv zeta
  | _ => solve [eauto 2 with steps
                  | apply steps_any_steps; eauto 2 with steps]
  end.

Ltac go_steps := repeat go_step.

(** ** What a run keeps *)

(** [keep f]: the run leaves [f] of the database as it was. *)
Definition keep {X} (f : Database -> X) (db db' : Database) : Prop := f db' = f db.

#[export] Instance keep_preorder {X} (f : Database -> X) : PreOrder (keep f).
Proof. split; [done|]. intros a b c H1 H2. unfold keep in *. congruence. Qed.

(** ** Loops that update the row of each element *)

Lemma Forall2_impl_in {A B} (P Q : A -> B -> Prop) l l' :
  Forall2 P l l' -> (forall x y, x ∈ l -> P x y -> Q x y) -> Forall2 Q l l'.
Proof.
  induction 1 as [|x y l l' Hxy Hl IH]; intros HQ; constructor.
  - apply HQ; [by left|done].
  - apply IH. intros a b Ha. apply HQ. by right.
Qed.

(** The row [x] of a table is changed by [f]; every other row stays. *)
Definition row_changed {Row} `{Table Row} (key : Row -> Z) (x : Row) (f : Row -> Row)
    (db db' : Database) : Prop :=
  rows db' = map (fun r => if key r =? key x then f r else r) (rows db) /\
  forall r, key (f r) = key r.

(** The rows of [l] are changed as [E] says; every other row stays. *)
Definition rows_changed {Row} (key : Row -> Z) (l : list Row) (E : Row -> Row -> Prop)
    (old new : list Row) : Prop :=
  Forall2 (fun r r' => if bool_decide (key r ∈ map key l) then E r r' else r' = r) old new.

Section Loop.
Context {Row : Type} `{Table Row} (key : Row -> Z) (body : Row -> G unit).
Context (I : Database -> Prop) (E : Database -> Row -> Row -> Prop).
Context (Hbody : forall x w1 w2,
  body x w1 = (Ok tt, w2) -> I (w_db w1) -> x ∈ rows (w_db w1) ->
  I (w_db w2) /\ (forall r r', E (w_db w1) r r' -> E (w_db w2) r r') /\
  exists f, row_changed key x f (w_db w1) (w_db w2) /\ E (w_db w2) x (f x)).

Lemma loop_rows l : forall w w',
  for_each l body w = (Ok tt, w') -> I (w_db w) ->
  NoDup (map key l) -> NoDup (map key (rows (w_db w))) ->
  (forall x, x ∈ l -> x ∈ rows (w_db w)) ->
  I (w_db w') /\ (forall r r', E (w_db w) r r' -> E (w_db w') r r') /\
  rows_changed key l (E (w_db w')) (rows (w_db w)) (rows (w_db w')).
Proof.
  induction l as [|x l IH]; simpl; intros w w' Hrun HI Hl Hrows Hin.
  - apply ret_ok_inv in Hrun as [_ ->]. split; [done|]. split; [done|].
    apply Forall_Forall2_diag, Forall_forall. intros r _. by case_bool_decide as Hn;
      [apply not_elem_of_nil in Hn|].
  - apply bind_ok_inv in Hrun as ([] & w1 & H1 & H2).
    apply NoDup_cons in Hl as [Hx Hl].
    pose proof (Hin x ltac:(by left)) as Hxin.
    destruct (Hbody _ _ _ H1 HI Hxin) as (HI1 & Hmono & f & [Hf Hkey] & HE).
    assert (Hsame : forall r, key (if key r =? key x then f r else r) = key r).
    { intros r. by destruct (_ =? _). }
    destruct (IH w1 w' H2 HI1 Hl) as (HI' & Hmono' & Hch).
    + rewrite Hf, map_map. erewrite map_ext; [exact Hrows|exact Hsame].
    + intros y Hy. rewrite Hf. apply list_elem_of_In, in_map_iff. exists y.
      split; [|by apply list_elem_of_In, Hin; right].
      replace (key y =? key x) with false; [done|]. symmetry. apply Z.eqb_neq. intros Eq.
      apply Hx. rewrite <- Eq. by apply list_elem_of_In, in_map, list_elem_of_In.
    + split; [done|]. split; [auto|]. unfold rows_changed in *. rewrite Hf in Hch.
      apply Forall2_fmap_l in Hch. eapply Forall2_impl_in; [exact Hch|].
      simpl. intros r r' Hr Hp. rewrite Hsame in Hp.
      destruct (Z.eqb_spec (key r) (key x)) as [Eq|Eq].
      * rewrite bool_decide_eq_false_2 in Hp by (by rewrite Eq).
        rewrite bool_decide_eq_true_2 by (rewrite Eq; by left). subst r'.
        rewrite (NoDup_map_inj key _ _ _ Hrows Hr Hxin Eq). auto.
      * erewrite bool_decide_ext; [exact Hp|]. rewrite elem_of_cons. tauto.
Qed.
End Loop.

(** The rows of one owner are changed as [E] says; those of the others stay. *)
Section Owned.
Context {Row : Type} (key owner : Row -> Z) (id : Z) (E : Row -> Row -> Prop).
Context (HE : forall x y, E x y -> owner y = owner x).

Definition owned_rows (i : Z) (l : list Row) : list Row := List.filter (fun r => owner r =? i) l.

Lemma Forall2_owned i (P : Row -> Row -> Prop) old new :
  Forall2 P old new -> (forall x y, P x y -> owner y = owner x) ->
  Forall2 P (owned_rows i old) (owned_rows i new).
Proof.
  intros H HP. unfold owned_rows. induction H as [|x y old new Hxy _ IH]; simpl; [constructor|].
  rewrite (HP _ _ Hxy). destruct (owner x =? i); [by constructor|done].
Qed.

Lemma owned_changed l old new :
  rows_changed key l E old new -> NoDup (map key old) ->
  (forall x, x ∈ l <-> x ∈ old /\ owner x = id) ->
  (forall i, i <> id -> owned_rows i new = owned_rows i old) /\
  Forall2 E (owned_rows id old) (owned_rows id new) /\
  (forall y, y ∈ new -> owner y = id \/ y ∈ old).
Proof.
  intros Hch Hnd Hl.
  assert (Hc : Forall2 (fun x y => owner y = owner x /\ (owner x = id -> E x y) /\
                                   (owner x <> id -> y = x)) old new).
  { eapply Forall2_impl_in; [exact Hch|]. simpl. intros x y Hx. case_bool_decide as Hk.
    - apply list_elem_of_In, in_map_iff in Hk as (z & Ez & Hz).
      apply list_elem_of_In, Hl in Hz as [Hz Hid].
      rewrite (NoDup_map_inj key _ _ _ Hnd Hz Hx Ez) in Hid. intros Hxy.
      split; [auto|]. split; [done|congruence].
    - intros ->. split; [done|]. split; [|done]. intros Hid. exfalso. apply Hk.
      apply list_elem_of_In, in_map, list_elem_of_In, Hl. auto. }
  split; [|split].
  - intros i Hi. apply (Forall2_owned i) in Hc; [|intros ? ? ?; tauto]. symmetry.
    apply list_eq_Forall2. eapply Forall2_impl_in; [exact Hc|].
    simpl. intros x y Hx (_ & _ & Hy). symmetry. apply Hy.
    unfold owned_rows in Hx. apply list_elem_of_In, filter_In in Hx. lia.
  - apply (Forall2_owned id) in Hc; [|intros ? ? ?; tauto].
    eapply Forall2_impl_in; [exact Hc|]. simpl. intros x y Hx (_ & Hy & _). apply Hy.
    unfold owned_rows in Hx. apply list_elem_of_In, filter_In in Hx. lia.
  - intros y Hy. apply list_elem_of_lookup in Hy as [n Hy].
    destruct (Forall2_lookup_r _ _ _ _ _ Hc Hy) as (x & Hx & Ho & _ & Hne).
    apply list_elem_of_lookup_2 in Hx.
    destruct (Z.eq_dec (owner x) id) as [Eq|Eq]; [left; congruence|right].
    by rewrite (Hne Eq).
Qed.
End Owned.

(** The rows a query reads are the rows of the table it selects. *)
Lemma selected_rows {Row} (le : Row -> Row -> bool) (p : Row -> bool) (rs : list Row) x :
  x ∈ sort_by le (List.filter p rs) <-> x ∈ rs /\ p x = true.
Proof. by rewrite elem_of_sort_by, list_elem_of_In, filter_In, <- list_elem_of_In. Qed.

Lemma selected_keys {Row} (key : Row -> Z) (le : Row -> Row -> bool) (p : Row -> bool)
    (rs : list Row) :
  NoDup (map key rs) -> NoDup (map key (sort_by le (List.filter p rs))).
Proof.
  intros H. rewrite sort_by_perm. induction rs as [|x rs IH]; simpl in *; [done|].
  apply NoDup_cons in H as [Hx H]. destruct (p x); [simpl|auto]. constructor; [|auto].
  intros Hin. apply Hx. apply list_elem_of_In, in_map_iff in Hin as (y & <- & Hy).
  apply filter_In in Hy as [Hy _]. by apply list_elem_of_In, in_map.
Qed.
