(* ===== verification/AssetRepository.v ===== *)
(** * The asset repository on the database: [wineticket/core/asset_repository.go]

    [transactionAssetRepository] is the implementation of the interface of
    [AssetService] the program uses, and it keeps the promises of
    [LawfulRepository]. *)

From S2P Require Import Prelude GoInt GoString GoTime Json Problem RequestCtx.
From S2P Require Import CoreModel AssetService GiftModel AssetLaws Database.
From Stdlib Require Import String.
#[local] Open Scope string_scope. #[local] Open Scope list_scope. #[local] Open Scope Z_scope.
#[local] Open Scope go_scope.

Definition assetRepositoryError (err : error) : error :=
  if is_record_not_found err then EAssetRecordNotFound else err.

(** A query whose error the repository translates. *)
Definition asset_query {A} (m : G A) : G A :=
  r <- attempt m ;;
  match r with
  | Ok a => ret a
  | Err e => throw (assetRepositoryError e)
  end.

Definition asset_TransactionByActionKey (actionKey : string) : G Transaction :=
  asset_query (take_row (fun t => String.eqb (Tx_ActionKey t) actionKey)).

Definition asset_LockLot (lotID : Z) : G Lot :=
  asset_query (take_row (fun l => Lot_ID l =? lotID)).

Definition asset_CreateLot (lot : Lot) : G unit := create_row lot.

Definition asset_UpdateLot (lotID expectedVersion : Z) (change : LotAssetChange) : G bool :=
  affected <- update_rows (is_version lotID expectedVersion) (apply_change change) ;;
  ret (affected =? 1).

Definition asset_CreateTransaction (transaction : Transaction) : G unit := create_row transaction.

(** [NewTransactionAssetRepository] *)
Definition NewTransactionAssetRepository : AssetIssuanceRepository World := {|
  ledger_repository := {|
    TransactionByActionKey := asset_TransactionByActionKey;
    LockLot := asset_LockLot;
    UpdateLot := asset_UpdateLot;
    CreateTransaction := asset_CreateTransaction;
  |};
  CreateLot := asset_CreateLot;
|}.

(** ** The repository is lawful *)

(** What the asset service sees of the database, and the rest of it. *)
Definition asset_view (w : World) : AssetView :=
  {| v_lots := db_lots (w_db w); v_ledger := db_transactions (w_db w) |}.

Definition blank_assets (db : Database) : Database :=
  Build_Database_with db [] [] (db_gifts db) (db_gift_allocations db) (db_gift_tokens db)
    (db_audit_logs db) (db_outbox db) (db_idempotency db).

Definition asset_frame (w : World) : Database := blank_assets (w_db w).

Abbreviation asset_same := (same asset_view asset_frame).

Lemma same_db w w' : w_db w' = w_db w -> asset_same w w'.
Proof. unfold same, asset_view, asset_frame. by intros ->. Qed.

Lemma asset_query_ok {A} (m : G A) w a w' : asset_query m w = (Ok a, w') -> m w = (Ok a, w').
Proof. unfold asset_query. intros H. run_step H. destruct a0; run H. done. Qed.

Lemma asset_query_none {A} (m : G A) w w' :
  asset_query m w = (Err EAssetRecordNotFound, w') ->
  m w = (Err ERecordNotFound, w') \/ m w = (Err EAssetRecordNotFound, w').
Proof.
  unfold asset_query, bind, attempt. destruct (m w) as [[a|e] w1]; simpl; [discriminate|].
  unfold throw, assetRepositoryError. intros Heq. destruct e; simplify_eq/=; auto.
Qed.

#[export] Instance next_id_outside : Outside asset_view asset_frame next_id.
Proof. intros w r w' H. by eapply same_db, next_id_db. Qed.

#[export] Instance time_now_outside : Outside asset_view asset_frame time_now.
Proof. intros w r w' H. by eapply same_db, time_now_db. Qed.

#[export] Instance asset_repository_ledger :
  LawfulLedger asset_view asset_frame (ledger_repository NewTransactionAssetRepository).
Proof.
  split; simpl.
  - intros key w t w' H. apply asset_query_ok, take_row_ok in H as (Hdb & Hin & Hk).
    apply String.eqb_eq in Hk. split; [by apply same_db | done].
  - intros key w w' H. apply asset_query_none in H as [H|H].
    + apply take_row_none in H as [Hdb Hno]. split; [by apply same_db|].
      intros t Ht. apply Hno in Ht. by apply String.eqb_neq in Ht.
    + apply exec_err in H as [_ [[msg ?]|H]]; [done|]. by destruct (find _ _).
  - intros id w lot w' H. apply asset_query_ok, take_row_ok in H as (Hdb & Hin & Hk).
    split; [by apply same_db|]. split; [done|lia].
  - intros id version c w w' H. unfold asset_UpdateLot in H. run H. rename E into Hn.
    apply update_rows_ok in R as (Hchk & _ & [[-> _]|[_ Hdb]]); [done|].
    unfold asset_view, asset_frame. rewrite Hdb. done.
  - intros t w u w' H. apply create_row_ok in H as (Hdb & Hchk & Hno).
    unfold asset_view, asset_frame. rewrite Hdb. repeat split; [done|].
    intros t' Ht E. apply Hno in Ht. simpl in Ht. rewrite !orb_false_iff in Ht.
    destruct Ht as [_ Ht]. by apply String.eqb_neq in Ht.
Qed.

#[export] Instance asset_repository_lawful :
  LawfulRepository asset_view asset_frame NewTransactionAssetRepository.
Proof.
  split; [apply _|]. intros lot w u w' H. apply create_row_ok in H as (Hdb & Hchk & Hno).
  unfold asset_view, asset_frame. rewrite Hdb. repeat split; [done|].
  intros l Hl E. apply Hno in Hl. simpl in Hl. rewrite orb_false_iff in Hl. lia.
Qed.

(** ** Reads without faults *)

Lemma asset_query_run {A} (m : G A) w : asset_query m w =
  match m w with
  | (Ok a, w') => (Ok a, w')
  | (Err e, w') => (Err (assetRepositoryError e), w')
  end.
Proof. unfold asset_query, bind, attempt. by destruct (m w) as [[a|e] w']. Qed.

Lemma find_entry_run w t :
  no_faults w -> NoDup (map Tx_ActionKey (db_transactions (w_db w))) ->
  t ∈ db_transactions (w_db w) ->
  asset_TransactionByActionKey (Tx_ActionKey t) w = (Ok t, bump w).
Proof.
  intros Hn Hnd Hin. unfold asset_TransactionByActionKey.
  rewrite asset_query_run, take_row_run by done. simpl.
  rewrite (find_unique Tx_ActionKey _ _ t); auto.
  - apply String.eqb_refl.
  - intros r _. apply String.eqb_eq.
Qed.

Lemma find_no_entry_run w key :
  no_faults w -> (forall t, t ∈ db_transactions (w_db w) -> Tx_ActionKey t <> key) ->
  asset_TransactionByActionKey key w = (Err EAssetRecordNotFound, bump w).
Proof.
  intros Hn Hno. unfold asset_TransactionByActionKey.
  rewrite asset_query_run, take_row_run by done. simpl.
  rewrite find_absent; [done|]. intros t Ht. by apply String.eqb_neq, Hno.
Qed.

Lemma lock_lot_run w lot :
  no_faults w -> NoDup (map Lot_ID (db_lots (w_db w))) -> lot ∈ db_lots (w_db w) ->
  asset_LockLot (Lot_ID lot) w = (Ok lot, bump w).
Proof.
  intros Hn Hnd Hin. unfold asset_LockLot. rewrite asset_query_run, take_row_run by done. simpl.
  rewrite (find_unique Lot_ID _ _ lot); auto; [lia|]. intros r _. lia.
Qed.

Lemma lock_no_lot_run w id :
  no_faults w -> (forall l, l ∈ db_lots (w_db w) -> Lot_ID l <> id) ->
  asset_LockLot id w = (Err EAssetRecordNotFound, bump w).
Proof.
  intros Hn Hno. unfold asset_LockLot. rewrite asset_query_run, take_row_run by done. simpl.
  rewrite find_absent; [done|]. intros l Hl. specialize (Hno l Hl). lia.
Qed.
