(* ===== verification/IntegrityScan.v ===== *)
(** * The auditor's scan of the lots: [wineticket/integrity/lot.go]

    The queries that select a window of lots and their ledger and allocations,
    and [scanLots], which runs the two checks of [Integrity] on every lot. *)

From S2P Require Import Prelude GoInt GoString GoTime Json Problem.
From S2P Require Import CoreModel GiftModel Integrity AssetLaws Database FulfilmentTables.
From Stdlib Require Import String.
#[local] Open Scope string_scope. #[local] Open Scope list_scope. #[local] Open Scope Z_scope.
#[local] Open Scope go_scope.

(** [column IN ?] *)
Definition id_in (ids : list Z) (value : Z) : bool := existsb (Z.eqb value) ids.

(** [idWindow] *)
Definition idWindow (afterID : Z) (upperID : option Z) (id : Z) : bool :=
  (afterID <? id) && match upperID with Some u => id <=? u | None => true end.

Definition listIntegrityLots (afterID : Z) (upperID : option Z) (limit : nat) : G (list Lot) :=
  find_rows (fun l => idWindow afterID upperID (Lot_ID l))
    (fun rows => take limit (sort_by (by_keys [Lot_ID]) rows)).

(** [ORDER BY lot_id, created_at, id] *)
Definition ledger_order : Transaction -> Transaction -> bool :=
  by_keys [Tx_LotID; Tx_CreatedAt; Tx_ID].

Definition listIntegrityLotTransactions (lotIDs : list Z) : G (list Transaction) :=
  find_rows (fun t => id_in lotIDs (Tx_LotID t)) (sort_by ledger_order).

(** [fmt.Errorf("...: %w", err)] *)
Definition wrap_error {A} (prefix : string) (m : G A) : G A :=
  r <- attempt m ;;
  match r with
  | Ok a => ret a
  | Err e => throw (EMessage (prefix +:+ ": " +:+ error_text e))
  end.

Record reconciliationLotAllocations := {
  Alloc_Redemptions : list RedemptionAllocation;
  Alloc_Gifts : list GiftAllocation;
  Alloc_Refunds : list RefundAllocation;
}.

Definition loadIntegrityLotAllocations (lotIDs : list Z) : G reconciliationLotAllocations :=
  match lotIDs with
  | [] => ret {| Alloc_Redemptions := []; Alloc_Gifts := []; Alloc_Refunds := [] |}
  | _ =>
      redemptions <- wrap_error "load redemption allocations for reconciliation"
        (find_rows (fun a => id_in lotIDs (RA_LotID a)) (fun l => l)) ;;
      gifts <- wrap_error "load gift allocations for reconciliation"
        (find_rows (fun a => id_in lotIDs (GA_SourceLotID a)) (fun l => l)) ;;
      refunds <- wrap_error "load refund allocations for reconciliation"
        (find_rows (fun a => id_in lotIDs (FA_LotID a)) (fun l => l)) ;;
      ret {| Alloc_Redemptions := redemptions; Alloc_Gifts := gifts; Alloc_Refunds := refunds |}
  end.

(** [scanLots]: how many lots were read, the last identifier, the findings. *)
Definition scanLots (afterID : Z) (upperID : option Z) (limit : nat)
    : G (Z * Z * list reconciliationDiscrepancy) :=
  lots <- listIntegrityLots afterID upperID limit ;;
  match last lots with
  | None => ret (0, afterID, [])
  | Some l =>
      let lotIDs := map Lot_ID lots in
      transactions <- listIntegrityLotTransactions lotIDs ;;
      allocations <- loadIntegrityLotAllocations lotIDs ;;
      ret (Z.of_nat (List.length lots), Lot_ID l,
           flat_map (scan_lot transactions (Alloc_Redemptions allocations)
                       (Alloc_Gifts allocations) (Alloc_Refunds allocations)) lots)
  end.
