(* ===== verification/Samples.v ===== *)
(** * Sample data

    A small database and the worlds the concrete instances of the theorems run
    in: a customer's lot of six bottles, a clock that advances a millisecond
    at a reading, no faults. *)

From S2P Require Import Prelude GoInt GoString GoTime Json Problem Snowflake RequestCtx.
From S2P Require Import CoreModel AssetService GiftModel RedemptionModel PurchaseModel AssetLaws Database AssetRepository.
From Stdlib Require Import String.
#[local] Open Scope string_scope. #[local] Open Scope list_scope. #[local] Open Scope Z_scope.

(** 2026-01-01 00:00:00 UTC *)
Definition sample_now : time := 1767225600 * second.

Definition sample_day : Z := 24 * hour.

Definition sample_world_on (db : Database) : World := {|
  w_db := db;
  w_clock n := sample_now + Z.of_nat n * millisecond;
  w_fault _ := None;
  w_random n := Some (map (fun i => (Z.of_nat i * 7 + Z.of_nat n) mod 256) (seq 0 32));
  w_uuid n := "uuid-" +:+ format_uint (Z.of_nat n);
  w_ticks := 0; w_stmts := 0; w_draws := 0; w_uuids := 0;
  w_gen := {| lastMS := 0; sequence := 0; nodeID := 1; rollbacks := 0 |};
|}.

Definition sample_lot : Lot := {|
  Lot_ID := 101; Lot_LotNo := "WTL101"; Lot_OwnerCustomerID := 7; Lot_PurchaseID := 11;
  Lot_SourceType := LotSourcePurchase; Lot_SourceLotID := None; Lot_SourceGiftID := None;
  Lot_IssuerMerchantID := 3; Lot_ProductID := 5; Lot_RedeemCityCode := "310100";
  Lot_TotalQuantity := 6; Lot_AvailableQuantity := 6;
  Lot_OriginalExpiresAt := sample_now + 30 * sample_day;
  Lot_ExpiresAt := sample_now + 30 * sample_day;
  Lot_ExpiryChangedAt := sample_now - sample_day; Lot_RenewalCount := 0;
  Lot_EverUsed := false; Lot_Status := LotStatusActive; Lot_Version := 1;
  Lot_CreatedAt := sample_now - sample_day; Lot_UpdatedAt := sample_now - sample_day |}.

Definition sample_issue : Transaction := {|
  Tx_ID := 102; Tx_TransactionNo := "WTT102"; Tx_LotID := 101; Tx_OwnerCustomerID := 7;
  Tx_TransactionType := TransactionTypePurchaseIssue; Tx_QuantityDelta := 6;
  Tx_BeforeAvailableQuantity := 0; Tx_AfterAvailableQuantity := 6;
  Tx_BizType := "purchase"; Tx_BizID := 11; Tx_ActionKey := "purchase_issue:11";
  Tx_MetadataJSON := JNull; Tx_RequestID := None; Tx_CreatedAt := sample_now - sample_day |}.

Definition sample_product : Product := {|
  Product_ID := 5; Product_Name := "Maotai"; Product_BrandName := Some "Maotai";
  Product_Spec := None; Product_ImageURL := None; Product_CategoryID := 21;
  Product_Status := "on_sale"; Product_AgeRestricted := true; Product_DeletedAt := None |}.

Definition sample_customer (id : Z) (name : string) : Customer := {|
  Customer_ID := id; Customer_Nickname := Some name; Customer_Phone := "13800138000"; Customer_Status := "active";
  Customer_DeletedAt := None |}.

Definition sample_adult (id : Z) : Realname := {|
  Realname_CustomerID := id; Realname_Status := "verified"; Realname_AdultResult := "adult";
  Realname_ExpiresAt := None; Realname_RevokedAt := None |}.

Definition sample_database : Database := {|
  db_lots := [sample_lot]; db_transactions := [sample_issue]; db_gifts := [];
  db_gift_allocations := []; db_gift_tokens := []; db_renewals := [];
  db_redemption_allocations := []; db_refund_allocations := [];
  db_customers := [sample_customer 7 "giver"; sample_customer 8 "friend"];
  db_realnames := [sample_adult 7; sample_adult 8]; db_identity_requests := [];
  db_products := [sample_product]; db_audit_logs := []; db_outbox := [];
  db_idempotency := []; db_fulfilment := empty_fulfilment;
  db_sales := no_sales |}.

Definition sample_world : World := sample_world_on sample_database.

(** The asset service and repository the program configures. *)
Definition asset_service : AssetService World := NewAssetService time_now next_id.

Definition asset_ledger_repository : option (AssetLedgerRepository World) :=
  Some (ledger_repository NewTransactionAssetRepository).

Definition sample_command (quantity : Z) (type key : string) : AssetCommand := {|
  Cmd_LotID := 101; Cmd_OwnerCustomerID := 7; Cmd_Quantity := quantity; Cmd_MarkUsed := true;
  Cmd_TransactionType := type; Cmd_BizType := "gift"; Cmd_BizID := 55; Cmd_ActionKey := key;
  Cmd_Metadata := JNull; Cmd_OccurredAt := sample_now; Cmd_ExpiryEvidence := None |}.

Definition sample_freeze : AssetCommand :=
  sample_command 4 TransactionTypeGiftHold "gift_hold:55:101".

Definition sample_restore : AssetCommand :=
  sample_command 4 TransactionTypeGiftRestore "gift_restore:55:101".

(** The database a computation leaves. *)
Definition db_after {A} (m : G A) (w : World) : Database := w_db (m w).2.

Definition sample_expire : ExpireCommand := {|
  Expire_LotID := 101; Expire_OwnerCustomerID := 7;
  Expire_TransactionType := TransactionTypeExpiry; Expire_BizType := "wine_ticket_expiry";
  Expire_BizID := 101; Expire_ActionKey := "expiry:101"; Expire_Metadata := JNull;
  Expire_OccurredAt := sample_now + 31 * sample_day |}.

Definition sample_issued (id : Z) : Lot := {|
  Lot_ID := id; Lot_LotNo := ""; Lot_OwnerCustomerID := 8; Lot_PurchaseID := 11;
  Lot_SourceType := LotSourceGift; Lot_SourceLotID := Some 101; Lot_SourceGiftID := Some 55;
  Lot_IssuerMerchantID := 3; Lot_ProductID := 5; Lot_RedeemCityCode := "310100";
  Lot_TotalQuantity := 4; Lot_AvailableQuantity := 4;
  Lot_OriginalExpiresAt := sample_now + 30 * sample_day;
  Lot_ExpiresAt := sample_now + 30 * sample_day;
  Lot_ExpiryChangedAt := zero_time; Lot_RenewalCount := 0; Lot_EverUsed := true;
  Lot_Status := ""; Lot_Version := 0; Lot_CreatedAt := zero_time; Lot_UpdatedAt := zero_time |}.

Definition sample_transfer : TransferCommand := {|
  Transfer_ReceiverLot := sample_issued 103;
  Transfer_TransactionType := TransactionTypeGiftClaim; Transfer_BizType := "gift";
  Transfer_BizID := 55; Transfer_ActionKey := "gift_claim:55:103";
  Transfer_Metadata := JNull; Transfer_OccurredAt := sample_now |}.

Definition sample_issue_command : IssueCommand := {|
  Issue_Lot := {|
    Lot_ID := 0; Lot_LotNo := ""; Lot_OwnerCustomerID := 7; Lot_PurchaseID := 12;
    Lot_SourceType := LotSourcePurchase; Lot_SourceLotID := None; Lot_SourceGiftID := None;
    Lot_IssuerMerchantID := 3; Lot_ProductID := 5; Lot_RedeemCityCode := "310100";
    Lot_TotalQuantity := 2; Lot_AvailableQuantity := 2;
    Lot_OriginalExpiresAt := sample_now + 60 * sample_day;
    Lot_ExpiresAt := sample_now + 60 * sample_day;
    Lot_ExpiryChangedAt := zero_time; Lot_RenewalCount := 0; Lot_EverUsed := false;
    Lot_Status := ""; Lot_Version := 0; Lot_CreatedAt := zero_time;
    Lot_UpdatedAt := zero_time |};
  Issue_TransactionType := TransactionTypePurchaseIssue; Issue_BizType := "purchase";
  Issue_BizID := 12; Issue_ActionKey := "purchase_issue:12"; Issue_Metadata := JNull;
  Issue_OccurredAt := zero_time |}.
