(* ===== verification/AssetTheorems.v ===== *)
(** * The asset service on the database: its theorems

    [AssetLedger] proves the operations correct against any lawful repository;
    here they run on the repository the program configures, over every history
    of operations, each in its own database transaction. *)

From S2P Require Import Prelude GoInt GoString GoTime Json Problem RequestCtx CoreModel.
From S2P Require Import AssetService Integrity AssetLaws AssetLedger.
From S2P Require Import Database AssetRepository IntegrityScan Samples.
From Stdlib Require Import String.
#[local] Open Scope string_scope. #[local] Open Scope list_scope. #[local] Open Scope Z_scope.

(** ** Histories of asset operations *)

Inductive AssetOp :=
| OpIssue (command : IssueCommand)
| OpTransfer (command : TransferCommand)
| OpFreeze (command : AssetCommand)
| OpRedeem (command : AssetCommand)
| OpRestore (command : AssetCommand)
| OpExpire (command : ExpireCommand).

(** What the types of the command and its callers give: quantities are
    unsigned, and a new lot starts active. *)
Definition op_ok (op : AssetOp) : Prop :=
  match op with
  | OpIssue c => issue_request_ok (Issue_Lot c)
  | OpTransfer c => issue_request_ok (Transfer_ReceiverLot c)
  | OpFreeze c | OpRedeem c | OpRestore c => quantity_ok c
  | OpExpire _ => True
  end.

Definition asset_op (ctx : Context) (op : AssetOp) : G AssetMutation :=
  match op with
  | OpIssue c => Issue asset_service ctx (Some NewTransactionAssetRepository) c
  | OpTransfer c => Transfer asset_service ctx (Some NewTransactionAssetRepository) c
  | OpFreeze c => Freeze asset_service ctx asset_ledger_repository c
  | OpRedeem c => Redeem asset_service ctx asset_ledger_repository c
  | OpRestore c => Restore asset_service ctx asset_ledger_repository c
  | OpExpire c => Expire asset_service ctx asset_ledger_repository c
  end.

(** The worlds a history of operations reaches from an empty ledger.  An
    operation may fail; between operations anything but the two asset tables
    may change. *)
Inductive asset_reachable : World -> Prop :=
| reach_start w : db_lots (w_db w) = [] -> db_transactions (w_db w) = [] -> asset_reachable w
| reach_env w w' : asset_reachable w -> asset_view w' = asset_view w -> asset_reachable w'
| reach_op w ctx op r w' :
    asset_reachable w -> op_ok op -> transaction (asset_op ctx op) w = (r, w') ->
    asset_reachable w'.

Lemma asset_op_step ctx op w m w' :
  asset_op ctx op w = (Ok m, w') -> op_ok op -> ledger_ok (asset_view w) ->
  ledger_step (asset_view w) m (asset_view w') /\ asset_frame w' = asset_frame w.
Proof.
  destruct op; simpl; intros H Hop Hok.
  - by apply (Issue_refines asset_view asset_frame NewTransactionAssetRepository next_id time_now) in H.
  - by apply (Transfer_refines asset_view asset_frame NewTransactionAssetRepository next_id time_now) in H.
  - by apply (debit_refines asset_view asset_frame NewTransactionAssetRepository next_id time_now) in H.
  - by apply (debit_refines asset_view asset_frame NewTransactionAssetRepository next_id time_now) in H.
  - by apply (Restore_refines asset_view asset_frame NewTransactionAssetRepository next_id time_now) in H.
  - by apply (Expire_refines asset_view asset_frame NewTransactionAssetRepository next_id time_now) in H.
Qed.

Lemma view_of_db w w' : w_db w' = w_db w -> asset_view w' = asset_view w.
Proof. unfold asset_view. by intros ->. Qed.

Lemma asset_reachable_ok w : asset_reachable w -> ledger_ok (asset_view w).
Proof.
  induction 1 as [w Hl Ht|w w' _ IH Hv|w ctx op r w' _ IH Hop H].
  - unfold asset_view. rewrite Hl, Ht. apply empty_ledger_ok.
  - by rewrite Hv.
  - destruct r as [m|e].
    + apply transaction_ok in H as (w1 & w2 & H1 & H2 & H3).
      apply view_of_db in H1, H3. rewrite <- H1 in IH. rewrite H3.
      apply asset_op_step in H2 as [H2 _]; auto. by apply ledger_step_ok in H2.
    + apply transaction_err, view_of_db in H. by rewrite H.
Qed.

(** ** The auditor reads the ledger in the order of its timestamps *)

(** The entries of a lot as [scanLots] hands them to [checkLotReplay]. *)
Definition audited (w : World) (lotID : Z) : list Transaction :=
  List.filter (fun t => Tx_LotID t =? lotID)
    (sort_by ledger_order (List.filter (fun t => id_in [lotID] (Tx_LotID t))
       (db_transactions (w_db w)))).

(** The entries of a lot were written in the order of their timestamps and,
    within a millisecond, of their identifiers. *)
Definition chronological (w : World) (lotID : Z) : Prop :=
  StronglySorted (fun a b => ledger_order b a = false) (entries (asset_view w) lotID).

Lemma chronological_check w lotID :
  pairwise (fun a b => negb (ledger_order b a)) (entries (asset_view w) lotID) = true ->
  chronological w lotID.
Proof.
  intros H. eapply StronglySorted_weaken; [|exact (pairwise_sorted _ _ H)].
  simpl. intros a b. apply negb_true_iff.
Qed.

Lemma Permutation_filter {A} (f : A -> bool) l1 l2 :
  l1 ≡ₚ l2 -> List.filter f l1 ≡ₚ List.filter f l2.
Proof.
  induction 1; simpl; repeat match goal with |- context [f ?x] => destruct (f x) end;
    eauto using Permutation.
Qed.

Lemma filter_filter {A} (f g : A -> bool) l :
  List.filter f (List.filter g l) = List.filter (fun x => f x && g x) l.
Proof.
  induction l as [|x l IH]; simpl; [done|].
  destruct (g x); simpl; rewrite ?andb_true_r, ?andb_false_r, ?IH; done.
Qed.

Lemma audited_entries w lotID :
  chronological w lotID -> audited w lotID = entries (asset_view w) lotID.
Proof.
  intros Hc. apply (strictly_sorted_unique [Tx_LotID; Tx_CreatedAt; Tx_ID]); auto.
  - apply StronglySorted_filter, sort_by_sorted.
  - unfold audited. rewrite (Permutation_filter _ _ _ (sort_by_perm _ _)), filter_filter.
    unfold entries, asset_view. simpl. erewrite List.filter_ext; [done|].
    intros t. simpl. destruct (Tx_LotID t =? lotID); done.
Qed.

Lemma lot_audited_clean w lot :
  ledger_ok (asset_view w) -> lot ∈ db_lots (w_db w) -> chronological w (Lot_ID lot) ->
  checkLotReplay lot (audited w (Lot_ID lot)) = None.
Proof.
  intros Hok Hin Hc. rewrite audited_entries by done.
  apply checkLotReplay_iff.
  - by apply (in_ledger_row (asset_view w)).
  - apply Forall_forall. intros t Ht. apply list_elem_of_In, filter_In in Ht as [Ht _].
    apply (in_entry_row (asset_view w)); [done|]. by apply list_elem_of_In.
  - by apply (in_lot_agrees (asset_view w)).
Qed.

(** ** The properties *)


(** A history: issue a lot, freeze some of it, take the rest out on expiry. *)
Definition history_world : World :=
  let w0 := sample_world_on empty_database in
  let w1 := (transaction (asset_op Background (OpIssue sample_issue_command)) w0).2 in
  let lot := default sample_lot (head (db_lots (w_db w1))) in
  let freeze := {|
    Cmd_LotID := Lot_ID lot; Cmd_OwnerCustomerID := 7; Cmd_Quantity := 1; Cmd_MarkUsed := true;
    Cmd_TransactionType := TransactionTypeGiftHold; Cmd_BizType := "gift"; Cmd_BizID := 55;
    Cmd_ActionKey := "gift_hold:55"; Cmd_Metadata := JNull;
    Cmd_OccurredAt := sample_now + sample_day; Cmd_ExpiryEvidence := None |} in
  (transaction (asset_op Background (OpFreeze freeze)) w1).2.

Definition history_lot : Lot := default sample_lot (head (db_lots (w_db history_world))).

Lemma history_reachable : asset_reachable history_world.
Proof.
  unfold history_world. cbv zeta. eapply reach_op; [|idtac|apply surjective_pairing].
  - eapply reach_op; [|idtac|apply surjective_pairing]; [by apply reach_start|].
    split; [done|by left].
  - done.
Qed.


(** C23: The balance of a lot never leaves 0..total, and it is always the sum
    of the deltas of the lot's entries: bottles are neither created nor lost
    outside the ledger. *)
Theorem lot_balance_is_ledger_sum w lot :
  asset_reachable w -> lot ∈ db_lots (w_db w) ->
  0 <= Lot_AvailableQuantity lot <= Lot_TotalQuantity lot /\
  Lot_AvailableQuantity lot = sum_deltas (entries (asset_view w) (Lot_ID lot)).
Proof.
  intros Hr Hin. apply asset_reachable_ok in Hr.
  pose proof (lot_row_values _ (in_ledger_row (asset_view w) _ Hr Hin)).
  destruct (in_lot_agrees (asset_view w) lot Hr Hin) as (_ & Hc & _).
  apply chain_sum in Hc. lia.
Qed.

Lemma lot_balance_is_ledger_sum_witness :
  0 <= Lot_AvailableQuantity history_lot <= Lot_TotalQuantity history_lot /\
  Lot_AvailableQuantity history_lot =
    sum_deltas (entries (asset_view history_world) (Lot_ID history_lot)).
Proof.
  apply (lot_balance_is_ledger_sum history_world history_lot); [exact history_reachable|].
  vm_compute. apply list_elem_of_here.
Defined.

Lemma step_keeps_ledger ctx op w m w' :
  asset_op ctx op w = (Ok m, w') -> op_ok op -> ledger_ok (asset_view w) ->
  ledger_ok (asset_view w').
Proof. intros H Hop Hok. apply asset_op_step in H as [H _]; auto. by apply ledger_step_ok in H. Qed.

(** C24: A successful freeze or redemption is either a replay, which changes
    nothing and returns the entry of the first run, or takes exactly the
    quantity from an active, unexpired lot of the owner that has it, marks the
    lot depleted when nothing is left, raises its version by one and appends
    one entry for the change; no other row changes and the ledger stays in
    agreement. *)
Theorem debit_takes_the_quantity ctx command markUsed w m w' :
  debit asset_service ctx asset_ledger_repository command markUsed w = (Ok m, w') ->
  quantity_ok command -> ledger_ok (asset_view w) ->
  ledger_ok (asset_view w') /\ asset_frame w' = asset_frame w /\
  ((asset_view w' = asset_view w /\
    replayed (asset_view w) (Cmd_LotID command) (Cmd_ActionKey command) (Cmd_TransactionType command)
      (Cmd_BizType command) (Cmd_BizID command) (int_neg (i64 (Cmd_Quantity command))) m) \/
   exists lot t, debit_done (asset_view w) (asset_view w') command markUsed m lot t).
Proof.
  intros H Hq Hok.
  destruct (debit_ok asset_view asset_frame NewTransactionAssetRepository next_id time_now
              _ _ _ _ _ _ H Hq Hok) as [Hf Hcase].
  destruct (debit_refines asset_view asset_frame NewTransactionAssetRepository next_id time_now
              _ _ _ _ _ _ H Hq Hok) as [Hs _].
  split; [by apply ledger_step_ok in Hs | done].
Qed.

Lemma debit_takes_the_quantity_witness :
  let run := debit asset_service Background asset_ledger_repository sample_freeze true sample_world in
  exists m, run.1 = Ok m /\ ledger_ok (asset_view run.2).
Proof.
  eexists. split; [vm_compute; reflexivity|].
  eapply (debit_takes_the_quantity Background sample_freeze true sample_world).
  - apply run_ok. vm_compute; reflexivity.
  - done.
  - by apply ledger_check_ok.
Defined.

(** A successful issue is either a replay or inserts one new lot that
    starts active and full, with an identifier no lot has, and one entry from
    zero to its full balance. *)
Theorem Issue_starts_a_full_lot ctx command w m w' :
  Issue asset_service ctx (Some NewTransactionAssetRepository) command w = (Ok m, w') ->
  issue_request_ok (Issue_Lot command) -> ledger_ok (asset_view w) ->
  ledger_ok (asset_view w') /\ asset_frame w' = asset_frame w /\
  ((asset_view w' = asset_view w /\
    replayed (asset_view w) (Lot_ID (Issue_Lot command)) (Issue_ActionKey command) (Issue_TransactionType command)
      (Issue_BizType command) (Issue_BizID command)
      (i64 (Lot_TotalQuantity (Issue_Lot command))) m /\
    sameLotLineage (Mutation_Lot m) (Issue_Lot command) = true) \/
   exists lot t, issue_done (asset_view w) (asset_view w') command m lot t).
Proof.
  intros H Hq Hok.
  destruct (Issue_ok asset_view asset_frame NewTransactionAssetRepository next_id time_now
              _ _ _ _ _ H Hq) as [Hf Hcase].
  destruct (Issue_refines asset_view asset_frame NewTransactionAssetRepository next_id time_now
              _ _ _ _ _ H Hq) as [Hs _].
  split; [by apply ledger_step_ok in Hs | done].
Qed.

Lemma Issue_starts_a_full_lot_witness :
  let run := Issue asset_service Background (Some NewTransactionAssetRepository) sample_issue_command
    sample_world in
  exists m, run.1 = Ok m /\ ledger_ok (asset_view run.2).
Proof.
  eexists. split; [vm_compute; reflexivity|].
  eapply (Issue_starts_a_full_lot Background sample_issue_command sample_world).
  - apply run_ok. vm_compute; reflexivity.
  - split; [done|by left].
  - by apply ledger_check_ok.
Defined.

(** A successful transfer issues a lot of gift lineage: its source type is
    [gift] and it names the lot and the gift it came from. *)
Theorem Transfer_issues_gift_lineage ctx command w m w' :
  Transfer asset_service ctx (Some NewTransactionAssetRepository) command w = (Ok m, w') ->
  issue_request_ok (Transfer_ReceiverLot command) -> ledger_ok (asset_view w) ->
  ledger_ok (asset_view w') /\
  (Mutation_Replayed m = true /\ asset_view w' = asset_view w \/
   exists lot t, Mutation_Lot m = lot /\ Mutation_Transactions m = [t] /\
     db_lots (w_db w') = db_lots (w_db w) ++ [lot] /\
     Lot_SourceType lot = LotSourceGift /\ Lot_SourceLotID lot <> None /\
     Lot_SourceGiftID lot <> None /\
     Lot_OwnerCustomerID lot = Lot_OwnerCustomerID (Transfer_ReceiverLot command) /\
     Lot_AvailableQuantity lot = Lot_TotalQuantity (Transfer_ReceiverLot command) /\
     Tx_QuantityDelta t = Lot_TotalQuantity (Transfer_ReceiverLot command)).
Proof.
  intros H Hq Hok. split; [by apply (step_keeps_ledger ctx (OpTransfer command) w m)|].
  apply Transfer_ok in H as (Hty & Hl & Hg & H).
  destruct (Issue_ok asset_view asset_frame NewTransactionAssetRepository next_id time_now
              _ _ _ _ _ H Hq) as [_ [(Hv & Hr & _)|(lot & t & Hd)]]; [left; by destruct Hr|right].
  destruct Hd. destruct issue_entry, issue_full as [Hav _], issue_lot as (id & now & ->). subst m.
  injection issue_view as Hlots _. exists (issued_lot (Transfer_ReceiverLot command) id now), t.
  repeat split; auto.
Qed.

Lemma Transfer_issues_gift_lineage_witness :
  let run := Transfer asset_service Background (Some NewTransactionAssetRepository) sample_transfer
    sample_world in
  exists m, run.1 = Ok m /\ ledger_ok (asset_view run.2).
Proof.
  eexists. split; [vm_compute; reflexivity|].
  eapply (Transfer_issues_gift_lineage Background sample_transfer sample_world).
  - apply run_ok. vm_compute; reflexivity.
  - split; [done|by left].
  - by apply ledger_check_ok.
Defined.


Definition frozen_world : World :=
  (Freeze asset_service Background asset_ledger_repository sample_freeze sample_world).2.


(** A successful expiry leaves the lot expired and empty.  A run that is
    not a replay found it past its expiry and active or depleted, and took out
    what was left with one entry, or with none when nothing was left. *)
Theorem Expire_empties_the_lot ctx command w m w' :
  Expire asset_service ctx asset_ledger_repository command w = (Ok m, w') ->
  ledger_ok (asset_view w) ->
  ledger_ok (asset_view w') /\ asset_frame w' = asset_frame w /\
  Lot_Status (Mutation_Lot m) = LotStatusExpired /\
  Lot_AvailableQuantity (Mutation_Lot m) = 0 /\
  Mutation_Lot m ∈ db_lots (w_db w') /\
  (asset_view w' = asset_view w \/
   exists lot, expire_done (asset_view w) (asset_view w') command m lot).
Proof.
  intros H Hok. split; [by apply (step_keeps_ledger ctx (OpExpire command) w m)|].
  destruct (Expire_ok asset_view asset_frame NewTransactionAssetRepository next_id time_now
              _ _ _ _ _ H Hok) as (Hf & (Hst & Hz & _) & Hcase).
  split; [done|]. split; [done|]. split; [done|].
  apply (asset_op_step ctx (OpExpire command)) in H as [Hs _]; [|done..].
  split; [exact (ledger_step_lot _ _ _ Hs)|].
  destruct Hcase as [[Hv _]|[lot Hd]]; [by left | right; by exists lot].
Qed.

Lemma Expire_empties_the_lot_witness :
  let run := Expire asset_service Background asset_ledger_repository sample_expire
               frozen_world in
  exists m, run.1 = Ok m /\ Lot_AvailableQuantity (Mutation_Lot m) = 0.
Proof.
  eexists. split; [vm_compute; reflexivity|].
  eapply (Expire_empties_the_lot Background sample_expire frozen_world).
  - apply run_ok. vm_compute; reflexivity.
  - apply ledger_check_ok. vm_compute; reflexivity.
Defined.

(** ** Replays, and what stays true as the ledger grows *)

(** Later states keep every entry and every lot, but for its balance. *)
Definition extends (v v' : AssetView) : Prop :=
  (forall t, t ∈ v_ledger v -> t ∈ v_ledger v') /\
  (forall l, l ∈ v_lots v -> exists l', l' ∈ v_lots v' /\ same_lot l l').

Lemma same_lot_refl l : same_lot l l.
Proof. by repeat split. Qed.

Lemma same_lot_trans a b c : same_lot a b -> same_lot b c -> same_lot a c.
Proof. unfold same_lot. intuition congruence. Qed.

Lemma extends_refl v : extends v v.
Proof. split; [done|]. eauto using same_lot_refl. Qed.

Lemma extends_trans v1 v2 v3 : extends v1 v2 -> extends v2 v3 -> extends v1 v3.
Proof.
  intros [H1 H2] [H3 H4]. split; [auto|]. intros l Hl. apply H2 in Hl as (l2 & Hl & E).
  apply H4 in Hl as (l3 & Hl & E'). eauto using same_lot_trans.
Qed.

Lemma step_extends v m v' : ledger_ok v -> ledger_step v m v' -> extends v v'.
Proof.
  intros Hok [].
  - apply extends_refl.
  - split; simpl; [intros ?; rewrite elem_of_app; auto|].
    intros l Hl. exists l. rewrite elem_of_app. eauto using same_lot_refl.
  - split; simpl; [intros ?; rewrite elem_of_app; auto|]. intros l Hl.
    destruct (decide (Lot_ID l = Lot_ID new)) as [E|E].
    + exists new. split; [by apply (elem_of_replaced _ _ l)|].
      replace l with old; [done|].
      apply (NoDup_map_inj Lot_ID (v_lots v)); auto; [apply Hok|].
      rewrite E. symmetry. by match goal with H : same_lot _ _ |- _ => apply H end.
    + exists l. split; [|apply same_lot_refl]. unfold replace_lot.
      apply list_elem_of_In, in_map_iff. exists l.
      rewrite (proj2 (Z.eqb_neq _ _) E). split; [done|]. by apply list_elem_of_In.
Qed.

Inductive asset_later (w : World) : World -> Prop :=
| later_now : asset_later w w
| later_env w1 w2 : asset_later w w1 -> asset_view w2 = asset_view w1 -> asset_later w w2
| later_op w1 ctx op r w2 :
    asset_later w w1 -> op_ok op -> transaction (asset_op ctx op) w1 = (r, w2) ->
    asset_later w w2.

Lemma later_extends w w' : asset_later w w' -> ledger_ok (asset_view w) ->
  ledger_ok (asset_view w') /\ extends (asset_view w) (asset_view w').
Proof.
  intros Hl Hok. induction Hl as [|w1 w2 _ [IH1 IH2] Hv|w1 ctx op r w2 _ [IH1 IH2] Hop H].
  - auto using extends_refl.
  - by rewrite Hv.
  - destruct r as [m|e].
    + apply transaction_ok in H as (w3 & w4 & H1 & H2 & H3).
      apply view_of_db in H1, H3. rewrite <- H1 in IH1. rewrite H3.
      apply asset_op_step in H2 as [H2 _]; auto. split; [by apply ledger_step_ok in H2|].
      rewrite <- H1 in IH2. eauto using extends_trans, step_extends.
    + apply transaction_err, view_of_db in H. by rewrite H.
Qed.

(** A replay of an entry the ledger holds. *)
Lemma replay_run w t lot :
  no_faults w -> ledger_ok (asset_view w) -> t ∈ db_transactions (w_db w) ->
  lot ∈ db_lots (w_db w) -> Lot_ID lot = Tx_LotID t ->
  replayAssetMutation (ledger_repository NewTransactionAssetRepository) (Tx_ActionKey t)
    (Tx_LotID t) (Tx_TransactionType t) (Tx_BizType t) (Tx_BizID t) (Tx_QuantityDelta t) w =
  (Ok (Some {| Mutation_Lot := lot; Mutation_Transactions := [t]; Mutation_Replayed := true |}),
   bump (bump w)).
Proof.
  intros Hn Hok Ht Hl Hid. unfold replayAssetMutation.
  rewrite (bind_ok _ _ _ (Ok t) (bump w))
    by (unfold attempt; simpl; rewrite find_entry_run; [done|done|apply Hok|done]).
  rewrite !Z.eqb_refl, !String.eqb_refl, andb_false_r. simpl. unfold bind, ret. simpl.
  rewrite <- Hid, lock_lot_run; [done|done|apply Hok|done].
Qed.

Lemma debit_valid ctx command markUsed w m w' :
  debit asset_service ctx asset_ledger_repository command markUsed w = (Ok m, w') ->
  validateAssetCommand command = Ok tt.
Proof. unfold debit. intros H. run_step H. destruct a as [[ids now_] repo]. by run_step H. Qed.

(** A freeze or redemption that ran once is safe to repeat: at any later
    time, whatever other operations ran in between, the same command succeeds,
    changes nothing and returns the very entry of the first run. *)
Theorem debit_replays ctx ctx' command markUsed w m w1 w2 :
  debit asset_service ctx asset_ledger_repository command markUsed w = (Ok m, w1) ->
  Mutation_Replayed m = false -> quantity_ok command -> ledger_ok (asset_view w) ->
  asset_later w1 w2 -> no_faults w2 ->
  exists m' w3,
    debit asset_service ctx' asset_ledger_repository command markUsed w2 = (Ok m', w3) /\
    w_db w3 = w_db w2 /\ Mutation_Replayed m' = true /\
    Mutation_Transactions m' = Mutation_Transactions m.
Proof.
  intros H Hfresh Hq Hok Hlater Hn. pose proof (debit_valid _ _ _ _ _ _ H) as Hval.
  destruct (debit_ok asset_view asset_frame NewTransactionAssetRepository next_id time_now
              _ _ _ _ _ _ H Hq Hok) as [_ [[_ Hr]|(lot & t & Hd)]]; [by destruct Hr; congruence|].
  destruct (later_extends _ _ Hlater) as [Hok2 [Hled Hlots]].
  { apply debit_step in Hd; [|done]. by apply ledger_step_ok in Hd. }
  pose proof (lot_row_values _ (in_ledger_row _ _ Hok (debit_lot _ _ _ _ _ _ _ Hd))) as Hrow.
  destruct Hd. destruct debit_entry. subst m. rewrite debit_view in *. simpl in *.
  assert (Ht : t ∈ db_transactions (w_db w2)).
  { apply Hled, elem_of_app. right. by apply list_elem_of_singleton. }
  destruct (Hlots (debited lot (Cmd_Quantity command) markUsed (Tx_CreatedAt t)))
    as (lot2 & Hl2 & Hsame).
  { by apply (elem_of_replaced _ _ lot). }
  assert (Hid : Lot_ID lot2 = Tx_LotID t) by (rewrite entry_lot; apply Hsame).
  assert (Ho : Lot_OwnerCustomerID lot2 = Lot_OwnerCustomerID lot) by apply Hsame.
  pose proof (replay_run w2 t lot2 Hn Hok2 Ht Hl2 Hid) as Hrun.
  rewrite entry_key, entry_lot, debit_lot_id, entry_type, (proj1 entry_biz), (proj2 entry_biz),
    entry_delta in Hrun.
  unfold debit. erewrite (bind_ok (lift _)) by reflexivity. cbv beta iota.
  rewrite Hval. erewrite (bind_ok (lift _)) by reflexivity. cbv zeta. rewrite i64_small, int_neg_small by int_range.
  rewrite (bind_ok _ _ _ _ _ Hrun). unfold first_transaction. simpl.
  rewrite entry_owner, Ho, debit_owner, !Z.eqb_refl, entry_before, entry_after.
  rewrite uint_sub_small by int_range.
  replace (Lot_AvailableQuantity lot - (Lot_AvailableQuantity lot - Cmd_Quantity command))
    with (Cmd_Quantity command) by lia.
  rewrite Z.eqb_refl. replace (_ <? _) with false by lia. simpl.
  eexists _, _. split; [reflexivity|]. done.
Qed.

Definition restored_world : World := (transaction (asset_op Background (OpRestore sample_restore)) frozen_world).2.

Lemma debit_replays_witness : exists m,
  (debit asset_service Background asset_ledger_repository sample_freeze true sample_world).1 =
    Ok m /\
  exists m' w3,
    debit asset_service Background asset_ledger_repository sample_freeze true restored_world =
      (Ok m', w3) /\ w_db w3 = w_db restored_world /\ Mutation_Replayed m' = true /\
    Mutation_Transactions m' = Mutation_Transactions m.
Proof.
  eexists. split; [vm_compute; reflexivity|].
  eapply (debit_replays Background Background sample_freeze true sample_world
            _ frozen_world restored_world).
  - apply run_ok. vm_compute; reflexivity.
  - reflexivity.
  - done.
  - by apply ledger_check_ok.
  - eapply (later_op _ _ Background (OpRestore sample_restore));
      [apply later_now | done | apply surjective_pairing].
  - done.
Defined.

(** ** What a debit decides *)

(** The decision the code takes on the rows it reads, for an action key the
    ledger does not hold; [now] is the time of the change. *)
Definition debit_verdict (v : AssetView) (command : AssetCommand) (now : time) : option error :=
  match validateAssetCommand command with
  | Err e => Some e
  | Ok _ =>
      match find (fun l => Lot_ID l =? Cmd_LotID command) (v_lots v) with
      | None => Some lotNotFound
      | Some lot =>
          if negb (Lot_OwnerCustomerID lot =? Cmd_OwnerCustomerID command) then Some lotNotFound
          else if negb (String.eqb (Lot_Status lot) LotStatusActive) ||
                  negb (now <? Lot_ExpiresAt lot) ||
                  (Lot_AvailableQuantity lot <? Cmd_Quantity command)
               then Some (Conflict "WT_INSUFFICIENT_AVAILABLE_QUANTITY"
                            "wine ticket available quantity is insufficient")
               else None
      end
  end.

(** The next identifier of the world, and that no entry carries it. *)
Definition fresh_entry_id (w : World) : Prop :=
  let id := match (next_id w).1 with Ok id => id | Err _ => 0 end in
  forall t, t ∈ db_transactions (w_db w) ->
    Tx_ID t <> id /\ Tx_TransactionNo t <> "WTT" +:+ IDString id.

Lemma next_id_depends w w' :
  w_clock w' = w_clock w -> w_ticks w' = w_ticks w -> w_gen w' = w_gen w ->
  (next_id w').1 = (next_id w).1.
Proof.
  intros H1 H2 H3. unfold next_id. rewrite H1, H2, H3. by destruct (Snowflake.Next _ _).
Qed.

Lemma replay_none_run w key lotID ty bt bi d :
  no_faults w -> (forall t, t ∈ db_transactions (w_db w) -> Tx_ActionKey t <> key) ->
  replayAssetMutation (ledger_repository NewTransactionAssetRepository) key lotID ty bt bi d w =
  (Ok None, bump w).
Proof.
  intros Hn Hno. unfold replayAssetMutation.
  rewrite (bind_ok _ _ _ (Err EAssetRecordNotFound) (bump w)); [done|].
  unfold attempt. simpl. by rewrite find_no_entry_run.
Qed.

(** A guarded update of a row that is there. *)
Lemma update_lot_run w lot c :
  no_faults w -> NoDup (map Lot_ID (db_lots (w_db w))) -> lot ∈ db_lots (w_db w) ->
  no_conflict row_conflict (db_lots (w_db w)) = true ->
  lot_row_check (apply_change c lot) = true ->
  asset_UpdateLot (Lot_ID lot) (Lot_Version lot) c w =
  (Ok true, with_db (bump w) (set_rows (update_lots (Lot_ID lot) (Lot_Version lot) c
                                          (db_lots (w_db w))) (w_db w))).
Proof.
  intros Hn Hnd Hin Hnc Hchk.
  assert (Hv : is_version (Lot_ID lot) (Lot_Version lot) lot = true)
    by (unfold is_version; lia).
  assert (Hhit : List.filter (is_version (Lot_ID lot) (Lot_Version lot)) (db_lots (w_db w)) = [lot]).
  { clear Hnc Hchk Hn. revert Hin Hnd. generalize (db_lots (w_db w)).
    induction l as [|x l IH]; [by intros ?%not_elem_of_nil|]. simpl.
    intros Hin [Hx Hnd]%NoDup_cons. apply elem_of_cons in Hin as [<-|Hin].
    - rewrite Hv. f_equal. apply filter_none, Forall_forall. intros y Hy.
      unfold is_version. apply andb_false_iff. left. apply Z.eqb_neq. intros E.
      apply Hx. rewrite <- E. by apply list_elem_of_In, in_map, list_elem_of_In.
    - replace (is_version _ _ x) with false; [auto|]. symmetry. unfold is_version.
      apply andb_false_iff. left. apply Z.eqb_neq. intros E. apply Hx. rewrite E.
      by apply list_elem_of_In, in_map, list_elem_of_In. }
  unfold asset_UpdateLot, update_rows, bind. rewrite exec_run by done. simpl rows.
  cbv zeta. rewrite Hhit. simpl forallb. rewrite Hchk. simpl.
  match goal with |- context [no_conflict ?k (map ?f _)] => rewrite (no_conflict_map k f) end;
    [done| |done].
  intros x y. by destruct (is_version _ _ x), (is_version _ _ y).
Qed.

(** An entry with a fresh identifier and key is written. *)
Lemma record_run w ctx lot ty d b a bt bi k md now :
  no_faults w -> fresh_entry_id w ->
  (forall t, t ∈ db_transactions (w_db w) -> Tx_ActionKey t <> k) ->
  (forall t, entry_of lot ty d b a bt bi k md now t -> transaction_row_check t = true) ->
  exists t w1 w2,
    newTransaction next_id ctx lot ty d b a bt bi k md now w = (Ok t, w1) /\
    asset_CreateTransaction t w1 = (Ok tt, w2) /\ no_faults w2.
Proof.
  intros Hn Hfresh Hk Hchk. unfold newTransaction, fresh_entry_id in *.
  destruct (next_id w) as [[id|e] w1] eqn:E.
  2: { unfold next_id in E. by destruct (Snowflake.Next _ _). }
  assert (Hdb : w_db w1 = w_db w) by (by apply next_id_db in E).
  assert (Hn1 : no_faults w1).
  { unfold next_id in E. destruct (Snowflake.Next _ _). by simplify_eq. }
  rewrite (bind_ok _ _ _ _ _ E). unfold ret. eexists _, w1, _.
  split; [reflexivity|]. unfold asset_CreateTransaction.
  split; [apply create_row_run; [done| |] | done].
  - apply Hchk. by constructor.
  - intros t Ht. simpl in Ht. rewrite Hdb in Ht.
    destruct (Hfresh t Ht) as [H1 H2]. specialize (Hk t Ht).
    cbn [row_conflict transactions_table Tx_ID Tx_TransactionNo Tx_ActionKey].
    rewrite !orb_false_iff, Z.eqb_neq, !String.eqb_neq. auto using not_eq_sym.
Qed.

Lemma lock_found_run w lot :
  no_faults w -> NoDup (map Lot_ID (db_lots (w_db w))) -> lot ∈ db_lots (w_db w) ->
  lockLotOrNotFound (ledger_repository NewTransactionAssetRepository) (Lot_ID lot) w =
  (Ok lot, bump w).
Proof.
  intros Hn Hnd Hin. unfold lockLotOrNotFound, bind, attempt. simpl.
  by rewrite lock_lot_run.
Qed.

Lemma lock_missing_run w id :
  no_faults w -> (forall l, l ∈ db_lots (w_db w) -> Lot_ID l <> id) ->
  lockLotOrNotFound (ledger_repository NewTransactionAssetRepository) id w =
  (Err lotNotFound, bump w).
Proof.
  intros Hn Hno. unfold lockLotOrNotFound, bind, attempt. simpl. by rewrite lock_no_lot_run.
Qed.



(** ** A ledger in agreement that the auditor reports

    A freeze that runs on a machine whose clock is behind the one that issued
    the lot leaves a correct ledger whose timestamps are out of order; the
    auditor, which replays it in the order of the timestamps, reports the lot
    as a P1 discrepancy. *)

Definition skewed_world : World :=
  let w0 := sample_world_on empty_database in
  let issue := {|
    Issue_Lot := sample_issued 103; Issue_TransactionType := TransactionTypeGiftClaim;
    Issue_BizType := "gift"; Issue_BizID := 55; Issue_ActionKey := "gift_claim:55:103";
    Issue_Metadata := JNull; Issue_OccurredAt := sample_now + 5 * second |} in
  let w1 := (transaction (asset_op Background (OpIssue issue)) w0).2 in
  let freeze := {|
    Cmd_LotID := 103; Cmd_OwnerCustomerID := 8; Cmd_Quantity := 1; Cmd_MarkUsed := true;
    Cmd_TransactionType := TransactionTypeRedemptionHold;
    Cmd_BizType := "wine_ticket_redemption"; Cmd_BizID := 70;
    Cmd_ActionKey := "redemption_hold:70:103"; Cmd_Metadata := JNull;
    Cmd_OccurredAt := sample_now + 4 * second; Cmd_ExpiryEvidence := None |} in
  (transaction (asset_op Background (OpFreeze freeze)) w1).2.

