(* ===== verification/AssetKeeps.v ===== *)
(** * What an asset operation leaves alone

    An asset operation writes lots and their ledger only, and of a lot the
    balance, the status and the version.  [Section Asset] shows it for any
    preorder on databases that allows those writes ([AssetWrites]); [spare] is
    the one that matters to the purchases: their tables stay, and no lot of a
    purchase is new. *)

From S2P Require Import Prelude GoInt GoString GoTime Json Problem RequestCtx.
From S2P Require Import CoreModel AssetService GiftModel PurchaseModel AssetLaws AssetLedger.
From S2P Require Import Database Steps AssetRepository IntegrityScan AssetTheorems.
From Stdlib Require Import String.
#[local] Open Scope string_scope. #[local] Open Scope list_scope. #[local] Open Scope Z_scope.
#[local] Open Scope go_scope.

(** [R] allows any rows in the table of [Row]. *)
Class Clear (R : Database -> Database -> Prop) (Row : Type) `{Table Row} : Prop :=
  clear l db : R db (set_rows l db).

Section Clear.
Context (R : Database -> Database -> Prop) `{!PreOrder R} {Row : Type} `{!Table Row} `{!Clear R Row}.

Lemma clear_create (r : Row) : steps_any R (create_row r).
Proof. apply steps_any_create; [exact _|]. intros. apply clear. Qed.

Lemma clear_create_or_ignore (r : Row) : steps_any R (create_or_ignore r).
Proof. apply steps_any_create_or_ignore; [exact _|]. intros. apply clear. Qed.

Lemma clear_create_rows (l : list Row) : steps_any R (create_rows l).
Proof. apply steps_any_create_rows; [exact _|]. intros. apply clear. Qed.

Lemma clear_update (p : Row -> bool) (f : Row -> Row) : steps_any R (update_rows p f).
Proof. apply steps_any_update; [exact _|]. intros. apply clear. Qed.

End Clear.

#[export] Hint Extern 1 (Clear _ _) => exact _ : steps.
#[export] Hint Resolve clear_create clear_create_or_ignore clear_create_rows clear_update : steps.

(** [R] allows what an asset operation writes: a change of a lot that is there,
    an entry, and a new lot of the kind [P]. *)
Class AssetWrites (R : Database -> Database -> Prop) (P : Lot -> Prop) : Prop := {
  writes_change (p : Lot -> bool) (c : LotAssetChange) db : R db (set_rows (R:=Lot)
    (map (fun l => if p l then apply_change c l else l) (db_lots db)) db);
  writes_entry l db : R db (set_rows (R:=Transaction) l db);
  writes_lot lot db : P lot -> R db (set_rows (R:=Lot) (db_lots db ++ [lot]) db);
}.

Section Asset.
Context (R : Database -> Database -> Prop) `{!PreOrder R} (P : Lot -> Prop) `{!AssetWrites R P}.

Lemma asset_query_reads {A} (m : G A) : steps_any R m -> steps_any R (asset_query m).
Proof.
  intros Hm w r w' H. unfold asset_query, bind, attempt in H.
  destruct (m w) as [[a|e] w1] eqn:E; apply Hm in E; unfold ret, throw in H; by simplify_eq.
Qed.

Lemma transaction_by_key_keeps key :
  steps_any R (TransactionByActionKey NewTransactionAssetRepository key).
Proof. apply asset_query_reads. auto with steps. Qed.

Lemma lock_lot_keeps id : steps_any R (LockLot NewTransactionAssetRepository id).
Proof. apply asset_query_reads. auto with steps. Qed.

Lemma create_lot_keeps lot : P lot -> steps_any R (CreateLot NewTransactionAssetRepository lot).
Proof. intros Hp. apply steps_any_create; [exact _|]. intros. by apply writes_lot. Qed.

Lemma update_lot_keeps id v c : steps_any R (UpdateLot NewTransactionAssetRepository id v c).
Proof.
  apply steps_any_bind; [exact _| |auto with steps].
  apply steps_any_update; [exact _|]. intros. apply writes_change.
Qed.

Lemma create_transaction_keeps t :
  steps_any R (CreateTransaction NewTransactionAssetRepository t).
Proof. apply steps_any_create; [exact _|]. intros. apply writes_entry. Qed.

#[local] Hint Resolve transaction_by_key_keeps lock_lot_keeps update_lot_keeps
  create_transaction_keeps : steps.

Lemma replay_mutation_keeps key lotID ty biz id delta :
  steps R (replayAssetMutation NewTransactionAssetRepository key lotID ty biz id delta).
Proof. unfold replayAssetMutation. go_steps. Qed.

Lemma lock_lot_or_keeps id : steps R (lockLotOrNotFound NewTransactionAssetRepository id).
Proof. unfold lockLotOrNotFound. go_steps. Qed.

Lemma new_transaction_keeps ctx lot ty d b a biz id key meta now :
  steps R (newTransaction next_id ctx lot ty d b a biz id key meta now).
Proof. unfold newTransaction. go_steps. Qed.

Lemma occurred_keeps v : steps R (occurredAt time_now v).
Proof. unfold occurredAt. go_steps. Qed.

#[local] Hint Resolve replay_mutation_keeps lock_lot_or_keeps new_transaction_keeps
  occurred_keeps : steps.

(** The service is configured, so [ready] gives the repository. *)
Lemma ready_steps {Repo A} (repo : Repo) (k : M World error Z * M World error time * Repo -> G A) :
  steps R (k (next_id, time_now, repo)) ->
  steps R (bind (lift (ready (NewAssetService time_now next_id) (Some repo))) k).
Proof. intros Hk w a w' H. exact (Hk w a w' H). Qed.

Lemma debit_keeps ctx command used :
  steps R (debit (NewAssetService time_now next_id) ctx
    (Some (ledger_repository NewTransactionAssetRepository)) command used).
Proof. unfold debit. apply ready_steps. go_steps; unfold first_transaction; go_steps. Qed.

Lemma issue_keeps ctx command :
  (forall id now, P (issued_lot (Issue_Lot command) id now)) ->
  steps R (Issue (NewAssetService time_now next_id) ctx
    (Some NewTransactionAssetRepository) command).
Proof.
  intros Hp. unfold Issue, replayIssueAssetMutation. apply ready_steps.
  go_steps; unfold first_transaction; go_steps.
  all: try (apply steps_any_steps, create_lot_keeps, Hp).
Qed.

Lemma transfer_keeps ctx command :
  (forall lot, Lot_SourceType lot = LotSourceGift -> P lot) ->
  steps R (Transfer (NewAssetService time_now next_id) ctx
    (Some NewTransactionAssetRepository) command).
Proof.
  intros Hp w m w' H. unfold Transfer in H. cbv zeta in H.
  apply bind_ok_inv in H as (u & w1 & Hc & H). apply fail_if_ok_inv in Hc as [Hc ->].
  refine (issue_keeps _ _ _ _ _ _ H). intros id now. apply Hp. cbn.
  apply orb_false_iff in Hc as [Hc _]. apply orb_false_iff in Hc as [Hc _].
  by apply negb_false_iff, String.eqb_eq in Hc.
Qed.

Lemma restore_keeps ctx command :
  steps R (Restore (NewAssetService time_now next_id) ctx
    (Some (ledger_repository NewTransactionAssetRepository)) command).
Proof.
  unfold Restore, restoreExpiry. apply ready_steps.
  go_steps; unfold validateRestoreReplay, first_transaction; go_steps.
Qed.

Lemma expire_keeps ctx command :
  steps R (Expire (NewAssetService time_now next_id) ctx
    (Some (ledger_repository NewTransactionAssetRepository)) command).
Proof. unfold Expire, replayExpire. apply ready_steps. go_steps. Qed.
End Asset.

(** What does not look at lots and ledger is kept. *)
Lemma keep_asset_writes {X} (f : Database -> X) :
  (forall db, f db = f (blank_assets db)) -> AssetWrites (keep f) (fun _ => True).
Proof. intros Hf. split; intros; unfold keep; by rewrite Hf, (Hf db). Qed.

(** ** The tables of purchases and their lots *)

Record spare (db db' : Database) : Prop := {
  spare_sales : db_sales db' = db_sales db;
  spare_lots : forall l', l' ∈ db_lots db' -> Lot_SourceType l' = LotSourcePurchase ->
    exists l, l ∈ db_lots db /\ same_lot l l';
}.

#[export] Instance spare_preorder : PreOrder spare.
Proof.
  split.
  - intros db. split; [done|]. intros l Hl _. exists l. split; [done|apply same_lot_refl].
  - intros a b c [S1 L1] [S2 L2]. split; [congruence|]. intros l'' Hl Hs.
    destruct (L2 _ Hl Hs) as (l' & Hl' & E'). destruct (L1 l' Hl') as (l & H & E).
    { destruct E' as (_ & _ & _ & _ & Es & _). congruence. }
    exists l. split; [done|by eapply same_lot_trans].
Qed.

Lemma spare_same db db' : db_sales db' = db_sales db -> db_lots db' = db_lots db -> spare db db'.
Proof.
  intros Es El. split; [done|]. intros l Hl _. exists l. rewrite <- El.
  split; [done|apply same_lot_refl].
Qed.

#[export] Instance spare_asset_writes :
  AssetWrites spare (fun l => Lot_SourceType l <> LotSourcePurchase).
Proof.
  split.
  - intros p c db. split; [done|]. intros l' Hl _. simpl in Hl.
    apply list_elem_of_fmap in Hl as (l & -> & Hl). exists l. split; [done|].
    destruct (p l); [apply same_lot_change|apply same_lot_refl].
  - intros l db. by apply spare_same.
  - intros lot db Hp. split; [done|]. intros l' Hl Hs. simpl in Hl.
    apply elem_of_app in Hl as [Hl|Hl]; [exists l'; split; [done|apply same_lot_refl]|].
    apply list_elem_of_singleton in Hl as ->. done.
Qed.

(** Every asset operation but the issue of a purchase spares the purchases. *)
Definition op_spares (op : AssetOp) : Prop :=
  match op with OpIssue _ => False | _ => True end.

Lemma asset_op_spare ctx op : op_spares op -> steps spare (asset_op ctx op).
Proof.
  destruct op; intros Hop; simpl in *; [done|..].
  - eapply transfer_keeps; [exact _..|]. cbv beta. intros lot E. by rewrite E.
  - eapply debit_keeps; exact _.
  - eapply debit_keeps; exact _.
  - eapply restore_keeps; exact _.
  - eapply expire_keeps; exact _.
Qed.
