(* ===== verification/LedgerEntries.v ===== *)
(** * What the asset operations leave in the ledger

    A module that takes bottles out of a lot or puts them back names the
    change by its own business type, identifier and action key.  Whether the
    operation changed the lot or replayed, the entry is in the ledger
    afterwards, and what is in the ledger stays there. *)

From S2P Require Import Prelude GoInt GoString GoTime Json Problem RequestCtx.
From S2P Require Import CoreModel AssetService AssetLaws AssetLedger Database.
From S2P Require Import AssetRepository Samples AssetTheorems.
From Stdlib Require Import String.
#[local] Open Scope string_scope. #[local] Open Scope list_scope. #[local] Open Scope Z_scope.
#[local] Open Scope go_scope.

Definition view_db (db : Database) : AssetView :=
  {| v_lots := db_lots db; v_ledger := db_transactions db |}.

(** An entry of the transaction type [ty] and the key [key] that changed the
    lot by [delta] for the business record. *)
Definition ledger_entry (v : AssetView) (bizType ty key : string) (bizID lotID delta : Z) : Prop :=
  exists t, t ∈ v_ledger v /\ Tx_ActionKey t = key /\ Tx_TransactionType t = ty /\
    Tx_BizType t = bizType /\ Tx_BizID t = bizID /\ Tx_LotID t = lotID /\
    Tx_QuantityDelta t = delta.

Lemma ledger_entry_extends v v' bt ty key id l d :
  extends v v' -> ledger_entry v bt ty key id l d -> ledger_entry v' bt ty key id l d.
Proof. intros [He _] (t & Ht & H). exists t. auto. Qed.

Lemma debit_entry_written ctx c markUsed w m w' :
  debit asset_service ctx asset_ledger_repository c markUsed w = (Ok m, w') ->
  0 <= Cmd_Quantity c < 2 ^ 32 -> ledger_ok (view_db (w_db w)) ->
  ledger_entry (view_db (w_db w')) (Cmd_BizType c) (Cmd_TransactionType c) (Cmd_ActionKey c)
    (Cmd_BizID c) (Cmd_LotID c) (- Cmd_Quantity c).
Proof.
  intros H Hq Hok. pose proof H as Hv. apply debit_valid, validateAssetCommand_ok in Hv as (Hid & _ & _).
  change (view_db (w_db w')) with (asset_view w').
  destruct (debit_ok asset_view asset_frame NewTransactionAssetRepository next_id time_now
              _ _ _ _ _ _ H (proj1 Hq) Hok) as [_ [[Hw Hr]|(lot & t & [])]].
  - rewrite Hw. destruct Hr as [_ _ Hrid (t & _ & Ht & Hk & Hl & Hty & Hbt & Hbi & Hd)].
    rewrite i64_small, int_neg_small in Hd by int_range. rewrite Hrid in Hl by done.
    exists t. auto 10.
  - rewrite debit_view. exists t. destruct debit_entry.
    simpl. rewrite elem_of_app, entry_lot, debit_lot_id, list_elem_of_singleton.
    intuition auto.
Qed.

Lemma Restore_entry_written ctx c w m w' :
  Restore asset_service ctx asset_ledger_repository c w = (Ok m, w') ->
  0 <= Cmd_Quantity c < 2 ^ 32 -> ledger_ok (view_db (w_db w)) ->
  ledger_entry (view_db (w_db w')) (Cmd_BizType c) (Cmd_TransactionType c) (Cmd_ActionKey c)
    (Cmd_BizID c) (Cmd_LotID c) (Cmd_Quantity c).
Proof.
  intros H Hq Hok.
  assert (Hid : Cmd_LotID c <> 0).
  { pose proof H as Hv. unfold Restore in Hv. run_step Hv. destruct a as [[ids now'] repo].
    run_step Hv. by apply validateAssetCommand_ok in E0 as (? & _ & _). }
  change (view_db (w_db w')) with (asset_view w').
  destruct (Restore_ok asset_view asset_frame NewTransactionAssetRepository next_id time_now
              _ _ _ _ _ H (proj1 Hq) Hok) as [_ [(Hw & _ & first & Hr)|(lot & t & e & [])]].
  - rewrite Hw. destruct Hr as [_ _ Hrid (t & _ & Ht & Hk & Hl & Hty & Hbt & Hbi & Hd)].
    rewrite i64_small in Hd by int_range. rewrite Hrid in Hl by done. exists t. auto 10.
  - rewrite restore_view. exists t.
    destruct restore_entry. simpl. rewrite elem_of_app, entry_lot, restore_lot_id.
    assert (t ∈ Mutation_Transactions m).
    { destruct e; destruct restore_outcome as (_ & -> & _); by left. }
    intuition auto.
Qed.

(** A restore whose entry is in the ledger already changes nothing. *)
Lemma Restore_repeated ctx c w m w' t :
  Restore asset_service ctx asset_ledger_repository c w = (Ok m, w') ->
  0 <= Cmd_Quantity c < 2 ^ 32 -> ledger_ok (view_db (w_db w)) ->
  t ∈ v_ledger (view_db (w_db w)) -> Tx_ActionKey t = Cmd_ActionKey c ->
  view_db (w_db w') = view_db (w_db w).
Proof.
  intros H Hq Hok Ht Hk. change (view_db (w_db w')) with (asset_view w').
  destruct (Restore_ok asset_view asset_frame NewTransactionAssetRepository next_id time_now
              _ _ _ _ _ H (proj1 Hq) Hok) as [_ [(Hw & _)|(lot & t' & e & D)]]; [done|exfalso].
  pose proof (restore_keys _ _ _ _ _ _ _ D) as Hnd.
  assert (Hin : t' ∈ Mutation_Transactions m).
  { pose proof (restore_outcome _ _ _ _ _ _ _ D) as Ho. destruct e; destruct Ho as (_ & -> & _); by left. }
  pose proof (entry_key _ _ _ _ _ _ _ _ _ _ _ (restore_entry _ _ _ _ _ _ _ D)) as Hk'.
  rewrite map_app in Hnd. apply NoDup_app in Hnd as (_ & Hno & _). apply (Hno (Tx_ActionKey t)).
  - by apply list_elem_of_In, in_map, list_elem_of_In.
  - rewrite Hk, <- Hk'. by apply list_elem_of_In, in_map, list_elem_of_In.
Qed.

(** An asset operation keeps the ledger in agreement, only adds to it, and
    leaves everything else alone. *)
Lemma asset_op_effect ctx op w m w' :
  asset_op ctx op w = (Ok m, w') -> op_ok op -> ledger_ok (view_db (w_db w)) ->
  ledger_ok (view_db (w_db w')) /\ extends (view_db (w_db w)) (view_db (w_db w')) /\
  forall X (f : Database -> X), (forall db, f db = f (blank_assets db)) -> f (w_db w') = f (w_db w).
Proof.
  intros H Hop Hok. destruct (asset_op_step _ _ _ _ _ H Hop Hok) as [Hs Hf].
  split; [by apply ledger_step_ok in Hs|]. split; [by apply step_extends in Hs|].
  intros X f Hfr. unfold asset_frame in Hf. rewrite (Hfr (w_db w')), (Hfr (w_db w)). congruence.
Qed.
