(* ===== verification/ExpiryWorker.v ===== *)
(** * The lot expiry worker: [wineticket/core/expiry_worker.go], [expiry_repository.go]

    One run locks a bounded batch of lots that are past their expiry, skips
    the lots another business still guards and empties the rest through
    [Expire], in one database transaction.  The lots another transaction holds
    ([SKIP LOCKED]) are not modelled: a transaction runs alone here. *)

From S2P Require Import Prelude GoInt GoString GoTime Json Problem RequestCtx.
From S2P Require Import CoreModel AssetService GiftModel AssetLaws AssetLedger.
From S2P Require Import Database AssetRepository Samples AssetTheorems.
From Stdlib Require Import String.
#[local] Open Scope string_scope. #[local] Open Scope list_scope. #[local] Open Scope Z_scope.
#[local] Open Scope go_scope.

Definition activeExpiryGuardRenewalStatuses : list string :=
  ["pending_payment"; "payment_unknown"; "applying"; "compensating_refund"; "refund_exception"].

(** An open renewal or a held refund guards a lot. *)
Definition renewal_guards (lotID : Z) (r : RenewalGuard) : bool :=
  (RG_LotID r =? lotID) &&
  existsb (String.eqb (RG_Status r)) activeExpiryGuardRenewalStatuses.

Definition refund_guards (lotID : Z) (a : RefundAllocation) : bool :=
  (FA_LotID a =? lotID) && String.eqb (FA_Status a) "held".

(** The [WHERE] of [dueLotsQuery]. *)
Definition due_lot (db : Database) (now : time) (lot : Lot) : bool :=
  String.eqb (Lot_Status lot) LotStatusActive && (Lot_ExpiresAt lot <=? now) &&
  negb (existsb (renewal_guards (Lot_ID lot)) (db_renewals db)) &&
  negb (existsb (refund_guards (Lot_ID lot)) (db_refund_allocations db)).

Definition due_batch (db : Database) (now : time) (batch : nat) : list Lot :=
  take batch (sort_by (by_keys [Lot_ExpiresAt; Lot_ID])
                (List.filter (due_lot db now) (db_lots db))).

(** [dueLots] *)
Definition dueLots (now : time) (batch : nat) : G (list Lot) :=
  exec (fun db => Ok (due_batch db now batch, db)).

(** [expiryGuarded] *)
Definition expiryGuarded (lotID : Z) : G bool :=
  renewalCount <- count_rows (renewal_guards lotID) ;;
  if 0 <? renewalCount then ret true
  else
    refundCount <- count_rows (refund_guards lotID) ;;
    ret (0 <? refundCount).

Record ExpiryWorker := {
  worker_assets : AssetService World;
  worker_now : G time;
  worker_batch : nat;
}.

Definition NewExpiryWorker : ExpiryWorker :=
  {| worker_assets := NewAssetService time_now next_id; worker_now := time_now;
     worker_batch := 100 |}.

Definition WithNow (w : ExpiryWorker) (now : option (G time)) : ExpiryWorker :=
  match now with
  | Some n => {| worker_assets := worker_assets w; worker_now := n;
                 worker_batch := worker_batch w |}
  | None => w
  end.

Definition WithBatchSize (w : ExpiryWorker) (batch : Z) : ExpiryWorker :=
  if (0 <? batch) && (batch <=? 1000)
  then {| worker_assets := worker_assets w; worker_now := worker_now w;
          worker_batch := Z.to_nat batch |}
  else w.

Definition expiry_command (lot : Lot) (now : time) (actionKey : string) : ExpireCommand := {|
  Expire_LotID := Lot_ID lot;
  Expire_OwnerCustomerID := Lot_OwnerCustomerID lot;
  Expire_TransactionType := TransactionTypeExpiry;
  Expire_BizType := "wine_ticket_expiry";
  Expire_BizID := Lot_ID lot;
  Expire_ActionKey := actionKey;
  Expire_Metadata := JMap [("reason", JStr "lot_expired");
                           ("expires_at", JStr (FormatShanghai (Lot_ExpiresAt lot)))];
  Expire_OccurredAt := now |}.

(** [expireAvailable]: whether it wrote an entry, and the lot as it is now. *)
Definition expireAvailable (w : ExpiryWorker) (ctx : Context) (lot : Lot) (now : time)
    (actionKey : string) : G (bool * Lot) :=
  result <- Expire (worker_assets w) ctx
              (Some (ledger_repository NewTransactionAssetRepository))
              (expiry_command lot now actionKey) ;;
  ret (negb (bool_decide (Mutation_Transactions result = [])) && negb (Mutation_Replayed result),
       Mutation_Lot result).

Definition expiry_action_key (lot : Lot) : string :=
  "expiry:" +:+ format_uint (Lot_ID lot) +:+ ":" +:+ format_int (unix_milli (Lot_ExpiresAt lot)).

(** The loop over the batch, with its counter. *)
Fixpoint expire_lots (w : ExpiryWorker) (ctx : Context) (now : time) (lots : list Lot)
    (expired : Z) : G Z :=
  match lots with
  | [] => ret expired
  | lot :: rest =>
      blocked <- expiryGuarded (Lot_ID lot) ;;
      if blocked then expire_lots w ctx now rest expired
      else
        out <- expireAvailable w ctx lot now (expiry_action_key lot) ;;
        expire_lots w ctx now rest
          (if out.1 || String.eqb (Lot_Status out.2) LotStatusExpired
           then expired + 1 else expired)
  end.

(** [ExpireLotsOnce] *)
Definition ExpireLotsOnce (w : ExpiryWorker) (ctx : Context) : G Z :=
  reading <- worker_now w ;;
  let now := NowShanghai reading in
  transaction (
    lots <- dueLots now (worker_batch w) ;;
    expire_lots w ctx now lots 0).

(** ** Correctness of a run *)

Lemma existsb_elem {A} (f : A -> bool) l : existsb f l = true <-> exists x, x ∈ l /\ f x = true.
Proof.
  rewrite existsb_exists. split; intros (x & Hin & Hf); exists x;
    (split; [by apply list_elem_of_In | done]).
Qed.

Lemma expiryGuarded_ok lotID w b w' : expiryGuarded lotID w = (Ok b, w') ->
  w_db w' = w_db w /\
  b = existsb (renewal_guards lotID) (db_renewals (w_db w)) ||
      existsb (refund_guards lotID) (db_refund_allocations (w_db w)).
Proof.
  unfold expiryGuarded. intros H. run_step H. apply count_rows_ok in R as [Hdb Hc].
  rewrite <- existsb_elem in Hc. simpl in Hc. rewrite <- Z.ltb_lt in Hc.
  destruct (0 <? a) eqn:E.
  - run H. split; [done|]. by rewrite (proj1 Hc eq_refl).
  - run H. apply count_rows_ok in R as [Hdb1 Hc1].
    rewrite <- existsb_elem, <- Z.ltb_lt in Hc1. simpl in Hc1. rewrite Hdb in Hc1.
    split; [congruence|].
    destruct (existsb (renewal_guards lotID) _); [by destruct Hc as [_ Hc]; specialize (Hc eq_refl)|].
    simpl. apply Bool.eq_iff_eq_true. by rewrite Hc1.
Qed.

(** What the run has done to the lots of the batch and left of the others. *)
Record expired_so_far (db0 : Database) (done : list Lot) (w : World) : Prop := {
  esf_ledger : ledger_ok (asset_view w);
  esf_frame : asset_frame w = blank_assets db0;
  esf_done : forall l, l ∈ done -> exists l', l' ∈ db_lots (w_db w) /\ same_lot l l' /\
    Lot_Status l' = LotStatusExpired /\ Lot_AvailableQuantity l' = 0;
  esf_rest : forall l, l ∈ db_lots db0 -> l ∉ done -> l ∈ db_lots (w_db w);
}.

(** One lot of the batch. *)
Lemma expire_one wk ctx now db0 done lot key w out w' :
  worker_assets wk = asset_service ->
  expireAvailable wk ctx lot now key w = (Ok out, w') ->
  expired_so_far db0 done w -> NoDup (map Lot_ID (db_lots db0)) ->
  lot ∈ db_lots db0 -> lot ∉ done -> Lot_Status lot = LotStatusActive ->
  expired_so_far db0 (lot :: done) w' /\ Lot_Status out.2 = LotStatusExpired.
Proof.
  unfold expireAvailable. intros Hs H Hinv Hnd0 Hin Hnot Hact. run H. rewrite Hs in R.
  destruct Hinv as [Hok Hfr Hdone Hrest].
  destruct (Expire_ok asset_view asset_frame NewTransactionAssetRepository next_id time_now
              _ _ _ _ _ R Hok) as (Hf & (Hst & Hz & Hid) & Hcase).
  destruct (Expire_refines asset_view asset_frame NewTransactionAssetRepository next_id time_now
              _ _ _ _ _ R Hok) as [Hstep _].
  pose proof (Hrest _ Hin Hnot) as Hlot. simpl in Hid.
  destruct Hcase as [[Hv _]|[old Hd]].
  - apply ledger_step_lot in Hstep. rewrite Hv in Hstep.
    pose proof (NoDup_map_inj Lot_ID _ _ _ (ok_lot_ids _ Hok) Hstep Hlot Hid) as E.
    rewrite E, Hact in Hst. done.
  - destruct Hd. split; [|done].
    assert (old = lot) as -> by
      (apply (NoDup_map_inj Lot_ID _ _ _ (ok_lot_ids _ Hok) expire_lot Hlot expire_lot_id)).
    destruct expire_outcome as (now' & _ & Hm & _).
    injection expire_view as Hlots Hled.
    assert (Hnew : Mutation_Lot a ∈ db_lots (w_db w0)).
    { rewrite Hlots. by apply (elem_of_replaced _ _ lot). }
    assert (Hkeep : forall l, l ∈ db_lots (w_db w) -> Lot_ID l <> Lot_ID lot ->
                    l ∈ db_lots (w_db w0)).
    { intros l Hl Hne. rewrite Hlots. unfold replace_lot. apply list_elem_of_In, in_map_iff.
      exists l. rewrite Hid, (proj2 (Z.eqb_neq _ _) Hne). split; [done|].
      by apply list_elem_of_In. }
    constructor.
    + by apply ledger_step_ok in Hstep.
    + congruence.
    + intros l Hl. apply elem_of_cons in Hl as [->|Hl].
      * exists (Mutation_Lot a). rewrite Hm. rewrite <- Hm. split; [done|].
        split; [rewrite Hm; by repeat split|]. done.
      * destruct (Hdone l Hl) as (l' & Hl' & Hsame & Hst' & Hz').
        exists l'. split; [|done]. apply Hkeep; [done|]. intros E.
        pose proof (NoDup_map_inj Lot_ID _ _ _ (ok_lot_ids _ Hok) Hl' Hlot E) as ->.
        by rewrite Hact in Hst'.
    + intros l Hl Hno. apply not_elem_of_cons in Hno as [Hne Hno].
      apply Hkeep; [auto|]. intros E. apply Hne.
      by apply (NoDup_map_inj Lot_ID (db_lots db0)).
Qed.

Lemma due_batch_spec db now batch lot :
  lot ∈ due_batch db now batch -> lot ∈ db_lots db /\ due_lot db now lot = true.
Proof.
  unfold due_batch. intros H. apply elem_of_take in H as (i & H & _).
  apply list_elem_of_lookup_2, elem_of_sort_by, list_elem_of_In, filter_In in H as [H1 H2].
  by rewrite list_elem_of_In.
Qed.

Lemma due_batch_nodup db now batch :
  NoDup (map Lot_ID (db_lots db)) -> NoDup (due_batch db now batch).
Proof.
  intros H. unfold due_batch. eapply sublist_NoDup; [|apply sublist_take]. rewrite sort_by_perm.
  apply NoDup_ListNoDup, List.NoDup_filter, NoDup_ListNoDup.
  by apply NoDup_fmap_1 in H.
Qed.

(** The loop: none of the due lots is blocked, and each is counted. *)
Lemma expire_lots_ok wk ctx now db0 lots : forall done n w r w',
  worker_assets wk = asset_service ->
  expire_lots wk ctx now lots n w = (Ok r, w') ->
  expired_so_far db0 done w -> NoDup (map Lot_ID (db_lots db0)) ->
  (forall l, l ∈ lots -> l ∈ db_lots db0 /\ due_lot db0 now l = true) ->
  NoDup lots -> (forall l, l ∈ lots -> l ∉ done) ->
  r = n + Z.of_nat (List.length lots) /\ expired_so_far db0 (rev lots ++ done) w'.
Proof.
  induction lots as [|lot lots IH]; simpl; intros done n w r w' Hs H Hinv Hnd Hdue Hl Hno.
  - run H. split; [lia|done].
  - run_step H. apply expiryGuarded_ok in R as [Hdb Hb].
    destruct (Hdue lot ltac:(by left)) as [Hin Hlot]. unfold due_lot in Hlot.
    rewrite !andb_true_iff, !negb_true_iff in Hlot. destruct Hlot as (((Hact & _) & Hr) & Hf).
    apply String.eqb_eq in Hact.
    assert (Hsame : db_renewals (w_db w) = db_renewals db0 /\
                    db_refund_allocations (w_db w) = db_refund_allocations db0).
    { pose proof (esf_frame _ _ _ Hinv) as E. unfold asset_frame in E.
      split; [change (db_renewals (blank_assets (w_db w)) = db_renewals (blank_assets db0))
             | change (db_refund_allocations (blank_assets (w_db w)) =
                       db_refund_allocations (blank_assets db0))]; by rewrite E. }
    destruct Hsame as [E1 E2]. rewrite E1, E2, Hr, Hf in Hb. subst a. simpl in H.
    run_step H. apply NoDup_cons in Hl as [Hnl Hl].
    assert (Hinv' : expired_so_far db0 done w0).
    { apply view_of_db in Hdb as Hv. destruct Hinv as [? Hfr ? ?].
      constructor; [by rewrite Hv | unfold asset_frame in *; by rewrite Hdb | by rewrite Hdb
                   | by rewrite Hdb]. }
    destruct (expire_one _ _ _ _ _ _ _ _ _ _ Hs R Hinv' Hnd Hin (Hno lot ltac:(by left)) Hact)
      as [Hinv1 Hst].
    rewrite Hst, orb_true_r in H.
    destruct (IH (lot :: done) _ _ _ _ Hs H Hinv1 Hnd) as [-> Hfin]; auto.
    + intros l Hl'. apply Hdue. by right.
    + intros l Hl' Hc. apply elem_of_cons in Hc as [->|Hc]; [done|].
      apply (Hno l); [by right|done].
    + split; [lia|]. by rewrite <- app_assoc.
Qed.

(** C27: A run of the expiry worker that succeeds expires exactly a bounded
    batch of the lots that are active, past their expiry at the time of the
    run and free of open renewals and held refunds: each ends expired and
    empty, the count is their number, every other lot is untouched, and the
    ledger stays in agreement.  A run that fails changes nothing. *)
Theorem ExpireLotsOnce_expires_the_batch wk ctx w r w' :
  worker_assets wk = asset_service -> worker_now wk = time_now ->
  ExpireLotsOnce wk ctx w = (r, w') -> ledger_ok (asset_view w) ->
  let now := truncate_ms (w_clock w (w_ticks w)) in
  let batch := due_batch (w_db w) now (worker_batch wk) in
  match r with
  | Err _ => w_db w' = w_db w
  | Ok n =>
      n = Z.of_nat (List.length batch) /\ n <= Z.of_nat (worker_batch wk) /\
      ledger_ok (asset_view w') /\ asset_frame w' = asset_frame w /\
      forall l, l ∈ db_lots (w_db w) ->
        if bool_decide (Lot_ID l ∈ map Lot_ID batch) then
          exists l', l' ∈ db_lots (w_db w') /\ same_lot l l' /\
            Lot_Status l' = LotStatusExpired /\ Lot_AvailableQuantity l' = 0
        else l ∈ db_lots (w_db w')
  end.
Proof.
  intros Hs Hnow H Hok now batch. unfold ExpireLotsOnce in H. rewrite Hnow in H.
  unfold bind at 1 in H. destruct (time_now w) as [[t|e] w1] eqn:Et; [|by unfold time_now in Et].
  pose proof (time_now_db _ _ _ Et) as Hdb. unfold time_now in Et. injection Et as <- _.
  destruct r as [n|e]; [|by apply transaction_err in H; congruence].
  apply transaction_ok in H as (w2 & w3 & H1 & H2 & H3).
  run_step H2. apply exec_ok in R. rewrite H1, Hdb in R. injection R as Hl Hdb1.
  change (NowShanghai _) with now in *. fold batch in Hl. subst a.
  pose proof (ok_lot_ids _ Hok) as Hnd. change (v_lots (asset_view w)) with (db_lots (w_db w)) in Hnd.
  assert (Hinv : expired_so_far (w_db w) [] w0).
  { constructor; unfold asset_view, asset_frame; rewrite <- ?Hdb1; auto. by intros ? ?%not_elem_of_nil. }
  destruct (expire_lots_ok _ _ _ _ _ _ _ _ _ _ Hs H2 Hinv Hnd) as [-> [Hok' Hfr Hdone Hrest]].
  - intros l. apply due_batch_spec.
  - by apply due_batch_nodup.
  - by intros ? _ ?%not_elem_of_nil.
  - rewrite app_nil_r in *. apply view_of_db in H3 as Hv3.
    split; [lia|]. split.
    { unfold batch, due_batch. rewrite length_take. lia. }
    rewrite Hv3. split; [done|]. split; [unfold asset_frame in *; congruence|].
    intros l Hin. rewrite H3. case_bool_decide as Hb.
    + apply list_elem_of_In, in_map_iff in Hb as (l2 & E & Hb). apply list_elem_of_In in Hb.
      pose proof (due_batch_spec _ _ _ _ Hb) as [Hin2 _].
      rewrite (NoDup_map_inj Lot_ID _ _ _ Hnd Hin Hin2 (eq_sym E)).
      apply Hdone, list_elem_of_In. rewrite <- in_rev. by apply list_elem_of_In.
    + apply Hrest; [done|]. intros Hc. apply Hb.
      apply list_elem_of_In, in_map. apply list_elem_of_In in Hc. by apply in_rev in Hc.
Qed.

Definition expired_clock_world : World :=
  let w := sample_world in {|
  w_db := w_db w; w_clock n := sample_now + 31 * sample_day + Z.of_nat n * millisecond;
  w_fault := w_fault w; w_random := w_random w; w_uuid := w_uuid w; w_ticks := 0; w_stmts := 0;
  w_draws := 0; w_uuids := 0; w_gen := w_gen w |}.

Lemma ExpireLotsOnce_expires_the_batch_witness :
  let run := ExpireLotsOnce NewExpiryWorker Background expired_clock_world in
  run.1 = Ok 1 /\ ledger_ok (asset_view run.2).
Proof.
  split; [vm_compute; reflexivity|].
  destruct (ExpireLotsOnce_expires_the_batch NewExpiryWorker Background expired_clock_world (Ok 1)
              (ExpireLotsOnce NewExpiryWorker Background expired_clock_world).2)
    as (_ & _ & H & _); [reflexivity|reflexivity|apply run_ok; vm_compute; reflexivity| |exact H].
  by apply ledger_check_ok.
Defined.
