(* ===== verification/Idempotency.v ===== *)
(** * Idempotency keys: [internal/pkg/idempotency]

    A write request carries a key.  [StartAt] claims the key for one attempt
    with a thirty-second lease; [Succeed] stores the response a retry gets
    back; the claim's identifier fences off attempts whose lease ran out. *)

From S2P Require Import Prelude GoInt GoString GoTime Json Sha256 Problem Snowflake.
From S2P Require Import CoreModel GiftModel AssetLaws Database Samples.
From Stdlib Require Import String.
#[local] Open Scope string_scope. #[local] Open Scope list_scope. #[local] Open Scope Z_scope.
#[local] Open Scope go_scope.

Definition RequestHash (value : json) : string := sha256_hex (marshal value).

Definition ResourceRequestHash (action : string) (resourceID body : json) : string :=
  RequestHash (JObj [("action", JStr (to_lower (trim_space action)));
                     ("resource_id", resourceID); ("body", body)]).

Definition KeyHash (key : string) : string := sha256_hex key.

Definition idempotencyKeyReused : error :=
  Conflict "IDEMPOTENCY_KEY_REUSED" "same idempotency key was used for a different request".
Definition idempotencyInProgress : error :=
  Conflict "IDEMPOTENCY_IN_PROGRESS"
    "request with the same idempotency key is still processing".
Definition idempotencyClaimLost : error :=
  Conflict "IDEMPOTENCY_CLAIM_LOST" "idempotency claim is no longer owned by this request".

(** [IsClaimLost] *)
Definition IsClaimLost (err : error) : bool :=
  String.eqb (error_code err) "IDEMPOTENCY_CLAIM_LOST".

Definition lease : Z := 30 * second.

(** The row [StartAt] offers. *)
Definition candidate (id : Z) (actorType : string) (actorID : Z)
    (method path key requestHash : string) (now : time) : IdempotencyRecord := {|
  Idem_ID := id; Idem_ActorType := actorType; Idem_ActorID := actorID; Idem_Method := method;
  Idem_Path := path; Idem_KeyHash := KeyHash key; Idem_RequestHash := requestHash;
  Idem_ResponseStatus := None; Idem_ResponseBody := None; Idem_Status := "processing";
  Idem_LockedUntil := Some (add_duration now lease);
  Idem_ExpiredAt := add_duration now (24 * hour);
  Idem_CreatedAt := now; Idem_UpdatedAt := now |}.

(** The guard of the takeover: same request, not completed, lease over. *)
Definition claimable (requestHash : string) (now : time) (r : IdempotencyRecord) : bool :=
  String.eqb (Idem_RequestHash r) requestHash &&
  negb (String.eqb (Idem_Status r) "succeeded") &&
  match Idem_LockedUntil r with None => true | Some until => until <=? now end.

Definition reclaimed (id : Z) (now : time) (r : IdempotencyRecord) : IdempotencyRecord := {|
  Idem_ID := id; Idem_ActorType := Idem_ActorType r; Idem_ActorID := Idem_ActorID r;
  Idem_Method := Idem_Method r; Idem_Path := Idem_Path r; Idem_KeyHash := Idem_KeyHash r;
  Idem_RequestHash := Idem_RequestHash r; Idem_ResponseStatus := Idem_ResponseStatus r;
  Idem_ResponseBody := Idem_ResponseBody r; Idem_Status := "processing";
  Idem_LockedUntil := Some (add_duration now lease); Idem_ExpiredAt := Idem_ExpiredAt r;
  Idem_CreatedAt := Idem_CreatedAt r; Idem_UpdatedAt := now |}.

(** [existingClaimResult] *)
Definition existingClaimResult (existing : IdempotencyRecord) (requestHash : string) (now : time)
    : res bool :=
  if negb (String.eqb (Idem_RequestHash existing) requestHash) then Err idempotencyKeyReused
  else if String.eqb (Idem_Status existing) "succeeded" then Ok false
  else if String.eqb (Idem_Status existing) "processing" &&
          match Idem_LockedUntil existing with Some until => after until now | None => false end
       then Err idempotencyInProgress
       else Err idempotencyInProgress.

(** The status and response an outcome writes; [updated_at] is set by GORM. *)
Definition completed (status : string) (response : option json) (now : time)
    (r : IdempotencyRecord) : IdempotencyRecord := {|
  Idem_ID := Idem_ID r; Idem_ActorType := Idem_ActorType r; Idem_ActorID := Idem_ActorID r;
  Idem_Method := Idem_Method r; Idem_Path := Idem_Path r; Idem_KeyHash := Idem_KeyHash r;
  Idem_RequestHash := Idem_RequestHash r;
  Idem_ResponseStatus :=
    match response with Some _ => Some 200 | None => Idem_ResponseStatus r end;
  Idem_ResponseBody := match response with Some _ => response | None => Idem_ResponseBody r end;
  Idem_Status := status; Idem_LockedUntil := None; Idem_ExpiredAt := Idem_ExpiredAt r;
  Idem_CreatedAt := Idem_CreatedAt r; Idem_UpdatedAt := now |}.

Section Store.
Variables (actorType : string) (actorID : Z) (path key : string).

(** [actor_type = ? AND actor_id = ? AND path = ? AND key_hash = ?] *)
Definition names (r : IdempotencyRecord) : bool :=
  idem_key actorType actorID path (KeyHash key) r.

Definition StartAt (id : Z) (method requestHash : string) (now : time) : G bool :=
  fail_if (String.eqb key "")
    (InvalidArgument "IDEMPOTENCY_KEY_REQUIRED" "Idempotency-Key is required") ;;;
  fail_if ((str_len key <? 8) || (128 <? str_len key))
    (InvalidArgument "IDEMPOTENCY_KEY_INVALID"
       "Idempotency-Key must be between 8 and 128 characters") ;;;
  create_or_ignore (candidate id actorType actorID method path key requestHash now) ;;;
  update_rows (fun r => names r && claimable requestHash now r) (reclaimed id now) ;;;
  existing <- take_row names ;;
  if Idem_ID existing =? id then ret true
  else lift (existingClaimResult existing requestHash now).

(** [Start]: with the process's clock. *)
Definition Start (id : Z) (method requestHash : string) : G bool :=
  now <- time_now ;; StartAt id method requestHash now.

(** The claim a fenced operation needs to own. *)
Definition owned (claimID : Z) (r : IdempotencyRecord) : bool :=
  (Idem_ID r =? claimID) && names r && String.eqb (Idem_Status r) "processing".

Definition Succeed {A} `{JsonCodec A} (response : A) : G unit :=
  now <- time_now ;;
  update_rows names (completed "succeeded" (Some (encode response)) now) ;;;
  ret tt.

Definition SucceedOwned {A} `{JsonCodec A} (expectedClaimID : Z) (response : A) : G unit :=
  now <- time_now ;;
  affected <- update_rows (owned expectedClaimID)
                (completed "succeeded" (Some (encode response)) now) ;;
  fail_if (negb (affected =? 1)) idempotencyClaimLost.

Definition Fail : G unit :=
  now <- time_now ;;
  update_rows (fun r => names r && negb (String.eqb (Idem_Status r) "succeeded"))
    (completed "failed" None now) ;;;
  ret tt.

Definition FailOwned (expectedClaimID : Z) : G unit :=
  now <- time_now ;;
  affected <- update_rows (owned expectedClaimID) (completed "failed" None now) ;;
  fail_if (negb (affected =? 1)) idempotencyClaimLost.

(** The stored response, decoded; [None] is a Go [false]. *)
Definition stored_response {A} `{JsonCodec A} (r : IdempotencyRecord) : res (option A) :=
  match Idem_ResponseBody r with
  | None => Ok None
  | Some body =>
      match decode body with
      | Some a => Ok (Some a)
      | None => Err (EMessage "json: cannot unmarshal the stored response")
      end
  end.

Definition CachedResponse {A} `{JsonCodec A} : G (option A) :=
  r <- attempt (take_row (fun r => names r && String.eqb (Idem_Status r) "succeeded")) ;;
  match r with
  | Err e => if is_record_not_found e then ret None else throw e
  | Ok record => lift (stored_response record)
  end.

Definition ReplayCompleted {A} `{JsonCodec A} (requestHash : string) : G (option A) :=
  if String.eqb key "" then ret None
  else
    r <- attempt (take_row names) ;;
    match r with
    | Err e => if is_record_not_found e then ret None else throw e
    | Ok record =>
        fail_if (negb (String.eqb (Idem_RequestHash record) requestHash))
          idempotencyKeyReused ;;;
        if negb (String.eqb (Idem_Status record) "succeeded") then
          match String.eqb (Idem_Status record) "processing", Idem_LockedUntil record with
          | true, Some until =>
              now <- time_now ;;
              fail_if (after until now) idempotencyInProgress ;;;
              ret None
          | _, _ => ret None
          end
        else lift (stored_response record)
    end.
End Store.

(** ** What a claim decides *)

Inductive claim : Type :=
| Claim          (* the caller runs the request *)
| Replay         (* the caller returns the stored response *)
| Reused         (* the key belongs to another request *)
| InProgress.    (* another attempt holds the lease *)

(** The decision on the row under the key, if there is one. *)
Definition claim_verdict (row : option IdempotencyRecord) (requestHash : string) (now : time)
    : claim :=
  match row with
  | None => Claim
  | Some r =>
      if negb (String.eqb (Idem_RequestHash r) requestHash) then Reused
      else if String.eqb (Idem_Status r) "succeeded" then Replay
      else if match Idem_LockedUntil r with None => true | Some until => until <=? now end
           then Claim else InProgress
  end.

Lemma existsb_find {A} (f : A -> bool) l :
  existsb f l = match find f l with Some _ => true | None => false end.
Proof. induction l as [|x l IH]; simpl; [done|]. by destruct (f x). Qed.

Lemma existsb_ext_in {A} (f g : A -> bool) l :
  (forall x, x ∈ l -> f x = g x) -> existsb f l = existsb g l.
Proof.
  induction l as [|x l IH]; simpl; intros H; [done|]. rewrite H by by left.
  by rewrite IH by (intros y Hy; apply H; by right).
Qed.

Lemma map_guard_id {A} (p : A -> bool) (f : A -> A) l :
  (forall x, x ∈ l -> p x = false) -> map (fun x => if p x then f x else x) l = l.
Proof.
  induction l as [|x l IH]; simpl; intros H; [done|]. rewrite H by by left.
  by rewrite IH by (intros y Hy; apply H; by right).
Qed.

Lemma filter_guard {A} (p : A -> bool) (f : A -> A) l :
  List.filter p l = [] -> map (fun x => if p x then f x else x) l = l.
Proof.
  intros H. apply map_guard_id. intros x Hx. apply not_true_iff_false. intros Hp.
  apply list_elem_of_In in Hx. pose proof (proj2 (filter_In p x l) (conj Hx Hp)) as Hf.
  by rewrite H in Hf.
Qed.

Section StoreTheorems.
Variables (actorType : string) (actorID : Z) (path key : string).
Abbreviation named := (names actorType actorID path key).

(** The row under the key. *)
Definition key_row (w : World) : option IdempotencyRecord :=
  find named (db_idempotency (w_db w)).

(** Everything but the idempotency keys. *)
Definition idem_frame (w : World) : Database := set_rows (R:=IdempotencyRecord) [] (w_db w).

Lemma candidate_conflict id method h now r : Idem_ID r <> id ->
  row_conflict (candidate id actorType actorID method path key h now) r = named r.
Proof.
  intros Hid. simpl. rewrite (proj2 (Z.eqb_neq id (Idem_ID r))) by congruence. simpl.
  unfold names, idem_key. simpl.
  by rewrite (String.eqb_sym actorType), (Z.eqb_sym actorID), (String.eqb_sym path),
    (String.eqb_sym (KeyHash key)).
Qed.

Lemma named_unique r1 r2 : named r1 = true -> named r2 = true -> row_conflict r1 r2 = true.
Proof.
  unfold names, idem_key. simpl. unfold idem_key.
  rewrite !andb_true_iff, !String.eqb_eq, !Z.eqb_eq.
  intros [[[H1 H2] H3] H4] [[[H5 H6] H7] H8].
  rewrite H1, H2, H3, H4, H5, H6, H7, H8, !String.eqb_refl, !Z.eqb_refl. apply orb_true_r.
Qed.

(** Taking the key over keeps the rows free of conflicts. *)
Lemma takeover_conflicts id h now l :
  (forall r, r ∈ l -> Idem_ID r <> id) -> no_conflict row_conflict l = true ->
  no_conflict row_conflict
    (map (fun r => if named r && claimable h now r then reclaimed id now r else r) l) = true.
Proof.
  intros Hid. apply no_conflict_map_in. intros x y Hx Hy C.
  destruct (named x) eqn:Nx, (named y) eqn:Ny; simpl; try done;
    [by rewrite (named_unique _ _ Nx Ny) in C|destruct (claimable h now x)|
     destruct (claimable h now y)]; try done; simpl in C |- *;
    apply orb_false_iff in C as [_ C]; apply orb_false_iff; split; try exact C;
    apply Z.eqb_neq; [apply not_eq_sym|]; auto.
Qed.

Lemma takeover_find id h now l :
  find named (map (fun r => if named r && claimable h now r then reclaimed id now r else r) l) =
  (fun r => if claimable h now r then reclaimed id now r else r) <$> find named l.
Proof.
  rewrite find_map_same.
  - destruct (find named l) as [r|] eqn:F; [|done]. apply find_some in F as [_ F].
    simpl. by rewrite F.
  - intros r. by destruct (named r && claimable h now r).
Qed.

(** The row a successful claim leaves under the key. *)
Definition claimed_row (id : Z) (method h : string) (now : time)
    (row : option IdempotencyRecord) : IdempotencyRecord :=
  match row with
  | None => candidate id actorType actorID method path key h now
  | Some r => reclaimed id now r
  end.

(** The rows after the insert of [StartAt]. *)
Definition offered (id : Z) (method h : string) (now : time) (l : list IdempotencyRecord)
    : list IdempotencyRecord :=
  match find named l with
  | None => l ++ [candidate id actorType actorID method path key h now]
  | Some _ => l
  end.

Lemma candidate_named id method h now :
  named (candidate id actorType actorID method path key h now) = true.
Proof. unfold names, idem_key. simpl. by rewrite !String.eqb_refl, Z.eqb_refl. Qed.

Lemma candidate_leased id method h now :
  claimable h now (candidate id actorType actorID method path key h now) = false.
Proof.
  unfold claimable. simpl. rewrite String.eqb_refl. simpl. unfold add_duration, lease, second.
  lia.
Qed.

Lemma offered_find id method h now l :
  find named (offered id method h now l) =
  Some (default (candidate id actorType actorID method path key h now) (find named l)).
Proof.
  unfold offered. destruct (find named l) as [r|] eqn:F; [done|].
  by rewrite find_app_one, F, candidate_named.
Qed.

Lemma offered_takeover id method h now l :
  (forall r, r ∈ l -> Idem_ID r <> id) -> no_conflict row_conflict l = true ->
  no_conflict row_conflict
    (map (fun r => if named r && claimable h now r then reclaimed id now r else r)
       (offered id method h now l)) = true.
Proof.
  intros Hid Hnc. unfold offered. destruct (find named l) as [r|] eqn:F.
  - by apply takeover_conflicts.
  - rewrite map_guard_id.
    + apply no_conflict_app_one; [done|]. intros r Hr.
      apply list_elem_of_In in Hr as Hr'. pose proof (find_none _ _ F _ Hr') as Hn.
      apply Hid in Hr. unfold names in Hn. simpl.
      rewrite (proj2 (Z.eqb_neq _ _) Hr). exact Hn.
    + intros r Hr. apply elem_of_app in Hr as [Hr|Hr%list_elem_of_singleton].
      * apply list_elem_of_In in Hr. by rewrite (find_none _ _ F _ Hr).
      * subst. rewrite candidate_leased. apply andb_false_r.
Qed.

(** The two writes of [StartAt], run. *)
Lemma StartAt_writes id method h now w :
  no_faults w -> (forall r, r ∈ db_idempotency (w_db w) -> Idem_ID r <> id) ->
  no_conflict row_conflict (db_idempotency (w_db w)) = true ->
  exists n w1 w2,
    create_or_ignore (candidate id actorType actorID method path key h now) w = (Ok tt, w1) /\
    update_rows (fun r => named r && claimable h now r) (reclaimed id now) w1 = (Ok n, w2) /\
    no_faults w2 /\ idem_frame w2 = idem_frame w /\
    key_row w2 = Some
      (let r := default (candidate id actorType actorID method path key h now) (key_row w) in
       if claimable h now r then reclaimed id now r else r).
Proof.
  intros Hn Hid Hnc. set (cand := candidate id actorType actorID method path key h now).
  rewrite create_or_ignore_run by done.
  rewrite (existsb_ext_in _ named) by (intros r Hr; apply candidate_conflict; auto).
  rewrite existsb_find. change (rows (w_db w)) with (db_idempotency (w_db w)).
  set (w1 := if match find named (db_idempotency (w_db w)) with
                | Some _ => true | None => false end then _ else _).
  assert (Hw1 : no_faults w1 /\ idem_frame w1 = idem_frame w /\
                db_idempotency (w_db w1) = offered id method h now (db_idempotency (w_db w))).
  { unfold w1, offered. by destruct (find named (db_idempotency (w_db w))). }
  destruct Hw1 as (Hn1 & Hf1 & Hl1).
  destruct (update_rows_run (fun r => named r && claimable h now r) (reclaimed id now) w1 Hn1)
    as (w2 & HU & Hn2 & Hdb2); [done| |].
  { change (rows (w_db w1)) with (db_idempotency (w_db w1)). rewrite Hl1.
    by apply offered_takeover. }
  change (rows (w_db w1)) with (db_idempotency (w_db w1)) in Hdb2.
  assert (Hl2 : idem_frame w2 = idem_frame w1 /\
    db_idempotency (w_db w2) = map (fun r => if named r && claimable h now r
       then reclaimed id now r else r) (db_idempotency (w_db w1))).
  { unfold idem_frame. rewrite Hdb2.
    destruct (List.filter _ _) eqn:E; [by rewrite (filter_guard _ _ _ E)|done]. }
  destruct Hl2 as [Hf2 Hl2]. eexists _, w1, w2. split; [done|]. split; [exact HU|].
  split; [done|]. split; [congruence|].
  unfold key_row. by rewrite Hl2, Hl1, takeover_find, offered_find.
Qed.
End StoreTheorems.

(** Without faults and with a fresh claim identifier, [StartAt] decides
    on the row under the key exactly as [claim_verdict]: it claims a free
    key, or one whose lease is over, for the same request; it tells a
    completed request from one in progress; it refuses a key that another
    request used.  Only a claim changes the row under the key, and no other
    table changes. *)
Lemma StartAt_run actorType actorID path key id method h now w :
  no_faults w -> 8 <= str_len key <= 128 ->
  (forall r, r ∈ db_idempotency (w_db w) -> Idem_ID r <> id) ->
  no_conflict row_conflict (db_idempotency (w_db w)) = true ->
  let row := key_row actorType actorID path key w in
  exists w',
    StartAt actorType actorID path key id method h now w =
      (match claim_verdict row h now with
       | Claim => Ok true
       | Replay => Ok false
       | Reused => Err idempotencyKeyReused
       | InProgress => Err idempotencyInProgress
       end, w') /\
    key_row actorType actorID path key w' = match claim_verdict row h now with
                 | Claim => Some (claimed_row actorType actorID path key id method h now row)
                 | _ => row
                 end /\
    idem_frame w' = idem_frame w /\ no_faults w'.
Proof.
  intros Hn Hlen Hid Hnc row. unfold StartAt.
  replace (String.eqb key "") with false
    by (destruct key; [change (str_len "") with 0 in Hlen; lia|done]).
  replace ((str_len key <? 8) || (128 <? str_len key)) with false by lia.
  do 2 erewrite (bind_ok (fail_if false _)) by reflexivity.
  destruct (StartAt_writes actorType actorID path key id method h now w Hn Hid Hnc) as (n & w1 & w2 & H1 & H2 & Hn2 & Hf & Hk).
  rewrite (bind_ok _ _ _ _ _ H1), (bind_ok _ _ _ _ _ H2).
  assert (HT : take_row (names actorType actorID path key) w2 =
               (match key_row actorType actorID path key w2 with
                | Some r => Ok r | None => Err ERecordNotFound end, bump w2))
    by (by rewrite take_row_run).
  rewrite Hk in HT. rewrite (bind_ok _ _ _ _ _ HT).
  assert (Hkb : key_row actorType actorID path key (bump w2) = key_row actorType actorID path key w2) by done.
  assert (Hfb : idem_frame (bump w2) = idem_frame w) by done.
  pose proof (no_faults_bump _ Hn2) as Hnb.
  exists (bump w2). rewrite Hkb, Hk, Hfb. fold row. unfold claim_verdict, row in *.
  destruct (key_row actorType actorID path key w) as [r|] eqn:F; simpl.
  - assert (Hrid : Idem_ID r <> id).
    { unfold key_row in F. apply find_some in F as [F _]. by apply Hid, list_elem_of_In. }
    apply Z.eqb_neq in Hrid. unfold claimable, existingClaimResult.
    destruct (String.eqb (Idem_RequestHash r) h) eqn:Eh; simpl.
    2: { by rewrite Hrid, Eh. }
    destruct (String.eqb (Idem_Status r) "succeeded") eqn:Es; simpl.
    { by rewrite Hrid, Eh, Es. }
    destruct (Idem_LockedUntil r) as [until|]; [destruct (until <=? now)|]; simpl;
      rewrite ?Z.eqb_refl; [done| |done].
    rewrite Hrid, Eh, Es. simpl. by destruct (_ && _).
  - rewrite candidate_leased. simpl. by rewrite Z.eqb_refl.
Qed.



(** C30: A lease excludes every other attempt: while the thirty seconds of a
    successful claim run and the row is as the claim left it, no other attempt
    on the key, for the same request or another, claims it. *)
Theorem lease_excludes_other_attempts
    actorType actorID path key id1 id2 method1 method2 h1 h2 now1 now2 w1 w1' w2 :
  StartAt actorType actorID path key id1 method1 h1 now1 w1 = (Ok true, w1') ->
  no_faults w1 -> no_faults w2 -> 8 <= str_len key <= 128 ->
  (forall r, r ∈ db_idempotency (w_db w1) -> Idem_ID r <> id1) ->
  (forall r, r ∈ db_idempotency (w_db w2) -> Idem_ID r <> id2) ->
  no_conflict row_conflict (db_idempotency (w_db w1)) = true ->
  no_conflict row_conflict (db_idempotency (w_db w2)) = true ->
  key_row actorType actorID path key w2 = key_row actorType actorID path key w1' ->
  now2 < add_duration now1 lease ->
  exists e w2',
    StartAt actorType actorID path key id2 method2 h2 now2 w2 = (Err e, w2') /\
    (e = idempotencyInProgress \/ e = idempotencyKeyReused /\ h1 <> h2).
Proof.
  intros H Hn1 Hn2 Hlen Hid1 Hid2 Hnc1 Hnc2 Hrow Hnow.
  destruct (StartAt_run actorType actorID path key id1 method1 h1 now1 w1 Hn1 Hlen Hid1 Hnc1)
    as (w & E & Hk & _). rewrite H in E.
  destruct (claim_verdict _ h1 now1) eqn:V; simplify_eq.
  destruct (StartAt_run actorType actorID path key id2 method2 h2 now2 w2 Hn2 Hlen Hid2 Hnc2)
    as (w' & E & _). rewrite E, Hrow, Hk. clear E.
  set (row := claimed_row _ _ _ _ _ _ _ _ _).
  assert (Hr : Idem_RequestHash row = h1 /\ Idem_Status row = "processing" /\
               Idem_LockedUntil row = Some (add_duration now1 lease)).
  { unfold row, claimed_row, claim_verdict in *. destruct (key_row _ _ _ _ w1) as [r|]; [|done].
    split; [|done]. simpl. destruct (String.eqb_spec (Idem_RequestHash r) h1); [done|].
    simpl in V. congruence. }
  destruct Hr as (Hh & Hst & Hl). unfold claim_verdict. rewrite Hh, Hst, Hl.
  destruct (String.eqb_spec h1 h2) as [->|Hne]; simpl.
  - replace (add_duration now1 lease <=? now2) with false by lia.
    eexists _, _. split; [reflexivity|by left].
  - eexists _, _. split; [reflexivity|by right].
Qed.

Lemma lease_excludes_other_attempts_witness :
  let w1' := (StartAt "customer" 7 "/gifts" "key-00001" 900 "POST" "hash" sample_now
                sample_world).2 in
  exists e w2',
    StartAt "customer" 7 "/gifts" "key-00001" 901 "POST" "hash" (sample_now + second) w1' =
      (Err e, w2') /\
    (e = idempotencyInProgress \/ e = idempotencyKeyReused /\ "hash" <> "hash").
Proof.
  cbv zeta.
  eapply (lease_excludes_other_attempts "customer" 7 "/gifts" "key-00001" 900 901 "POST" "POST"
            "hash" "hash" sample_now (sample_now + second) sample_world).
  - apply run_ok. vm_compute. reflexivity.
  - done.
  - done.
  - by vm_compute.
  - by intros r ?%not_elem_of_nil.
  - vm_compute. intros r Hr. apply list_elem_of_singleton in Hr as ->. by vm_compute.
  - reflexivity.
  - vm_compute. reflexivity.
  - reflexivity.
  - by vm_compute.
Defined.

(** ** Completion, replay and fencing *)

Lemma find_and {A} (p q : A -> bool) l r :
  find p l = Some r -> q r = true -> find (fun x => p x && q x) l = Some r.
Proof.
  induction l as [|x l IH]; simpl; [done|]. destruct (p x); intros H Hq; simpl; [|auto].
  simplify_eq. by rewrite Hq.
Qed.

Lemma completed_named actorType actorID path key st resp now r :
  names actorType actorID path key (completed st resp now r) = names actorType actorID path key r.
Proof. done. Qed.

Lemma Succeed_row {A} `{JsonCodec A} actorType actorID path key (response : A) w w' r :
  Succeed actorType actorID path key response w = (Ok tt, w') ->
  key_row actorType actorID path key w = Some r ->
  exists now, key_row actorType actorID path key w' =
    Some (completed "succeeded" (Some (encode response)) now r).
Proof.
  unfold Succeed. intros Hs Hr. run Hs. apply update_rows_ok in R0 as (_ & Hn & Hc).
  apply time_now_db in R as Hdb. exists a. unfold key_row in *.
  destruct Hc as [[-> Hc]|[_ Hc]]; rewrite Hc.
  - exfalso. rewrite Hdb in Hn. apply find_some in Hr as [Hin Hp].
    change (rows (w_db w)) with (db_idempotency (w_db w)) in Hn.
    pose proof (proj2 (filter_In _ _ _) (conj Hin Hp)) as Hf.
    rewrite (proj1 (List.length_zero_iff_nil _)) in Hf; [done|]. lia.
  - change (rows (w_db w0)) with (db_idempotency (w_db w0)). rewrite Hdb. simpl db_idempotency.
    rewrite find_map_same, Hr.
    + apply find_some in Hr as [_ Hp]. simpl. by rewrite Hp.
    + intros x. destruct (names _ _ _ _ x) eqn:En; exact En.
Qed.

(** A completed request is replayed: after [Succeed] any later attempt
    with the same request is told so, at whatever time, and reads back exactly
    the response that was stored. *)
Theorem completed_request_replays {A} `{JsonCodec A} `{!LawfulCodec A}
    actorType actorID path key (response : A) r w w' w2 :
  Succeed actorType actorID path key response w = (Ok tt, w') -> codec_ok response ->
  key_row actorType actorID path key w = Some r ->
  key_row actorType actorID path key w2 = key_row actorType actorID path key w' ->
  no_faults w2 ->
  (forall now, claim_verdict (key_row actorType actorID path key w2)
                 (Idem_RequestHash r) now = Replay) /\
  CachedResponse actorType actorID path key w2 = (Ok (Some response), bump w2).
Proof.
  intros Hs Hc Hr H2 Hn. destruct (Succeed_row _ _ _ _ _ _ _ _ Hs Hr) as (t & Hk).
  rewrite H2, Hk. split.
  - intros now. simpl. by rewrite String.eqb_refl.
  - unfold CachedResponse. erewrite bind_ok.
    2: { unfold attempt. rewrite take_row_run by done.
         change (rows (w_db w2)) with (db_idempotency (w_db w2)).
         rewrite (find_and _ _ _ (completed "succeeded" (Some (encode response)) t r));
           [reflexivity| |done].
         rewrite <- Hk, <- H2. done. }
    cbv beta iota. unfold lift, stored_response. simpl. by rewrite decode_encode by done.
Qed.


(** A response that is a string. *)
#[export] Instance string_codec : JsonCodec string :=
  {| encode s := JStr s; decode j := match j with JStr s => Some s | _ => None end |}.

#[export] Instance string_codec_lawful : LawfulCodec string.
Proof. by exists (fun _ => True). Defined.

Definition claimed_world : World :=
  (StartAt "customer" 7 "/gifts" "key-00001" 900 "POST" "hash" sample_now sample_world).2.

Definition succeeded_world : World :=
  (Succeed "customer" 7 "/gifts" "key-00001" "done" claimed_world).2.

Lemma completed_request_replays_witness :
  CachedResponse "customer" 7 "/gifts" "key-00001" succeeded_world =
    (Ok (Some "done"), bump succeeded_world).
Proof.
  eapply (completed_request_replays "customer" 7 "/gifts" "key-00001" "done" _ claimed_world).
  - apply run_ok. vm_compute. reflexivity.
  - done.
  - vm_compute. reflexivity.
  - reflexivity.
  - done.
Defined.

Lemma named_once actorType actorID path key l x y :
  no_conflict row_conflict l = true -> x ∈ l -> y ∈ l ->
  names actorType actorID path key x = true -> names actorType actorID path key y = true -> x = y.
Proof.
  induction l as [|z l IH]; [by intros _ ?%not_elem_of_nil|].
  cbn [no_conflict]. rewrite andb_true_iff, negb_true_iff. intros [Hz Hl] Hx Hy Nx Ny.
  assert (Hno : forall u, u ∈ l -> names actorType actorID path key z = true ->
                names actorType actorID path key u = true -> False).
  { intros u Hu Nz Nu. apply not_true_iff_false in Hz. apply Hz, existsb_exists.
    exists u. split; [by apply list_elem_of_In|]. by apply (named_unique actorType actorID path key). }
  apply elem_of_cons in Hx as [->|Hx]; apply elem_of_cons in Hy as [->|Hy]; auto;
    exfalso; eauto.
Qed.

(** An update that finds no row it owns. *)
Lemma unowned_update_run actorType actorID path key claimID f w :
  no_faults w -> no_conflict row_conflict (db_idempotency (w_db w)) = true ->
  match key_row actorType actorID path key w with
  | Some r => Idem_ID r <> claimID \/ Idem_Status r <> "processing"
  | None => True
  end ->
  exists w', update_rows (owned actorType actorID path key claimID) f w = (Ok 0, w') /\
    w_db w' = w_db w.
Proof.
  intros Hn Hnc Hrow.
  assert (Hno : forall x, x ∈ db_idempotency (w_db w) ->
                owned actorType actorID path key claimID x = false).
  { intros x Hx. apply not_true_iff_false. unfold owned. rewrite !andb_true_iff.
    intros [[Hid Hname] Hst]. apply String.eqb_eq in Hst. apply Z.eqb_eq in Hid.
    unfold key_row in Hrow.
    destruct (find _ _) as [r|] eqn:F.
    - apply find_some in F as [Hr Nr]. apply list_elem_of_In in Hr.
      rewrite (named_once _ _ _ _ _ _ _ Hnc Hr Hx Nr Hname) in Hrow. by destruct Hrow.
    - apply list_elem_of_In in Hx. by rewrite (find_none _ _ F _ Hx) in Hname. }
  assert (Hf : List.filter (owned actorType actorID path key claimID) (rows (w_db w)) = []).
  { apply filter_none_in. exact Hno. }
  destruct (update_rows_run (owned actorType actorID path key claimID) f w Hn) as (w' & HU & _ & Hdb);
    [done| |].
  - by rewrite map_guard_id.
  - exists w'. rewrite HU, Hdb, Hf. done.
Qed.

(** An attempt that lost its claim is fenced off: when the row under the
    key carries another claim, or is no longer in progress, [SucceedOwned] and
    [FailOwned] report the loss and change nothing. *)
Theorem stale_attempt_is_fenced {A} `{JsonCodec A} actorType actorID path key claimID
    (response : A) w :
  no_faults w -> no_conflict row_conflict (db_idempotency (w_db w)) = true ->
  match key_row actorType actorID path key w with
  | Some r => Idem_ID r <> claimID \/ Idem_Status r <> "processing"
  | None => True
  end ->
  exists w1 w2,
    SucceedOwned actorType actorID path key claimID response w =
      (Err idempotencyClaimLost, w1) /\ w_db w1 = w_db w /\
    FailOwned actorType actorID path key claimID w = (Err idempotencyClaimLost, w2) /\
    w_db w2 = w_db w /\ IsClaimLost idempotencyClaimLost = true.
Proof.
  intros Hn Hnc Hrow. unfold SucceedOwned, FailOwned.
  destruct (time_now w) as [[t|e] w0] eqn:Et; [|by unfold time_now in Et].
  pose proof (time_now_db _ _ _ Et) as Hdb.
  assert (Hn0 : no_faults w0) by (unfold time_now in Et; by simplify_eq).
  assert (Hrow0 : key_row actorType actorID path key w0 = key_row actorType actorID path key w)
    by (unfold key_row; by rewrite Hdb).
  rewrite !(bind_ok _ _ _ _ _ Et). rewrite <- Hrow0 in Hrow. rewrite <- Hdb in Hnc |- *.
  destruct (unowned_update_run actorType actorID path key claimID
              (completed "succeeded" (Some (encode response)) t) w0 Hn0 Hnc Hrow) as (w1 & H1 & D1).
  destruct (unowned_update_run actorType actorID path key claimID
              (completed "failed" None t) w0 Hn0 Hnc Hrow) as (w2 & H2 & D2).
  rewrite (bind_ok _ _ _ _ _ H1), (bind_ok _ _ _ _ _ H2). exists w1, w2. done.
Qed.

Lemma stale_attempt_is_fenced_witness : exists w1,
  SucceedOwned "customer" 7 "/gifts" "key-00001" 899 "late" claimed_world =
    (Err idempotencyClaimLost, w1) /\ w_db w1 = w_db claimed_world.
Proof.
  destruct (stale_attempt_is_fenced "customer" 7 "/gifts" "key-00001" 899 "late" claimed_world)
    as (w1 & _ & H & Hdb & _).
  - done.
  - vm_compute. reflexivity.
  - vm_compute. left. discriminate.
  - exists w1. by split.
Defined.
