(* ===== verification/GiftDto.v ===== *)
(** * Requests, responses and tokens of the gift module

    [wineticket/gift/dto.go] and [support.go], and the share token helpers of
    [service.go]. *)

From S2P Require Import Prelude GoInt GoString GoTime Json Base64 Sha256 Problem.
From S2P Require Import CoreModel GiftModel Idempotency Database.
From S2P Require Import Samples.
From Stdlib Require Import String.
#[local] Open Scope string_scope. #[local] Open Scope list_scope. #[local] Open Scope Z_scope.
#[local] Open Scope go_scope.

Definition GiftStatusPending : string := "pending".
Definition GiftStatusClaimed : string := "claimed".
Definition GiftStatusCancelled : string := "cancelled".
Definition GiftStatusExpiredReturned : string := "expired_returned".
Definition GiftStatusException : string := "exception".

Definition GiftAllocationStatusHeld : string := "held".
Definition GiftAllocationStatusClaimed : string := "claimed".
Definition GiftAllocationStatusRestored : string := "restored".

Definition giftClaimTTL : Z := 48 * 60 * 60.
Definition giftShareTokenTTL : Z := 24 * 60 * 60.
Definition giftActiveTokenMax : Z := 3.
Definition giftQuantityMax : Z := 1000.
Definition giftMessageRuneMax : Z := 140.
Definition giftTokenMinLength : Z := 43.
Definition giftTokenMaxLength : Z := 256.
Definition giftListDirectionIn : string := "received".
Definition giftListDirectionOut : string := "sent".

Record GiftCreateRequest := {
  Create_SourceLotNo : string;
  Create_Quantity : Z;
  Create_Message : option string;
}.

(** The struct as [json.Marshal] prints it, [message] left out when nil. *)
Definition GiftCreateRequest_json (r : GiftCreateRequest) : json :=
  JObj (("source_lot_no", JStr (Create_SourceLotNo r)) ::
        ("quantity", JNum (Create_Quantity r)) ::
        match Create_Message r with Some m => [("message", JStr m)] | None => [] end).

Record GiftShareTokenRequest := { Share_ExpectedGiftVersion : Z }.

Record GiftExpectedVersionRequest := { Expected_ExpectedVersion : Z }.

Definition GiftExpectedVersionRequest_json (r : GiftExpectedVersionRequest) : json :=
  JObj [("expected_version", JNum (Expected_ExpectedVersion r))].

(** [core.ProductSummaryDTO] *)
Record ProductSummaryDTO := {
  PS_ProductID : string;
  PS_Name : string;
  PS_BrandName : option string;
  PS_Spec : option string;
  PS_ImageURL : option string;
}.

Record GiftDTO := {
  DTO_GiftNo : string;
  DTO_Product : ProductSummaryDTO;
  DTO_Quantity : Z;
  DTO_Message : option string;
  DTO_GiverDisplayName : option string;
  DTO_ReceiverDisplayName : option string;
  DTO_Status : string;
  DTO_ClaimDeadline : string;
  DTO_EarliestExpiresAt : string;
  DTO_Version : Z;
  DTO_CreatedAt : string;
  DTO_ClaimedAt : option string;
}.

Record GiftShareTokenDTO := {
  ShareDTO_ShareToken : string;
  ShareDTO_ExpiresAt : string;
  ShareDTO_MiniProgramPath : string;
}.

Record GiftPreviewDTO := {
  Preview_GiverDisplayName : string;
  Preview_Product : ProductSummaryDTO;
  Preview_Quantity : Z;
  Preview_Message : option string;
  Preview_ClaimDeadline : string;
  Preview_EarliestExpiresAt : string;
  Preview_ExpiryNotice : string;
  Preview_Status : string;
  Preview_Claimable : bool;
  Preview_BlockedReasonCode : option string;
}.

(** A gift with what the projection query joins to it. *)
Record giftProjection := {
  Proj_Gift : Gift;
  Proj_ProductName : string;
  Proj_ProductBrandName : option string;
  Proj_ProductSpec : option string;
  Proj_ProductImageURL : option string;
  Proj_GiverNickname : option string;
  Proj_ReceiverNickname : option string;
}.

(** [validateBusinessNo] of [support.go]: the trimmed value is checked. *)
Definition validateBusinessNo (value field : string) : res unit :=
  ValidateBusinessNo (trim_space value) field.

Definition normalizeGiftCreateRequest (req : GiftCreateRequest) : res GiftCreateRequest :=
  let lotNo := trim_space (Create_SourceLotNo req) in
  match validateBusinessNo lotNo "source_lot_no" with
  | Err e => Err e
  | Ok _ =>
      if (Create_Quantity req =? 0) || (giftQuantityMax <? Create_Quantity req)
      then Err (InvalidArgument "VALIDATION_FAILED" "quantity must be between 1 and 1000")
      else
        match Create_Message req with
        | None => Ok {| Create_SourceLotNo := lotNo; Create_Quantity := Create_Quantity req;
                        Create_Message := None |}
        | Some m =>
            let message := trim_space m in
            if negb (valid_utf8 message) || (giftMessageRuneMax <? rune_count message)
            then Err (InvalidArgument "VALIDATION_FAILED"
                        "message must contain at most 140 characters")
            else Ok {| Create_SourceLotNo := lotNo; Create_Quantity := Create_Quantity req;
                       Create_Message := if String.eqb message "" then None else Some message |}
        end
  end.

Definition validGiftStatus (value : string) : bool :=
  existsb (String.eqb value)
    [""; GiftStatusPending; GiftStatusClaimed; GiftStatusCancelled; GiftStatusExpiredReturned;
     GiftStatusException].

Definition validGiftDirection (value : string) : bool :=
  String.eqb value giftListDirectionOut || String.eqb value giftListDirectionIn.

(** [string(runes[0])]: an invalid byte becomes U+FFFD. *)
Definition rune_string (x : Z * bool * list Z) : string :=
  let '(_, ok, bs) := x in if ok then of_bytes bs else of_bytes [239; 191; 189].

Definition maskedGiftDisplayName (nickname : option string) : option string :=
  match nickname with
  | None => None
  | Some n =>
      match runes (trim_space n) with
      | [] => None
      | r :: _ => Some (rune_string r +:+ "***")
      end
  end.

Definition giftProduct (row : giftProjection) : ProductSummaryDTO := {|
  PS_ProductID := IDString (Gift_ProductID (Proj_Gift row));
  PS_Name := Proj_ProductName row;
  PS_BrandName := Proj_ProductBrandName row;
  PS_Spec := Proj_ProductSpec row;
  PS_ImageURL := Proj_ProductImageURL row |}.

Definition giftDTO (row : giftProjection) : GiftDTO :=
  let g := Proj_Gift row in {|
  DTO_GiftNo := Gift_GiftNo g;
  DTO_Product := giftProduct row;
  DTO_Quantity := Gift_Quantity g;
  DTO_Message := Gift_Message g;
  DTO_GiverDisplayName := maskedGiftDisplayName (Proj_GiverNickname row);
  DTO_ReceiverDisplayName := maskedGiftDisplayName (Proj_ReceiverNickname row);
  DTO_Status := Gift_Status g;
  DTO_ClaimDeadline := FormatShanghai (Gift_ClaimDeadline g);
  DTO_EarliestExpiresAt := FormatShanghai (Gift_EarliestExpiresAt g);
  DTO_Version := Gift_Version g;
  DTO_CreatedAt := FormatShanghai (Gift_CreatedAt g);
  DTO_ClaimedAt := OptionalTimeString (Gift_ClaimedAt g);
|}.

Definition giftPreviewDTO (row : giftProjection) : GiftPreviewDTO :=
  let g := Proj_Gift row in {|
  Preview_GiverDisplayName := default "一位好友" (maskedGiftDisplayName (Proj_GiverNickname row));
  Preview_Product := giftProduct row;
  Preview_Quantity := Gift_Quantity g;
  Preview_Message := Gift_Message g;
  Preview_ClaimDeadline := FormatShanghai (Gift_ClaimDeadline g);
  Preview_EarliestExpiresAt := FormatShanghai (Gift_EarliestExpiresAt g);
  Preview_ExpiryNotice := "领取后不重置有效期，请在酒票到期前使用";
  Preview_Status := Gift_Status g;
  Preview_Claimable := true;
  Preview_BlockedReasonCode := None;
|}.

(** ** The response the idempotency store keeps *)

Definition ProductSummaryDTO_json (p : ProductSummaryDTO) : json :=
  JObj [("product_id", JStr (PS_ProductID p)); ("name", JStr (PS_Name p));
        ("brand_name", opt_str (PS_BrandName p)); ("spec", opt_str (PS_Spec p));
        ("image_url", opt_str (PS_ImageURL p))].

Definition GiftDTO_json (d : GiftDTO) : json :=
  JObj [("gift_no", JStr (DTO_GiftNo d)); ("product", ProductSummaryDTO_json (DTO_Product d));
        ("quantity", JNum (DTO_Quantity d)); ("message", opt_str (DTO_Message d));
        ("giver_display_name", opt_str (DTO_GiverDisplayName d));
        ("receiver_display_name", opt_str (DTO_ReceiverDisplayName d));
        ("status", JStr (DTO_Status d)); ("claim_deadline", JStr (DTO_ClaimDeadline d));
        ("earliest_expires_at", JStr (DTO_EarliestExpiresAt d));
        ("version", JNum (DTO_Version d)); ("created_at", JStr (DTO_CreatedAt d));
        ("claimed_at", opt_str (DTO_ClaimedAt d))].

Definition ProductSummaryDTO_of_json (j : json) : option ProductSummaryDTO :=
  id ← as_string (field "product_id" j);
  name ← as_string (field "name" j);
  brand ← as_string_ptr (field "brand_name" j);
  spec ← as_string_ptr (field "spec" j);
  image ← as_string_ptr (field "image_url" j);
  Some {| PS_ProductID := id; PS_Name := name; PS_BrandName := brand; PS_Spec := spec;
          PS_ImageURL := image |}.

Definition GiftDTO_of_json (j : json) : option GiftDTO :=
  no ← as_string (field "gift_no" j);
  product ← ProductSummaryDTO_of_json (default JNull (field "product" j));
  quantity ← as_uint (field "quantity" j);
  message ← as_string_ptr (field "message" j);
  giver ← as_string_ptr (field "giver_display_name" j);
  receiver ← as_string_ptr (field "receiver_display_name" j);
  status ← as_string (field "status" j);
  deadline ← as_string (field "claim_deadline" j);
  earliest ← as_string (field "earliest_expires_at" j);
  version ← as_uint (field "version" j);
  created ← as_string (field "created_at" j);
  claimed ← as_string_ptr (field "claimed_at" j);
  Some {| DTO_GiftNo := no; DTO_Product := product; DTO_Quantity := quantity;
          DTO_Message := message; DTO_GiverDisplayName := giver;
          DTO_ReceiverDisplayName := receiver; DTO_Status := status;
          DTO_ClaimDeadline := deadline; DTO_EarliestExpiresAt := earliest;
          DTO_Version := version; DTO_CreatedAt := created; DTO_ClaimedAt := claimed |}.

#[export] Instance GiftDTO_codec : JsonCodec GiftDTO :=
  {| encode := GiftDTO_json; decode := GiftDTO_of_json |}.

#[local] Arguments as_string_ptr : simpl never.

#[export] Instance GiftDTO_lawful : LawfulCodec GiftDTO.
Proof.
  exists (fun d => in_u64 (DTO_Quantity d) /\ in_u64 (DTO_Version d)).
  intros [no [pid name brand spec image] q msg giver receiver st dl ee v cr cl]. simpl.
  intros [Hq Hv]. unfold GiftDTO_of_json, ProductSummaryDTO_of_json. simpl.
  rewrite !as_string_ptr_opt_str. simpl. unfold in_u64 in *.
  replace ((0 <=? q) && (q <? u64_mod)) with true by lia.
  replace ((0 <=? v) && (v <? u64_mod)) with true by lia.
  reflexivity.
Defined.

(** ** Share tokens *)

(** [newGiftShareToken] *)
Definition newGiftShareToken : G string :=
  r <- attempt rand_read ;;
  match r with
  | Ok payload => ret (b64_encode payload)
  | Err _ => throw (Internal "failed to generate wine gift share token")
  end.

Definition validGiftShareToken (raw : string) : bool :=
  if (str_len raw <? giftTokenMinLength) || (giftTokenMaxLength <? str_len raw) then false
  else match b64_decode raw with
       | Some decoded => (32 <=? Z.of_nat (List.length decoded))
       | None => false
       end.

(** [tokenDigest]: SHA-256 of the token followed by the service's pepper. *)
Definition tokenDigest (pepper rawToken : string) : string := sha256_hex (rawToken +:+ pepper).

(** ** The codec of the stored response *)

(** The response the idempotency store keeps reads back unchanged:
    decoding the JSON of a [GiftDTO] gives the same value, whatever its texts,
    with nil pointers told apart from empty strings. *)
Theorem GiftDTO_json_roundtrip d :
  in_u64 (DTO_Quantity d) -> in_u64 (DTO_Version d) -> GiftDTO_of_json (GiftDTO_json d) = Some d.
Proof. intros Hq Hv. exact (decode_encode d (conj Hq Hv)). Qed.

Lemma GiftDTO_json_roundtrip_witness :
  let d := {| DTO_GiftNo := "WTG1"; DTO_Product := {| PS_ProductID := "5"; PS_Name := "Maotai";
                PS_BrandName := Some ""; PS_Spec := None; PS_ImageURL := None |};
              DTO_Quantity := 4; DTO_Message := None; DTO_GiverDisplayName := Some "g***";
              DTO_ReceiverDisplayName := None; DTO_Status := "pending"; DTO_ClaimDeadline := "";
              DTO_EarliestExpiresAt := ""; DTO_Version := 1; DTO_CreatedAt := "";
              DTO_ClaimedAt := None |} in
  GiftDTO_of_json (GiftDTO_json d) = Some d.
Proof. apply GiftDTO_json_roundtrip; by vm_compute. Defined.

(** A share token carries all the randomness it was made from: for 32
    random bytes it is 43 characters of unpadded base64url that the validator
    accepts and that decode to those bytes, so different bytes give different
    tokens. *)
Theorem newGiftShareToken_carries_its_bytes w payload :
  w_random w (w_draws w) = Some payload -> List.length payload = 32%nat -> byte_list payload ->
  exists raw w', newGiftShareToken w = (Ok raw, w') /\ w_db w' = w_db w /\ str_len raw = 43 /\
    validGiftShareToken raw = true /\ b64_decode raw = Some payload.
Proof.
  intros Hw Hl Hb. unfold newGiftShareToken, bind, attempt, rand_read. rewrite Hw. cbn.
  exists (b64_encode payload). eexists. split; [reflexivity|]. split; [reflexivity|].
  pose proof (b64_encode_length payload) as Hlen. pose proof (b64_roundtrip payload Hb) as Hd.
  assert (E : str_len (b64_encode payload) = 43) by (rewrite Hlen, Hl; reflexivity).
  split; [done|]. unfold validGiftShareToken. rewrite E, Hd, Hl. done.
Qed.

Definition sample_payload : list Z := map (fun i => (Z.of_nat i * 7) mod 256) (seq 0 32).

Lemma newGiftShareToken_carries_its_bytes_witness : exists raw w',
  newGiftShareToken sample_world = (Ok raw, w') /\ str_len raw = 43 /\
  b64_decode raw = Some sample_payload.
Proof.
  edestruct (newGiftShareToken_carries_its_bytes sample_world sample_payload)
    as (raw & w' & H1 & _ & H2 & _ & H3).
  - reflexivity.
  - reflexivity.
  - vm_compute. repeat (constructor; [split; [discriminate|reflexivity]|]). constructor.
  - by exists raw, w'.
Defined.
