(* ===== verification/RedemptionDto.v ===== *)
(** * Requests, snapshots and responses of the redemption component

    [wineticket/redemption/dto.go] and [support.go], and the snapshots of
    [service.go]: what a customer sends, what a redemption keeps of the
    address, slot and product it was made with, and what she is shown. *)

From S2P Require Import Prelude GoInt GoString GoTime Json Problem.
From S2P Require Import CoreModel GiftModel RedemptionModel RedemptionSlot GiftDto.
From Stdlib Require Import String.
#[local] Open Scope string_scope. #[local] Open Scope list_scope. #[local] Open Scope Z_scope.

Record RedemptionCreateRequest := {
  RReq_ProductID : string;
  RReq_Quantity : Z;
  RReq_AddressID : string;
  RReq_AddressVersion : Z;
  RReq_DeliveryTimeSlotID : string;
  RReq_Remark : option string;
}.

Definition RedemptionCreateRequest_json (r : RedemptionCreateRequest) : json :=
  JObj (("product_id", JStr (RReq_ProductID r)) :: ("quantity", JNum (RReq_Quantity r)) ::
        ("address_id", JStr (RReq_AddressID r)) ::
        ("address_version", JNum (RReq_AddressVersion r)) ::
        ("delivery_time_slot_id", JStr (RReq_DeliveryTimeSlotID r)) ::
        match RReq_Remark r with Some m => [("remark", JStr m)] | None => [] end).

Record RedemptionCancelRequest := { RCancel_ExpectedVersion : Z }.

Definition RedemptionCancelRequest_json (r : RedemptionCancelRequest) : json :=
  JObj [("expected_version", JNum (RCancel_ExpectedVersion r))].

Record RedemptionTimelineItemDTO := {
  TL_Status : string;
  TL_OccurredAt : string;
  TL_SafeMessage : string;
}.

Record RedemptionAllocationDTO := {
  ADTO_LotNo : string;
  ADTO_Quantity : Z;
  ADTO_Status : string;
}.

Record RedemptionDTO := {
  RDTO_RedemptionNo : string;
  RDTO_OrderNo : string;
  RDTO_Product : ProductSummaryDTO;
  RDTO_Quantity : Z;
  RDTO_AddressSummary : string;
  RDTO_ShopName : string;
  RDTO_ScheduledStartAt : string;
  RDTO_ScheduledEndAt : string;
  RDTO_Status : string;
  RDTO_CanCancel : bool;
  RDTO_DeliveryStatus : string;
  RDTO_Timeline : list RedemptionTimelineItemDTO;
  RDTO_AllocationSummary : list RedemptionAllocationDTO;
  RDTO_CancelResult : option string;
  RDTO_ReturnResult : option string;
  RDTO_Version : Z;
  RDTO_CreatedAt : string;
  RDTO_UpdatedAt : string;
}.

Record RedemptionDeliveryTimeSlotDTO := {
  SDTO_SlotID : string;
  SDTO_ShopID : string;
  SDTO_ShopName : string;
  SDTO_IssuerMerchantID : string;
  SDTO_IssuerMerchantDisplayName : string;
  SDTO_ScheduledStartAt : string;
  SDTO_ScheduledEndAt : string;
  SDTO_CutoffAt : string;
  SDTO_AvailabilityStatus : string;
  SDTO_RemainingCapacity : Z;
  SDTO_Version : Z;
}.

(** ** [support.go] *)

Definition nonzero_digit_head (raw : string) : bool :=
  match raw with
  | EmptyString => false
  | String c _ => negb (byte_val c =? 48)
  end.

Definition parseExternalID (raw field : string) : res Z :=
  let invalid := Err (InvalidArgument "VALIDATION_FAILED"
                        (field +:+ " must be a positive decimal string")) in
  if (str_len raw <? 1) || (20 <? str_len raw) || negb (nonzero_digit_head raw) then invalid
  else
    match parse_uint raw with
    | Some value => if value =? 0 then invalid else Ok value
    | None => invalid
    end.

(** [validateBusinessNo] of this package trims too. *)
Definition redemption_validateBusinessNo (value field : string) : res unit :=
  ValidateBusinessNo (trim_space value) field.

(** ** Snapshots *)

Record redemptionAddressSnapshot := {
  AddrSnap_SchemaVersion : Z;
  AddrSnap_AddressID : string;
  AddrSnap_AddressVersion : Z;
  AddrSnap_ContactName : string;
  AddrSnap_ContactPhone : string;
  AddrSnap_Province : string;
  AddrSnap_City : string;
  AddrSnap_District : string;
}.

Definition redemptionAddressCityCode (address : redemptionAddressRecord) : string :=
  match Addr_CityCode address with None => "" | Some code => trim_space code end.

(** A pointer member with [omitempty]. *)
Definition omit_empty {A} (name : string) (to_json : A -> json) (o : option A)
    : list (string * json) :=
  match o with Some a => [(name, to_json a)] | None => [] end.

Definition marshalRedemptionAddressSnapshot (address : redemptionAddressRecord) : json :=
  JObj ([("schema_version", JNum 1); ("address_id", JStr (IDString (Addr_ID address)));
         ("address_version", JNum (Addr_Version address));
         ("contact_name", JStr (Addr_ContactName address));
         ("contact_phone", JStr (Addr_ContactPhone address));
         ("province", JStr (Addr_Province address)); ("city", JStr (Addr_City address));
         ("city_code", JStr (redemptionAddressCityCode address));
         ("district", JStr (Addr_District address));
         ("district_code",
          JStr match Addr_DistrictCode address with None => "" | Some c => trim_space c end);
         ("address_detail", JStr (Addr_AddressDetail address))] ++
        omit_empty "doorplate" JStr (Addr_Doorplate address) ++
        omit_empty "poi_id" JStr (Addr_POIID address) ++
        omit_empty "formatted_address" JStr (Addr_FormattedAddress address) ++
        omit_empty "latitude" JDec (Addr_Latitude address) ++
        omit_empty "longitude" JDec (Addr_Longitude address) ++
        [("coordinate_system", JStr (Addr_CoordinateSystem address));
         ("location_source", JStr (Addr_LocationSource address))] ++
        omit_empty "geocode_provider" JStr (Addr_GeocodeProvider address) ++
        [("geocode_status", JStr (Addr_GeocodeStatus address))]).

Definition marshalRedemptionProductSnapshot (row : redemptionSlotRelation) : json :=
  JSONData (JObj ([("schema_version", JNum 1);
                   ("product_id", JStr (IDString (Rel_ProductID row)));
                   ("name", JStr (Rel_ProductName row))] ++
                  omit_empty "brand_name" JStr (Rel_ProductBrandName row) ++
                  omit_empty "spec" JStr (Rel_ProductSpec row) ++
                  omit_empty "image_url" JStr (Rel_ProductImageURL row))).

Definition marshalRedemptionSlotSnapshot (row : redemptionSlotRelation) (startAt endAt : time)
    : json :=
  JSONData (JObj [("schema_version", JNum 1); ("slot_id", JStr (IDString (Rel_SlotID row)));
                  ("slot_version", JNum (Rel_SlotVersion row));
                  ("shop_id", JStr (IDString (Rel_ShopID row)));
                  ("shop_name", JStr (Rel_ShopName row));
                  ("issuer_merchant_id", JStr (IDString (Rel_MerchantID row)));
                  ("issuer_merchant_display_name", JStr (Rel_MerchantName row));
                  ("scheduled_start_at", JStr (FormatShanghai startAt));
                  ("scheduled_end_at", JStr (FormatShanghai endAt));
                  ("cutoff_at", JStr (FormatShanghai (Rel_CutoffAt row)))]).

(** ** Reading the snapshots back: [json.Unmarshal] *)

Definition as_int (j : option json) : option Z :=
  match j with
  | Some (JNum z) => if (- i64_half <=? z) && (z <? i64_half) then Some z else None
  | None | Some JNull => Some 0
  | _ => None
  end.

(** A [*float64] member has to be a number. *)
Definition is_float_ptr (j : option json) : bool :=
  match j with None | Some JNull | Some (JNum _) | Some (JDec _) => true | _ => false end.

Definition is_object (j : json) : bool :=
  match j with JObj _ | JMap _ | JNull => true | _ => false end.

Definition address_snapshot_of_json (j : json) : option redemptionAddressSnapshot :=
  schema ← as_int (field "schema_version" j);
  id ← as_string (field "address_id" j);
  version ← as_uint (field "address_version" j);
  name ← as_string (field "contact_name" j);
  phone ← as_string (field "contact_phone" j);
  province ← as_string (field "province" j);
  city ← as_string (field "city" j);
  _ ← as_string (field "city_code" j);
  district ← as_string (field "district" j);
  _ ← as_string (field "district_code" j);
  _ ← as_string (field "address_detail" j);
  _ ← as_string_ptr (field "doorplate" j);
  _ ← as_string_ptr (field "poi_id" j);
  _ ← as_string_ptr (field "formatted_address" j);
  _ ← as_string (field "coordinate_system" j);
  _ ← as_string (field "location_source" j);
  _ ← as_string_ptr (field "geocode_provider" j);
  _ ← as_string (field "geocode_status" j);
  if is_object j && is_float_ptr (field "latitude" j) && is_float_ptr (field "longitude" j)
  then Some {| AddrSnap_SchemaVersion := schema; AddrSnap_AddressID := id;
               AddrSnap_AddressVersion := version; AddrSnap_ContactName := name;
               AddrSnap_ContactPhone := phone; AddrSnap_Province := province;
               AddrSnap_City := city; AddrSnap_District := district |}
  else None.

(** The shop name of a slot snapshot that is readable and of schema 1. *)
Definition slot_snapshot_shop (j : json) : option string :=
  schema ← as_int (field "schema_version" j);
  _ ← as_string (field "slot_id" j);
  _ ← as_uint (field "slot_version" j);
  _ ← as_string (field "shop_id" j);
  shop ← as_string (field "shop_name" j);
  _ ← as_string (field "issuer_merchant_id" j);
  _ ← as_string (field "issuer_merchant_display_name" j);
  _ ← as_string (field "scheduled_start_at" j);
  _ ← as_string (field "scheduled_end_at" j);
  _ ← as_string (field "cutoff_at" j);
  if is_object j && (schema =? 1) then Some shop else None.

(** The summary in a product snapshot that is readable and of schema 1. *)
Definition product_snapshot_of_json (j : json) : option ProductSummaryDTO :=
  schema ← as_int (field "schema_version" j);
  id ← as_string (field "product_id" j);
  name ← as_string (field "name" j);
  brand ← as_string_ptr (field "brand_name" j);
  spec ← as_string_ptr (field "spec" j);
  image ← as_string_ptr (field "image_url" j);
  if is_object j && (schema =? 1)
  then Some {| PS_ProductID := id; PS_Name := name; PS_BrandName := brand; PS_Spec := spec;
               PS_ImageURL := image |}
  else None.

(** ** Views: a redemption with what the projection joins to it *)

Record redemptionView := {
  View_Redemption : Redemption;
  View_OrderNo : string;
  View_OrderStatus : string;
  View_OrderDeliveryStatus : string;
  View_ShopName : string;
  View_ProductName : string;
  View_ProductBrandName : option string;
  View_ProductSpec : option string;
  View_ProductImageURL : option string;
  View_DeliveryStatus : option string;
  View_AcceptedAt : option time;
  View_DeliveryPickedUpAt : option time;
  View_DeliveryCompletedAt : option time;
}.

Record redemptionAllocationView := {
  AV_Allocation : RedemptionAllocation;
  AV_LotNo : string;
  AV_LotStatus : string;
}.

(** ** Masks *)

Definition runes_string (l : list (Z * bool * list Z)) : string :=
  fold_right (fun r acc => rune_string r +:+ acc) "" l.

Definition stars (n : nat) : string := Nat.iter n (fun s => "*" +:+ s) "".

Definition maskRedemptionName (value : string) : string :=
  let value := trim_space value in
  if String.eqb value "" || negb (valid_utf8 value) then ""
  else
    match runes value with
    | [] => ""
    | [r] => rune_string r +:+ "**"
    | r :: rest => rune_string r +:+ stars (List.length rest)
    end.

Definition maskRedemptionPhone (value : string) : string :=
  let value := trim_space value in
  if negb (valid_utf8 value) then ""
  else
    let rs := runes value in
    if (List.length rs <? 7)%nat then ""
    else runes_string (take 3 rs) +:+ "****" +:+ runes_string (drop (List.length rs - 4) rs).

Definition redemptionSafeAddressSummary (raw : json) : res string :=
  let invalid := Err (Internal "wine ticket redemption address snapshot is invalid") in
  match address_snapshot_of_json raw with
  | None => invalid
  | Some snapshot =>
      if negb (AddrSnap_SchemaVersion snapshot =? 1) ||
         String.eqb (AddrSnap_AddressID snapshot) "" || (AddrSnap_AddressVersion snapshot =? 0)
      then invalid
      else
        let location := trim_space (join " " [trim_space (AddrSnap_Province snapshot);
                                              trim_space (AddrSnap_City snapshot);
                                              trim_space (AddrSnap_District snapshot)]) in
        match List.filter (fun part => negb (String.eqb part ""))
                [maskRedemptionName (AddrSnap_ContactName snapshot);
                 maskRedemptionPhone (AddrSnap_ContactPhone snapshot); location] with
        | [] => Err (Internal "wine ticket redemption address summary is empty")
        | parts => Ok (join " " parts)
        end
  end.

Definition redemptionProductSummary (row : redemptionView) : res ProductSummaryDTO :=
  let r := View_Redemption row in
  let from_snapshot :=
    snapshot ← product_snapshot_of_json (Red_ProductSnapshot r);
    if String.eqb (PS_ProductID snapshot) "" || String.eqb (trim_space (PS_Name snapshot)) ""
    then None
    else match parseExternalID (PS_ProductID snapshot) "product_id" with
         | Ok productID => if productID =? Red_ProductID r then Some snapshot else None
         | Err _ => None
         end in
  match from_snapshot with
  | Some summary => Ok summary
  | None =>
      if (Red_ProductID r =? 0) || String.eqb (trim_space (View_ProductName row)) ""
      then Err (Internal "wine ticket redemption product snapshot is invalid")
      else Ok {| PS_ProductID := IDString (Red_ProductID r); PS_Name := View_ProductName row;
                 PS_BrandName := View_ProductBrandName row; PS_Spec := View_ProductSpec row;
                 PS_ImageURL := View_ProductImageURL row |}
  end.

(** ** The response *)

Definition is_set {A} (o : option A) : bool := match o with Some _ => true | None => false end.

Definition redemptionCanCancel (row : redemptionView) (deliveryStatus : string) : bool :=
  let r := View_Redemption row in
  if negb (String.eqb (Red_Status r) RedemptionStatusScheduled) &&
     negb (String.eqb (Red_Status r) RedemptionStatusAssigned) then false
  else if is_set (Red_PickedUpAt r) || is_set (Red_CompletedAt r) ||
          is_set (View_DeliveryPickedUpAt row) || is_set (View_DeliveryCompletedAt row)
  then false
  else negb (existsb (String.eqb deliveryStatus)
               ["picked_up"; "delivering"; "completed"; "delivered"; "returning"; "cancelled"]).

Definition firstRedemptionTime (values : list (option time)) : option time :=
  fold_right (fun v acc => match v with Some t => Some t | None => acc end) None values.

Definition timeline_item (status : string) (at_ : time) (message : string)
    : RedemptionTimelineItemDTO :=
  {| TL_Status := status; TL_OccurredAt := FormatShanghai at_; TL_SafeMessage := message |}.

Definition redemptionTimeline (row : redemptionView) : list RedemptionTimelineItemDTO :=
  let r := View_Redemption row in
  let completedAt := firstRedemptionTime [Red_CompletedAt r; View_DeliveryCompletedAt row] in
  [timeline_item RedemptionStatusScheduled (Red_CreatedAt r) "酒票已核销，预约配送已创建"] ++
  match View_AcceptedAt row with
  | Some t => [timeline_item RedemptionStatusAssigned t "骑手已接单"]
  | None => if String.eqb (Red_Status r) RedemptionStatusAssigned
            then [timeline_item RedemptionStatusAssigned (Red_UpdatedAt r) "配送任务已分配"]
            else []
  end ++
  match firstRedemptionTime [Red_PickedUpAt r; View_DeliveryPickedUpAt row] with
  | Some t => [timeline_item RedemptionStatusPickedUp t "商品已取货"]
  | None => []
  end ++
  match completedAt with
  | Some t => if String.eqb (Red_Status r) RedemptionStatusDelivered
              then [timeline_item RedemptionStatusDelivered t "配送已完成"] else []
  | None => []
  end ++
  match Red_CancelledAt r with
  | Some t => [timeline_item RedemptionStatusCancelled t "提酒已取消，酒票已按规则恢复"]
  | None => []
  end ++
  (if String.eqb (Red_Status r) RedemptionStatusReturnInProgress
   then [timeline_item (Red_Status r) (Red_UpdatedAt r) "商品退回处理中"]
   else if String.eqb (Red_Status r) RedemptionStatusRestored
   then [timeline_item (Red_Status r) (default (Red_UpdatedAt r) (Red_RestoredAt r))
           "退回验收完成，酒票已恢复"]
   else if String.eqb (Red_Status r) RedemptionStatusException
   then [timeline_item (Red_Status r) (Red_UpdatedAt r) "履约事实待复核"]
   else []).

(** The saturating sum of [allocationViewQuantity], [allocationQuantity] and
    [sumLotAvailability]. *)
Definition saturating_sum (l : list Z) : Z :=
  fold_left (fun total q => if uint_sub max_uint q <? total then max_uint else uint_add total q) l 0.

Definition allocationViewQuantity (rows : list redemptionAllocationView) : Z :=
  saturating_sum (map (fun v => RA_Quantity (AV_Allocation v)) rows).

(** The shop's name: the snapshot's where it has one. *)
Definition view_shop_name (row : redemptionView) : string :=
  match slot_snapshot_shop (Red_DeliveryTimeSlotSnapshot (View_Redemption row)) with
  | Some shop => if String.eqb (trim_space shop) "" then trim_space (View_ShopName row)
                 else trim_space shop
  | None => trim_space (View_ShopName row)
  end.

Definition view_delivery_status (row : redemptionView) : string :=
  match View_DeliveryStatus row with
  | Some s => if String.eqb (trim_space s) "" then View_OrderDeliveryStatus row else trim_space s
  | None => View_OrderDeliveryStatus row
  end.

Definition expired_restore (v : redemptionAllocationView) : bool :=
  String.eqb (RA_Status (AV_Allocation v)) RedemptionAllocationStatusRestored &&
  String.eqb (AV_LotStatus v) LotStatusExpired.

Definition redemptionViewDTO (row : redemptionView) (allocations : list redemptionAllocationView)
    : res RedemptionDTO :=
  let r := View_Redemption row in
  match redemptionProductSummary row with
  | Err e => Err e
  | Ok product =>
      match redemptionSafeAddressSummary (Red_AddressSnapshot r) with
      | Err e => Err e
      | Ok addressSummary =>
          if negb (bool_decide (allocations = [])) &&
             negb (allocationViewQuantity allocations =? Red_Quantity r)
          then Err (Internal "wine ticket redemption allocation projection is inconsistent")
          else Ok {|
            RDTO_RedemptionNo := Red_RedemptionNo r; RDTO_OrderNo := View_OrderNo row;
            RDTO_Product := product; RDTO_Quantity := Red_Quantity r;
            RDTO_AddressSummary := addressSummary; RDTO_ShopName := view_shop_name row;
            RDTO_ScheduledStartAt := FormatShanghai (Red_ScheduledStartAt r);
            RDTO_ScheduledEndAt := FormatShanghai (Red_ScheduledEndAt r);
            RDTO_Status := Red_Status r;
            RDTO_CanCancel := redemptionCanCancel row (view_delivery_status row);
            RDTO_DeliveryStatus := view_delivery_status row;
            RDTO_Timeline := redemptionTimeline row;
            RDTO_AllocationSummary :=
              map (fun v => {| ADTO_LotNo := AV_LotNo v;
                               ADTO_Quantity := RA_Quantity (AV_Allocation v);
                               ADTO_Status := RA_Status (AV_Allocation v) |}) allocations;
            RDTO_CancelResult :=
              if String.eqb (Red_Status r) RedemptionStatusCancelled
              then Some (if existsb expired_restore allocations
                         then "酒票已按原有效期恢复，已到期部分已同步核销"
                         else "酒票已按原有效期恢复")
              else None;
            RDTO_ReturnResult :=
              if String.eqb (Red_Status r) RedemptionStatusReturnInProgress
              then Some "退回处理中，完整收货后恢复酒票"
              else if String.eqb (Red_Status r) RedemptionStatusRestored
              then Some "退回验收完成，酒票已按原有效期恢复"
              else if String.eqb (Red_Status r) RedemptionStatusException
              then Some "履约事实待复核，请联系客服" else None;
            RDTO_Version := Red_Version r;
            RDTO_CreatedAt := FormatShanghai (Red_CreatedAt r);
            RDTO_UpdatedAt := FormatShanghai (Red_UpdatedAt r) |}
      end
  end.

Definition redemptionSlotDTO (row : redemptionSlotRelation) (startAt endAt now : time)
    : RedemptionDeliveryTimeSlotDTO := {|
  SDTO_SlotID := IDString (Rel_SlotID row); SDTO_ShopID := IDString (Rel_ShopID row);
  SDTO_ShopName := Rel_ShopName row; SDTO_IssuerMerchantID := IDString (Rel_MerchantID row);
  SDTO_IssuerMerchantDisplayName := Rel_MerchantName row;
  SDTO_ScheduledStartAt := FormatShanghai startAt; SDTO_ScheduledEndAt := FormatShanghai endAt;
  SDTO_CutoffAt := FormatShanghai (Rel_CutoffAt row);
  SDTO_AvailabilityStatus :=
    if negb (String.eqb (Rel_SlotStatus row) "open") then "closed"
    else if negb (after (Rel_CutoffAt row) now) then "cutoff"
    else if Rel_CapacityOrders row <=? Rel_ReservedOrders row then "full" else "open";
  SDTO_RemainingCapacity :=
    if Rel_ReservedOrders row <? Rel_CapacityOrders row
    then uint_sub (Rel_CapacityOrders row) (Rel_ReservedOrders row) else 0;
  SDTO_Version := Rel_SlotVersion row |}.

(** ** The response the idempotency store keeps *)

Definition timeline_json (t : RedemptionTimelineItemDTO) : json :=
  JObj ([("status", JStr (TL_Status t)); ("occurred_at", JStr (TL_OccurredAt t))] ++
        if String.eqb (TL_SafeMessage t) "" then []
        else [("safe_message", JStr (TL_SafeMessage t))]).

Definition allocation_summary_json (a : RedemptionAllocationDTO) : json :=
  JObj [("lot_no", JStr (ADTO_LotNo a)); ("quantity", JNum (ADTO_Quantity a));
        ("status", JStr (ADTO_Status a))].

Definition RedemptionDTO_json (d : RedemptionDTO) : json :=
  JObj [("redemption_no", JStr (RDTO_RedemptionNo d)); ("order_no", JStr (RDTO_OrderNo d));
        ("product", ProductSummaryDTO_json (RDTO_Product d));
        ("quantity", JNum (RDTO_Quantity d)); ("address_summary", JStr (RDTO_AddressSummary d));
        ("shop_name", JStr (RDTO_ShopName d));
        ("scheduled_start_at", JStr (RDTO_ScheduledStartAt d));
        ("scheduled_end_at", JStr (RDTO_ScheduledEndAt d)); ("status", JStr (RDTO_Status d));
        ("can_cancel", JBool (RDTO_CanCancel d));
        ("delivery_status", JStr (RDTO_DeliveryStatus d));
        ("timeline", JArr (map timeline_json (RDTO_Timeline d)));
        ("allocation_summary", JArr (map allocation_summary_json (RDTO_AllocationSummary d)));
        ("cancel_result", opt_str (RDTO_CancelResult d));
        ("return_result", opt_str (RDTO_ReturnResult d)); ("version", JNum (RDTO_Version d));
        ("created_at", JStr (RDTO_CreatedAt d)); ("updated_at", JStr (RDTO_UpdatedAt d))].

Definition timeline_of_json (j : json) : option RedemptionTimelineItemDTO :=
  status ← as_string (field "status" j);
  at_ ← as_string (field "occurred_at" j);
  message ← as_string (field "safe_message" j);
  Some {| TL_Status := status; TL_OccurredAt := at_; TL_SafeMessage := message |}.

Definition allocation_summary_of_json (j : json) : option RedemptionAllocationDTO :=
  lot ← as_string (field "lot_no" j);
  quantity ← as_uint (field "quantity" j);
  status ← as_string (field "status" j);
  Some {| ADTO_LotNo := lot; ADTO_Quantity := quantity; ADTO_Status := status |}.

(** A slice member; a missing one and [null] leave it empty. *)
Definition as_slice {A} (element : json -> option A) (j : option json) : option (list A) :=
  match j with
  | Some (JArr l) => mapM element l
  | None | Some JNull => Some []
  | _ => None
  end.

Definition RedemptionDTO_of_json (j : json) : option RedemptionDTO :=
  no ← as_string (field "redemption_no" j);
  order ← as_string (field "order_no" j);
  product ← ProductSummaryDTO_of_json (default JNull (field "product" j));
  quantity ← as_uint (field "quantity" j);
  address ← as_string (field "address_summary" j);
  shop ← as_string (field "shop_name" j);
  start ← as_string (field "scheduled_start_at" j);
  stop ← as_string (field "scheduled_end_at" j);
  status ← as_string (field "status" j);
  can ← as_bool (field "can_cancel" j);
  delivery ← as_string (field "delivery_status" j);
  timeline ← as_slice timeline_of_json (field "timeline" j);
  allocations ← as_slice allocation_summary_of_json (field "allocation_summary" j);
  cancel ← as_string_ptr (field "cancel_result" j);
  return_ ← as_string_ptr (field "return_result" j);
  version ← as_uint (field "version" j);
  created ← as_string (field "created_at" j);
  updated ← as_string (field "updated_at" j);
  Some {| RDTO_RedemptionNo := no; RDTO_OrderNo := order; RDTO_Product := product;
          RDTO_Quantity := quantity; RDTO_AddressSummary := address; RDTO_ShopName := shop;
          RDTO_ScheduledStartAt := start; RDTO_ScheduledEndAt := stop; RDTO_Status := status;
          RDTO_CanCancel := can; RDTO_DeliveryStatus := delivery; RDTO_Timeline := timeline;
          RDTO_AllocationSummary := allocations; RDTO_CancelResult := cancel;
          RDTO_ReturnResult := return_; RDTO_Version := version; RDTO_CreatedAt := created;
          RDTO_UpdatedAt := updated |}.

#[export] Instance RedemptionDTO_codec : JsonCodec RedemptionDTO :=
  {| encode := RedemptionDTO_json; decode := RedemptionDTO_of_json |}.

Lemma timeline_roundtrip t : timeline_of_json (timeline_json t) = Some t.
Proof. destruct t as [s a m]. unfold timeline_json. by destruct m. Qed.

Lemma mapM_roundtrip {A B} (f : A -> B) (g : B -> option A) l :
  (forall x, x ∈ l -> g (f x) = Some x) -> mapM g (map f l) = Some l.
Proof.
  induction l as [|x l IH]; intros Hg; simpl; [done|].
  rewrite Hg by by left. simpl. rewrite IH; [done|]. intros y Hy. apply Hg. by right.
Qed.

Lemma as_uint_num z : in_u64 z -> as_uint (Some (JNum z)) = Some z.
Proof. intros H. simpl. unfold in_u64 in H. by replace ((0 <=? z) && (z <? u64_mod)) with true by lia. Qed.

Lemma allocation_summary_roundtrip a : in_u64 (ADTO_Quantity a) ->
  allocation_summary_of_json (allocation_summary_json a) = Some a.
Proof.
  destruct a as [l q s]. intros H. unfold allocation_summary_of_json. simpl field.
  rewrite (as_uint_num q H). reflexivity.
Qed.

#[local] Arguments as_string_ptr : simpl never.
#[local] Arguments as_uint : simpl never.
#[local] Arguments as_slice : simpl never.

#[export] Instance RedemptionDTO_lawful : LawfulCodec RedemptionDTO.
Proof.
  exists (fun d => in_u64 (RDTO_Quantity d) /\ in_u64 (RDTO_Version d) /\
                   Forall (fun a => in_u64 (ADTO_Quantity a)) (RDTO_AllocationSummary d)).
  intros d (Hq & Hv & Ha). destruct d as [no ord [pid name brand spec image] q addr shop st en
    status can del tl al cr rr v cre upd]. simpl in *.
  unfold RedemptionDTO_of_json, ProductSummaryDTO_of_json. simpl.
  rewrite !as_string_ptr_opt_str, !as_uint_num by done. simpl.
  unfold as_slice. rewrite (mapM_roundtrip timeline_json) by (intros; apply timeline_roundtrip).
  simpl. rewrite (mapM_roundtrip allocation_summary_json).
  - reflexivity.
  - rewrite Forall_forall in Ha. intros a Hin. apply allocation_summary_roundtrip. auto.
Defined.
