(* ===== verification/PurchaseDto.v ===== *)
(** * Requests, snapshots and responses of the purchase component

    [wineticket/purchase/dto.go], the snapshot and the response of
    [service.go], and the policies of [core/policy.go] a purchase keeps. *)

From S2P Require Import Prelude GoInt GoString GoTime Json Problem.
From S2P Require Import CoreModel GiftModel RedemptionModel PurchaseModel RedemptionSlot GiftDto.
From S2P Require Import RedemptionDto.
From Stdlib Require Import String.
#[local] Open Scope string_scope. #[local] Open Scope list_scope. #[local] Open Scope Z_scope.

Record PurchaseCreateRequest := {
  PReq_PackageNo : string;
  PReq_Quantity : Z;
}.

Definition PurchaseCreateRequest_json (r : PurchaseCreateRequest) : json :=
  JObj [("package_no", JStr (PReq_PackageNo r)); ("quantity", JNum (PReq_Quantity r))].

Record PurchaseLotDTO := {
  LDTO_LotNo : string;
  LDTO_AvailableQuantity : Z;
  LDTO_HeldQuantity : Z;
  LDTO_ExpiresAt : string;
  LDTO_Status : string;
}.

Record PurchaseDTO := {
  PDTO_PurchaseNo : string;
  PDTO_PackageNo : string;
  PDTO_PackageName : string;
  PDTO_PackageVersion : Z;
  PDTO_PackageSnapshotSummary : string;
  PDTO_Product : ProductSummaryDTO;
  PDTO_PackageType : string;
  PDTO_PackageQuantity : Z;
  PDTO_TotalBottleQuantity : Z;
  PDTO_PayableAmount : Z;
  PDTO_PaidAmount : Z;
  PDTO_RemainingBottleQuantity : Z;
  PDTO_HeldBottleQuantity : Z;
  PDTO_LotCount : Z;
  PDTO_LotSummaries : list PurchaseLotDTO;
  PDTO_RefundPolicySummary : string;
  PDTO_RefundEligible : bool;
  PDTO_RefundStatus : option string;
  PDTO_RefundKind : option string;
  PDTO_SafeStatusMessage : option string;
  PDTO_LastRequestID : option string;
  PDTO_Currency : string;
  PDTO_Status : string;
  PDTO_PaymentStatus : string;
  PDTO_PaymentParameters : option json;
  PDTO_RefundNo : option string;
  PDTO_Version : Z;
  PDTO_PaidAt : option string;
  PDTO_IssuedAt : option string;
  PDTO_CreatedAt : string;
  PDTO_UpdatedAt : string;
}.

(** A map from texts to documents that is not empty. *)
Definition decodePaymentParameters (raw : option json) : option json :=
  match raw with
  | Some (JObj (m :: l)) => Some (JObj (m :: l))
  | Some (JMap (m :: l)) => Some (JMap (m :: l))
  | _ => None
  end.

(** ** The package a purchase was made from *)

Record purchasePackageSnapshot := {
  Snap_SchemaVersion : Z;
  Snap_PackageNo : string;
  Snap_PackageCode : string;
  Snap_PackageName : string;
  Snap_PackageType : string;
  Snap_PackageVersion : Z;
  Snap_ValidityDays : Z;
  Snap_BottleQuantity : Z;
  Snap_UnitPriceAmount : Z;
  Snap_IssuerMerchantID : string;
  Snap_SettlementShopID : string;
  Snap_SettlementShopProductID : string;
  Snap_RedeemCityCode : string;
  Snap_Product : ProductSummaryDTO;
}.

Definition purchasePackageSnapshot_json (s : purchasePackageSnapshot) : json :=
  JObj [("schema_version", JNum (Snap_SchemaVersion s)); ("package_no", JStr (Snap_PackageNo s));
        ("package_code", JStr (Snap_PackageCode s)); ("package_name", JStr (Snap_PackageName s));
        ("package_type", JStr (Snap_PackageType s));
        ("package_version", JNum (Snap_PackageVersion s));
        ("validity_days", JNum (Snap_ValidityDays s));
        ("bottle_quantity", JNum (Snap_BottleQuantity s));
        ("unit_price_amount", JNum (Snap_UnitPriceAmount s));
        ("issuer_merchant_id", JStr (Snap_IssuerMerchantID s));
        ("settlement_shop_id", JStr (Snap_SettlementShopID s));
        ("settlement_shop_product_id", JStr (Snap_SettlementShopProductID s));
        ("redeem_city_code", JStr (Snap_RedeemCityCode s));
        ("product", ProductSummaryDTO_json (Snap_Product s))].

Definition snapshot_of_json (j : json) : option purchasePackageSnapshot :=
  schema ← as_int (field "schema_version" j);
  no ← as_string (field "package_no" j);
  code ← as_string (field "package_code" j);
  name ← as_string (field "package_name" j);
  type ← as_string (field "package_type" j);
  version ← as_uint (field "package_version" j);
  days ← as_uint (field "validity_days" j);
  bottles ← as_uint (field "bottle_quantity" j);
  price ← as_int (field "unit_price_amount" j);
  issuer ← as_string (field "issuer_merchant_id" j);
  shop ← as_string (field "settlement_shop_id" j);
  shopProduct ← as_string (field "settlement_shop_product_id" j);
  city ← as_string (field "redeem_city_code" j);
  product ← ProductSummaryDTO_of_json (default JNull (field "product" j));
  Some {| Snap_SchemaVersion := schema; Snap_PackageNo := no; Snap_PackageCode := code;
          Snap_PackageName := name; Snap_PackageType := type; Snap_PackageVersion := version;
          Snap_ValidityDays := days; Snap_BottleQuantity := bottles; Snap_UnitPriceAmount := price;
          Snap_IssuerMerchantID := issuer; Snap_SettlementShopID := shop;
          Snap_SettlementShopProductID := shopProduct; Snap_RedeemCityCode := city;
          Snap_Product := product |}.

Definition invalid_snapshot : error :=
  Internal "wine ticket purchase package snapshot is invalid".

Definition parsePurchaseSnapshot (raw : json) : res purchasePackageSnapshot :=
  match snapshot_of_json raw with
  | None => Err invalid_snapshot
  | Some snapshot =>
      if negb (Snap_SchemaVersion snapshot =? 1) || String.eqb (Snap_PackageCode snapshot) "" ||
         (Snap_ValidityDays snapshot =? 0) || String.eqb (Snap_PackageNo snapshot) ""
      then Err invalid_snapshot
      else Ok snapshot
  end.

(** ** Policies: [core/policy.go] *)

Definition refund_policy_of_json (j : json) : option RefundPolicy :=
  schema ← as_int (field "schema_version" j);
  enabled ← as_bool (field "enabled" j);
  window ← as_int (field "window_hours" j);
  unused ← as_bool (field "require_never_used" j);
  fee ← as_int (field "fee_amount" j);
  if is_object j
  then Some {| Refund_SchemaVersion := schema; Refund_Enabled := enabled;
               Refund_WindowHours := window; Refund_RequireNeverUsed := unused;
               Refund_FeeAmount := fee |}
  else None.

Definition renewal_policy_of_json (j : json) : option RenewalPolicy :=
  schema ← as_int (field "schema_version" j);
  enabled ← as_bool (field "enabled" j);
  days ← as_int (field "extension_days" j);
  count ← as_int (field "max_count" j);
  grace ← as_int (field "grace_days" j);
  fee ← as_int (field "fee_amount" j);
  if is_object j
  then Some {| Renewal_SchemaVersion := schema; Renewal_Enabled := enabled;
               Renewal_ExtensionDays := days; Renewal_MaxCount := count;
               Renewal_GraceDays := grace; Renewal_FeeAmount := fee |}
  else None.

Definition delivery_policy_of_json (j : json) : option DeliveryPolicy :=
  schema ← as_int (field "schema_version" j);
  included ← as_bool (field "delivery_fee_included" j);
  lead ← as_int (field "dispatch_lead_minutes" j);
  if is_object j
  then Some {| Delivery_SchemaVersion := schema; Delivery_DeliveryFeeIncluded := included;
               Delivery_DispatchLeadMinutes := lead |}
  else None.

(** The members of a document that is an object. *)
Definition members (j : json) : option (list (string * json)) :=
  match j with JObj l | JMap l => Some l | _ => None end.

Definition is_null (j : json) : bool := match j with JNull => true | _ => false end.

(** [DecodePolicyJSON] into the type [decode_into] reads, whose members are the
    required ones: all of them there and not null, and no other. *)
Definition DecodePolicyJSON {A} (decode_into : json -> option A) (required : list string)
    (raw : json) : option A :=
  l ← members raw;
  if forallb (fun name => match assoc name l with
                          | Some value => negb (is_null value)
                          | None => false
                          end) required &&
     forallb (fun kv => existsb (String.eqb kv.1) required) l
  then decode_into raw else None.

(** ** The response *)

(** [LotFactRecord]: a lot with what the projection joins to it. *)
Record LotFactRecord := {
  Fact_Lot : Lot;
  Fact_PurchaseNo : string;
  Fact_SourceLotNo : option string;
  Fact_SourceGiftNo : option string;
  Fact_ProductName : string;
  Fact_ProductBrandName : option string;
  Fact_ProductSpec : option string;
  Fact_ProductImageURL : option string;
  Fact_IssuerMerchantName : string;
  Fact_RedemptionHeld : Z;
  Fact_GiftHeld : Z;
  Fact_RefundHeld : Z;
  Fact_ExtractedQuantity : Z;
  Fact_ActiveRenewalCount : Z;
  Fact_RenewalPolicy : json;
}.

Definition HeldQuantity (row : LotFactRecord) : Z :=
  uint_add (uint_add (Fact_RedemptionHeld row) (Fact_GiftHeld row)) (Fact_RefundHeld row).

(** [PurchaseRecord]: a purchase with what its projection joins to it. *)
Record PurchaseRecord := {
  Rec_Purchase : Purchase;
  Rec_PackageNo : string;
  Rec_PackageCode : string;
  Rec_PackageName : string;
  Rec_PackageType : string;
  Rec_ProductName : string;
  Rec_ProductBrandName : option string;
  Rec_ProductSpec : option string;
  Rec_ProductImageURL : option string;
  Rec_PaymentNo : string;
  Rec_PaymentStatus : string;
  Rec_ProviderStatus : option string;
  Rec_ClientPayload : option json;
  Rec_RefundStatus : option string;
  Rec_RefundKind : option string;
  Rec_RefundNo : option string;
}.

Definition lot_summary (fact : LotFactRecord) : PurchaseLotDTO := {|
  LDTO_LotNo := Lot_LotNo (Fact_Lot fact);
  LDTO_AvailableQuantity := Lot_AvailableQuantity (Fact_Lot fact);
  LDTO_HeldQuantity := HeldQuantity fact;
  LDTO_ExpiresAt := FormatShanghai (Lot_ExpiresAt (Fact_Lot fact));
  LDTO_Status := Lot_Status (Fact_Lot fact) |}.

(** The bottles of a lot were never touched. *)
Definition untouched (fact : LotFactRecord) : bool :=
  negb (Lot_EverUsed (Fact_Lot fact) ||
        negb (Lot_AvailableQuantity (Fact_Lot fact) =? Lot_TotalQuantity (Fact_Lot fact)) ||
        negb (HeldQuantity fact =? 0)).

Definition safe_status_message (status : string) : option string :=
  if String.eqb status PurchaseStatusPaymentUnknown then Some "支付结果确认中，请稍后刷新"
  else if String.eqb status PurchaseStatusSettlementException
  then Some "支付已确认，酒票正在安全补发，请勿重复支付"
  else if String.eqb status PurchaseStatusClosed then Some "支付未完成，购买已关闭"
  else None.

Definition purchaseRecordDTO (row : PurchaseRecord) (facts : list LotFactRecord)
    : res PurchaseDTO :=
  let p := Rec_Purchase row in
  match parsePurchaseSnapshot (Pur_PackageSnapshot p) with
  | Err e => Err e
  | Ok snapshot =>
      match refund_policy_of_json (Pur_RefundPolicySnapshot p) with
      | None => Err (Internal "wine ticket purchase refund policy snapshot is invalid")
      | Some refundPolicy =>
          let remaining := fold_left (fun n f => uint_add n (Lot_AvailableQuantity (Fact_Lot f)))
                             facts 0 in
          let held := fold_left (fun n f => uint_add n (HeldQuantity f)) facts 0 in
          let allUnused := negb (bool_decide (List.length facts = 0%nat)) &&
                           forallb untouched facts in
          Ok {|
            PDTO_PurchaseNo := Pur_PurchaseNo p; PDTO_PackageNo := Rec_PackageNo row;
            PDTO_PackageName := Rec_PackageName row; PDTO_PackageVersion := Pur_PackageVersion p;
            PDTO_PackageSnapshotSummary :=
              Snap_PackageName snapshot +:+ "，共" +:+ format_uint (Pur_TotalBottleQuantity p) +:+
              "瓶，有效期" +:+ format_uint (Snap_ValidityDays snapshot) +:+ "天";
            PDTO_Product := {|
              PS_ProductID := IDString (Pur_ProductID p); PS_Name := Rec_ProductName row;
              PS_BrandName := Rec_ProductBrandName row; PS_Spec := Rec_ProductSpec row;
              PS_ImageURL := Rec_ProductImageURL row |};
            PDTO_PackageType := Rec_PackageType row;
            PDTO_PackageQuantity := Pur_PackageQuantity p;
            PDTO_TotalBottleQuantity := Pur_TotalBottleQuantity p;
            PDTO_PayableAmount := Pur_PayableAmount p; PDTO_PaidAmount := Pur_PaidAmount p;
            PDTO_RemainingBottleQuantity := remaining; PDTO_HeldBottleQuantity := held;
            PDTO_LotCount := Z.of_nat (List.length facts);
            PDTO_LotSummaries := map lot_summary (firstn 20 facts);
            PDTO_RefundPolicySummary := RefundPolicySummary refundPolicy;
            PDTO_RefundEligible :=
              String.eqb (Pur_Status p) PurchaseStatusIssued && allUnused &&
              (remaining =? Pur_TotalBottleQuantity p);
            PDTO_RefundStatus := Rec_RefundStatus row; PDTO_RefundKind := Rec_RefundKind row;
            PDTO_SafeStatusMessage := safe_status_message (Pur_Status p);
            PDTO_LastRequestID := None; PDTO_Currency := Pur_Currency p;
            PDTO_Status := Pur_Status p; PDTO_PaymentStatus := Rec_PaymentStatus row;
            PDTO_PaymentParameters :=
              if String.eqb (Rec_PaymentStatus row) "pending"
              then decodePaymentParameters (Rec_ClientPayload row) else None;
            PDTO_RefundNo := Rec_RefundNo row; PDTO_Version := Pur_Version p;
            PDTO_PaidAt := OptionalTimeString (Pur_PaidAt p);
            PDTO_IssuedAt := OptionalTimeString (Pur_IssuedAt p);
            PDTO_CreatedAt := FormatShanghai (Pur_CreatedAt p);
            PDTO_UpdatedAt := FormatShanghai (Pur_UpdatedAt p) |}
      end
  end.

(** ** The response the idempotency store keeps *)

Definition PurchaseLotDTO_json (d : PurchaseLotDTO) : json :=
  JObj [("lot_no", JStr (LDTO_LotNo d)); ("available_quantity", JNum (LDTO_AvailableQuantity d));
        ("held_quantity", JNum (LDTO_HeldQuantity d)); ("expires_at", JStr (LDTO_ExpiresAt d));
        ("status", JStr (LDTO_Status d))].

Definition PurchaseLotDTO_of_json (j : json) : option PurchaseLotDTO :=
  no ← as_string (field "lot_no" j);
  available ← as_uint (field "available_quantity" j);
  held ← as_uint (field "held_quantity" j);
  expires ← as_string (field "expires_at" j);
  status ← as_string (field "status" j);
  Some {| LDTO_LotNo := no; LDTO_AvailableQuantity := available; LDTO_HeldQuantity := held;
          LDTO_ExpiresAt := expires; LDTO_Status := status |}.

Definition PurchaseDTO_json (d : PurchaseDTO) : json :=
  JObj [("purchase_no", JStr (PDTO_PurchaseNo d)); ("package_no", JStr (PDTO_PackageNo d));
        ("package_name", JStr (PDTO_PackageName d));
        ("package_version", JNum (PDTO_PackageVersion d));
        ("package_snapshot_summary", JStr (PDTO_PackageSnapshotSummary d));
        ("product", ProductSummaryDTO_json (PDTO_Product d));
        ("package_type", JStr (PDTO_PackageType d));
        ("package_quantity", JNum (PDTO_PackageQuantity d));
        ("total_bottle_quantity", JNum (PDTO_TotalBottleQuantity d));
        ("payable_amount", JNum (PDTO_PayableAmount d));
        ("paid_amount", JNum (PDTO_PaidAmount d));
        ("remaining_bottle_quantity", JNum (PDTO_RemainingBottleQuantity d));
        ("held_bottle_quantity", JNum (PDTO_HeldBottleQuantity d));
        ("lot_count", JNum (PDTO_LotCount d));
        ("lot_summaries", JArr (map PurchaseLotDTO_json (PDTO_LotSummaries d)));
        ("refund_policy_summary", JStr (PDTO_RefundPolicySummary d));
        ("refund_eligible", JBool (PDTO_RefundEligible d));
        ("refund_status", opt_str (PDTO_RefundStatus d));
        ("refund_kind", opt_str (PDTO_RefundKind d));
        ("safe_status_message", opt_str (PDTO_SafeStatusMessage d));
        ("last_request_id", opt_str (PDTO_LastRequestID d));
        ("currency", JStr (PDTO_Currency d)); ("status", JStr (PDTO_Status d));
        ("payment_status", JStr (PDTO_PaymentStatus d));
        ("payment_parameters", default JNull (PDTO_PaymentParameters d));
        ("refund_no", opt_str (PDTO_RefundNo d)); ("version", JNum (PDTO_Version d));
        ("paid_at", opt_str (PDTO_PaidAt d)); ("issued_at", opt_str (PDTO_IssuedAt d));
        ("created_at", JStr (PDTO_CreatedAt d)); ("updated_at", JStr (PDTO_UpdatedAt d))].

Definition as_list {A} (of_json : json -> option A) (j : option json) : option (list A) :=
  match j with
  | Some (JArr l) => mapM of_json l
  | None | Some JNull => Some []
  | _ => None
  end.

(** A [map[string]any] *)
Definition as_map (j : option json) : option (option json) :=
  match j with
  | None | Some JNull => Some None
  | Some (JObj l) => Some (Some (JObj l))
  | Some (JMap l) => Some (Some (JMap l))
  | _ => None
  end.

Definition PurchaseDTO_of_json (j : json) : option PurchaseDTO :=
  no ← as_string (field "purchase_no" j);
  packageNo ← as_string (field "package_no" j);
  name ← as_string (field "package_name" j);
  packageVersion ← as_uint (field "package_version" j);
  summary ← as_string (field "package_snapshot_summary" j);
  product ← ProductSummaryDTO_of_json (default JNull (field "product" j));
  type ← as_string (field "package_type" j);
  quantity ← as_uint (field "package_quantity" j);
  total ← as_uint (field "total_bottle_quantity" j);
  payable ← as_int (field "payable_amount" j);
  paid ← as_int (field "paid_amount" j);
  remaining ← as_uint (field "remaining_bottle_quantity" j);
  held ← as_uint (field "held_bottle_quantity" j);
  count ← as_uint (field "lot_count" j);
  lots ← as_list PurchaseLotDTO_of_json (field "lot_summaries" j);
  refundPolicy ← as_string (field "refund_policy_summary" j);
  eligible ← as_bool (field "refund_eligible" j);
  refundStatus ← as_string_ptr (field "refund_status" j);
  refundKind ← as_string_ptr (field "refund_kind" j);
  message ← as_string_ptr (field "safe_status_message" j);
  lastRequest ← as_string_ptr (field "last_request_id" j);
  currency ← as_string (field "currency" j);
  status ← as_string (field "status" j);
  paymentStatus ← as_string (field "payment_status" j);
  parameters ← as_map (field "payment_parameters" j);
  refundNo ← as_string_ptr (field "refund_no" j);
  version ← as_uint (field "version" j);
  paidAt ← as_string_ptr (field "paid_at" j);
  issuedAt ← as_string_ptr (field "issued_at" j);
  createdAt ← as_string (field "created_at" j);
  updatedAt ← as_string (field "updated_at" j);
  Some {| PDTO_PurchaseNo := no; PDTO_PackageNo := packageNo; PDTO_PackageName := name;
          PDTO_PackageVersion := packageVersion; PDTO_PackageSnapshotSummary := summary;
          PDTO_Product := product; PDTO_PackageType := type; PDTO_PackageQuantity := quantity;
          PDTO_TotalBottleQuantity := total; PDTO_PayableAmount := payable;
          PDTO_PaidAmount := paid; PDTO_RemainingBottleQuantity := remaining;
          PDTO_HeldBottleQuantity := held; PDTO_LotCount := count; PDTO_LotSummaries := lots;
          PDTO_RefundPolicySummary := refundPolicy; PDTO_RefundEligible := eligible;
          PDTO_RefundStatus := refundStatus; PDTO_RefundKind := refundKind;
          PDTO_SafeStatusMessage := message; PDTO_LastRequestID := lastRequest;
          PDTO_Currency := currency; PDTO_Status := status; PDTO_PaymentStatus := paymentStatus;
          PDTO_PaymentParameters := parameters; PDTO_RefundNo := refundNo;
          PDTO_Version := version; PDTO_PaidAt := paidAt; PDTO_IssuedAt := issuedAt;
          PDTO_CreatedAt := createdAt; PDTO_UpdatedAt := updatedAt |}.

#[export] Instance PurchaseDTO_codec : JsonCodec PurchaseDTO :=
  {| encode := PurchaseDTO_json; decode := PurchaseDTO_of_json |}.
