(* ===== verification/GiftRepository.v ===== *)
(** * The gift repository: [wineticket/gift/repository.go]

    Every query of the gift service, on the tables of [Database].  A [FOR
    UPDATE] lock is implicit: a transaction runs alone. *)

From S2P Require Import Prelude GoInt GoString GoTime Json Problem.
From S2P Require Import CoreModel GiftModel AssetLaws Database IntegrityScan GiftDto.
From Stdlib Require Import String.
#[local] Open Scope string_scope. #[local] Open Scope list_scope. #[local] Open Scope Z_scope.
#[local] Open Scope go_scope.

Definition createAudit (values : AuditLog) : G unit := create_row values.
Definition createOutbox (values : OutboxEvent) : G unit := create_row values.

(** [customerAccount]: a customer that is not deleted. *)
Definition customerAccount (customerID : Z) : G Customer :=
  take_row (fun c => (Customer_ID c =? customerID) && bool_decide (Customer_DeletedAt c = None)).

Definition customerRealname (customerID : Z) : G Realname :=
  take_row (fun r => Realname_CustomerID r =? customerID).

Definition pendingIdentityVerification (customerID : Z) (now : time) : G bool :=
  count <- count_rows (fun r =>
    (Identity_CustomerID r =? customerID) &&
    existsb (String.eqb (Identity_Status r)) ["creating_session"; "pending"] &&
    match Identity_SessionExpiresAt r with None => true | Some e => now <? e end) ;;
  ret (0 <? count).

(** ** The projection of a gift *)

(** The joins of [giftProjectionQuery] for one gift; a gift whose product is
    missing is not selected. *)
Definition project_gift_row (db : Database) (g : Gift) : option giftProjection :=
  let nickname id :=
    c ← find (fun c => (Customer_ID c =? id) && bool_decide (Customer_DeletedAt c = None))
          (db_customers db);
    Customer_Nickname c in
  p ← find (fun p => Product_ID p =? Gift_ProductID g) (db_products db);
  Some {| Proj_Gift := g; Proj_ProductName := Product_Name p;
          Proj_ProductBrandName := Product_BrandName p; Proj_ProductSpec := Product_Spec p;
          Proj_ProductImageURL := Product_ImageURL p;
          Proj_GiverNickname := nickname (Gift_GiverCustomerID g);
          Proj_ReceiverNickname := r ← Gift_ReceiverCustomerID g; nickname r |}.

(** The first selected row of the projection, in the order of the table. *)
Fixpoint first_projection (db : Database) (p : Gift -> bool) (l : list Gift)
    : option giftProjection :=
  match l with
  | [] => None
  | g :: l' =>
      match (if p g then project_gift_row db g else None) with
      | Some row => Some row
      | None => first_projection db p l'
      end
  end.

Definition take_projection (p : Database -> Gift -> bool) : G giftProjection :=
  exec (fun db => match first_projection db (p db) (db_gifts db) with
                  | Some row => Ok (row, db)
                  | None => Err ERecordNotFound
                  end).

Definition customerGiftByNo (customerID : Z) (giftNo : string) : G giftProjection :=
  take_projection (fun _ g =>
    String.eqb (Gift_GiftNo g) giftNo &&
    ((Gift_GiverCustomerID g =? customerID) ||
     match Gift_ReceiverCustomerID g with Some r => r =? customerID | None => false end)).

Definition giftProjectionByID (giftID : Z) : G giftProjection :=
  take_projection (fun _ g => Gift_ID g =? giftID).

(** The token condition of [previewByTokenDigest]. *)
Definition preview_token (digest : string) (now : time) (giftID : Z) (t : GiftClaimToken) : bool :=
  (Token_GiftID t =? giftID) && String.eqb (Token_TokenDigest t) digest &&
  bool_decide (Token_ConsumedAt t = None) && bool_decide (Token_RevokedAt t = None) &&
  (now <? Token_ExpiresAt t).

Definition preview_gift (digest : string) (now : time) (db : Database) (g : Gift) : bool :=
  existsb (preview_token digest now (Gift_ID g)) (db_gift_tokens db) &&
  String.eqb (Gift_Status g) GiftStatusPending &&
  (now <? Gift_ClaimDeadline g) && (now <? Gift_EarliestExpiresAt g).

Definition previewByTokenDigest (digest : string) (now : time) : G giftProjection :=
  take_projection (preview_gift digest now).

(** ** Lots *)

(** A lot bottles can be given from. *)
Definition giftable (ownerID : Z) (now : time) (l : Lot) : bool :=
  (Lot_OwnerCustomerID l =? ownerID) && String.eqb (Lot_Status l) LotStatusActive &&
  (0 <? Lot_AvailableQuantity l) && (now <? Lot_ExpiresAt l).

Definition giftAnchorLot (ownerID : Z) (lotNo : string) (now : time) : G Lot :=
  take_row (fun l => String.eqb (Lot_LotNo l) lotNo && giftable ownerID now l).

(** The same owner, issuer, city and product. *)
Definition same_group (anchor l : Lot) : bool :=
  (Lot_IssuerMerchantID l =? Lot_IssuerMerchantID anchor) &&
  String.eqb (Lot_RedeemCityCode l) (Lot_RedeemCityCode anchor) &&
  (Lot_ProductID l =? Lot_ProductID anchor).

Definition lockGiftGroupLots (anchor : Lot) (now : time) : G (list Lot) :=
  find_rows (fun l => giftable (Lot_OwnerCustomerID anchor) now l && same_group anchor l)
    (sort_by (by_keys [Lot_ExpiresAt; Lot_ID])).

Definition activeRenewalForLots (lotIDs : list Z) : G bool :=
  match lotIDs with
  | [] => ret false
  | _ =>
      rows <- find_rows (fun r => id_in lotIDs (RG_LotID r) &&
                existsb (String.eqb (RG_Status r))
                  ["pending_payment"; "payment_unknown"; "applying"; "compensating_refund";
                   "refund_exception"])
                (sort_by (by_keys [RG_ID])) ;;
      ret (0 <? Z.of_nat (List.length rows))
  end.

(** The distinct non-zero identifiers, ascending. *)
Fixpoint canonical_ids (seen ids : list Z) : list Z :=
  match ids with
  | [] => []
  | id :: rest =>
      if (id =? 0) || id_in seen id then canonical_ids seen rest
      else id :: canonical_ids (id :: seen) rest
  end.

Definition lockGiftLots (lotIDs : list Z) : G (list Lot) :=
  match canonical_ids [] lotIDs with
  | [] => ret []
  | ids => find_rows (fun l => id_in (sort_by (by_keys [fun x => x]) ids) (Lot_ID l))
             (sort_by (by_keys [Lot_ID]))
  end.

(** ** Gifts, allocations and tokens *)

Definition createGift (row : Gift) : G unit := create_row row.
Definition createGiftAllocation (row : GiftAllocation) : G unit := create_row row.
Definition createGiftToken (row : GiftClaimToken) : G unit := create_row row.

Definition lockGiftByNo (giftNo : string) : G Gift :=
  take_row (fun g => String.eqb (Gift_GiftNo g) giftNo).

Definition lockGiftByID (giftID : Z) : G Gift := take_row (fun g => Gift_ID g =? giftID).

(** An update that has to change exactly one row. *)
Definition update_one {R} `{Table R} (p : R -> bool) (f : R -> R) : G unit :=
  affected <- update_rows p f ;;
  fail_if (negb (affected =? 1)) ERecordNotFound.

Definition updateGift (giftID expectedVersion : Z) (change : Gift -> Gift) : G unit :=
  update_one (fun g => (Gift_ID g =? giftID) && (Gift_Version g =? expectedVersion)) change.

Definition updateGiftAllocation (allocationID : Z) (change : GiftAllocation -> GiftAllocation)
    : G unit :=
  update_one (fun a => GA_ID a =? allocationID) change.

Definition updateGiftToken (tokenID : Z) (change : GiftClaimToken -> GiftClaimToken) : G unit :=
  update_one (fun t => Token_ID t =? tokenID) change.

Definition lockGiftTokens (giftID : Z) : G (list GiftClaimToken) :=
  find_rows (fun t => Token_GiftID t =? giftID) (sort_by (by_keys [Token_ID])).

Definition lockGiftAllocations (giftID : Z) : G (list GiftAllocation) :=
  find_rows (fun a => GA_GiftID a =? giftID) (sort_by (by_keys [GA_ID])).

Definition giftHoldTransactions (giftID : Z) : G (list Transaction) :=
  find_rows (fun t => String.eqb (Tx_BizType t) "gift" && (Tx_BizID t =? giftID) &&
                      String.eqb (Tx_TransactionType t) TransactionTypeGiftHold)
    (sort_by (by_keys [Tx_ID])).

Definition giftIDByTokenDigest (digest : string) : G Z :=
  token <- take_row (fun t => String.eqb (Token_TokenDigest t) digest) ;;
  ret (Token_GiftID token).

Definition dueGiftIDs (now : time) (limit : nat) : G (list Z) :=
  rows <- find_rows (fun g => String.eqb (Gift_Status g) GiftStatusPending &&
                              (Gift_ClaimDeadline g <=? now))
            (fun l => take limit (sort_by (by_keys [Gift_ClaimDeadline; Gift_ID]) l)) ;;
  ret (map Gift_ID rows).

(** ** Functions of rows already read *)

Definition findLockedToken (tokens : list GiftClaimToken) (digest : string)
    : option GiftClaimToken :=
  find (fun t => String.eqb (Token_TokenDigest t) digest) tokens.

Definition token_active (now : time) (t : GiftClaimToken) : bool :=
  bool_decide (Token_ConsumedAt t = None) && bool_decide (Token_RevokedAt t = None) &&
  after (Token_ExpiresAt t) now.

(** [activeGiftTokenCount]: how many, and the first to expire. *)
Fixpoint activeGiftTokenCount (tokens : list GiftClaimToken) (now : time) (count : Z)
    (earliest : option time) : Z * option time :=
  match tokens with
  | [] => (count, earliest)
  | t :: rest =>
      if negb (token_active now t) then activeGiftTokenCount rest now count earliest
      else activeGiftTokenCount rest now (count + 1)
             (match earliest with
              | None => Some (Token_ExpiresAt t)
              | Some e => Some (if before (Token_ExpiresAt t) e then Token_ExpiresAt t else e)
              end)
  end.

(** [giftLotMap]: the last row of an identifier wins. *)
Definition giftLotMap (rows : list Lot) : gmap Z Lot :=
  fold_left (fun m l => <[Lot_ID l := l]> m) rows ∅.

(** [giftSourceLotIDs] *)
Definition giftSourceLotIDs (allocations : list GiftAllocation) : list Z :=
  fold_left (fun acc a => if id_in acc (GA_SourceLotID a) then acc else acc ++ [GA_SourceLotID a])
    allocations [].
