(* ===== verification/RedemptionRepository.v ===== *)
(** * The redemption repositories

    [wineticket/redemption/repository.go] and [settlement_repository.go]: every
    query of the redemption service and of the fulfilment settlement, on the
    tables of [Database] and [FulfilmentTables]. *)

From S2P Require Import Prelude GoInt GoString GoTime GoDate Json Problem Pagination.
From S2P Require Import CoreModel GiftModel RedemptionModel RedemptionSlot AssetLaws Database.
From S2P Require Import FulfilmentTables IntegrityScan RedemptionDto GiftRepository.
From Stdlib Require Import String.
#[local] Open Scope string_scope. #[local] Open Scope list_scope. #[local] Open Scope Z_scope.
#[local] Open Scope go_scope.

(** ** The relation of a slot *)

Definition not_deleted (deletedAt : option time) : bool := negb (is_set deletedAt).

(** The joins of [redemptionSlotProjection] for one slot.  Each join is on a
    unique key, so it finds one row or none. *)
Definition slot_relation (db : Database) (productID : Z) (slot : DeliveryTimeSlot)
    : option redemptionSlotRelation :=
  let f := db_fulfilment db in
  shop ← find (fun s => (Shop_ID s =? Slot_ShopID slot) && not_deleted (Shop_DeletedAt s))
           (ful_shops f);
  merchant ← find (fun m => (Merchant_ID m =? Shop_MerchantID shop) &&
                            not_deleted (Merchant_DeletedAt m)) (ful_merchants f);
  sp ← find (fun p => (SP_ShopID p =? Slot_ShopID slot) && (SP_ProductID p =? productID) &&
                      not_deleted (SP_DeletedAt p)) (ful_shop_products f);
  product ← find (fun p => (Product_ID p =? SP_ProductID sp) && not_deleted (Product_DeletedAt p))
              (db_products db);
  category ← find (fun c => (Category_ID c =? Product_CategoryID product) &&
                            not_deleted (Category_DeletedAt c)) (ful_categories f);
  stock ← find (fun s => (Stock_ShopProductID s =? SP_ID sp) && (Stock_ShopID s =? Shop_ID shop) &&
                         (Stock_ProductID s =? Product_ID product) &&
                         not_deleted (Stock_DeletedAt s)) (ful_stocks f);
  Some {|
    Rel_SlotID := Slot_ID slot; Rel_ShopID := Slot_ShopID slot;
    Rel_ServiceDate := Slot_ServiceDate slot; Rel_StartTime := Slot_StartTime slot;
    Rel_EndTime := Slot_EndTime slot; Rel_CutoffAt := Slot_CutoffAt slot;
    Rel_CapacityOrders := Slot_CapacityOrders slot;
    Rel_ReservedOrders := Slot_ReservedOrders slot; Rel_SlotStatus := Slot_Status slot;
    Rel_SlotVersion := Slot_Version slot; Rel_ShopMerchantID := Shop_MerchantID shop;
    Rel_ShopName := Shop_Name shop; Rel_ShopStatus := Shop_Status shop;
    Rel_ShopBusinessStatus := Shop_BusinessStatus shop; Rel_MerchantID := Merchant_ID merchant;
    Rel_MerchantName := Merchant_Name merchant; Rel_MerchantStatus := Merchant_Status merchant;
    Rel_MerchantReview := Merchant_ReviewStatus merchant; Rel_ShopProductID := SP_ID sp;
    Rel_SPMerchantID := SP_MerchantID sp; Rel_SPShopID := SP_ShopID sp;
    Rel_SPProductID := SP_ProductID sp; Rel_ShopProductStatus := SP_Status sp;
    Rel_ProductID := Product_ID product; Rel_ProductName := Product_Name product;
    Rel_ProductBrandName := Product_BrandName product; Rel_ProductSpec := Product_Spec product;
    Rel_ProductImageURL := Product_ImageURL product; Rel_ProductStatus := Product_Status product;
    Rel_ProductAgeRestricted := Product_AgeRestricted product;
    Rel_CategoryStatus := Category_Status category; Rel_StockID := Stock_ID stock;
    Rel_StockAvailableQty := Stock_AvailableQty stock;
    Rel_StockReservedQty := Stock_ReservedQty stock;
    Rel_StockLockedQty := Stock_LockedQty stock; Rel_StockVersion := Stock_Version stock |}.

(** The first row a projection selects. *)
Fixpoint first_some {A B} (f : A -> option B) (l : list A) : option B :=
  match l with
  | [] => None
  | x :: l' => match f x with Some b => Some b | None => first_some f l' end
  end.

Definition resolveSlotRelation (slotID productID : Z) : G redemptionSlotRelation :=
  exec (fun db =>
    match first_some (fun s => if Slot_ID s =? slotID then slot_relation db productID s else None)
            (ful_slots (db_fulfilment db)) with
    | Some row => Ok (row, db)
    | None => Err ERecordNotFound
    end).

(** [ORDER BY service_date, start_time, id] *)
Definition slot_order (a b : redemptionSlotRelation) : bool :=
  (Rel_ServiceDate a <? Rel_ServiceDate b) ||
  ((Rel_ServiceDate a =? Rel_ServiceDate b) &&
   (String.ltb (Rel_StartTime a) (Rel_StartTime b) ||
    (String.eqb (Rel_StartTime a) (Rel_StartTime b) && (Rel_SlotID a <=? Rel_SlotID b)))).

(** A DATE is compared with the bounds as the midnight its day begins with. *)
Definition listSlotRelations (productID : Z) (dateFrom dateTo : time)
    : G (list redemptionSlotRelation) :=
  exec (fun db =>
    let midnight s := shanghai_instant (Slot_ServiceDate s) 0 in
    Ok (sort_by slot_order
          (omap (slot_relation db productID)
             (List.filter (fun s => (dateFrom <=? midnight s) && (midnight s <=? dateTo))
                (ful_slots (db_fulfilment db)))), db)).

(** ** Addresses *)

Definition address_matches (customerID addressID version : Z) (a : redemptionAddressRecord) : bool :=
  (Addr_ID a =? addressID) && (Addr_CustomerID a =? customerID) && (Addr_Version a =? version) &&
  not_deleted (Addr_DeletedAt a).

Definition address (customerID addressID version : Z) : G redemptionAddressRecord :=
  take_row (address_matches customerID addressID version).

Definition lockAddress (customerID addressID version : Z) : G redemptionAddressRecord :=
  take_row (address_matches customerID addressID version).

(** ** Lots *)

Definition active_renewal_statuses : list string :=
  ["pending_payment"; "payment_unknown"; "applying"; "compensating_refund"; "refund_exception"].

(** [activeRenewalGuardSQL] *)
Definition activeRenewalGuardSQL (db : Database) (lot : Lot) : bool :=
  negb (existsb (fun r => (RG_LotID r =? Lot_ID lot) && one_of active_renewal_statuses (RG_Status r))
          (db_renewals db)).

Definition redeemable (customerID : Z) (issuer : option Z) (cityCode : string) (productID : Z)
    (expiresAfter : time) (lot : Lot) : bool :=
  (Lot_OwnerCustomerID lot =? customerID) &&
  match issuer with Some m => Lot_IssuerMerchantID lot =? m | None => true end &&
  String.eqb (Lot_RedeemCityCode lot) cityCode && (Lot_ProductID lot =? productID) &&
  String.eqb (Lot_Status lot) LotStatusActive && (0 <? Lot_AvailableQuantity lot) &&
  (expiresAfter <? Lot_ExpiresAt lot).

(** [COALESCE(SUM(lot.available_quantity), 0)] over the lots [p] selects. *)
Definition sum_available (p : Lot -> bool) (excludeRenewalGuards : bool) : G Z :=
  exec (fun db =>
    Ok (sum_Z (map Lot_AvailableQuantity
          (List.filter (fun lot => p lot && (negb excludeRenewalGuards || activeRenewalGuardSQL db lot))
             (db_lots db))), db)).

Definition availableLotQuantity (customerID issuerMerchantID : Z) (cityCode : string)
    (productID : Z) (expiresAfter : time) (excludeRenewalGuards : bool) : G Z :=
  sum_available (redeemable customerID (Some issuerMerchantID) cityCode productID expiresAfter)
    excludeRenewalGuards.

Definition totalAvailableByCityProduct (customerID : Z) (cityCode : string) (productID : Z)
    (now : time) (excludeRenewalGuards : bool) : G Z :=
  sum_available (redeemable customerID None cityCode productID now) excludeRenewalGuards.

Definition lockEligibleLots (customerID issuerMerchantID : Z) (cityCode : string)
    (productID : Z) (expiresAfter : time) : G (list Lot) :=
  find_rows (redeemable customerID (Some issuerMerchantID) cityCode productID expiresAfter)
    (sort_by (by_keys [Lot_ExpiresAt; Lot_ID])).

(** The identifiers of the lots under renewal. *)
Definition lockActiveRenewalsForLots (lots : list Lot) : G (list Z) :=
  match lots with
  | [] => ret []
  | _ =>
      rows <- find_rows (fun r => id_in (map Lot_ID lots) (RG_LotID r) &&
                                  one_of active_renewal_statuses (RG_Status r))
                (sort_by (by_keys [RG_LotID; RG_ID])) ;;
      ret (map RG_LotID rows)
  end.

Fixpoint distinct_ids (seen ids : list Z) : list Z :=
  match ids with
  | [] => []
  | id :: rest => if id_in seen id then distinct_ids seen rest
                  else id :: distinct_ids (id :: seen) rest
  end.

Definition sorted_lot_ids (allocations : list RedemptionAllocation) : list Z :=
  sort_by (by_keys [fun x => x]) (distinct_ids [] (map RA_LotID allocations)).

(** [settlement_repository.go]: an empty [IN] list selects nothing. *)
Definition lockLots (ids : list Z) : G (list Lot) :=
  find_rows (fun l => id_in ids (Lot_ID l)) (sort_by (by_keys [Lot_ID])).

Definition lockAllocationLots (allocations : list RedemptionAllocation) : G (list Lot) :=
  match sorted_lot_ids allocations with
  | [] => ret []
  | ids => lockLots ids
  end.

(** ** Slots and stocks *)

Definition lockSlot (slotID : Z) : G DeliveryTimeSlot := take_row (fun s => Slot_ID s =? slotID).

Definition lockStock (shopProductID : Z) : G PhysicalStock :=
  take_row (fun s => (Stock_ShopProductID s =? shopProductID) && not_deleted (Stock_DeletedAt s)).

Definition slot_with (reserved version : Z) (now : time) (s : DeliveryTimeSlot)
    : DeliveryTimeSlot := {|
  Slot_ID := Slot_ID s; Slot_ShopID := Slot_ShopID s; Slot_ServiceDate := Slot_ServiceDate s;
  Slot_StartTime := Slot_StartTime s; Slot_EndTime := Slot_EndTime s;
  Slot_CutoffAt := Slot_CutoffAt s; Slot_CapacityOrders := Slot_CapacityOrders s;
  Slot_ReservedOrders := reserved; Slot_Status := Slot_Status s; Slot_Version := version;
  Slot_UpdatedAt := now |}.

(** [result.RowsAffected == 1] *)
Definition changed_one {R} `{Table R} (p : R -> bool) (f : R -> R) : G bool :=
  affected <- update_rows p f ;;
  ret (affected =? 1).

Definition reserveSlot (slot : DeliveryTimeSlot) (now : time) : G bool :=
  changed_one (fun s => (Slot_ID s =? Slot_ID slot) && (Slot_Version s =? Slot_Version slot) &&
                        String.eqb (Slot_Status s) "open" &&
                        (Slot_ReservedOrders s =? Slot_ReservedOrders slot) &&
                        (Slot_ReservedOrders s <? Slot_CapacityOrders s))
    (slot_with (uint_add (Slot_ReservedOrders slot) 1) (uint_add (Slot_Version slot) 1) now).

Definition releaseSlot (slot : DeliveryTimeSlot) (now : time) : G bool :=
  changed_one (fun s => (Slot_ID s =? Slot_ID slot) && (Slot_Version s =? Slot_Version slot) &&
                        (0 <? Slot_ReservedOrders s))
    (slot_with (uint_sub (Slot_ReservedOrders slot) 1) (uint_add (Slot_Version slot) 1) now).

Definition stock_with (available version : Z) (now : time) (s : PhysicalStock) : PhysicalStock := {|
  Stock_ID := Stock_ID s; Stock_ShopProductID := Stock_ShopProductID s;
  Stock_ShopID := Stock_ShopID s; Stock_ProductID := Stock_ProductID s;
  Stock_AvailableQty := available; Stock_ReservedQty := Stock_ReservedQty s;
  Stock_LockedQty := Stock_LockedQty s; Stock_Version := version; Stock_UpdatedAt := now;
  Stock_DeletedAt := Stock_DeletedAt s |}.

Definition updatePhysicalStock (stock : PhysicalStock) (available : Z) (now : time) : G bool :=
  changed_one (fun s => (Stock_ID s =? Stock_ID stock) && (Stock_Version s =? Stock_Version stock) &&
                        (Stock_AvailableQty s =? Stock_AvailableQty stock) &&
                        not_deleted (Stock_DeletedAt s))
    (stock_with available (int_add (Stock_Version stock) 1) now).

Definition createStockRecord (values : StockRecord) : G unit := create_row values.

(** ** Orders, after-sales and returns *)

Definition lockOrder (orderID : Z) : G Order :=
  take_row (fun o => (Order_ID o =? orderID) && not_deleted (Order_DeletedAt o)).

Definition lockAfterSaleIDs (orderID : Z) : G (list Z) :=
  rows <- find_rows (R:=AfterSale) (fun a => (AS_OrderID a =? orderID) && not_deleted (AS_DeletedAt a))
            (sort_by (by_keys [AS_ID])) ;;
  ret (map AS_ID rows).

Definition lockDeliveryReturnIDs (orderID : Z) : G (list Z) :=
  rows <- find_rows (fun r => DR_OrderID r =? orderID) (sort_by (by_keys [DR_ID])) ;;
  ret (map DR_ID rows).

Definition createOrder (row : Order) : G unit := create_row row.
Definition createOrderItem (row : OrderItem) : G unit := create_row row.
Definition createOrderLog (row : OrderLog) : G unit := create_row row.

Definition order_cancelled (source reason : string) (version : Z) (now : time) (o : Order)
    : Order := {|
  Order_ID := Order_ID o; Order_OrderNo := Order_OrderNo o; Order_OrderType := Order_OrderType o;
  Order_SettlementMode := Order_SettlementMode o; Order_CustomerID := Order_CustomerID o;
  Order_MerchantID := Order_MerchantID o; Order_ShopID := Order_ShopID o;
  Order_Status := "cancelled"; Order_PayStatus := Order_PayStatus o;
  Order_DeliveryStatus := "cancelled"; Order_GoodsAmount := Order_GoodsAmount o;
  Order_DiscountAmount := Order_DiscountAmount o;
  Order_DeliveryFeeAmount := Order_DeliveryFeeAmount o;
  Order_PayableAmount := Order_PayableAmount o; Order_PaidAmount := Order_PaidAmount o;
  Order_Remark := Order_Remark o; Order_AddressSnapshot := Order_AddressSnapshot o;
  Order_DeliveryTimeSlotID := Order_DeliveryTimeSlotID o;
  Order_DeliveryTimeSlotSnapshot := Order_DeliveryTimeSlotSnapshot o;
  Order_ComplianceSnapshot := Order_ComplianceSnapshot o;
  Order_IdempotencyKey := Order_IdempotencyKey o; Order_CancelSource := Some source;
  Order_CancelReasonCode := Some reason; Order_AfterSaleStatus := Order_AfterSaleStatus o;
  Order_Version := version;
  Order_CancelledAt := Some now; Order_CreatedAt := Order_CreatedAt o; Order_UpdatedAt := now;
  Order_DeletedAt := Order_DeletedAt o |}.

Definition cancelOrder (row : Order) (source reason : string) (now : time) : G bool :=
  changed_one (fun o => (Order_ID o =? Order_ID row) && (Order_Version o =? Order_Version row))
    (order_cancelled source reason (int_add (Order_Version row) 1) now).

(** ** Redemptions and allocations *)

Definition createRedemption (row : Redemption) : G unit := create_row row.
Definition createAllocation (row : RedemptionAllocation) : G unit := create_row row.

Definition cancellationAnchor (customerID : Z) (redemptionNo : string) : G Redemption :=
  take_row (fun r => (Red_CustomerID r =? customerID) &&
                     String.eqb (Red_RedemptionNo r) redemptionNo).

Definition lockRedemption (redemptionID customerID : Z) : G Redemption :=
  take_row (fun r => (Red_ID r =? redemptionID) && (Red_CustomerID r =? customerID)).

Definition lockRedemptionByOrderID (orderID : Z) : G Redemption :=
  take_row (fun r => Red_OrderID r =? orderID).

Definition lockAllocations (redemptionID : Z) : G (list RedemptionAllocation) :=
  find_rows (fun a => RA_RedemptionID a =? redemptionID) (sort_by (by_keys [RA_ID])).

Definition redemption_allocation_with (status : string) (now : time) (a : RedemptionAllocation)
    : RedemptionAllocation := {|
  RA_ID := RA_ID a; RA_RedemptionID := RA_RedemptionID a; RA_LotID := RA_LotID a;
  RA_Quantity := RA_Quantity a; RA_SourceExpiresAt := RA_SourceExpiresAt a;
  RA_Status := status; RA_CreatedAt := RA_CreatedAt a; RA_UpdatedAt := now |}.

Definition restoreAllocation (allocationID : Z) (now : time) : G bool :=
  changed_one (fun a => (RA_ID a =? allocationID) &&
                        String.eqb (RA_Status a) RedemptionAllocationStatusHeld)
    (redemption_allocation_with RedemptionAllocationStatusRestored now).

Definition consumeHeldAllocations (redemptionID : Z) (updatedAt : time) : G Z :=
  update_rows (fun a => (RA_RedemptionID a =? redemptionID) &&
                        String.eqb (RA_Status a) RedemptionAllocationStatusHeld)
    (redemption_allocation_with RedemptionAllocationStatusConsumed updatedAt).

Definition redemption_with (r : Redemption) (status : string) (version : Z)
    (pickedUp completed cancelled restored : option time) (now : time) : Redemption := {|
  Red_ID := Red_ID r; Red_RedemptionNo := Red_RedemptionNo r; Red_CustomerID := Red_CustomerID r;
  Red_IssuerMerchantID := Red_IssuerMerchantID r; Red_ProductID := Red_ProductID r;
  Red_ShopID := Red_ShopID r; Red_ShopProductID := Red_ShopProductID r;
  Red_DeliveryTimeSlotID := Red_DeliveryTimeSlotID r; Red_OrderID := Red_OrderID r;
  Red_Quantity := Red_Quantity r; Red_AddressID := Red_AddressID r;
  Red_AddressVersion := Red_AddressVersion r; Red_AddressSnapshot := Red_AddressSnapshot r;
  Red_DeliveryTimeSlotSnapshot := Red_DeliveryTimeSlotSnapshot r;
  Red_ProductSnapshot := Red_ProductSnapshot r; Red_Status := status; Red_Version := version;
  Red_ScheduledStartAt := Red_ScheduledStartAt r; Red_ScheduledEndAt := Red_ScheduledEndAt r;
  Red_NotBeforeAt := Red_NotBeforeAt r; Red_PickedUpAt := pickedUp;
  Red_CompletedAt := completed; Red_CancelledAt := cancelled; Red_RestoredAt := restored;
  Red_CreatedAt := Red_CreatedAt r; Red_UpdatedAt := now |}.

Definition cancelRedemption (row : Redemption) (now : time) : G bool :=
  changed_one (fun r => (Red_ID r =? Red_ID row) && (Red_Version r =? Red_Version row))
    (fun r => redemption_with r RedemptionStatusCancelled (uint_add (Red_Version row) 1)
                (Red_PickedUpAt r) (Red_CompletedAt r) (Some now) (Some now) now).

(** The row [transitionRedemption] writes: [version + 1] is the server's. *)
Definition redemption_moved (targetStatus : string) (now : time) (r : Redemption) : Redemption :=
  redemption_with r targetStatus (Red_Version r + 1)
    (if String.eqb targetStatus RedemptionStatusPickedUp then Some now else Red_PickedUpAt r)
    (if String.eqb targetStatus RedemptionStatusDelivered then Some now else Red_CompletedAt r)
    (Red_CancelledAt r) (Red_RestoredAt r) now.

Definition transitionRedemption (redemptionID : Z) (beforeStatus targetStatus : string)
    (updatedAt : time) : G Z :=
  update_rows (fun r => (Red_ID r =? redemptionID) && String.eqb (Red_Status r) beforeStatus)
    (redemption_moved targetStatus updatedAt).

(** ** Views *)

Definition redemption_view (db : Database) (r : Redemption) : option redemptionView :=
  let f := db_fulfilment db in
  let shop := find (fun s => Shop_ID s =? Red_ShopID r) (ful_shops f) in
  let product := find (fun p => Product_ID p =? Red_ProductID r) (db_products db) in
  let delivery := find (fun d => (Del_OrderID d =? Red_OrderID r) && not_deleted (Del_DeletedAt d))
                    (ful_deliveries f) in
  order ← find (fun o => (Order_ID o =? Red_OrderID r) && not_deleted (Order_DeletedAt o))
            (ful_orders f);
  Some {|
    View_Redemption := r; View_OrderNo := Order_OrderNo order;
    View_OrderStatus := Order_Status order;
    View_OrderDeliveryStatus := Order_DeliveryStatus order;
    View_ShopName := default "" (Shop_Name <$> shop);
    View_ProductName := default "" (Product_Name <$> product);
    View_ProductBrandName := p ← product; Product_BrandName p;
    View_ProductSpec := p ← product; Product_Spec p;
    View_ProductImageURL := p ← product; Product_ImageURL p;
    View_DeliveryStatus := Del_Status <$> delivery;
    View_AcceptedAt := d ← delivery; Del_AcceptedAt d;
    View_DeliveryPickedUpAt := d ← delivery; Del_PickedUpAt d;
    View_DeliveryCompletedAt := d ← delivery; Del_CompletedAt d |}.

Definition take_view (p : Redemption -> bool) : G redemptionView :=
  exec (fun db =>
    match first_some (fun r => if p r then redemption_view db r else None)
            (ful_redemptions (db_fulfilment db)) with
    | Some row => Ok (row, db)
    | None => Err ERecordNotFound
    end).

Definition customerRedemptionByNo (customerID : Z) (redemptionNo : string) : G redemptionView :=
  take_view (fun r => (Red_CustomerID r =? customerID) &&
                      String.eqb (Red_RedemptionNo r) redemptionNo).

Definition customerRedemptionByID (customerID redemptionID : Z) : G redemptionView :=
  take_view (fun r => (Red_CustomerID r =? customerID) && (Red_ID r =? redemptionID)).

Definition listCustomerRedemptions (customerID : Z) (query : Query) (status : string)
    : G (list redemptionView) :=
  cond <- lift (ApplyIDCursor query "desc") ;;
  exec (fun db =>
    Ok (firstn (Z.to_nat (Query_PageSize query + 1))
          (sort_by (by_keys [fun v => - Red_ID (View_Redemption v)])
             (omap (redemption_view db)
                (List.filter (fun r => (Red_CustomerID r =? customerID) &&
                                       (String.eqb status "" || String.eqb (Red_Status r) status) &&
                                       cond (Red_ID r))
                   (ful_redemptions (db_fulfilment db))))), db)).

(** An allocation of a lot that exists, with its lot. *)
Definition allocation_view (db : Database) (a : RedemptionAllocation)
    : option redemptionAllocationView :=
  lot ← find (fun l => Lot_ID l =? RA_LotID a) (db_lots db);
  Some {| AV_Allocation := a; AV_LotNo := Lot_LotNo lot; AV_LotStatus := Lot_Status lot |}.

Definition allocationViews (redemptionIDs : list Z) : G (list redemptionAllocationView) :=
  match redemptionIDs with
  | [] => ret []
  | _ =>
      exec (fun db =>
        Ok (sort_by (by_keys [fun v => RA_RedemptionID (AV_Allocation v);
                              fun v => RA_ID (AV_Allocation v)])
              (omap (allocation_view db)
                 (List.filter (fun a => id_in redemptionIDs (RA_RedemptionID a))
                    (db_redemption_allocations db))), db))
  end.
