(* ===== verification/PurchaseRepository.v ===== *)
(** * The purchase repository: [wineticket/purchase/repository.go]

    Every query of the purchase service and of its payment settlement, with
    the settlement relation of [catalog/repository.go].  A [FOR UPDATE] lock is
    implicit: a transaction runs alone. *)

From S2P Require Import Prelude GoInt GoString GoTime Json Problem Pagination.
From S2P Require Import CoreModel GiftModel RedemptionModel PurchaseModel AssetLaws Database.
From S2P Require Import FulfilmentTables PurchaseTables IntegrityScan RedemptionDto PurchaseDto.
From S2P Require Import GiftRepository RedemptionRepository.
From Stdlib Require Import String.
#[local] Open Scope string_scope. #[local] Open Scope list_scope. #[local] Open Scope Z_scope.
#[local] Open Scope go_scope.

Record CustomerEligibility := {
  Elig_CustomerID : Z;
  Elig_CustomerStatus : string;
  Elig_Phone : string;
  Elig_OpenID : string;
  Elig_IdentityCount : Z;
  Elig_RealnameStatus : option string;
  Elig_AdultResult : option string;
  Elig_RealnameExpires : option time;
  Elig_RevokedAt : option time;
  Elig_PendingVerificationCount : Z;
}.

Record purchasePaymentDraft := {
  Draft_Purchase : Purchase;
  Draft_PaymentState : string;
}.

(** A query that selects one row or none. *)
Definition take_from {A} (q : Database -> option A) : G A :=
  exec (fun db => match q db with Some row => Ok (row, db) | None => Err ERecordNotFound end).

(** [ORDER BY key DESC LIMIT 1] *)
Definition latest {A} (key : A -> Z) (l : list A) : option A :=
  head (sort_by (by_keys [fun a => - key a]) l).

(** ** Purchases with their package, product, payment and refund *)

(** The joins of [purchaseProjection] for one purchase. *)
Definition project_purchase (db : Database) (p : Purchase) : option PurchaseRecord :=
  let s := db_sales db in
  package ← find (fun r => Pkg_ID r =? Pur_PackageID p) (sales_packages s);
  product ← find (fun r => Product_ID r =? Pur_ProductID p) (db_products db);
  payment ← find (fun r => Pay_ID r =? Pur_PaymentID p) (sales_payments s);
  let refund := latest WTR_ID
                  (List.filter (fun r => (WTR_PurchaseID r =? Pur_ID p) &&
                                         (WTR_CustomerID r =? Pur_CustomerID p))
                     (sales_ticket_refunds s)) in
  Some {|
    Rec_Purchase := p; Rec_PackageNo := Pkg_PackageNo package;
    Rec_PackageCode := Pkg_PackageCode package; Rec_PackageName := Pkg_Name package;
    Rec_PackageType := Pkg_PackageType package; Rec_ProductName := Product_Name product;
    Rec_ProductBrandName := Product_BrandName product; Rec_ProductSpec := Product_Spec product;
    Rec_ProductImageURL := Product_ImageURL product; Rec_PaymentNo := Pay_PaymentNo payment;
    Rec_PaymentStatus := Pay_Status payment; Rec_ProviderStatus := Pay_ProviderStatus payment;
    Rec_ClientPayload := Pay_ClientPayload payment; Rec_RefundStatus := WTR_Status <$> refund;
    Rec_RefundKind := WTR_RefundKind <$> refund;
    Rec_RefundNo := WTR_WineTicketRefundNo <$> refund |}.

Definition project_purchases (db : Database) (p : Purchase -> bool) : list PurchaseRecord :=
  omap (project_purchase db) (List.filter p (sales_purchases (db_sales db))).

Definition CustomerPurchaseByNo (customerID : Z) (purchaseNo : string) : G PurchaseRecord :=
  take_from (fun db => head (project_purchases db (fun p =>
    (Pur_CustomerID p =? customerID) && String.eqb (Pur_PurchaseNo p) purchaseNo))).

Definition CustomerPurchaseByID (customerID purchaseID : Z) : G PurchaseRecord :=
  take_from (fun db => head (project_purchases db (fun p =>
    (Pur_CustomerID p =? customerID) && (Pur_ID p =? purchaseID)))).

Definition ListCustomerPurchases (customerID : Z) (query : Query) (status : string)
    : G (list PurchaseRecord) :=
  cond <- lift (ApplyIDCursor query "desc") ;;
  exec (fun db =>
    Ok (firstn (Z.to_nat (Query_PageSize query + 1))
          (sort_by (by_keys [fun r => - Pur_ID (Rec_Purchase r)])
             (project_purchases db (fun p =>
                (Pur_CustomerID p =? customerID) &&
                (String.eqb status "" || String.eqb (Pur_Status p) status) &&
                cond (Pur_ID p)))), db)).

(** The payment a purchase was started with: the joins of
    [CustomerPurchaseByPaymentKey]. *)
Definition draft_of (db : Database) (key : string) (p : Purchase) : option purchasePaymentDraft :=
  payment ← find (fun r => (Pay_ID r =? Pur_PaymentID p) &&
                           (Pay_CustomerID r =? Pur_CustomerID p) &&
                           same_text (Pay_BizType r) (Some PurchasePaymentBusiness) &&
                           same_id (Pay_BizID r) (Some (Pur_ID p)) &&
                           same_text (Pay_IdempotencyKey r) (Some key))
              (sales_payments (db_sales db));
  Some {| Draft_Purchase := p; Draft_PaymentState := Pay_Status payment |}.

Definition CustomerPurchaseByPaymentKey (customerID : Z) (key : string)
    : G purchasePaymentDraft :=
  take_from (fun db =>
    latest (fun d => Pur_ID (Draft_Purchase d))
      (omap (draft_of db key)
         (List.filter (fun p => Pur_CustomerID p =? customerID) (sales_purchases (db_sales db))))).

Definition LockPurchaseByID (purchaseID : Z) : G Purchase :=
  take_row (fun p => Pur_ID p =? purchaseID).

Definition createPurchase (row : Purchase) : G unit := create_row row.

(** The fields of a purchase its life changes. *)
Definition purchase_with (p : Purchase) (status : string) (paidAmount : Z)
    (paidAt issuedAt : option time) (now : time) : Purchase := {|
  Pur_ID := Pur_ID p; Pur_PurchaseNo := Pur_PurchaseNo p; Pur_CustomerID := Pur_CustomerID p;
  Pur_PackageID := Pur_PackageID p; Pur_PackageVersion := Pur_PackageVersion p;
  Pur_PaymentID := Pur_PaymentID p; Pur_IssuerMerchantID := Pur_IssuerMerchantID p;
  Pur_SettlementShopID := Pur_SettlementShopID p;
  Pur_SettlementShopProductID := Pur_SettlementShopProductID p;
  Pur_ProductID := Pur_ProductID p; Pur_RedeemCityCode := Pur_RedeemCityCode p;
  Pur_PackageQuantity := Pur_PackageQuantity p;
  Pur_BottleQuantityPerPackage := Pur_BottleQuantityPerPackage p;
  Pur_TotalBottleQuantity := Pur_TotalBottleQuantity p;
  Pur_UnitPriceAmount := Pur_UnitPriceAmount p; Pur_PayableAmount := Pur_PayableAmount p;
  Pur_PaidAmount := paidAmount; Pur_Currency := Pur_Currency p;
  Pur_PackageSnapshot := Pur_PackageSnapshot p;
  Pur_RefundPolicySnapshot := Pur_RefundPolicySnapshot p;
  Pur_RenewalPolicySnapshot := Pur_RenewalPolicySnapshot p; Pur_Status := status;
  Pur_Version := Pur_Version p + 1; Pur_PaidAt := paidAt; Pur_IssuedAt := issuedAt;
  Pur_RefundedAt := Pur_RefundedAt p; Pur_CreatedAt := Pur_CreatedAt p; Pur_UpdatedAt := now |}.

(** The updates the source makes: of the status alone, to issued, to a refund. *)
Definition purchase_moved (status : string) (now : time) (p : Purchase) : Purchase :=
  purchase_with p status (Pur_PaidAmount p) (Pur_PaidAt p) (Pur_IssuedAt p) now.

Definition purchase_issued (paidAmount : Z) (paidAt now : time) (p : Purchase) : Purchase :=
  purchase_with p PurchaseStatusIssued paidAmount (Some paidAt) (Some now) now.

Definition purchase_refunding (paidAmount : Z) (paidAt now : time) (p : Purchase) : Purchase :=
  purchase_with p PurchaseStatusRefundHolding paidAmount (Some paidAt) (Pur_IssuedAt p) now.

Definition UpdatePurchase (purchaseID : Z) (values : Purchase -> Purchase) : G unit :=
  update_rows (fun p => Pur_ID p =? purchaseID) values ;;;
  ret tt.

(** ** Packages *)

Definition LockPackageForPurchase (packageNo : string) : G Package :=
  take_row (fun p => String.eqb (Pkg_PackageNo p) packageNo && not_deleted (Pkg_DeletedAt p)).

Definition PackageProduct (productID : Z) : G Product :=
  take_from (fun db => find (fun p => (Product_ID p =? productID) &&
                                      not_deleted (Product_DeletedAt p)) (db_products db)).

(** The joins of [catalog.Repository.SettlementRelation]. *)
Definition settlement_relation (db : Database) (row : Package) : option SettlementRelation :=
  let f := db_fulfilment db in
  merchant ← find (fun m => (Merchant_ID m =? Pkg_IssuerMerchantID row) &&
                            not_deleted (Merchant_DeletedAt m)) (ful_merchants f);
  shop ← find (fun s => (Shop_ID s =? Pkg_SettlementShopID row) &&
                        not_deleted (Shop_DeletedAt s)) (ful_shops f);
  sp ← find (fun p => (SP_ID p =? Pkg_SettlementShopProductID row) &&
                      not_deleted (SP_DeletedAt p)) (ful_shop_products f);
  product ← find (fun p => (Product_ID p =? Pkg_ProductID row) &&
                           not_deleted (Product_DeletedAt p)) (db_products db);
  category ← find (fun c => (Category_ID c =? Product_CategoryID product) &&
                            not_deleted (Category_DeletedAt c)) (ful_categories f);
  Some {|
    Settle_MerchantID := Merchant_ID merchant; Settle_MerchantStatus := Merchant_Status merchant;
    Settle_MerchantReviewStatus := Merchant_ReviewStatus merchant; Settle_ShopID := Shop_ID shop;
    Settle_ShopMerchantID := Shop_MerchantID shop; Settle_ShopStatus := Shop_Status shop;
    Settle_ShopBusinessStatus := Shop_BusinessStatus shop; Settle_ShopProductID := SP_ID sp;
    Settle_ShopProductMerchant := SP_MerchantID sp; Settle_ShopProductShop := SP_ShopID sp;
    Settle_ShopProductProduct := SP_ProductID sp; Settle_ShopProductStatus := SP_Status sp;
    Settle_ProductID := Product_ID product; Settle_ProductStatus := Product_Status product;
    Settle_ProductCategoryStatus := Category_Status category;
    Settle_ProductAgeRestricted :=
      Product_AgeRestricted product || Category_AgeRestricted category |}.

Definition SettlementRelationOf (row : Package) : G SettlementRelation :=
  take_from (fun db => settlement_relation db row).

(** ** The customer *)

Definition active_identity (customerID : Z) (appID : string) (i : CustomerIdentity) : bool :=
  (Ident_CustomerID i =? customerID) && String.eqb (Ident_Provider i) "wechat_miniapp" &&
  String.eqb (Ident_Status i) "active" && not_deleted (Ident_DeletedAt i) &&
  (String.eqb appID "" || String.eqb (Ident_AppID i) appID).

Definition pending_request (customerID : Z) (now : time) (r : IdentityRequest) : bool :=
  (Identity_CustomerID r =? customerID) &&
  one_of ["creating_session"; "pending"] (Identity_Status r) &&
  match Identity_SessionExpiresAt r with None => true | Some e => now <? e end.

Definition eligibility_of (db : Database) (customerID : Z) (appID : string) (now : time)
    : option CustomerEligibility :=
  customer ← find (fun c => (Customer_ID c =? customerID) && not_deleted (Customer_DeletedAt c))
               (db_customers db);
  let identities := List.filter (active_identity customerID appID)
                      (sales_identities (db_sales db)) in
  let realname := find (fun r => Realname_CustomerID r =? customerID) (db_realnames db) in
  Some {|
    Elig_CustomerID := Customer_ID customer; Elig_CustomerStatus := Customer_Status customer;
    Elig_Phone := Customer_Phone customer;
    Elig_OpenID := match latest Ident_ID identities with
                   | Some i => Ident_ProviderSubject i
                   | None => ""
                   end;
    Elig_IdentityCount := Z.of_nat (List.length identities);
    Elig_RealnameStatus := Realname_Status <$> realname;
    Elig_AdultResult := Realname_AdultResult <$> realname;
    Elig_RealnameExpires := r ← realname; Realname_ExpiresAt r;
    Elig_RevokedAt := r ← realname; Realname_RevokedAt r;
    Elig_PendingVerificationCount :=
      Z.of_nat (List.length (List.filter (pending_request customerID now)
                               (db_identity_requests db))) |}.

Definition without_realname (row : CustomerEligibility) : CustomerEligibility := {|
  Elig_CustomerID := Elig_CustomerID row; Elig_CustomerStatus := Elig_CustomerStatus row;
  Elig_Phone := Elig_Phone row; Elig_OpenID := Elig_OpenID row;
  Elig_IdentityCount := Elig_IdentityCount row; Elig_RealnameStatus := None;
  Elig_AdultResult := Elig_AdultResult row; Elig_RealnameExpires := Elig_RealnameExpires row;
  Elig_RevokedAt := Elig_RevokedAt row;
  Elig_PendingVerificationCount := Elig_PendingVerificationCount row |}.

Definition CustomerPurchaseEligibility (customerID : Z) (appID : string) (now : time)
    : G CustomerEligibility :=
  row <- take_from (fun db => eligibility_of db customerID appID now) ;;
  ret match Elig_RealnameExpires row with
      | Some e => if after e now then row else without_realname row
      | None => row
      end.

(** ** Quotas *)

Definition EnsurePurchaseQuota (quota : PurchaseQuota) : G unit := create_or_ignore quota.

Definition LockPurchaseQuota (customerID : Z) (packageCode : string) : G PurchaseQuota :=
  take_row (fun q => (Quota_CustomerID q =? customerID) &&
                     String.eqb (Quota_PackageCode q) packageCode).

Definition quota_with (reserved consumed : Z) (now : time) (q : PurchaseQuota) : PurchaseQuota := {|
  Quota_ID := Quota_ID q; Quota_CustomerID := Quota_CustomerID q;
  Quota_PackageCode := Quota_PackageCode q; Quota_ReservedQuantity := reserved;
  Quota_ConsumedQuantity := consumed; Quota_Version := Quota_Version q + 1;
  Quota_CreatedAt := Quota_CreatedAt q; Quota_UpdatedAt := now |}.

(** An update that does not name [consumed_quantity]. *)
Definition quota_reserved (reserved : Z) (now : time) (q : PurchaseQuota) : PurchaseQuota :=
  quota_with reserved (Quota_ConsumedQuantity q) now q.

Definition UpdatePurchaseQuota (quotaID : Z) (values : PurchaseQuota -> PurchaseQuota) : G unit :=
  update_rows (fun q => Quota_ID q =? quotaID) values ;;;
  ret tt.

(** ** Lots and ledger *)

Definition PurchaseLot (purchaseID : Z) : G Lot :=
  take_from (fun db =>
    head (sort_by (by_keys [Lot_ID])
            (List.filter (fun l => (Lot_PurchaseID l =? purchaseID) &&
                                   String.eqb (Lot_SourceType l) LotSourcePurchase)
               (db_lots db)))).

Definition transactionByActionKey (actionKey : string) : G Transaction :=
  take_row (fun t => String.eqb (Tx_ActionKey t) actionKey).

(** [SUM(quantity) ... GROUP BY], 0 without rows. *)
Definition sum_quantity {A} (p : A -> bool) (quantity : A -> Z) (l : list A) : Z :=
  sum_Z (map quantity (List.filter p l)).

(** The joins of [lotFactProjection] for one lot. *)
Definition lot_fact (db : Database) (lot : Lot) : option LotFactRecord :=
  let s := db_sales db in
  purchase ← find (fun p => Pur_ID p =? Lot_PurchaseID lot) (sales_purchases s);
  product ← find (fun p => Product_ID p =? Lot_ProductID lot) (db_products db);
  merchant ← find (fun m => Merchant_ID m =? Lot_IssuerMerchantID lot)
               (ful_merchants (db_fulfilment db));
  let source := find (fun l => same_id (Lot_SourceLotID lot) (Some (Lot_ID l))) (db_lots db) in
  let gift := find (fun g => same_id (Lot_SourceGiftID lot) (Some (Gift_ID g))) (db_gifts db) in
  let redemptions status :=
    sum_quantity (fun a => (RA_LotID a =? Lot_ID lot) && String.eqb (RA_Status a) status)
      RA_Quantity (db_redemption_allocations db) in
  Some {|
    Fact_Lot := lot; Fact_PurchaseNo := Pur_PurchaseNo purchase;
    Fact_SourceLotNo := Lot_LotNo <$> source; Fact_SourceGiftNo := Gift_GiftNo <$> gift;
    Fact_ProductName := Product_Name product; Fact_ProductBrandName := Product_BrandName product;
    Fact_ProductSpec := Product_Spec product; Fact_ProductImageURL := Product_ImageURL product;
    Fact_IssuerMerchantName := Merchant_Name merchant;
    Fact_RedemptionHeld := redemptions "held";
    Fact_GiftHeld :=
      sum_quantity (fun a => (GA_SourceLotID a =? Lot_ID lot) && String.eqb (GA_Status a) "held")
        GA_Quantity (db_gift_allocations db);
    Fact_RefundHeld :=
      sum_quantity (fun a => (FA_LotID a =? Lot_ID lot) && String.eqb (FA_Status a) "held")
        FA_Quantity (db_refund_allocations db);
    Fact_ExtractedQuantity := redemptions "consumed";
    Fact_ActiveRenewalCount :=
      Z.of_nat (List.length
        (List.filter (fun r => (RG_LotID r =? Lot_ID lot) &&
                               one_of active_renewal_statuses (RG_Status r)) (db_renewals db)));
    Fact_RenewalPolicy := Pur_RenewalPolicySnapshot purchase |}.

Definition own_lot (db : Database) (ids : list Z) (lot : Lot) : bool :=
  id_in ids (Lot_PurchaseID lot) &&
  existsb (fun p => (Pur_ID p =? Lot_PurchaseID lot) &&
                    (Pur_CustomerID p =? Lot_OwnerCustomerID lot))
    (sales_purchases (db_sales db)).

Definition PurchaseLotFacts (purchaseIDs : list Z) : G (list LotFactRecord) :=
  match purchaseIDs with
  | [] => ret []
  | _ =>
      exec (fun db =>
        Ok (sort_by (by_keys [fun f => Lot_ExpiresAt (Fact_Lot f); fun f => Lot_ID (Fact_Lot f)])
              (omap (lot_fact db) (List.filter (own_lot db purchaseIDs) (db_lots db))), db))
  end.

(** ** The compensation of a purchase that cannot be issued *)

(** What stands against an automatic refund: lots of the purchase, allocations
    of its refunds, issue entries, active refunds. *)
Definition issuanceCompensationFactCounts (purchaseID : Z) : G (Z * Z * Z * Z) :=
  lotCount <- count_rows (fun l => Lot_PurchaseID l =? purchaseID) ;;
  allocationCount <- exec (fun db =>
    Ok (Z.of_nat (List.length
          (List.filter (fun a => existsb (fun r => (WTR_ID r =? FA_WineTicketRefundID a) &&
                                                   (WTR_PurchaseID r =? purchaseID))
                                   (sales_ticket_refunds (db_sales db)))
             (db_refund_allocations db))), db)) ;;
  issueCount <- count_rows (fun t => String.eqb (Tx_BizType t) "purchase" &&
                                     (Tx_BizID t =? purchaseID) &&
                                     String.eqb (Tx_TransactionType t)
                                       TransactionTypePurchaseIssue) ;;
  activeRefundCount <- count_rows (fun r => (WTR_PurchaseID r =? purchaseID) &&
                                    one_of wineTicketRefundActiveStatuses (WTR_Status r)) ;;
  ret (lotCount, allocationCount, issueCount, activeRefundCount).

Definition createIssuanceCompensationRefund (business : issuanceCompensationRefund)
    (common : commonRefundRow) : G unit :=
  create_row business ;;;
  create_row common.
