(* ===== verification/ScheduledDispatch.v ===== *)
(** * The dispatch side of a redemption: [dispatch/scheduled_coordination.go]

    A redemption is cancelled together with its delivery.  The dispatch module
    first locks the delivery and everything that may change with it, hands the
    state back to the business module, and applies the cancellation once the
    business module has checked it.  [wineticket/redemption/ports.go] states
    the boundary as an interface; [wineticket/redemption/dispatch.go] adapts
    the dispatch service to it. *)

From S2P Require Import Prelude GoInt GoString GoTime Json Problem RequestCtx CoreModel.
From S2P Require Import GiftModel RedemptionModel AssetLaws Database FulfilmentTables.
From S2P Require Import RedemptionDto GiftRepository RedemptionRepository.
From Stdlib Require Import String.
#[local] Open Scope string_scope. #[local] Open Scope list_scope. #[local] Open Scope Z_scope.
#[local] Open Scope go_scope.

(** ** The boundary: [ports.go] *)

Record RedemptionDispatchCreateInput := {
  DCreate_OrderID : Z;
  DCreate_ShopID : Z;
  DCreate_AddressSnapshot : json;
  DCreate_ScheduledStartAt : time;
  DCreate_ScheduledEndAt : time;
  DCreate_NotBeforeAt : time;
}.

Record RedemptionDispatchState := {
  DState_DeliveryOrderID : Z;
  DState_OrderID : Z;
  DState_Status : string;
  DState_DispatchStatus : string;
  DState_RiderID : option Z;
  DState_AcceptedAt : option time;
  DState_PickedUpAt : option time;
  DState_CompletedAt : option time;
  DState_CancelledAt : option time;
}.

Record RedemptionDispatchCancelInput := {
  DCancel_State : RedemptionDispatchState;
  DCancel_CustomerID : Z;
  DCancel_ReasonCode : string;
  DCancel_CancelledAt : time;
}.

Record RedemptionDispatchCoordinator := {
  EnsureRedemptionTaskTx : Context -> RedemptionDispatchCreateInput -> G RedemptionDispatchState;
  LockCancellationPrefixTx : Context -> Z -> G RedemptionDispatchState;
  ApplyCancellationTx : Context -> RedemptionDispatchCancelInput -> G unit;
}.

(** ** [scheduled_coordination.go] *)

Definition scheduledCancellationState (row : DeliveryOrder) : RedemptionDispatchState := {|
  DState_DeliveryOrderID := Del_ID row; DState_OrderID := Del_OrderID row;
  DState_Status := Del_Status row; DState_DispatchStatus := Del_DispatchStatus row;
  DState_RiderID := Del_RiderID row; DState_AcceptedAt := Del_AcceptedAt row;
  DState_PickedUpAt := Del_PickedUpAt row; DState_CompletedAt := Del_CompletedAt row;
  DState_CancelledAt := Del_CancelledAt row |}.

(** The rows are only locked. *)
Definition lockDispatchChildrenForCancellation (deliveryID : Z) : G unit :=
  find_rows (fun j => Job_DeliveryOrderID j =? deliveryID) (sort_by (by_keys [Job_ID])) ;;;
  find_rows (fun o => Offer_DeliveryOrderID o =? deliveryID) (sort_by (by_keys [Offer_ID])) ;;;
  find_rows (fun a => Assign_DeliveryOrderID a =? deliveryID) (sort_by (by_keys [Assign_ID])) ;;;
  ret tt.

Definition take_delivery (p : DeliveryOrder -> bool) : G DeliveryOrder :=
  take_row (fun d => p d && not_deleted (Del_DeletedAt d)).

Definition LockScheduledCancellationPrefixTx (orderID : Z) : G RedemptionDispatchState :=
  fail_if (orderID =? 0)
    (EProblem (Problem.New 503 "DISPATCH_DEPENDENCY_UNAVAILABLE" "Service Unavailable"
                 "scheduled dispatch coordinator is unavailable")) ;;;
  r <- attempt (take_delivery (fun d => Del_OrderID d =? orderID)) ;;
  match r with
  | Err e => throw (if is_record_not_found e
                    then Conflict "DELIVERY_NOT_FOUND" "scheduled delivery is unavailable" else e)
  | Ok probe =>
      row <- take_delivery (fun d => Del_ID d =? Del_ID probe) ;;
      fail_if (negb (Del_OrderID row =? orderID))
        (Conflict "DELIVERY_INVALID_STATUS" "scheduled delivery relation changed") ;;;
      lockDispatchChildrenForCancellation (Del_ID row) ;;;
      ret (scheduledCancellationState row)
  end.

Definition assignment_cancelled (a : DispatchAssignment) : DispatchAssignment :=
  {| Assign_ID := Assign_ID a; Assign_DeliveryOrderID := Assign_DeliveryOrderID a;
     Assign_Status := "cancelled" |}.

Definition offer_cancelled (now : time) (o : DispatchOffer) : DispatchOffer :=
  {| Offer_ID := Offer_ID o; Offer_DeliveryOrderID := Offer_DeliveryOrderID o;
     Offer_Status := "cancelled"; Offer_RespondedAt := Some now;
     Offer_Version := Offer_Version o + 1 |}.

Definition job_cancelled (reason : string) (j : DispatchJob) : DispatchJob :=
  {| Job_ID := Job_ID j; Job_DeliveryOrderID := Job_DeliveryOrderID j;
     Job_Status := "cancelled"; Job_StatusReasonCode := Some reason; Job_LockedUntil := None;
     Job_LockedBy := None; Job_Version := Job_Version j + 1 |}.

Definition delivery_cancelled (now : time) (d : DeliveryOrder) : DeliveryOrder :=
  {| Del_ID := Del_ID d; Del_OrderID := Del_OrderID d; Del_RiderID := Del_RiderID d;
     Del_Status := "cancelled"; Del_DispatchStatus := "cancelled";
     Del_PickupReadyStatus := "cancelled"; Del_ScheduledStartAt := Del_ScheduledStartAt d;
     Del_ScheduledEndAt := Del_ScheduledEndAt d; Del_NotBeforeAt := Del_NotBeforeAt d;
     Del_AcceptedAt := Del_AcceptedAt d; Del_PickedUpAt := Del_PickedUpAt d;
     Del_CompletedAt := Del_CompletedAt d; Del_CancelledAt := Some now;
     Del_DeletedAt := Del_DeletedAt d |}.

Definition notCancellable : error :=
  Conflict "DELIVERY_INVALID_STATUS" "scheduled delivery is no longer cancellable".

Definition cancellable_statuses : list string := ["pending_assign"; "accepted"].

Definition ApplyScheduledCancellationTx (ctx : Context) (input : RedemptionDispatchCancelInput)
    : G unit :=
  let state := DCancel_State input in
  let deliveryID := DState_DeliveryOrderID state in
  let now := DCancel_CancelledAt input in
  fail_if ((deliveryID =? 0) || (DState_OrderID state =? 0) || is_zero now)
    (Internal "invalid scheduled dispatch cancellation input") ;;;
  fail_if (is_set (DState_PickedUpAt state) || is_set (DState_CompletedAt state) ||
           is_set (DState_CancelledAt state)) notCancellable ;;;
  fail_if (negb (one_of cancellable_statuses (DState_Status state))) notCancellable ;;;
  update_rows (fun a => (Assign_DeliveryOrderID a =? deliveryID) &&
                        String.eqb (Assign_Status a) "active") assignment_cancelled ;;;
  update_rows (fun o => (Offer_DeliveryOrderID o =? deliveryID) &&
                        String.eqb (Offer_Status o) "pending") (offer_cancelled now) ;;;
  update_rows (fun j => (Job_DeliveryOrderID j =? deliveryID) &&
                        one_of ["pending"; "scoring"; "offering"; "grab_open"; "manual_required";
                                "assigned"] (Job_Status j))
    (job_cancelled (DCancel_ReasonCode input)) ;;;
  affected <- update_rows (fun d => (Del_ID d =? deliveryID) &&
                (Del_OrderID d =? DState_OrderID state) &&
                one_of cancellable_statuses (Del_Status d) && negb (is_set (Del_PickedUpAt d)))
                (delivery_cancelled now) ;;
  fail_if (negb (affected =? 1))
    (Conflict "DELIVERY_INVALID_STATUS" "scheduled delivery state changed") ;;;
  id <- next_id ;;
  eventID <- new_uuid ;;
  createOutbox {|
    Outbox_ID := id; Outbox_EventID := eventID; Outbox_EventType := "delivery.cancelled";
    Outbox_EventVersion := 1; Outbox_SpecVersion := "1.0";
    Outbox_AggregateType := "delivery_order"; Outbox_AggregateID := deliveryID;
    Outbox_Producer := None;
    Outbox_Payload := JSONData (JMap
      [("delivery_order_id", JStr (IDString deliveryID));
       ("order_id", JStr (IDString (DState_OrderID state)));
       ("reason_code", JStr (DCancel_ReasonCode input))]);
    Outbox_Status := "pending"; Outbox_RetryCount := 0; Outbox_RequestID := RequestIDPtr ctx;
    Outbox_CreatedAt := None |}.

(** ** [redemption/dispatch.go]: the adapter

    [ensure] stands for [dispatch.Service.EnsurePaidOrderTask], whose delivery
    row the adapter turns into a state. *)

Section Adapter.
Variable ensure : Context -> RedemptionDispatchCreateInput -> G DeliveryOrder.

Definition redemptionDispatchStateFromDelivery (row : DeliveryOrder) : RedemptionDispatchState :=
  scheduledCancellationState row.

Definition adapter_EnsureRedemptionTaskTx (ctx : Context) (input : RedemptionDispatchCreateInput)
    : G RedemptionDispatchState :=
  fail_if ((DCreate_OrderID input =? 0) || (DCreate_ShopID input =? 0) ||
           is_zero (DCreate_ScheduledStartAt input) ||
           negb (before (DCreate_ScheduledStartAt input) (DCreate_ScheduledEndAt input)) ||
           after (DCreate_NotBeforeAt input) (DCreate_ScheduledStartAt input))
    (Internal "invalid wine-ticket scheduled dispatch input") ;;;
  delivery <- ensure ctx input ;;
  ret (redemptionDispatchStateFromDelivery delivery).

(** [NewFulfillmentDispatch] of a configured service *)
Definition FulfillmentDispatch : RedemptionDispatchCoordinator := {|
  EnsureRedemptionTaskTx := adapter_EnsureRedemptionTaskTx;
  LockCancellationPrefixTx _ orderID := LockScheduledCancellationPrefixTx orderID;
  ApplyCancellationTx := ApplyScheduledCancellationTx;
|}.
End Adapter.
