(* ===== verification/GiftService.v ===== *)
(** * The gift service: [wineticket/gift/service.go]

    A customer gives bottles of her lots away: [Create] freezes them in the
    lots that expire first, [CreateShareToken] issues a secret link, [Claim]
    turns the frozen bottles into lots of the receiver, and [Cancel] and
    [ExpireDue] give them back.  Every operation runs in one database
    transaction; [Create], [Claim] and [Cancel] are idempotent by key. *)

From S2P Require Import Prelude GoInt GoString GoTime Json Base64 Sha256 Problem RequestCtx.
From S2P Require Import CoreModel AssetService GiftModel AssetLaws Database AssetRepository.
From S2P Require Import IntegrityScan Idempotency GiftDto GiftRepository.
From Stdlib Require Import String.
#[local] Open Scope string_scope. #[local] Open Scope list_scope. #[local] Open Scope Z_scope.
#[local] Open Scope go_scope.

(** The fields of [auth.Claims] the service reads. *)
Record Claims := {
  Claims_AccountType : string;
  Claims_CustomerID : string;
  Claims_Permissions : list string;
}.

(** ** Errors *)

Definition isGiftDuplicateKey (err : error) : bool :=
  let message := to_lower (error_text err) in
  contains message "duplicate" || contains message "unique constraint" ||
  contains message "constraint failed".

Definition giftConcurrent : error :=
  Conflict "WT_CONCURRENT_MODIFICATION" "wine ticket gift changed concurrently".

Definition giftWriteError (err : error) : error :=
  if isGiftDuplicateKey err then giftConcurrent else err.

(** A write whose error passes through [giftWriteError]. *)
Definition gift_write {A} (m : G A) : G A :=
  r <- attempt m ;;
  match r with
  | Ok a => ret a
  | Err e => throw (giftWriteError e)
  end.

(** A query whose missing row is reported as [missing]. *)
Definition or_missing {A} (missing : error) (m : G A) : G A :=
  r <- attempt m ;;
  match r with
  | Ok a => ret a
  | Err e => throw (if is_record_not_found e then missing else e)
  end.

(** A call whose every error is reported as [err]. *)
Definition or_error {A} (err : error) (m : G A) : G A :=
  r <- attempt m ;;
  match r with
  | Ok a => ret a
  | Err _ => throw err
  end.

Definition giftNotFound : error := NotFound "WT_GIFT_NOT_FOUND" "wine ticket gift not found".
Definition giftExpired : error :=
  Conflict "WT_GIFT_EXPIRED" "wine ticket gift claim deadline has passed".
Definition giftNotPending : error :=
  Conflict "WT_GIFT_NOT_PENDING" "wine ticket gift is not pending".
Definition giftCancelled : error :=
  Conflict "WT_GIFT_CANCELLED" "wine ticket gift was cancelled".
Definition giftVersionChanged : error :=
  Conflict "WT_CONCURRENT_MODIFICATION" "wine ticket gift version changed".

Definition invalidGiftTokenProblem : error :=
  NotFound "WT_GIFT_TOKEN_INVALID" "wine ticket gift is unavailable".

(** [pendingGiftProblem]: the error of a gift that is not pending. *)
Definition pendingGiftProblem (gift : Gift) : res unit :=
  if String.eqb (Gift_Status gift) GiftStatusPending then Ok tt
  else if String.eqb (Gift_Status gift) GiftStatusClaimed then Err giftNotPending
  else if String.eqb (Gift_Status gift) GiftStatusCancelled then Err giftCancelled
  else if String.eqb (Gift_Status gift) GiftStatusExpiredReturned then Err giftExpired
  else Err giftNotPending.

Definition giftCustomerIDWithPermission (claims : option Claims) (permission : string) : res Z :=
  match claims with
  | None => Err (Unauthorized "AUTH_UNAUTHORIZED" "customer authentication required")
  | Some c =>
      if negb (String.eqb (Claims_AccountType c) "customer")
      then Err (Unauthorized "AUTH_UNAUTHORIZED" "customer authentication required")
      else
        match parse_uint (Claims_CustomerID c) with
        | None => Err (Unauthorized "AUTH_UNAUTHORIZED" "invalid customer identity")
        | Some customerID =>
            if customerID =? 0
            then Err (Unauthorized "AUTH_UNAUTHORIZED" "invalid customer identity")
            else if existsb (fun granted => String.eqb granted permission) (Claims_Permissions c)
                 then Ok customerID
                 else Err (Forbidden "PERM_FORBIDDEN" "permission denied")
        end
  end.

(** ** Choosing the lots *)

Record giftFEFOSelection := {
  Sel_lot : Lot;
  Sel_quantity : Z;
}.

(** The loop of [selectGiftFEFO]: what it selects, and what is left to find. *)
Fixpoint fefo_loop (group : list Lot) (remaining : Z) : list giftFEFOSelection * Z :=
  match group with
  | [] => ([], remaining)
  | lot :: rest =>
      if remaining =? 0 then ([], remaining)
      else
        let take := if remaining <? Lot_AvailableQuantity lot then remaining
                    else Lot_AvailableQuantity lot in
        if take =? 0 then fefo_loop rest remaining
        else
          let '(selected, remaining') := fefo_loop rest (uint_sub remaining take) in
          ({| Sel_lot := lot; Sel_quantity := take |} :: selected, remaining')
  end.

Definition selectGiftFEFO (group : list Lot) (quantity : Z) : res (list giftFEFOSelection) :=
  let '(selected, remaining) := fefo_loop group quantity in
  if negb (remaining =? 0)
  then Err (Conflict "WT_INSUFFICIENT_QUANTITY"
              "insufficient wine ticket quantity in the selected group")
  else Ok selected.

Definition giftGroupContainsAnchor (group : list Lot) (anchorID : Z) : bool :=
  existsb (fun lot => Lot_ID lot =? anchorID) group.

(** The earliest expiry of the selected lots. *)
Definition earliest_expiry (first : Lot) (others : list giftFEFOSelection) : time :=
  fold_left (fun earliest item =>
    if before (Lot_ExpiresAt (Sel_lot item)) earliest then Lot_ExpiresAt (Sel_lot item)
    else earliest) others (Lot_ExpiresAt first).

(** ** Rows a gift's life writes *)

Definition optional_string (value : string) : option string :=
  if String.eqb value "" then None else Some value.

Definition gift_with (gift : Gift) (receiver : option Z) (status : string)
    (claimed cancelled returned : option time) (now : time) : Gift := {|
  Gift_ID := Gift_ID gift; Gift_GiftNo := Gift_GiftNo gift;
  Gift_GiverCustomerID := Gift_GiverCustomerID gift; Gift_ReceiverCustomerID := receiver;
  Gift_IssuerMerchantID := Gift_IssuerMerchantID gift; Gift_ProductID := Gift_ProductID gift;
  Gift_RedeemCityCode := Gift_RedeemCityCode gift; Gift_Quantity := Gift_Quantity gift;
  Gift_Message := Gift_Message gift; Gift_Status := status;
  Gift_ClaimDeadline := Gift_ClaimDeadline gift;
  Gift_EarliestExpiresAt := Gift_EarliestExpiresAt gift;
  Gift_Version := Gift_Version gift + 1; Gift_ClaimedAt := claimed;
  Gift_CancelledAt := cancelled; Gift_ReturnedAt := returned;
  Gift_CreatedAt := Gift_CreatedAt gift; Gift_UpdatedAt := now |}.

(** [version = version + 1] and [updated_at]. *)
Definition gift_touched (now : time) (g : Gift) : Gift :=
  gift_with g (Gift_ReceiverCustomerID g) (Gift_Status g) (Gift_ClaimedAt g)
    (Gift_CancelledAt g) (Gift_ReturnedAt g) now.

Definition gift_claimed (receiver : Z) (now : time) (g : Gift) : Gift :=
  gift_with g (Some receiver) GiftStatusClaimed (Some now) (Gift_CancelledAt g)
    (Gift_ReturnedAt g) now.

(** [cancelled_at] is set only when the giver cancels. *)
Definition gift_returned (status : string) (now : time) (g : Gift) : Gift :=
  gift_with g (Gift_ReceiverCustomerID g) status (Gift_ClaimedAt g)
    (if String.eqb status GiftStatusCancelled then Some now else Gift_CancelledAt g)
    (Some now) now.

Definition allocation_with (receiver : option Z) (status : string) (now : time)
    (a : GiftAllocation) : GiftAllocation := {|
  GA_ID := GA_ID a; GA_GiftID := GA_GiftID a; GA_SourceLotID := GA_SourceLotID a;
  GA_ReceiverLotID := receiver; GA_Quantity := GA_Quantity a;
  GA_SourceExpiresAt := GA_SourceExpiresAt a; GA_Status := status;
  GA_CreatedAt := GA_CreatedAt a; GA_UpdatedAt := now |}.

Definition allocation_claimed (receiverLotID : Z) (now : time) : GiftAllocation -> GiftAllocation :=
  allocation_with (Some receiverLotID) GiftAllocationStatusClaimed now.

Definition allocation_restored (now : time) (a : GiftAllocation) : GiftAllocation :=
  allocation_with (GA_ReceiverLotID a) GiftAllocationStatusRestored now a.

Definition token_with (consumed revoked : option time) (t : GiftClaimToken) : GiftClaimToken := {|
  Token_ID := Token_ID t; Token_GiftID := Token_GiftID t; Token_TokenDigest := Token_TokenDigest t;
  Token_IssuedByCustomerID := Token_IssuedByCustomerID t; Token_ExpiresAt := Token_ExpiresAt t;
  Token_ConsumedAt := consumed; Token_RevokedAt := revoked; Token_RequestID := Token_RequestID t;
  Token_CreatedAt := Token_CreatedAt t |}.

Definition token_consumed (now : time) : GiftClaimToken -> GiftClaimToken :=
  token_with (Some now) None.

Definition token_revoked (now : time) (t : GiftClaimToken) : GiftClaimToken :=
  token_with (Token_ConsumedAt t) (Some now) t.

(** The keys of the entries a gift writes. *)
Definition gift_hold_key (giftID lotID : Z) : string :=
  "gift_hold:" +:+ format_uint giftID +:+ ":" +:+ format_uint lotID.
Definition gift_claim_key (giftID lotID : Z) : string :=
  "gift_claim:" +:+ format_uint giftID +:+ ":" +:+ format_uint lotID.
Definition gift_restore_key (giftID lotID : Z) : string :=
  "gift_restore:" +:+ format_uint giftID +:+ ":" +:+ format_uint lotID.
Definition gift_expiry_key (lot : Lot) (giftID : Z) : string :=
  "expiry:" +:+ format_uint (Lot_ID lot) +:+ ":" +:+
  format_int (unix_milli (Lot_ExpiresAt lot)) +:+ ":after:gift_restore:" +:+ format_uint giftID.

(** ** Audit and outbox *)

Definition nowShanghai : G time := reading <- time_now ;; ret (truncate_ms reading).

Definition writeGiftAudit (ctx : Context) (actorType : string) (actorID : Z) (action : string)
    (gift : Gift) (beforeStatus afterStatus : string) (safeMetadata : list (string * json))
    : G unit :=
  let afterVersion :=
    if String.eqb beforeStatus "" then Gift_Version gift else uint_add (Gift_Version gift) 1 in
  id <- next_id ;;
  eventID <- new_uuid ;;
  createdAt <- nowShanghai ;;
  createAudit {|
    Audit_ID := id; Audit_EventID := Some eventID; Audit_ActorType := actorType;
    Audit_ActorID := actorID;
    Audit_AccountID := (if AccountID ctx =? 0 then None else Some (AccountID ctx));
    Audit_Action := action; Audit_ResourceType := "wine_ticket_gift";
    Audit_ResourceID := Gift_ID gift; Audit_OrderID := None; Audit_DeliveryID := None;
    Audit_BeforeData := JSONData (JMap
      (if String.eqb beforeStatus "" then []
       else [("status", JStr beforeStatus); ("version", JNum (Gift_Version gift))]));
    Audit_AfterData := JSONData (JMap
      (safeMetadata ++
       (if String.eqb afterStatus "" then []
        else [("status", JStr afterStatus); ("version", JNum afterVersion)])));
    Audit_Result := "success";
    Audit_BeforeStatus := optional_string beforeStatus;
    Audit_AfterStatus := optional_string afterStatus;
    Audit_Version := Some afterVersion; Audit_RequestID := RequestIDPtr ctx;
    Audit_IPHash := IPHashPtr ctx; Audit_UserAgent := UserAgentPtr ctx;
    Audit_CreatedAt := Some createdAt |}.

Definition writeGiftOutbox (ctx : Context) (eventType : string) (gift : Gift)
    (safePayload : list (string * json)) : G unit :=
  id <- next_id ;;
  eventID <- new_uuid ;;
  createdAt <- nowShanghai ;;
  createOutbox {|
    Outbox_ID := id; Outbox_EventID := eventID; Outbox_EventType := eventType;
    Outbox_EventVersion := 1; Outbox_SpecVersion := "1.0";
    Outbox_AggregateType := "wine_ticket_gift"; Outbox_AggregateID := Gift_ID gift;
    Outbox_Producer := Some "wine-ticket"; Outbox_Payload := JSONData (JMap safePayload);
    Outbox_Status := "pending"; Outbox_RetryCount := 0; Outbox_RequestID := RequestIDPtr ctx;
    Outbox_CreatedAt := Some createdAt |}.

(** ** Guards *)

Definition unprocessable (code detail : string) : error :=
  EProblem (Problem.New 422 code "Unprocessable Entity" detail).

(** The zero row the code reads fields of when there is no verification. *)
Definition no_realname : Realname := {|
  Realname_CustomerID := 0; Realname_Status := ""; Realname_AdultResult := "";
  Realname_ExpiresAt := None; Realname_RevokedAt := None |}.

Definition adult_verified (now : time) (r : Realname) : bool :=
  String.eqb (Realname_Status r) "verified" && String.eqb (Realname_AdultResult r) "adult" &&
  bool_decide (Realname_RevokedAt r = None) &&
  match Realname_ExpiresAt r with None => true | Some e => after e now end.

Definition requireAdultCustomer (customerID : Z) (now : time) : G unit :=
  let inactive := Forbidden "PERM_FORBIDDEN" "customer account is not active" in
  customer <- or_missing inactive (customerAccount customerID) ;;
  fail_if (negb (String.eqb (Customer_Status customer) "active")) inactive ;;;
  r <- attempt (customerRealname customerID) ;;
  match r with
  | Err e => fail_if (negb (is_record_not_found e)) e
  | Ok _ => ret tt
  end ;;;
  let current := match r with Ok c => c | Err _ => no_realname end in
  if is_ok r && adult_verified now current then ret tt
  else
    pending <- pendingIdentityVerification customerID now ;;
    fail_if pending
      (Conflict "IDENTITY_VERIFICATION_PENDING" "identity verification is still processing") ;;;
    fail_if (String.eqb (Realname_Status current) "verified" &&
             String.eqb (Realname_AdultResult current) "minor" &&
             bool_decide (Realname_RevokedAt current = None))
      (unprocessable "UNDERAGE_RESTRICTED" "wine gift actions require an adult customer") ;;;
    throw (unprocessable "REALNAME_REQUIRED" "valid real-name verification required").

(** The lineage of an allocation's source lot. *)
Definition source_lineage (gift : Gift) (allocation : GiftAllocation) (source : Lot) : bool :=
  (Lot_OwnerCustomerID source =? Gift_GiverCustomerID gift) &&
  (Lot_IssuerMerchantID source =? Gift_IssuerMerchantID gift) &&
  (Lot_ProductID source =? Gift_ProductID gift) &&
  String.eqb (Lot_RedeemCityCode source) (Gift_RedeemCityCode gift) &&
  time_equal (Lot_ExpiresAt source) (GA_SourceExpiresAt allocation).

Definition lineageInconsistent : error :=
  Internal "wine ticket gift source lineage is inconsistent".

(** The hold entry an allocation needs. *)
Definition hold_matches (gift : Gift) (allocation : GiftAllocation) (hold : Transaction) : bool :=
  (GA_Quantity allocation <=? i64_half - 1) &&
  (Tx_LotID hold =? GA_SourceLotID allocation) &&
  (Tx_OwnerCustomerID hold =? Gift_GiverCustomerID gift) &&
  String.eqb (Tx_TransactionType hold) TransactionTypeGiftHold &&
  String.eqb (Tx_BizType hold) "gift" && (Tx_BizID hold =? Gift_ID gift) &&
  (Tx_QuantityDelta hold =? int_neg (i64 (GA_Quantity allocation))) &&
  (GA_Quantity allocation <=? Tx_BeforeAvailableQuantity hold) &&
  (Tx_AfterAvailableQuantity hold =?
   uint_sub (Tx_BeforeAvailableQuantity hold) (GA_Quantity allocation)).

(** [holdsByAction], or a duplicated action key. *)
Fixpoint holds_by_action (holds : list Transaction) (m : gmap string Transaction)
    : option (gmap string Transaction) :=
  match holds with
  | [] => Some m
  | h :: rest =>
      match m !! Tx_ActionKey h with
      | Some _ => None
      | None => holds_by_action rest (<[Tx_ActionKey h := h]> m)
      end
  end.

(** The loop of [validateGiftHoldEvidence]: the sum of the quantities and the
    holds no allocation used. *)
Fixpoint check_allocations (gift : Gift) (sources : gmap Z Lot)
    (allocations : list GiftAllocation) (seen : list Z) (total : Z)
    (holds : gmap string Transaction) : res (Z * gmap string Transaction) :=
  match allocations with
  | [] => Ok (total, holds)
  | a :: rest =>
      if (GA_SourceLotID a =? 0) || (GA_Quantity a =? 0)
      then Err (Internal "wine ticket gift allocation evidence is invalid")
      else if id_in seen (GA_SourceLotID a)
      then Err (Internal "wine ticket gift allocation evidence is duplicated")
      else if uint_sub max_uint (GA_Quantity a) <? total
      then Err (Internal "wine ticket gift allocation quantity overflow")
      else
        match sources !! GA_SourceLotID a with
        | None => Err lineageInconsistent
        | Some source =>
            if negb (source_lineage gift a source) then Err lineageInconsistent
            else
              let key := gift_hold_key (Gift_ID gift) (GA_SourceLotID a) in
              match holds !! key with
              | None => Err (Internal "wine ticket gift hold ledger is inconsistent")
              | Some hold =>
                  if negb (hold_matches gift a hold)
                  then Err (Internal "wine ticket gift hold ledger is inconsistent")
                  else check_allocations gift sources rest (GA_SourceLotID a :: seen)
                         (uint_add total (GA_Quantity a)) (delete key holds)
              end
        end
  end.

Definition hold_evidence (gift : Gift) (allocations : list GiftAllocation) (lots : list Lot)
    (holds : list Transaction) : res unit :=
  if negb (Z.of_nat (List.length holds) =? Z.of_nat (List.length allocations))
  then Err (Internal "wine ticket gift hold ledger is incomplete")
  else
    match holds_by_action holds ∅ with
    | None => Err (Internal "wine ticket gift hold ledger is duplicated")
    | Some byAction =>
        match check_allocations gift (giftLotMap lots) allocations [] 0 byAction with
        | Err e => Err e
        | Ok (total, unused) =>
            if negb (total =? Gift_Quantity gift) || negb (bool_decide (unused = ∅))
            then Err (Internal
                   "wine ticket gift allocation quantity does not match its hold ledger")
            else Ok tt
        end
    end.

Definition validateGiftHoldEvidence (gift : Gift) (allocations : list GiftAllocation)
    (lots : list Lot) : G unit :=
  fail_if ((Gift_Quantity gift =? 0) || bool_decide (allocations = []))
    (Internal "wine ticket gift allocation evidence is missing") ;;;
  holds <- giftHoldTransactions (Gift_ID gift) ;;
  lift (hold_evidence gift allocations lots holds).

(** ** Restoring a gift *)

Definition lockGiftAllocationsAndLots (giftID : Z) : G (list GiftAllocation * list Lot) :=
  allocations <- lockGiftAllocations giftID ;;
  lots <- lockGiftLots (giftSourceLotIDs allocations) ;;
  ret (allocations, lots).

Section Service.
(** The secret the token digests are salted with. *)
Variable pepper : string.

(** The asset service and repository of the transaction. *)
Definition assets : AssetService World := NewAssetService time_now next_id.
Definition asset_ledger : option (AssetLedgerRepository World) :=
  Some (ledger_repository NewTransactionAssetRepository).

Definition hold_command (customerID giftID : Z) (item : giftFEFOSelection) (now : time)
    : AssetCommand := {|
  Cmd_LotID := Lot_ID (Sel_lot item); Cmd_OwnerCustomerID := customerID;
  Cmd_Quantity := Sel_quantity item; Cmd_MarkUsed := true;
  Cmd_TransactionType := TransactionTypeGiftHold; Cmd_BizType := "gift"; Cmd_BizID := giftID;
  Cmd_ActionKey := gift_hold_key giftID (Lot_ID (Sel_lot item)); Cmd_Metadata := JNull;
  Cmd_OccurredAt := now; Cmd_ExpiryEvidence := None |}.

Definition restore_command (gift : Gift) (source : Lot) (quantity : Z) (now : time)
    : AssetCommand := {|
  Cmd_LotID := Lot_ID source; Cmd_OwnerCustomerID := Lot_OwnerCustomerID source;
  Cmd_Quantity := quantity; Cmd_MarkUsed := false;
  Cmd_TransactionType := TransactionTypeGiftRestore; Cmd_BizType := "gift";
  Cmd_BizID := Gift_ID gift; Cmd_ActionKey := gift_restore_key (Gift_ID gift) (Lot_ID source);
  Cmd_Metadata := JNull; Cmd_OccurredAt := now;
  Cmd_ExpiryEvidence := Some {|
    Evidence_TransactionType := TransactionTypeExpiry; Evidence_BizType := "gift";
    Evidence_BizID := Gift_ID gift; Evidence_ActionKey := gift_expiry_key source (Gift_ID gift);
    Evidence_Metadata := JNull |} |}.

(** The lot a receiver gets for one allocation. *)
Definition receiver_lot (gift : Gift) (allocation : GiftAllocation) (source : Lot)
    (receiverLotID customerID : Z) (now : time) : Lot := {|
  Lot_ID := receiverLotID; Lot_LotNo := "WTL" +:+ IDString receiverLotID;
  Lot_OwnerCustomerID := customerID; Lot_PurchaseID := Lot_PurchaseID source;
  Lot_SourceType := LotSourceGift; Lot_SourceLotID := Some (Lot_ID source);
  Lot_SourceGiftID := Some (Gift_ID gift); Lot_IssuerMerchantID := Lot_IssuerMerchantID source;
  Lot_ProductID := Lot_ProductID source; Lot_RedeemCityCode := Lot_RedeemCityCode source;
  Lot_TotalQuantity := GA_Quantity allocation; Lot_AvailableQuantity := GA_Quantity allocation;
  Lot_OriginalExpiresAt := Lot_OriginalExpiresAt source; Lot_ExpiresAt := Lot_ExpiresAt source;
  Lot_ExpiryChangedAt := now; Lot_RenewalCount := Lot_RenewalCount source;
  Lot_EverUsed := true; Lot_Status := LotStatusActive; Lot_Version := 1; Lot_CreatedAt := now;
  Lot_UpdatedAt := now |}.

Definition claim_command (gift : Gift) (lot : Lot) (now : time) : TransferCommand := {|
  Transfer_ReceiverLot := lot; Transfer_TransactionType := TransactionTypeGiftClaim;
  Transfer_BizType := "gift"; Transfer_BizID := Gift_ID gift;
  Transfer_ActionKey := gift_claim_key (Gift_ID gift) (Lot_ID lot);
  Transfer_Metadata := JNull; Transfer_OccurredAt := now |}.

(** One turn of the loop of [restoreGiftLocked]. *)
Definition restore_allocation (ctx : Context) (gift : Gift) (sources : gmap Z Lot) (now : time)
    (allocation : GiftAllocation) : G unit :=
  fail_if (negb (String.eqb (GA_Status allocation) GiftAllocationStatusHeld) ||
           negb (bool_decide (GA_ReceiverLotID allocation = None)))
    (Conflict "WT_GIFT_NOT_PENDING" "wine ticket gift allocation is not restorable") ;;;
  match sources !! GA_SourceLotID allocation with
  | None => throw lineageInconsistent
  | Some source =>
      fail_if (negb (source_lineage gift allocation source)) lineageInconsistent ;;;
      let before := Lot_AvailableQuantity source in
      fail_if ((Lot_TotalQuantity source <? before) ||
               (uint_sub (Lot_TotalQuantity source) before <? GA_Quantity allocation))
        (Internal "wine ticket gift restore would exceed source lot quantity") ;;;
      gift_write (Restore assets ctx asset_ledger
                    (restore_command gift source (GA_Quantity allocation) now)) ;;;
      updateGiftAllocation (GA_ID allocation) (allocation_restored now)
  end.

(** Every token that is neither consumed nor revoked is revoked. *)
Definition revoke_open_token (now : time) (token : GiftClaimToken) : G unit :=
  if bool_decide (Token_ConsumedAt token = None) && bool_decide (Token_RevokedAt token = None)
  then updateGiftToken (Token_ID token) (token_revoked now)
  else ret tt.

Definition restoreGiftLocked (ctx : Context) (gift : Gift) (tokens : list GiftClaimToken)
    (allocations : list GiftAllocation) (lots : list Lot) (terminalStatus : string) (now : time)
    : G unit :=
  fail_if (negb (String.eqb terminalStatus GiftStatusCancelled) &&
           negb (String.eqb terminalStatus GiftStatusExpiredReturned))
    (Internal "invalid gift restore terminal status") ;;;
  fail_if (bool_decide (allocations = []))
    (Internal "wine ticket gift allocation evidence is missing") ;;;
  validateGiftHoldEvidence gift allocations lots ;;;
  for_each allocations (restore_allocation ctx gift (giftLotMap lots) now) ;;;
  for_each tokens (revoke_open_token now) ;;;
  or_error giftConcurrent
    (updateGift (Gift_ID gift) (Gift_Version gift) (gift_returned terminalStatus now)) ;;;
  writeGiftOutbox ctx "wine_ticket.gift_returned" gift
    [("gift_no", JStr (Gift_GiftNo gift));
     ("giver_customer_id", JStr (IDString (Gift_GiverCustomerID gift)));
     ("product_id", JStr (IDString (Gift_ProductID gift)));
     ("quantity", JNum (Gift_Quantity gift)); ("status", JStr terminalStatus)].

(** A pending gift past its deadline, met by another operation: it is
    returned, with [trigger] in the audit. *)
Definition restore_timeout (ctx : Context) (actorType : string) (actorID : Z) (trigger : string)
    (gift : Gift) (tokens : list GiftClaimToken) (allocations : list GiftAllocation)
    (lots : list Lot) (now : time) : G unit :=
  restoreGiftLocked ctx gift tokens allocations lots GiftStatusExpiredReturned now ;;;
  writeGiftAudit ctx actorType actorID "wine_ticket.gift.timeout" gift
    GiftStatusPending GiftStatusExpiredReturned
    [("gift_no", JStr (Gift_GiftNo gift)); ("trigger", JStr trigger)].

Definition timed_out (gift : Gift) (now : time) : bool :=
  String.eqb (Gift_Status gift) GiftStatusPending && negb (before now (Gift_ClaimDeadline gift)).

(** ** Idempotency *)

Definition startIdempotency (customerID : Z) (method path key requestHash : string) : G bool :=
  id <- next_id ;;
  now <- time_now ;;
  StartAt "customer" customerID path key id method requestHash now.

Definition cachedIdempotency (customerID : Z) (path key : string) : G GiftDTO :=
  found <- CachedResponse "customer" customerID path key ;;
  match found with
  | Some dto => ret dto
  | None => throw (Conflict "IDEMPOTENCY_IN_PROGRESS"
                     "request with the same idempotency key is still processing")
  end.

(** ** Reading *)

Definition Detail (claims : option Claims) (giftNo : string) : G GiftDTO :=
  customerID <- lift (giftCustomerIDWithPermission claims "wine_ticket_gift:view") ;;
  lift (validateBusinessNo giftNo "gift_no") ;;;
  row <- or_missing giftNotFound (customerGiftByNo customerID giftNo) ;;
  ret (giftDTO row).

Definition Preview (rawToken : string) : G GiftPreviewDTO :=
  fail_if ((str_len pepper <? 32) || negb (validGiftShareToken rawToken))
    invalidGiftTokenProblem ;;;
  now <- nowShanghai ;;
  row <- or_error invalidGiftTokenProblem
           (previewByTokenDigest (tokenDigest pepper rawToken) now) ;;
  ret (giftPreviewDTO row).
End Service.

(** ** Writing *)

Section Operations.
Variable pepper : string.

(** The gift [Create] inserts. *)
Definition new_gift (giftID customerID : Z) (anchor : Lot) (request : GiftCreateRequest)
    (earliest now : time) : Gift :=
  let deadline := add_duration now (giftClaimTTL * second) in {|
  Gift_ID := giftID; Gift_GiftNo := "WTG" +:+ IDString giftID;
  Gift_GiverCustomerID := customerID; Gift_ReceiverCustomerID := None;
  Gift_IssuerMerchantID := Lot_IssuerMerchantID anchor; Gift_ProductID := Lot_ProductID anchor;
  Gift_RedeemCityCode := Lot_RedeemCityCode anchor; Gift_Quantity := Create_Quantity request;
  Gift_Message := Create_Message request; Gift_Status := GiftStatusPending;
  Gift_ClaimDeadline := if before earliest deadline then earliest else deadline;
  Gift_EarliestExpiresAt := earliest; Gift_Version := 1; Gift_ClaimedAt := None;
  Gift_CancelledAt := None; Gift_ReturnedAt := None; Gift_CreatedAt := now;
  Gift_UpdatedAt := now |}.

(** One turn of the loop of [Create]: freeze, and record the allocation. *)
Definition hold_selection (ctx : Context) (customerID giftID : Z) (now : time)
    (item : giftFEFOSelection) : G unit :=
  gift_write (Freeze assets ctx asset_ledger (hold_command customerID giftID item now)) ;;;
  id <- next_id ;;
  gift_write (createGiftAllocation {|
    GA_ID := id; GA_GiftID := giftID; GA_SourceLotID := Lot_ID (Sel_lot item);
    GA_ReceiverLotID := None; GA_Quantity := Sel_quantity item;
    GA_SourceExpiresAt := Lot_ExpiresAt (Sel_lot item);
    GA_Status := GiftAllocationStatusHeld; GA_CreatedAt := now; GA_UpdatedAt := now |}).

(** The lots [Create] may take from: the locked group of the anchor. *)
Definition lock_group (customerID : Z) (lotNo : string) (now : time) : G (Lot * list Lot) :=
  anchor <- or_missing (NotFound "WT_LOT_NOT_FOUND" "wine ticket lot not found")
              (giftAnchorLot customerID lotNo now) ;;
  group <- lockGiftGroupLots anchor now ;;
  fail_if (negb (giftGroupContainsAnchor group (Lot_ID anchor)))
    (Conflict "WT_CONCURRENT_MODIFICATION" "wine ticket lot group changed concurrently") ;;;
  ret (anchor, group).

(** [Create] once the key is claimed. *)
Definition create_started (ctx : Context) (customerID : Z) (path key : string)
    (request : GiftCreateRequest) : G GiftDTO :=
  now <- nowShanghai ;;
  requireAdultCustomer customerID now ;;;
  locked <- lock_group customerID (Create_SourceLotNo request) now ;;
  let '(anchor, group) := locked in
  selected <- lift (selectGiftFEFO group (Create_Quantity request)) ;;
  hasRenewal <- activeRenewalForLots (map (fun item => Lot_ID (Sel_lot item)) selected) ;;
  fail_if hasRenewal
    (Conflict "WT_RENEWAL_IN_PROGRESS" "a selected wine ticket lot has an active renewal") ;;;
  giftID <- next_id ;;
  match selected with
  | [] => throw (EMessage "runtime error: index out of range [0] with length 0")
  | first :: others =>
      let earliest := earliest_expiry (Sel_lot first) others in
      let gift := new_gift giftID customerID anchor request earliest now in
      gift_write (createGift gift) ;;;
      for_each selected (hold_selection ctx customerID giftID now) ;;;
      projected <- giftProjectionByID giftID ;;
      let response := giftDTO projected in
      writeGiftAudit ctx "customer" customerID "wine_ticket.gift.create" gift "" GiftStatusPending
        [("gift_no", JStr (Gift_GiftNo gift)); ("quantity", JNum (Gift_Quantity gift))] ;;;
      Succeed "customer" customerID path key response ;;;
      ret response
  end.

Definition Create (ctx : Context) (claims : option Claims) (method path key : string)
    (request0 : GiftCreateRequest) : G GiftDTO :=
  customerID <- lift (giftCustomerIDWithPermission claims "wine_ticket_gift:create") ;;
  request <- lift (normalizeGiftCreateRequest request0) ;;
  let requestHash := RequestHash (GiftCreateRequest_json request0) in
  transaction (
    started <- startIdempotency customerID method path key requestHash ;;
    if negb started then cachedIdempotency customerID path key
    else create_started ctx customerID path key request).

(** [retryAfter], with [math.Ceil] of the seconds left. *)
Definition retry_after (earliest : option time) (now : time) : Z :=
  match earliest with
  | None => 1
  | Some e => Z.max 1 (- ((- (e - now)) / second))
  end.

Definition rate_limited (retryAfter : Z) : error :=
  match TooManyRequests "RATE_LIMITED" "active wine gift share token limit reached" with
  | EProblem d => EProblem {|
      Details_Type := Details_Type d; Details_Title := Details_Title d;
      Details_Status := Details_Status d; Details_Detail := Details_Detail d;
      Details_Instance := Details_Instance d; Details_ErrorCode := Details_ErrorCode d;
      Details_RequestID := Details_RequestID d;
      Details_Data := Some (JMap [("retry_after_seconds", JNum retryAfter)]) |}
  | e => e
  end.

(** When a token issued now for the gift expires. *)
Definition token_expiry (gift : Gift) (now : time) : time :=
  let e1 := add_duration now (giftShareTokenTTL * second) in
  let e2 := if before (Gift_ClaimDeadline gift) e1 then Gift_ClaimDeadline gift else e1 in
  if before (Gift_EarliestExpiresAt gift) e2 then Gift_EarliestExpiresAt gift else e2.

(** The gift of a business number, if it is the customer's own. *)
Definition lock_own_gift (customerID : Z) (giftNo : string) : G Gift :=
  gift <- or_missing giftNotFound (lockGiftByNo giftNo) ;;
  fail_if (negb (Gift_GiverCustomerID gift =? customerID)) giftNotFound ;;;
  ret gift.

(** The part of [CreateShareToken] that issues a token. *)
Definition issue_token (ctx : Context) (customerID : Z) (gift : Gift)
    (tokens : list GiftClaimToken) (expectedVersion : Z) (now : time) : G GiftShareTokenDTO :=
  lift (pendingGiftProblem gift) ;;;
  fail_if (negb (Gift_Version gift =? expectedVersion)) giftVersionChanged ;;;
  let '(activeCount, earliest) := activeGiftTokenCount tokens now 0 None in
  fail_if (giftActiveTokenMax <=? activeCount) (rate_limited (retry_after earliest now)) ;;;
  rawToken <- newGiftShareToken ;;
  let expiresAt := token_expiry gift now in
  fail_if (negb (before now expiresAt)) giftExpired ;;;
  id <- next_id ;;
  gift_write (createGiftToken {|
    Token_ID := id; Token_GiftID := Gift_ID gift; Token_TokenDigest := tokenDigest pepper rawToken;
    Token_IssuedByCustomerID := customerID; Token_ExpiresAt := expiresAt;
    Token_ConsumedAt := None; Token_RevokedAt := None; Token_RequestID := RequestIDPtr ctx;
    Token_CreatedAt := now |}) ;;;
  or_error giftConcurrent
    (updateGift (Gift_ID gift) (Gift_Version gift) (gift_touched now)) ;;;
  writeGiftAudit ctx "customer" customerID "wine_ticket.gift.share_token.issue" gift
    GiftStatusPending GiftStatusPending
    [("gift_no", JStr (Gift_GiftNo gift)); ("token_expires_at", JStr (FormatShanghai expiresAt));
     ("active_token_count", JNum (activeCount + 1))] ;;;
  ret {| ShareDTO_ShareToken := rawToken; ShareDTO_ExpiresAt := FormatShanghai expiresAt;
         ShareDTO_MiniProgramPath :=
           "/pages/wine-ticket/gifts/claim?gift_token=" +:+ rawToken |}.

(** A transaction whose closure may set [terminalErr]: the error the caller
    gets after the transaction has committed. *)
Definition commit_then {A} (fn : G (res A)) : G A :=
  outcome <- transaction fn ;;
  lift outcome.

Definition CreateShareToken (ctx : Context) (claims : option Claims) (giftNo : string)
    (request : GiftShareTokenRequest) : G GiftShareTokenDTO :=
  customerID <- lift (giftCustomerIDWithPermission claims "wine_ticket_gift:share") ;;
  lift (validateBusinessNo giftNo "gift_no") ;;;
  fail_if (Share_ExpectedGiftVersion request =? 0)
    (InvalidArgument "VALIDATION_FAILED" "expected_gift_version must be positive") ;;;
  fail_if (str_len pepper <? 32)
    (Internal "wine gift token pepper is not configured") ;;;
  commit_then (
    now <- nowShanghai ;;
    gift <- lock_own_gift customerID giftNo ;;
    tokens <- lockGiftTokens (Gift_ID gift) ;;
    if timed_out gift now then
      locked <- lockGiftAllocationsAndLots (Gift_ID gift) ;;
      restore_timeout ctx "customer" customerID "share" gift tokens locked.1 locked.2 now ;;;
      ret (Err giftExpired)
    else
      dto <- issue_token ctx customerID gift tokens (Share_ExpectedGiftVersion request) now ;;
      ret (Ok dto)).

(** One turn of the loop of [Claim] over the allocations. *)
Definition claim_allocation (ctx : Context) (customerID : Z) (gift : Gift)
    (sources : gmap Z Lot) (now : time) (allocation : GiftAllocation) : G unit :=
  fail_if (negb (String.eqb (GA_Status allocation) GiftAllocationStatusHeld) ||
           negb (bool_decide (GA_ReceiverLotID allocation = None)))
    (Conflict "WT_GIFT_NOT_PENDING" "wine ticket gift allocation is not claimable") ;;;
  match sources !! GA_SourceLotID allocation with
  | None => throw lineageInconsistent
  | Some source =>
      fail_if (negb (source_lineage gift allocation source)) lineageInconsistent ;;;
      receiverLotID <- next_id ;;
      let lot := receiver_lot gift allocation source receiverLotID customerID now in
      gift_write (Transfer assets ctx (Some NewTransactionAssetRepository)
                    (claim_command gift lot now)) ;;;
      updateGiftAllocation (GA_ID allocation) (allocation_claimed receiverLotID now)
  end.

(** The matched token is consumed, every other open one is revoked. *)
Definition settle_token (matched : GiftClaimToken) (now : time) (token : GiftClaimToken)
    : G unit :=
  if Token_ID token =? Token_ID matched
  then updateGiftToken (Token_ID token) (token_consumed now)
  else revoke_open_token now token.

(** The checks of [Claim] on a gift that has not timed out. *)
Definition claim_guard (customerID : Z) (gift : Gift) (matched : option GiftClaimToken)
    (now : time) : res GiftClaimToken :=
  if String.eqb (Gift_Status gift) GiftStatusClaimed
  then Err (Conflict "WT_GIFT_ALREADY_CLAIMED" "wine ticket gift was already claimed")
  else if String.eqb (Gift_Status gift) GiftStatusCancelled then Err giftCancelled
  else if String.eqb (Gift_Status gift) GiftStatusExpiredReturned then Err giftExpired
  else if negb (String.eqb (Gift_Status gift) GiftStatusPending) then Err giftNotPending
  else
    match matched with
    | None => Err invalidGiftTokenProblem
    | Some token =>
        if negb (token_active now token) then Err invalidGiftTokenProblem
        else if Gift_GiverCustomerID gift =? customerID
        then Err (Forbidden "WT_GIFT_SELF_CLAIM_FORBIDDEN"
                    "a gift cannot be claimed by its giver")
        else Ok token
    end.

(** The part of [Claim] that hands the bottles over. *)
Definition claim_gift (ctx : Context) (customerID : Z) (path key : string) (gift : Gift)
    (tokens : list GiftClaimToken) (matched : GiftClaimToken)
    (allocations : list GiftAllocation) (lots : list Lot) (now : time) : G GiftDTO :=
  requireAdultCustomer customerID now ;;;
  fail_if (bool_decide (allocations = []) || bool_decide (lots = []))
    (Internal "wine ticket gift allocation evidence is missing") ;;;
  validateGiftHoldEvidence gift allocations lots ;;;
  for_each allocations (claim_allocation ctx customerID gift (giftLotMap lots) now) ;;;
  for_each tokens (settle_token matched now) ;;;
  or_error giftConcurrent
    (updateGift (Gift_ID gift) (Gift_Version gift) (gift_claimed customerID now)) ;;;
  writeGiftAudit ctx "customer" customerID "wine_ticket.gift.claim" gift
    GiftStatusPending GiftStatusClaimed
    [("gift_no", JStr (Gift_GiftNo gift)); ("quantity", JNum (Gift_Quantity gift))] ;;;
  writeGiftOutbox ctx "wine_ticket.gift_claimed" gift
    [("gift_no", JStr (Gift_GiftNo gift));
     ("giver_customer_id", JStr (IDString (Gift_GiverCustomerID gift)));
     ("receiver_customer_id", JStr (IDString customerID));
     ("product_id", JStr (IDString (Gift_ProductID gift)));
     ("quantity", JNum (Gift_Quantity gift))] ;;;
  projected <- giftProjectionByID (Gift_ID gift) ;;
  let response := giftDTO projected in
  Succeed "customer" customerID path key response ;;;
  ret response.

(** [_ = s.idStore.Fail(...)]: the error is dropped. *)
Definition fail_quietly (customerID : Z) (path key : string) : G unit :=
  attempt (Fail "customer" customerID path key) ;;;
  ret tt.

Definition Claim (ctx : Context) (claims : option Claims) (method path key rawToken : string)
    : G GiftDTO :=
  customerID <- lift (giftCustomerIDWithPermission claims "wine_ticket_gift:claim") ;;
  fail_if ((str_len pepper <? 32) || negb (validGiftShareToken rawToken))
    invalidGiftTokenProblem ;;;
  let digest := tokenDigest pepper rawToken in
  giftID <- or_missing invalidGiftTokenProblem (giftIDByTokenDigest digest) ;;
  let requestHash := ResourceRequestHash "wine_ticket_gift_claim" (JStr digest) (JObj []) in
  commit_then (
    started <- startIdempotency customerID method path key requestHash ;;
    if negb started then
      dto <- cachedIdempotency customerID path key ;;
      ret (Ok dto)
    else
      now <- nowShanghai ;;
      gift <- or_missing invalidGiftTokenProblem (lockGiftByID giftID) ;;
      tokens <- lockGiftTokens (Gift_ID gift) ;;
      locked <- lockGiftAllocationsAndLots (Gift_ID gift) ;;
      if timed_out gift now then
        restore_timeout ctx "customer" customerID "claim" gift tokens locked.1 locked.2 now ;;;
        fail_quietly customerID path key ;;;
        ret (Err giftExpired)
      else
        matched <- lift (claim_guard customerID gift (findLockedToken tokens digest) now) ;;
        dto <- claim_gift ctx customerID path key gift tokens matched locked.1 locked.2 now ;;
        ret (Ok dto)).

Definition Cancel (ctx : Context) (claims : option Claims) (method path key giftNo : string)
    (request : GiftExpectedVersionRequest) : G GiftDTO :=
  customerID <- lift (giftCustomerIDWithPermission claims "wine_ticket_gift:cancel") ;;
  lift (validateBusinessNo giftNo "gift_no") ;;;
  fail_if (Expected_ExpectedVersion request =? 0)
    (InvalidArgument "VALIDATION_FAILED" "expected_version must be positive") ;;;
  let requestHash := ResourceRequestHash "wine_ticket_gift_cancel" (JStr giftNo)
                       (GiftExpectedVersionRequest_json request) in
  commit_then (
    started <- startIdempotency customerID method path key requestHash ;;
    if negb started then
      dto <- cachedIdempotency customerID path key ;;
      ret (Ok dto)
    else
      now <- nowShanghai ;;
      gift <- lock_own_gift customerID giftNo ;;
      tokens <- lockGiftTokens (Gift_ID gift) ;;
      locked <- lockGiftAllocationsAndLots (Gift_ID gift) ;;
      if timed_out gift now then
        restore_timeout ctx "customer" customerID "cancel" gift tokens locked.1 locked.2 now ;;;
        fail_quietly customerID path key ;;;
        ret (Err giftExpired)
      else
        lift (pendingGiftProblem gift) ;;;
        fail_if (negb (Gift_Version gift =? Expected_ExpectedVersion request))
          giftVersionChanged ;;;
        restoreGiftLocked ctx gift tokens locked.1 locked.2 GiftStatusCancelled now ;;;
        writeGiftAudit ctx "customer" customerID "wine_ticket.gift.cancel" gift
          GiftStatusPending GiftStatusCancelled
          [("gift_no", JStr (Gift_GiftNo gift)); ("quantity", JNum (Gift_Quantity gift))] ;;;
        projected <- giftProjectionByID (Gift_ID gift) ;;
        let response := giftDTO projected in
        Succeed "customer" customerID path key response ;;;
        ret (Ok response)).

(** The transaction of [ExpireDue] for one gift: whether it was returned. *)
Definition expire_gift (ctx : Context) (now : time) (giftID : Z) : G bool :=
  transaction (
    r <- attempt (lockGiftByID giftID) ;;
    match r with
    | Err e => if is_record_not_found e then ret false else throw e
    | Ok gift =>
        tokens <- lockGiftTokens (Gift_ID gift) ;;
        locked <- lockGiftAllocationsAndLots (Gift_ID gift) ;;
        if negb (timed_out gift now) then ret false
        else
          restore_timeout ctx "system" 0 "worker" gift tokens locked.1 locked.2 now ;;;
          ret true
    end).

Fixpoint expire_gifts (ctx : Context) (now : time) (ids : list Z) (expired : Z) : G Z :=
  match ids with
  | [] => ret expired
  | giftID :: rest =>
      didExpire <- expire_gift ctx now giftID ;;
      expire_gifts ctx now rest (if didExpire : bool then expired + 1 else expired)
  end.

Definition ExpireDue (ctx : Context) (limit : Z) : G Z :=
  let limit := if (limit <=? 0) || (100 <? limit) then 100 else limit in
  now <- nowShanghai ;;
  ids <- dueGiftIDs now (Z.to_nat limit) ;;
  expire_gifts ctx now ids 0.
End Operations.
