(* ===== verification/BusinessPayment.v ===== *)
(** * Payments for other businesses than a retail order

    [order/business_payment.go], [order/payment_settlement.go] and the parts of
    [order/payment_state.go], [payment_provider.go], [repository.go] and
    [expiry_worker.go] they use, with [pkg/paygateway/error.go]: a module that
    sells something registers a settlement handler; the payment service keeps
    the money side, asks the provider, and tells the handler inside one
    transaction what became of the payment.

    The provider is a record of calls to a remote system.  A call may take any
    time, so it runs over the world: what happens meanwhile is in the world it
    returns.  Logs and metrics leave no trace, and a [PaymentDTO] is the
    payment it prints. *)

From S2P Require Import Prelude GoInt GoString GoTime Json Problem RequestCtx.
From S2P Require Import CoreModel GiftModel RedemptionModel PurchaseModel AssetLaws Database.
From S2P Require Import FulfilmentTables PurchaseTables IntegrityScan GiftRepository GiftService.
From S2P Require Import RedemptionDto RedemptionRepository PurchaseRepository.
From Stdlib Require Import String Ascii.
#[local] Open Scope string_scope. #[local] Open Scope list_scope. #[local] Open Scope Z_scope.
#[local] Open Scope go_scope.

Definition upper_byte (c : ascii) : ascii :=
  let b := byte_val c in
  if (97 <=? b) && (b <=? 122) then val_byte (b - 32) else c.

(** [strings.ToUpper] and [strings.EqualFold] on ASCII letters. *)
Fixpoint to_upper (s : string) : string :=
  match s with
  | EmptyString => EmptyString
  | String c s' => String (upper_byte c) (to_upper s')
  end.

Definition equal_fold (a b : string) : bool := String.eqb (to_lower a) (to_lower b).

(** ** [pkg/paygateway/error.go] *)

Record ProviderError := {
  PErr_Operation : string;
  PErr_HTTPStatus : Z;
  PErr_Code : string;
  PErr_Message : string;
  PErr_RequestID : string;
  PErr_Retryable : bool;
}.

(** [(e).Error()] *)
Definition ProviderError_Error (e : ProviderError) : string :=
  PErr_Operation e +:+ ": status=" +:+ format_int (PErr_HTTPStatus e) +:+ " code=" +:+
  PErr_Code e +:+ " request_id=" +:+ PErr_RequestID e +:+ " message=" +:+
  (if String.eqb (PErr_Message e) "" then "payment gateway call failed" else PErr_Message e).

(** An error of a provider: one with metadata, which [As] finds, or the text of
    another, of the transport for one. *)
Inductive gateway_error : Type :=
| Structured (e : ProviderError)
| Unstructured (text : string).

Definition gateway_As (err : gateway_error) : option ProviderError :=
  match err with Structured e => Some e | Unstructured _ => None end.

Definition gateway_text (err : gateway_error) : string :=
  match err with Structured e => ProviderError_Error e | Unstructured text => text end.

Definition gateway_IsCode (err : gateway_error) (code : string) : bool :=
  match gateway_As err with Some target => String.eqb (PErr_Code target) code | None => false end.

Definition gateway_Code (err : gateway_error) (fallback : string) : string :=
  match gateway_As err with
  | Some target => if String.eqb (PErr_Code target) "" then fallback else PErr_Code target
  | None => fallback
  end.

Definition gateway_Retryable (err : gateway_error) : bool :=
  match gateway_As err with Some target => PErr_Retryable target | None => true end.

Definition gateway_RequestID (err : gateway_error) : string :=
  match gateway_As err with Some target => PErr_RequestID target | None => "" end.

(** ** [payment_provider.go] *)

Record CreateProviderPaymentInput := {
  CPI_PaymentNo : string;
  CPI_Description : string;
  CPI_Amount : Z;
  CPI_Currency : string;
  CPI_OpenID : string;
  CPI_ExpiresAt : time;
}.

Record ProviderPaymentResult := {
  PPR_ProviderTradeNo : string;
  PPR_ProviderPrepayID : string;
  PPR_Status : string;
  PPR_RequestID : string;
  PPR_ClientPayload : json;
}.

Record ProviderPaymentState := {
  PPS_ProviderTradeNo : string;
  PPS_PaymentNo : string;
  PPS_Status : string;
  PPS_AppID : string;
  PPS_MchID : string;
  PPS_Amount : Z;
  PPS_Currency : string;
  PPS_AmountPresent : bool;
  PPS_RequestID : string;
  PPS_PaidAt : option time;
}.

Record PaymentProvider := {
  Provider_Code : string;
  Provider_Create : CreateProviderPaymentInput -> M World gateway_error ProviderPaymentResult;
  Provider_Query : string -> M World gateway_error ProviderPaymentState;
  Provider_Close : string -> M World gateway_error string;
}.

(** A remote call: its error is a value. *)
Definition remote {A} (call : M World gateway_error A) : G (result gateway_error A) := fun w =>
  let '(r, w') := call w in (Ok r, w').

(** ** [repository.go] *)

Definition payment_no (paymentNo provider : string) (p : Payment) : bool :=
  String.eqb (Pay_PaymentNo p) paymentNo && String.eqb (Pay_Provider p) provider &&
  not_deleted (Pay_DeletedAt p).

Definition payment_id (paymentID : Z) (p : Payment) : bool :=
  (Pay_ID p =? paymentID) && not_deleted (Pay_DeletedAt p).

Definition LockPaymentByNo (paymentNo provider : string) : G Payment :=
  take_row (payment_no paymentNo provider).
Definition GetPaymentByNo (paymentNo provider : string) : G Payment :=
  take_row (payment_no paymentNo provider).
Definition LockPaymentByID (paymentID : Z) : G Payment := take_row (payment_id paymentID).
Definition GetPaymentByID (paymentID : Z) : G Payment := take_row (payment_id paymentID).

Definition GetBusinessPayment (bizType : string) (bizID : Z) (provider : string) : G Payment :=
  take_from (fun db => latest Pay_ID
    (List.filter (fun p => same_text (Pay_BizType p) (Some bizType) &&
                           same_id (Pay_BizID p) (Some bizID) &&
                           String.eqb (Pay_Provider p) provider && not_deleted (Pay_DeletedAt p))
       (sales_payments (db_sales db)))).

(** The columns of a payment the updates write. *)
Definition payment_set (p : Payment) (status : string)
    (tradeNo providerStatus prepayID : option string) (payload : option json)
    (paidAt failedAt : option time) (failureCode : option string) (attempts : Z)
    (nextReconcileAt : option time) (version : Z) (createdAt updatedAt : time) : Payment := {|
  Pay_ID := Pay_ID p; Pay_PaymentNo := Pay_PaymentNo p; Pay_BizType := Pay_BizType p;
  Pay_BizID := Pay_BizID p; Pay_OrderID := Pay_OrderID p; Pay_CustomerID := Pay_CustomerID p;
  Pay_Channel := Pay_Channel p; Pay_Provider := Pay_Provider p; Pay_ProviderTradeNo := tradeNo;
  Pay_ProviderStatus := providerStatus; Pay_ProviderPrepayID := prepayID; Pay_Status := status;
  Pay_Amount := Pay_Amount p; Pay_Currency := Pay_Currency p; Pay_ClientPayload := payload;
  Pay_ExpiresAt := Pay_ExpiresAt p; Pay_PaidAt := paidAt; Pay_FailedAt := failedAt;
  Pay_FailureCode := failureCode; Pay_ReconcileAttempts := attempts;
  Pay_NextReconcileAt := nextReconcileAt; Pay_RefundedAmount := Pay_RefundedAmount p;
  Pay_Version := version; Pay_IdempotencyKey := Pay_IdempotencyKey p; Pay_CreatedAt := createdAt;
  Pay_UpdatedAt := updatedAt; Pay_DeletedAt := Pay_DeletedAt p |}.

(** An update of status, provider evidence and schedule. *)
Definition payment_moved (status : string) (tradeNo providerStatus : option string)
    (paidAt failedAt : option time) (failureCode : option string) (next : option time)
    (p : Payment) : Payment :=
  payment_set p status tradeNo providerStatus (Pay_ProviderPrepayID p) (Pay_ClientPayload p)
    paidAt failedAt failureCode (Pay_ReconcileAttempts p) next (Pay_Version p) (Pay_CreatedAt p)
    (Pay_UpdatedAt p).

(** ["version": gorm.Expr("version + 1")] *)
Definition next_version (p : Payment) : Payment :=
  payment_set p (Pay_Status p) (Pay_ProviderTradeNo p) (Pay_ProviderStatus p)
    (Pay_ProviderPrepayID p) (Pay_ClientPayload p) (Pay_PaidAt p) (Pay_FailedAt p)
    (Pay_FailureCode p) (Pay_ReconcileAttempts p) (Pay_NextReconcileAt p) (Pay_Version p + 1)
    (Pay_CreatedAt p) (Pay_UpdatedAt p).

(** The dates GORM sets. *)
Definition payment_stamped (createdAt updatedAt : time) (p : Payment) : Payment :=
  payment_set p (Pay_Status p) (Pay_ProviderTradeNo p) (Pay_ProviderStatus p)
    (Pay_ProviderPrepayID p) (Pay_ClientPayload p) (Pay_PaidAt p) (Pay_FailedAt p)
    (Pay_FailureCode p) (Pay_ReconcileAttempts p) (Pay_NextReconcileAt p) (Pay_Version p)
    createdAt updatedAt.

Definition CreatePayment (row : Payment) : G unit :=
  now <- time_now ;; create_row (payment_stamped now now row).

Definition UpdatePayment (paymentID : Z) (values : Payment -> Payment) : G unit :=
  now <- time_now ;;
  update_rows (fun p => Pay_ID p =? paymentID)
    (fun p => payment_stamped (Pay_CreatedAt p) now (values p)) ;;;
  ret tt.

(** ** [payment_settlement.go] *)

Definition RetailOrderPaymentBusiness : string := "retail_order".

(** The fact a verified state of the provider is for the business. *)
Record PaymentSettlementFact := {
  PFact_PaymentID : Z;
  PFact_PaymentNo : string;
  PFact_BizType : string;
  PFact_BizID : Z;
  PFact_CustomerID : Z;
  PFact_Amount : Z;
  PFact_Currency : string;
  PFact_Provider : string;
  PFact_ProviderTradeNo : option string;
  PFact_ProviderStatus : string;
  PFact_PaidAt : option time;
  PFact_FailureCode : option string;
  PFact_ProviderRequestID : string;
  PFact_ReconcileAttempts : Z;
}.

Record PaymentSettlementHandler := {
  BusinessType : string;
  LockBusiness : Context -> Z -> G unit;
  ApplySuccess : Context -> PaymentSettlementFact -> G unit;
  ApplyTerminal : Context -> PaymentSettlementFact -> G unit;
  ApplyException : Context -> PaymentSettlementFact -> string -> G unit;
}.

(** The handlers by business, in the order of their registration. *)
Definition paymentSettlementRegistry : Type := list (string * PaymentSettlementHandler).

Definition newPaymentSettlementRegistry : paymentSettlementRegistry := [].

Definition resolve (r : paymentSettlementRegistry) (bizType : string)
    : option PaymentSettlementHandler :=
  snd <$> find (fun h => String.eqb h.1 bizType) r.

Definition register (r : paymentSettlementRegistry) (handler : option PaymentSettlementHandler)
    : res paymentSettlementRegistry :=
  match handler with
  | None => Err (EMessage "payment settlement handler is required")
  | Some h =>
      let bizType := trim_space (BusinessType h) in
      if String.eqb bizType "" || String.eqb bizType RetailOrderPaymentBusiness
      then Err (EMessage "invalid external payment business type")
      else if is_set (resolve r bizType)
      then Err (EMessage "payment settlement handler already registered")
      else Ok (r ++ [(bizType, h)])
  end.

Definition paymentBusiness (payment : Payment) : string * Z :=
  match Pay_BizType payment with
  | Some bizType =>
      if String.eqb (trim_space bizType) ""
      then (RetailOrderPaymentBusiness, default 0 (Pay_OrderID payment))
      else (trim_space bizType, default 0 (Pay_BizID payment))
  | None => (RetailOrderPaymentBusiness, default 0 (Pay_OrderID payment))
  end.

Definition is_retail (payment : Payment) : bool :=
  String.eqb (paymentBusiness payment).1 RetailOrderPaymentBusiness.

Definition samePaymentBusiness (left right : Payment) : bool :=
  String.eqb (paymentBusiness left).1 (paymentBusiness right).1 &&
  ((paymentBusiness left).2 =? (paymentBusiness right).2).

(** [nextPaymentReconcileAt] *)
Definition reconcile_delay (attempts : Z) : Z :=
  if attempts <=? 4 then 15 * second
  else if attempts <=? 8 then 30 * second
  else if attempts <=? 10 then 60 * second
  else if attempts =? 11 then 120 * second
  else 300 * second.

Definition nextPaymentReconcileAt (payment : Payment) (now : time) : time :=
  let next := add_duration now (reconcile_delay (Pay_ReconcileAttempts payment)) in
  match Pay_ExpiresAt payment with
  | Some expires => if after next expires then expires else next
  | None => next
  end.

Definition settlementFailureCode (err : error) : string :=
  match FromError (Some err) with
  | Some detail =>
      let code := trim_space (Details_ErrorCode detail) in
      if String.eqb code "" then "BUSINESS_SETTLEMENT_FAILED" else code
  | None => "BUSINESS_SETTLEMENT_FAILED"
  end.

(** [errors.Join] of two errors: the problem [errors.As] finds in it, or the
    texts of both. *)
Definition join_errors (err other : error) : error :=
  match err, other with
  | EProblem d, _ => EProblem d
  | _, EProblem d => EProblem d
  | _, _ => EMessage (error_text err +:+ String (Ascii.ascii_of_N 10) (error_text other))
  end.

(** The service of the order module, as configured. *)
Record PaymentService := {
  Svc_payment : option PaymentProvider;
  Svc_PayEnabled : bool;
  Svc_PayMockEnabled : bool;
  Svc_MiniAppID : string;
  Svc_PayMchID : string;
  Svc_PayDescription : string;
  Svc_paymentSettlements : option paymentSettlementRegistry;
}.

(** [WithPaymentSettlementHandler]; an error is a panic at start-up. *)
Definition WithPaymentSettlementHandler (handler : option PaymentSettlementHandler)
    (s : PaymentService) : res PaymentService :=
  match register (default newPaymentSettlementRegistry (Svc_paymentSettlements s)) handler with
  | Err e => Err e
  | Ok r => Ok {|
      Svc_payment := Svc_payment s; Svc_PayEnabled := Svc_PayEnabled s;
      Svc_PayMockEnabled := Svc_PayMockEnabled s; Svc_MiniAppID := Svc_MiniAppID s;
      Svc_PayMchID := Svc_PayMchID s; Svc_PayDescription := Svc_PayDescription s;
      Svc_paymentSettlements := Some r |}
  end.

Definition providerUnavailable (detail : string) : Details :=
  Problem.New 503 "PAYMENT_PROVIDER_UNAVAILABLE" "Service Unavailable" detail.

Definition with_data (d : Details) (data : json) : Details := {|
  Details_Type := Details_Type d; Details_Title := Details_Title d;
  Details_Status := Details_Status d; Details_Detail := Details_Detail d;
  Details_Instance := Details_Instance d; Details_ErrorCode := Details_ErrorCode d;
  Details_RequestID := Details_RequestID d; Details_Data := Some data |}.

Definition provider_failure (d : Details) (err : gateway_error) : error :=
  EProblem (with_data d (JMap
    [("retryable", JBool (gateway_Retryable err));
     ("provider_code", JStr (gateway_Code err "PROVIDER_UNAVAILABLE"));
     ("provider_request_id", JStr (gateway_RequestID err))])).

(** The event of [(s).createOutbox]. *)
Definition payment_event (ctx : Context) (eventType aggregateType : string) (aggregateID : Z)
    (payload : json) : G unit :=
  id <- next_id ;;
  eventID <- new_uuid ;;
  createOutbox {|
    Outbox_ID := id; Outbox_EventID := eventID; Outbox_EventType := eventType;
    Outbox_EventVersion := 1; Outbox_SpecVersion := "1.0"; Outbox_AggregateType := aggregateType;
    Outbox_AggregateID := aggregateID; Outbox_Producer := None; Outbox_Payload := payload;
    Outbox_Status := "pending"; Outbox_RetryCount := 0; Outbox_RequestID := RequestIDPtr ctx;
    Outbox_CreatedAt := None |}.

Definition provider_success (status : option string) : bool :=
  match status with
  | Some status => equal_fold (trim_space status) "SUCCESS"
  | None => false
  end.

Section Service.
Variable s : PaymentService.

Definition externalSettlementHandler (payment : Payment) : res (option PaymentSettlementHandler) :=
  let '(bizType, bizID) := paymentBusiness payment in
  if String.eqb bizType RetailOrderPaymentBusiness then Ok None
  else if bizID =? 0 then Err (Internal "payment business registry is incomplete")
  else match Svc_paymentSettlements s with
       | None => Err (Internal "payment settlement registry is not initialized")
       | Some r =>
           match resolve r bizType with
           | Some handler => Ok (Some handler)
           | None => Err (Internal "payment settlement handler is not registered")
           end
       end.

(** [paymentProviderMismatch]; [""] when the data of the provider match. *)
Definition paymentProviderMismatch (payment : Payment) (state : ProviderPaymentState)
    (providerStatus : string) : string :=
  let amountPresent := PPS_AmountPresent state || negb (PPS_Amount state =? 0) ||
                       negb (String.eqb (trim_space (PPS_Currency state)) "") in
  let success := String.eqb providerStatus "SUCCESS" in
  if success && negb (is_retail payment) && negb (is_set (PPS_PaidAt state))
  then "PROVIDER_PAID_AT_MISSING"
  else if negb (Svc_PayMockEnabled s) &&
          (negb (String.eqb (PPS_AppID state) (Svc_MiniAppID s)) ||
           negb (String.eqb (PPS_MchID state) (Svc_PayMchID s)))
  then "PROVIDER_IDENTITY_MISMATCH"
  else if negb (String.eqb (PPS_PaymentNo state) (Pay_PaymentNo payment)) ||
          (amountPresent && (negb (PPS_Amount state =? Pay_Amount payment) ||
                             negb (String.eqb (PPS_Currency state) (Pay_Currency payment)))) ||
          (success && (negb amountPresent ||
                       String.eqb (trim_space (PPS_ProviderTradeNo state)) "")) ||
          match Pay_ProviderTradeNo payment with
          | Some no => negb (String.eqb no "") &&
                       negb (String.eqb (PPS_ProviderTradeNo state) "") &&
                       negb (String.eqb no (PPS_ProviderTradeNo state))
          | None => false
          end
  then "PROVIDER_DATA_MISMATCH"
  else "".

Definition settlement_fact (payment : Payment) (state : ProviderPaymentState)
    (providerStatus : string) (failureCode : option string) : PaymentSettlementFact := {|
  PFact_PaymentID := Pay_ID payment; PFact_PaymentNo := Pay_PaymentNo payment;
  PFact_BizType := (paymentBusiness payment).1; PFact_BizID := (paymentBusiness payment).2;
  PFact_CustomerID := Pay_CustomerID payment; PFact_Amount := Pay_Amount payment;
  PFact_Currency := Pay_Currency payment; PFact_Provider := Pay_Provider payment;
  PFact_ProviderTradeNo := optional_string (PPS_ProviderTradeNo state);
  PFact_ProviderStatus := providerStatus; PFact_PaidAt := PPS_PaidAt state;
  PFact_FailureCode := failureCode; PFact_ProviderRequestID := PPS_RequestID state;
  PFact_ReconcileAttempts := Pay_ReconcileAttempts payment |}.

(** The four outcomes a state of the provider has for a payment. *)
Definition payment_mismatched (state : ProviderPaymentState) (code : string) (p : Payment)
    : Payment :=
  payment_moved "exception" (Pay_ProviderTradeNo p) (optional_string (PPS_Status state))
    (Pay_PaidAt p) (Pay_FailedAt p) (Some code) None p.

Definition payment_succeeded (state : ProviderPaymentState) (providerStatus : string)
    (p : Payment) : Payment :=
  payment_moved "succeeded" (optional_string (PPS_ProviderTradeNo state)) (Some providerStatus)
    (PPS_PaidAt state) (Pay_FailedAt p) None None p.

Definition payment_waiting (providerStatus : string) (next : time) (p : Payment) : Payment :=
  payment_moved (Pay_Status p) (Pay_ProviderTradeNo p) (Some providerStatus) (Pay_PaidAt p)
    (Pay_FailedAt p) None (Some next) p.

Definition payment_ended (localStatus providerStatus : string) (now : time) (p : Payment)
    : Payment :=
  payment_moved localStatus (Pay_ProviderTradeNo p) (Some providerStatus) (Pay_PaidAt p)
    (Some now) (Some providerStatus) None p.

(** An update and the payment as it is afterwards in memory. *)
Definition update_payment (payment : Payment) (values : Payment -> Payment) : G Payment :=
  UpdatePayment (Pay_ID payment) (fun p => next_version (values p)) ;;;
  ret (values payment).

Definition dataMismatch : error :=
  Conflict "PAYMENT_PROVIDER_DATA_MISMATCH" "provider payment data does not match local payment".

(** [applyExternalPaymentStateTx]: the payment, and why the state is refused. *)
Definition applyExternalPaymentStateTx (ctx : Context) (handler : PaymentSettlementHandler)
    (payment : Payment) (state : ProviderPaymentState) : G (Payment * option error) :=
  let providerStatus := to_upper (trim_space (PPS_Status state)) in
  let code := paymentProviderMismatch payment state providerStatus in
  let fact := settlement_fact payment state providerStatus in
  if (String.eqb (Pay_Status payment) "succeeded" ||
      provider_success (Pay_ProviderStatus payment)) &&
     negb (String.eqb providerStatus "SUCCESS")
  then ret (payment, None)
  else if negb (String.eqb code "") then
    ApplyException handler ctx (fact (Some code)) code ;;;
    payment <- update_payment payment (payment_mismatched state code) ;;
    ret (payment, Some dataMismatch)
  else if String.eqb providerStatus "SUCCESS" then
    if String.eqb (Pay_Status payment) "succeeded" then ret (payment, None)
    else
      ApplySuccess handler ctx (fact None) ;;;
      payment <- update_payment payment (payment_succeeded state providerStatus) ;;
      ret (payment, None)
  else if one_of ["NOTPAY"; "USERPAYING"] providerStatus then
    now <- time_now ;;
    payment <- update_payment payment
                 (payment_waiting providerStatus (nextPaymentReconcileAt payment now)) ;;
    ret (payment, None)
  else if one_of ["CLOSED"; "REVOKED"; "PAYERROR"] providerStatus then
    now <- time_now ;;
    ApplyTerminal handler ctx (fact (Some providerStatus)) ;;;
    payment <- update_payment payment
                 (payment_ended (if String.eqb providerStatus "PAYERROR" then "failed"
                                 else "closed") providerStatus now) ;;
    ret (payment, None)
  else throw (InvalidArgument "PAYMENT_PROVIDER_STATUS_INVALID"
                "unsupported provider payment status").

(** ** [business_payment.go] *)

Record BusinessPaymentCreateInput := {
  BPI_PaymentID : Z;
  BPI_PaymentNo : string;
  BPI_BizType : string;
  BPI_BizID : Z;
  BPI_CustomerID : Z;
  BPI_Channel : string;
  BPI_Provider : string;
  BPI_Amount : Z;
  BPI_Currency : string;
  BPI_ExpiresAt : time;
  BPI_IdempotencyKey : string;
}.

Definition normalize_payment_input (i : BusinessPaymentCreateInput) : BusinessPaymentCreateInput := {|
  BPI_PaymentID := BPI_PaymentID i; BPI_PaymentNo := trim_space (BPI_PaymentNo i);
  BPI_BizType := trim_space (BPI_BizType i); BPI_BizID := BPI_BizID i;
  BPI_CustomerID := BPI_CustomerID i; BPI_Channel := trim_space (BPI_Channel i);
  BPI_Provider := trim_space (BPI_Provider i); BPI_Amount := BPI_Amount i;
  BPI_Currency := to_upper (trim_space (BPI_Currency i)); BPI_ExpiresAt := BPI_ExpiresAt i;
  BPI_IdempotencyKey := BPI_IdempotencyKey i |}.

(** The row of a payment that was just created, before GORM sets its dates. *)
Definition new_payment (i : BusinessPaymentCreateInput) : Payment := {|
  Pay_ID := BPI_PaymentID i; Pay_PaymentNo := BPI_PaymentNo i;
  Pay_BizType := Some (BPI_BizType i); Pay_BizID := Some (BPI_BizID i); Pay_OrderID := None;
  Pay_CustomerID := BPI_CustomerID i; Pay_Channel := BPI_Channel i;
  Pay_Provider := BPI_Provider i; Pay_ProviderTradeNo := None; Pay_ProviderStatus := None;
  Pay_ProviderPrepayID := None; Pay_Status := "creating"; Pay_Amount := BPI_Amount i;
  Pay_Currency := BPI_Currency i; Pay_ClientPayload := None;
  Pay_ExpiresAt := Some (BPI_ExpiresAt i); Pay_PaidAt := None; Pay_FailedAt := None;
  Pay_FailureCode := None; Pay_ReconcileAttempts := 0; Pay_NextReconcileAt := None;
  Pay_RefundedAmount := 0; Pay_Version := 0;
  Pay_IdempotencyKey := optional_string (BPI_IdempotencyKey i); Pay_CreatedAt := zero_time;
  Pay_UpdatedAt := zero_time; Pay_DeletedAt := None |}.

(** The provider, when payments are enabled. *)
Definition enabled_provider : option PaymentProvider :=
  if Svc_PayEnabled s then Svc_payment s else None.

Definition invalid_payment_input (i : BusinessPaymentCreateInput) : bool :=
  (BPI_PaymentID i =? 0) || (BPI_BizID i =? 0) || (BPI_CustomerID i =? 0) ||
  String.eqb (BPI_PaymentNo i) "" || String.eqb (BPI_BizType i) "" ||
  String.eqb (BPI_BizType i) RetailOrderPaymentBusiness || String.eqb (BPI_Channel i) "" ||
  (BPI_Amount i <=? 0) || negb (String.eqb (BPI_Currency i) "CNY").

(** [CreateBusinessPaymentTx]; the clock is read when everything before it in
    the condition holds. *)
Definition CreateBusinessPaymentTx (input : BusinessPaymentCreateInput) : G Payment :=
  let i := normalize_payment_input input in
  fail_if (match enabled_provider with
           | Some p => negb (String.eqb (BPI_Provider i) (Provider_Code p))
           | None => true
           end) (EProblem (providerUnavailable "payment provider is unavailable")) ;;;
  let invalid := InvalidArgument "PAYMENT_BUSINESS_INPUT_INVALID" "invalid business payment input" in
  fail_if (invalid_payment_input i) invalid ;;;
  now <- time_now ;;
  fail_if (negb (after (BPI_ExpiresAt i) now)) invalid ;;;
  match Svc_paymentSettlements s with
  | None => throw (Internal "payment settlement registry is not initialized")
  | Some r =>
      fail_if (negb (is_set (resolve r (BPI_BizType i))))
        (Internal "payment settlement handler is not registered") ;;;
      CreatePayment (new_payment i) ;;;
      ret (new_payment i)
  end.

(** What a failed submission leaves: the payment to be reconciled, or failed. *)
Definition submission_failed (err : gateway_error) (next : time) (p : Payment) : Payment :=
  next_version
    (if gateway_Retryable err
     then payment_moved (Pay_Status p) (Pay_ProviderTradeNo p) (Pay_ProviderStatus p)
            (Pay_PaidAt p) (Pay_FailedAt p) (Some (gateway_Code err "PROVIDER_UNAVAILABLE"))
            (Some next) p
     else payment_moved "failed" (Pay_ProviderTradeNo p) (Pay_ProviderStatus p)
            (Pay_PaidAt p) (Some next) (Some (gateway_Code err "PROVIDER_UNAVAILABLE")) None p).

Definition record_submission_failure (paymentID : Z) (err : gateway_error) (next : time) : G unit :=
  transaction (
    locked <- LockPaymentByID paymentID ;;
    if negb (String.eqb (Pay_Status locked) "creating") then ret tt
    else UpdatePayment paymentID (submission_failed err next)).

(** The payment as the provider accepted it. *)
Definition payment_submitted (r : ProviderPaymentResult) (failureCode : option string)
    (next : option time) (p : Payment) : Payment :=
  payment_set p "pending" (optional_string (PPR_ProviderTradeNo r))
    (optional_string (PPR_Status r)) (optional_string (PPR_ProviderPrepayID r))
    (Some (PPR_ClientPayload r)) (Pay_PaidAt p) (Pay_FailedAt p) failureCode
    (Pay_ReconcileAttempts p) next (Pay_Version p) (Pay_CreatedAt p) (Pay_UpdatedAt p).

Definition accept_submission (ctx : Context) (payment : Payment) (r : ProviderPaymentResult)
    (next : time) : G Payment :=
  locked <- LockPaymentByID (Pay_ID payment) ;;
  fail_if (negb (samePaymentBusiness payment locked))
    (Internal "payment business registry changed during provider submission") ;;;
  if String.eqb (Pay_Status locked) "pending" && is_set (Pay_ClientPayload locked) then ret locked
  else
    fail_if (negb (String.eqb (Pay_Status locked) "creating"))
      (Conflict "PAYMENT_INVALID_STATUS" "payment cannot accept provider submission result") ;;;
    UpdatePayment (Pay_ID locked)
      (fun p => next_version (payment_submitted r None (Some next) p)) ;;;
    payment_event ctx "payment.created" "payment" (Pay_ID locked) (JMap
      [("payment_id", JStr (IDString (Pay_ID locked)));
       ("biz_type", JStr (paymentBusiness locked).1);
       ("biz_id", JStr (IDString (paymentBusiness locked).2));
       ("provider", JStr (Pay_Provider locked));
       ("provider_request_id", JStr (PPR_RequestID r))]) ;;;
    ret (payment_submitted r (Pay_FailureCode locked) (Pay_NextReconcileAt locked) locked).

(** [SubmitBusinessPayment] once the payment may be submitted. *)
Definition submit_payment (ctx : Context) (provider : PaymentProvider) (payment : Payment)
    (expiresAt : time) (openID description : string) : G Payment :=
  r <- remote (Provider_Create provider {|
         CPI_PaymentNo := Pay_PaymentNo payment;
         CPI_Description := if String.eqb (trim_space description) "" then Svc_PayDescription s
                            else description;
         CPI_Amount := Pay_Amount payment; CPI_Currency := Pay_Currency payment;
         CPI_OpenID := openID; CPI_ExpiresAt := expiresAt |}) ;;
  match r with
  | Err err =>
      next <- time_now ;;
      attempt (record_submission_failure (Pay_ID payment) err next) ;;;
      throw (provider_failure (providerUnavailable
        (if gateway_Retryable err
         then "payment creation result is unknown; backend reconciliation has been scheduled"
         else "payment creation was rejected by the provider")) err)
  | Ok result =>
      now <- time_now ;;
      accepted <- attempt (transaction (accept_submission ctx payment result
                             (nextPaymentReconcileAt payment now))) ;;
      match accepted with
      | Ok p => ret p
      | Err e => remote (Provider_Close provider (Pay_PaymentNo payment)) ;;; throw e
      end
  end.

Definition cannot_submit : error :=
  Conflict "PAYMENT_INVALID_STATUS" "payment cannot be submitted".

Definition SubmitBusinessPayment (ctx : Context) (paymentID : Z) (openID description : string)
    : G Payment :=
  match enabled_provider with
  | None => throw (EProblem (providerUnavailable "payment provider is unavailable"))
  | Some provider =>
      payment <- or_missing (NotFound "PAYMENT_NOT_FOUND" "payment not found")
                   (GetPaymentByID paymentID) ;;
      fail_if (is_retail payment || is_set (Pay_OrderID payment))
        (InvalidArgument "PAYMENT_BUSINESS_INPUT_INVALID"
           "retail payments use the order payment facade") ;;;
      if String.eqb (Pay_Status payment) "pending" && is_set (Pay_ClientPayload payment)
      then ret payment
      else
        fail_if (negb (String.eqb (Pay_Status payment) "creating")) cannot_submit ;;;
        match Pay_ExpiresAt payment with
        | None => throw cannot_submit
        | Some expiresAt =>
            now <- time_now ;;
            fail_if (negb (after expiresAt now)) cannot_submit ;;;
            fail_if (String.eqb (trim_space openID) "")
              (Conflict "WECHAT_IDENTITY_REQUIRED" "wechat identity is required for payment") ;;;
            submit_payment ctx provider payment expiresAt openID description
        end
  end.

Definition BusinessPayment (customerID : Z) (bizType : string) (bizID : Z) : G Payment :=
  match Svc_payment s with
  | None => throw (EProblem (providerUnavailable "payment provider is unavailable"))
  | Some provider =>
      let missing := NotFound "PAYMENT_NOT_FOUND" "payment not found" in
      row <- or_missing missing
               (GetBusinessPayment (trim_space bizType) bizID (Provider_Code provider)) ;;
      fail_if (negb (Pay_CustomerID row =? customerID)) missing ;;;
      ret row
  end.

(** ** [payment_state.go] *)

(** The body of the transaction for a retail payment: [applyProviderPaymentStateTx]
    with the order it locks. *)
Variable retail : Context -> Payment -> ProviderPaymentState -> string -> Z -> string ->
  G (Payment * option error).

(** The payment and the handler of its business. *)
Definition locate_payment (paymentNo provider : string)
    : G (Payment * option PaymentSettlementHandler) :=
  lookup <- GetPaymentByNo paymentNo provider ;;
  handler <- lift (externalSettlementHandler lookup) ;;
  ret (lookup, handler).

(** The payment, locked after its business. *)
Definition lock_payment (ctx : Context) (handler : PaymentSettlementHandler) (lookup : Payment)
    (paymentNo provider changed : string) : G Payment :=
  LockBusiness handler ctx (paymentBusiness lookup).2 ;;;
  payment <- LockPaymentByNo paymentNo provider ;;
  fail_if (negb (samePaymentBusiness lookup payment)) (Internal changed) ;;;
  ret payment.

Definition apply_located (ctx : Context) (paymentNo provider : string)
    (state : ProviderPaymentState) (actorType : string) (actorID : Z) (key : string)
    (located : Payment * option PaymentSettlementHandler) : G (Payment * option error) :=
  match located.2 with
  | None => retail ctx located.1 state actorType actorID key
  | Some handler =>
      payment <- lock_payment ctx handler located.1 paymentNo provider
                   "payment business registry changed during settlement" ;;
      applyExternalPaymentStateTx ctx handler payment state
  end.

(** A transaction of two parts, with what the first found even when the whole
    was rolled back: a variable the closure assigns. *)
Definition transaction_capturing {X A} (first : G X) (rest : X -> G A)
    : G (res A * option X) := fun w =>
  let '(r, w') := transaction (bind first rest) w in
  let found := match exec (fun db => Ok (tt, db)) w with
               | (Ok _, w1) => match first w1 with (Ok x, _) => Some x | _ => None end
               | _ => None
               end in
  (Ok (r, found), w').

(** What a verified payment is after its settlement failed. *)
Definition payment_unsettled (state : ProviderPaymentState) (reason : string) (next : time)
    (p : Payment) : Payment :=
  next_version (payment_moved "exception" (optional_string (PPS_ProviderTradeNo state))
    (Some "SUCCESS") (PPS_PaidAt state) (Pay_FailedAt p) (Some reason) (Some next) p).

Definition persistExternalPaymentSettlementFailure (ctx : Context) (paymentNo provider : string)
    (state : ProviderPaymentState) (reason : string) : G unit :=
  transaction (
    located <- locate_payment paymentNo provider ;;
    match located.2 with
    | None => throw (EMessage "runtime error: invalid memory address or nil pointer dereference")
    | Some handler =>
        payment <- lock_payment ctx handler located.1 paymentNo provider
                     "payment business registry changed while recording settlement failure" ;;
        if String.eqb (Pay_Status payment) "succeeded" then ret tt
        else
          ApplyException handler ctx (settlement_fact payment state "SUCCESS" None) reason ;;;
          now <- time_now ;;
          UpdatePayment (Pay_ID payment)
            (payment_unsettled state reason (add_duration now (15 * second)))
    end).

Definition ApplyProviderPaymentState (ctx : Context) (paymentNo provider : string)
    (state : ProviderPaymentState) (actorType : string) (actorID : Z) (key : string) : G Payment :=
  out <- transaction_capturing (locate_payment paymentNo provider)
           (apply_located ctx paymentNo provider state actorType actorID key) ;;
  match out.1 with
  | Ok (payment, None) => ret payment
  | Ok (_, Some reject) => throw reject
  | Err err =>
      match out.2 with
      | Some (_, Some _) =>
          if equal_fold (trim_space (PPS_Status state)) "SUCCESS" then
            persisted <- attempt (persistExternalPaymentSettlementFailure ctx paymentNo provider
                                    state (settlementFailureCode err)) ;;
            match persisted with
            | Ok _ => throw err
            | Err persistErr => throw (join_errors err persistErr)
            end
          else throw err
      | _ => throw err
      end
  end.

(** [confirmCustomerPayment] *)
Definition confirmable (payment : Payment) : bool :=
  one_of ["creating"; "pending"] (Pay_Status payment) ||
  (String.eqb (Pay_Status payment) "exception" && negb (is_retail payment) &&
   provider_success (Pay_ProviderStatus payment)).

Definition confirmCustomerPayment (ctx : Context) (customerID : Z) (payment : Payment)
    : G Payment :=
  match enabled_provider with
  | None => throw (EProblem (providerUnavailable "payment provider is unavailable"))
  | Some provider =>
      fail_if (negb (String.eqb (Pay_Provider payment) (Provider_Code provider)))
        (Conflict "PAYMENT_PROVIDER_MISMATCH"
           "payment provider does not match configured provider") ;;;
      if negb (confirmable payment) then ret payment
      else
        r <- remote (Provider_Query provider (Pay_PaymentNo payment)) ;;
        match r with
        | Err err =>
            throw (provider_failure
              (Problem.New 503 "PAYMENT_CONFIRM_RETRYABLE" "Service Unavailable"
                 "payment confirmation is temporarily unavailable; retry is safe") err)
        | Ok state =>
            ApplyProviderPaymentState ctx (Pay_PaymentNo payment) (Pay_Provider payment) state
              "customer" customerID ("confirm:" +:+ Pay_PaymentNo payment)
        end
  end.

Definition ConfirmBusinessPayment (ctx : Context) (customerID : Z) (bizType : string) (bizID : Z)
    : G Payment :=
  payment <- BusinessPayment customerID bizType bizID ;;
  let '(resolvedType, resolvedID) := paymentBusiness payment in
  fail_if (String.eqb resolvedType RetailOrderPaymentBusiness ||
           negb (String.eqb resolvedType (trim_space bizType)) ||
           negb (resolvedID =? bizID) || is_set (Pay_OrderID payment))
    (Internal "payment business registry is inconsistent") ;;;
  confirmCustomerPayment ctx customerID payment.

(** ** Reconciliation: [expiry_worker.go] *)

(** A payment that could not be asked for: the next attempt. *)
Definition reconcile_after_error (locked : Payment) (attempts : Z) (now : time) : time :=
  let counted := payment_set locked (Pay_Status locked) (Pay_ProviderTradeNo locked)
                   (Pay_ProviderStatus locked) (Pay_ProviderPrepayID locked)
                   (Pay_ClientPayload locked) (Pay_PaidAt locked) (Pay_FailedAt locked)
                   (Pay_FailureCode locked) (Z.max (Pay_ReconcileAttempts locked) attempts)
                   (Pay_NextReconcileAt locked) (Pay_Version locked) (Pay_CreatedAt locked)
                   (Pay_UpdatedAt locked) in
  let expired := match Pay_ExpiresAt locked with
                 | Some expires => negb (after expires now)
                 | None => false
                 end in
  if negb (is_retail locked) && expired then add_duration now (15 * second)
  else nextPaymentReconcileAt counted now.

Definition payment_retried (code : string) (next : time) (p : Payment) : Payment :=
  next_version (payment_moved (Pay_Status p) (Pay_ProviderTradeNo p) (Pay_ProviderStatus p)
    (Pay_PaidAt p) (Pay_FailedAt p) (Some code) (Some next) p).

Definition MarkPaymentReconcileError (payment : Payment) (cause : gateway_error) : G unit :=
  transaction (
    locked <- LockPaymentByNo (Pay_PaymentNo payment) (Pay_Provider payment) ;;
    if negb (one_of ["creating"; "pending"; "exception"] (Pay_Status locked)) then ret tt
    else
      now <- time_now ;;
      UpdatePayment (Pay_ID locked)
        (payment_retried (gateway_Code cause "PROVIDER_UNAVAILABLE")
           (reconcile_after_error locked (Pay_ReconcileAttempts payment) now))).

(** The conditions of [ClaimNextReconcilablePayment]. *)
Definition due_for_reconcile (now staleBefore : time) (p : Payment) : bool :=
  match Pay_NextReconcileAt p with
  | Some next => next <=? now
  | None => String.eqb (Pay_Status p) "pending" ||
            (String.eqb (Pay_Status p) "creating" && (Pay_UpdatedAt p <=? staleBefore))
  end.

Definition open_business (now : time) (db : Database) (p : Payment) : bool :=
  let retail_type := match Pay_BizType p with
                     | Some t => String.eqb t RetailOrderPaymentBusiness
                     | None => true
                     end in
  let order_pending := existsb (fun o => same_id (Pay_OrderID p) (Some (Order_ID o)) &&
                                         not_deleted (Order_DeletedAt o) &&
                                         String.eqb (Order_Status o) "pending_payment")
                         (ful_orders (db_fulfilment db)) in
  (retail_type && order_pending &&
   match Pay_ExpiresAt p with Some expires => now <? expires | None => false end) ||
  match Pay_BizType p with
  | Some t => negb (String.eqb t RetailOrderPaymentBusiness)
  | None => false
  end.

Definition reconcilable (provider : string) (now staleBefore : time) (db : Database)
    (p : Payment) : bool :=
  String.eqb (Pay_Provider p) provider &&
  one_of ["creating"; "pending"; "exception"] (Pay_Status p) &&
  due_for_reconcile now staleBefore p && not_deleted (Pay_DeletedAt p) && open_business now db p.

(** A payment taken by a worker: leased and counted. *)
Definition payment_leased (leaseUntil : time) (p : Payment) : Payment :=
  payment_set p (Pay_Status p) (Pay_ProviderTradeNo p) (Pay_ProviderStatus p)
    (Pay_ProviderPrepayID p) (Pay_ClientPayload p) (Pay_PaidAt p) (Pay_FailedAt p)
    (Pay_FailureCode p) (Pay_ReconcileAttempts p + 1) (Some leaseUntil) (Pay_Version p)
    (Pay_CreatedAt p) (Pay_UpdatedAt p).

Definition ClaimNextReconcilablePayment (provider : string) (now staleBefore : time) : G Payment :=
  transaction (
    payment <- take_from (fun db => head (sort_by
                 (by_keys [fun p => default (Pay_UpdatedAt p) (Pay_NextReconcileAt p); Pay_ID])
                 (List.filter (reconcilable provider now staleBefore db)
                    (sales_payments (db_sales db))))) ;;
    let leaseUntil := add_duration now (30 * second) in
    updated <- time_now ;;
    affected <- update_rows
      (fun p => (Pay_ID p =? Pay_ID payment) &&
                one_of ["creating"; "pending"; "exception"] (Pay_Status p))
      (fun p => payment_stamped (Pay_CreatedAt p) updated (next_version (payment_leased leaseUntil p))) ;;
    fail_if (negb (affected =? 1)) ERecordNotFound ;;;
    ret (payment_leased leaseUntil payment)).

(** The state of a payment the provider has never heard of. *)
Definition closed_state (payment : Payment) : ProviderPaymentState := {|
  PPS_ProviderTradeNo := ""; PPS_PaymentNo := Pay_PaymentNo payment; PPS_Status := "CLOSED";
  PPS_AppID := Svc_MiniAppID s; PPS_MchID := Svc_PayMchID s; PPS_Amount := Pay_Amount payment;
  PPS_Currency := Pay_Currency payment; PPS_AmountPresent := true; PPS_RequestID := "";
  PPS_PaidAt := None |}.

Definition with_status (state : ProviderPaymentState) (status : string) : ProviderPaymentState := {|
  PPS_ProviderTradeNo := PPS_ProviderTradeNo state; PPS_PaymentNo := PPS_PaymentNo state;
  PPS_Status := status; PPS_AppID := PPS_AppID state; PPS_MchID := PPS_MchID state;
  PPS_Amount := PPS_Amount state; PPS_Currency := PPS_Currency state;
  PPS_AmountPresent := PPS_AmountPresent state; PPS_RequestID := PPS_RequestID state;
  PPS_PaidAt := PPS_PaidAt state |}.

Definition reconcile_apply (ctx : Context) (prefix : string) (payment : Payment)
    (state : ProviderPaymentState) : G unit :=
  ApplyProviderPaymentState ctx (Pay_PaymentNo payment) (Pay_Provider payment) state "system" 0
    (prefix +:+ Pay_PaymentNo payment) ;;;
  ret tt.

(** One payment of [ReconcileCreatingBatch]. *)
Definition reconcile_payment (ctx : Context) (provider : PaymentProvider) (now : time)
    (payment : Payment) : G unit :=
  let overdue := negb (is_retail payment) &&
                 match Pay_ExpiresAt payment with
                 | Some expires => negb (after expires now)
                 | None => false
                 end in
  r <- remote (Provider_Query provider (Pay_PaymentNo payment)) ;;
  match r with
  | Err err =>
      if overdue && (gateway_IsCode err "ORDER_NOT_EXIST" || gateway_IsCode err "ORDER_NOT_EXISTS")
      then reconcile_apply ctx "reconcile-expired:" payment (closed_state payment)
      else MarkPaymentReconcileError payment err
  | Ok state =>
      let status := to_upper (trim_space (PPS_Status state)) in
      if negb overdue || one_of ["SUCCESS"; "CLOSED"; "REVOKED"; "PAYERROR"] status
      then reconcile_apply ctx "reconcile:" payment state
      else if String.eqb status "USERPAYING" then
        reconcile_apply ctx "reconcile:" payment state ;;;
        UpdatePayment (Pay_ID payment)
          (fun p => payment_moved (Pay_Status p) (Pay_ProviderTradeNo p) (Pay_ProviderStatus p)
                      (Pay_PaidAt p) (Pay_FailedAt p) (Pay_FailureCode p)
                      (Some (add_duration now (15 * second))) p)
      else
        closed <- remote (Provider_Close provider (Pay_PaymentNo payment)) ;;
        match closed with
        | Err err =>
            MarkPaymentReconcileError payment err ;;;
            throw (EMessage (gateway_text err))
        | Ok _ => reconcile_apply ctx "reconcile:" payment (with_status state "CLOSED")
        end
  end.

(** [ReconcileCreatingBatch]: the number of payments taken, until none is due. *)
Fixpoint reconcile_batch (ctx : Context) (provider : PaymentProvider) (now staleBefore : time)
    (limit : nat) : G Z :=
  match limit with
  | O => ret 0
  | S limit' =>
      claimed <- attempt (ClaimNextReconcilablePayment (Provider_Code provider) now staleBefore) ;;
      match claimed with
      | Err e => if is_record_not_found e then ret 0 else throw e
      | Ok payment =>
          reconcile_payment ctx provider now payment ;;;
          n <- reconcile_batch ctx provider now staleBefore limit' ;;
          ret (n + 1)
      end
  end.

Definition ReconcileCreatingBatch (ctx : Context) (creatingReconcileAge : Z) (now : time)
    (limit : Z) : G Z :=
  match Svc_payment s with
  | None => ret 0
  | Some provider =>
      reconcile_batch ctx provider now (add_duration now (- creatingReconcileAge)) (Z.to_nat limit)
  end.
End Service.
