(* ===== verification/RedemptionService.v ===== *)
(** * The redemption service: [wineticket/redemption/service.go]

    A customer has bottles of her lots delivered.  [Create] takes the bottles
    from the lots that expire first, a place in a delivery slot and bottles of
    the shop's stock, and opens an order with its delivery; [Cancel] gives all
    of it back as long as the bottles were not picked up.  Both run in one
    transaction and are idempotent by key. *)

From S2P Require Import Prelude GoInt GoString GoTime GoDate Json Problem RequestCtx Pagination.
From S2P Require Import CoreModel AssetService GiftModel RedemptionModel RedemptionSlot AssetLaws.
From S2P Require Import Database FulfilmentTables AssetRepository IntegrityScan Idempotency.
From S2P Require Import GiftDto GiftRepository GiftService RedemptionDto RedemptionRepository.
From S2P Require Import ScheduledDispatch.
From Stdlib Require Import String.
#[local] Open Scope string_scope. #[local] Open Scope list_scope. #[local] Open Scope Z_scope.
#[local] Open Scope go_scope.

(** ** Errors *)

Definition addressVersionConflict : error :=
  Conflict "ADDRESS_VERSION_CONFLICT" "address was changed or is unavailable; refresh and reselect".
Definition insufficientRedemptionQuantity : error :=
  Conflict "WT_INSUFFICIENT_QUANTITY"
    "insufficient wine ticket quantity in one issuer and city group".
Definition stockNotEnough : error :=
  Conflict "STOCK_NOT_ENOUGH" "physical stock is not enough for this redemption".
Definition redemptionNotFound : error :=
  NotFound "WT_REDEMPTION_NOT_FOUND" "wine ticket redemption not found".
Definition redemptionDispatchUnavailable : error :=
  EProblem (Problem.New 503 "WT_DISPATCH_UNAVAILABLE" "Service Unavailable"
              "atomic wine ticket dispatch coordinator is unavailable").
Definition notRedemptionCancellable (detail : string) : error :=
  Conflict "WT_REDEMPTION_NOT_CANCELLABLE" detail.
Definition renewalInProgress : error :=
  Conflict "WT_RENEWAL_IN_PROGRESS" "a matching wine ticket lot is being renewed".

Definition mapRedemptionDBError (err : error) : error :=
  match err with
  | EProblem d => EProblem d
  | _ =>
      let message := to_lower (error_text err) in
      if contains message "deadlock" || contains message "lock wait timeout" ||
         contains message "database is locked" || contains message "unique constraint" ||
         contains message "duplicate entry"
      then concurrentModification "wine ticket redemption changed concurrently"
      else err
  end.

(** ** Guards *)

Definition customerIDWithPermission (claims : option Claims) (permission : string) : res Z :=
  giftCustomerIDWithPermission claims permission.

Definition validateRedemptionIdempotencyKey (key : string) : res unit :=
  if String.eqb key ""
  then Err (InvalidArgument "IDEMPOTENCY_KEY_REQUIRED" "Idempotency-Key is required")
  else if (str_len key <? 8) || (128 <? str_len key)
  then Err (InvalidArgument "IDEMPOTENCY_KEY_INVALID"
              "Idempotency-Key must be between 8 and 128 characters")
  else Ok tt.

Definition validRedemptionStatus (status : string) (allowEmpty : bool) : bool :=
  if String.eqb status "" then allowEmpty
  else one_of [RedemptionStatusScheduled; RedemptionStatusAssigned; RedemptionStatusPickedUp;
               RedemptionStatusDelivered; RedemptionStatusCancelled;
               RedemptionStatusReturnInProgress; RedemptionStatusRestored;
               RedemptionStatusException] status.

Definition requireActiveCustomer (customerID : Z) : G unit :=
  let inactive := Forbidden "PERM_FORBIDDEN" "customer account is not active" in
  customer <- or_missing inactive (customerAccount customerID) ;;
  fail_if (negb (String.eqb (Customer_Status customer) "active")) inactive.

Definition redemption_requireAdultCustomer (customerID : Z) (now : time) : G unit :=
  requireActiveCustomer customerID ;;;
  r <- attempt (customerRealname customerID) ;;
  let current := match r with Ok c => c | Err _ => no_realname end in
  if is_ok r && adult_verified now current then ret tt
  else
    match r with
    | Err e => fail_if (negb (is_record_not_found e)) e
    | Ok _ => ret tt
    end ;;;
    pending <- pendingIdentityVerification customerID now ;;
    fail_if pending
      (Conflict "IDENTITY_VERIFICATION_PENDING" "identity verification is still processing") ;;;
    fail_if (String.eqb (Realname_Status current) "verified" &&
             String.eqb (Realname_AdultResult current) "minor" &&
             bool_decide (Realname_RevokedAt current = None))
      (unprocessable "UNDERAGE_RESTRICTED" "wine ticket redemption requires an adult customer") ;;;
    throw (unprocessable "REALNAME_REQUIRED" "valid real-name verification required").

Record normalizedRedemptionCreate := {
  Norm_Request : RedemptionCreateRequest;
  Norm_ProductID : Z;
  Norm_AddressID : Z;
  Norm_SlotID : Z;
}.

(** The remark: trimmed, [nil] when nothing is left. *)
Definition normalize_remark (remark : option string) : res (option string) :=
  match remark with
  | None => Ok None
  | Some raw =>
      let remark := trim_space raw in
      if negb (valid_utf8 remark) || (redemptionRemarkRuneMax <? rune_count remark)
      then Err (InvalidArgument "VALIDATION_FAILED" "remark must contain at most 200 characters")
      else Ok (if String.eqb remark "" then None else Some remark)
  end.

Definition normalizeRedemptionCreate (req : RedemptionCreateRequest)
    : res normalizedRedemptionCreate :=
  let product := trim_space (RReq_ProductID req) in
  let address := trim_space (RReq_AddressID req) in
  let slot := trim_space (RReq_DeliveryTimeSlotID req) in
  match parseExternalID product "product_id" with
  | Err e => Err e
  | Ok productID =>
  match parseExternalID address "address_id" with
  | Err e => Err e
  | Ok addressID =>
  match parseExternalID slot "delivery_time_slot_id" with
  | Err e => Err e
  | Ok slotID =>
      if (RReq_Quantity req =? 0) || (redemptionQuantityMax <? RReq_Quantity req)
      then Err (InvalidArgument "VALIDATION_FAILED" "quantity must be between 1 and 1000")
      else if RReq_AddressVersion req =? 0
      then Err (InvalidArgument "VALIDATION_FAILED" "address_version must be at least 1")
      else
        match normalize_remark (RReq_Remark req) with
        | Err e => Err e
        | Ok remark =>
            Ok {| Norm_Request :=
                    {| RReq_ProductID := product; RReq_Quantity := RReq_Quantity req;
                       RReq_AddressID := address; RReq_AddressVersion := RReq_AddressVersion req;
                       RReq_DeliveryTimeSlotID := slot; RReq_Remark := remark |};
                  Norm_ProductID := productID; Norm_AddressID := addressID;
                  Norm_SlotID := slotID |}
        end
  end
  end
  end.

(** ** Audit and outbox: [service_core.go] *)

Definition createCustomerAudit (ctx : Context) (actorID : Z) (action resourceType : string)
    (resourceID : Z) (before after : json) : G unit :=
  id <- next_id ;;
  createAudit {|
    Audit_ID := id; Audit_EventID := None; Audit_ActorType := "customer";
    Audit_ActorID := actorID; Audit_AccountID := None; Audit_Action := action;
    Audit_ResourceType := resourceType; Audit_ResourceID := resourceID; Audit_OrderID := None;
    Audit_DeliveryID := None; Audit_BeforeData := JSONData before;
    Audit_AfterData := JSONData after; Audit_Result := "success"; Audit_BeforeStatus := None;
    Audit_AfterStatus := None; Audit_Version := None; Audit_RequestID := RequestIDPtr ctx;
    Audit_IPHash := IPHashPtr ctx; Audit_UserAgent := UserAgentPtr ctx;
    Audit_CreatedAt := None |}.

(** An event of the module; [createdAt] is evaluated after the identifiers. *)
Definition wine_ticket_event (ctx : Context) (eventType aggregateType : string)
    (aggregateID : Z) (payload : json) (createdAt : G time) : G unit :=
  id <- next_id ;;
  eventID <- new_uuid ;;
  createdAt <- createdAt ;;
  createOutbox {|
    Outbox_ID := id; Outbox_EventID := eventID; Outbox_EventType := eventType;
    Outbox_EventVersion := 1; Outbox_SpecVersion := "1.0";
    Outbox_AggregateType := aggregateType; Outbox_AggregateID := aggregateID;
    Outbox_Producer := Some "wine-ticket"; Outbox_Payload := JSONData payload;
    Outbox_Status := "pending"; Outbox_RetryCount := 0; Outbox_RequestID := RequestIDPtr ctx;
    Outbox_CreatedAt := Some createdAt |}.

Definition createWineTicketOutbox (ctx : Context) (eventType aggregateType : string)
    (aggregateID : Z) (payload : json) : G unit :=
  wine_ticket_event ctx eventType aggregateType aggregateID payload nowShanghai.

(** ** Taking and giving back *)

Definition redemption_assets : AssetService World := NewAssetService time_now next_id.

Definition redemption_ledger : option (AssetLedgerRepository World) :=
  Some (ledger_repository NewTransactionAssetRepository).

Definition redemption_hold_key (redemptionID lotID : Z) : string :=
  "redemption_hold:" +:+ format_uint redemptionID +:+ ":" +:+ format_uint lotID.
Definition redemption_restore_key (redemptionID lotID : Z) : string :=
  "redemption_restore:" +:+ format_uint redemptionID +:+ ":" +:+ format_uint lotID.
Definition redemption_expiry_key (lot : Lot) (redemptionID : Z) : string :=
  "expiry:" +:+ format_uint (Lot_ID lot) +:+ ":" +:+
  format_int (unix_milli (Lot_ExpiresAt lot)) +:+ ":after:redemption_restore:" +:+
  format_uint redemptionID.

Definition redemption_metadata (redemptionNo : string) (allocationID : Z) : json :=
  JMap [("redemption_no", JStr redemptionNo); ("allocation_id", JStr (IDString allocationID))].

Definition redemption_hold_command (customerID redemptionID : Z) (redemptionNo : string)
    (lot : Lot) (take_ allocationID : Z) (now : time) : AssetCommand := {|
  Cmd_LotID := Lot_ID lot; Cmd_OwnerCustomerID := customerID; Cmd_Quantity := take_;
  Cmd_MarkUsed := false; Cmd_TransactionType := TransactionTypeRedemptionHold;
  Cmd_BizType := "wine_ticket_redemption"; Cmd_BizID := redemptionID;
  Cmd_ActionKey := redemption_hold_key redemptionID (Lot_ID lot);
  Cmd_Metadata := redemption_metadata redemptionNo allocationID; Cmd_OccurredAt := now;
  Cmd_ExpiryEvidence := None |}.

Definition redemption_restore_command (redemption : Redemption) (lot : Lot)
    (allocation : RedemptionAllocation) (now : time) : AssetCommand := {|
  Cmd_LotID := Lot_ID lot; Cmd_OwnerCustomerID := Red_CustomerID redemption;
  Cmd_Quantity := RA_Quantity allocation; Cmd_MarkUsed := false;
  Cmd_TransactionType := TransactionTypeRedemptionRestore;
  Cmd_BizType := "wine_ticket_redemption"; Cmd_BizID := Red_ID redemption;
  Cmd_ActionKey := redemption_restore_key (Red_ID redemption) (Lot_ID lot);
  Cmd_Metadata := redemption_metadata (Red_RedemptionNo redemption) (RA_ID allocation);
  Cmd_OccurredAt := now;
  Cmd_ExpiryEvidence := Some {|
    Evidence_TransactionType := TransactionTypeExpiry; Evidence_BizType := "wine_ticket_lot";
    Evidence_BizID := Lot_ID lot;
    Evidence_ActionKey := redemption_expiry_key lot (Red_ID redemption);
    Evidence_Metadata := JMap [("trigger", JStr "redemption_cancel");
                               ("redemption_no", JStr (Red_RedemptionNo redemption))] |} |}.

Definition sumLotAvailability (lots : list Lot) : Z :=
  saturating_sum (map Lot_AvailableQuantity lots).

Definition allocationQuantity (allocations : list RedemptionAllocation) : Z :=
  saturating_sum (map RA_Quantity allocations).

Definition redemptionLotsWithoutGuards (lots : list Lot) (guarded : list Z) : list Lot :=
  match guarded with
  | [] => lots
  | _ => List.filter (fun lot => negb (id_in guarded (Lot_ID lot))) lots
  end.

Definition held_allocation (id redemptionID : Z) (lot : Lot) (take_ : Z) (now : time)
    : RedemptionAllocation := {|
  RA_ID := id; RA_RedemptionID := redemptionID; RA_LotID := Lot_ID lot; RA_Quantity := take_;
  RA_SourceExpiresAt := Lot_ExpiresAt lot; RA_Status := RedemptionAllocationStatusHeld;
  RA_CreatedAt := now; RA_UpdatedAt := now |}.

(** The loop of [holdRedemptionLots]: the allocations made and what remains. *)
Fixpoint hold_lots (ctx : Context) (customerID redemptionID : Z) (redemptionNo : string)
    (now : time) (lots : list Lot) (remaining : Z) : G (list RedemptionAllocation * Z) :=
  match lots with
  | [] => ret ([], remaining)
  | lot :: rest =>
      if remaining =? 0 then ret ([], remaining)
      else
        let take_ := if remaining <? Lot_AvailableQuantity lot then remaining
                     else Lot_AvailableQuantity lot in
        if take_ =? 0 then hold_lots ctx customerID redemptionID redemptionNo now rest remaining
        else
          id <- next_id ;;
          Redeem redemption_assets ctx redemption_ledger
            (redemption_hold_command customerID redemptionID redemptionNo lot take_ id now) ;;;
          createAllocation (held_allocation id redemptionID lot take_ now) ;;;
          others <- hold_lots ctx customerID redemptionID redemptionNo now rest
                      (uint_sub remaining take_) ;;
          ret (held_allocation id redemptionID lot take_ now :: others.1, others.2)
  end.

Definition holdRedemptionLots (ctx : Context) (customerID redemptionID : Z)
    (redemptionNo : string) (quantity : Z) (lots : list Lot) (now : time)
    : G (list RedemptionAllocation) :=
  held <- hold_lots ctx customerID redemptionID redemptionNo now lots quantity ;;
  fail_if (negb (held.2 =? 0)) insufficientRedemptionQuantity ;;;
  ret held.1.

Definition reserveRedemptionSlot (slot : DeliveryTimeSlot) (now : time) : G unit :=
  reserved <- reserveSlot slot now ;;
  fail_if (negb reserved) (Conflict "WT_SLOT_FULL" "delivery slot was filled concurrently").

Definition stockConcurrent : error := concurrentModification "physical stock changed concurrently".

(** The record of a change of [delta] bottles of a stock. *)
Definition stock_record (id : Z) (stock : PhysicalStock) (changeType actionKey : string)
    (delta afterAvailable redemptionID : Z) (now : time) : StockRecord :=
  let beforeTotal := int_add (int_add (Stock_AvailableQty stock) (Stock_ReservedQty stock))
                       (Stock_LockedQty stock) in {|
  SR_ID := id; SR_ShopProductID := Stock_ShopProductID stock; SR_ShopID := Stock_ShopID stock;
  SR_ProductID := Stock_ProductID stock; SR_ChangeType := changeType; SR_QuantityDelta := delta;
  SR_BeforeAvailableQty := Stock_AvailableQty stock; SR_AfterAvailableQty := afterAvailable;
  SR_TotalQuantityDelta := delta; SR_BeforeTotalQty := beforeTotal;
  SR_AfterTotalQty := int_add beforeTotal delta; SR_SourceType := "wine_ticket_redemption";
  SR_SourceID := redemptionID; SR_IdempotencyKey := actionKey;
  SR_BusinessActionKey := Some actionKey; SR_CreatedAt := now; SR_UpdatedAt := now |}.

Definition deductRedemptionStock (stock : PhysicalStock) (quantity redemptionID : Z) (now : time)
    : G unit :=
  fail_if ((quantity =? 0) || (Stock_AvailableQty stock <? i64 quantity)) stockNotEnough ;;;
  let afterAvailable := int_add (Stock_AvailableQty stock) (int_neg (i64 quantity)) in
  updated <- updatePhysicalStock stock afterAvailable now ;;
  fail_if (negb updated) stockConcurrent ;;;
  id <- next_id ;;
  createStockRecord (stock_record id stock "wine_ticket_redeem"
    ("redemption_hold:" +:+ format_uint redemptionID +:+ ":stock:" +:+
     format_uint (Stock_ShopProductID stock))
    (int_neg (i64 quantity)) afterAvailable redemptionID now).

Definition restoreRedemptionStock (stock : PhysicalStock) (quantity redemptionID : Z) (now : time)
    : G unit :=
  fail_if ((quantity =? 0) ||
           (int_add (i64_half - 1) (int_neg (i64 quantity)) <? Stock_AvailableQty stock))
    (Internal "physical stock restoration would overflow") ;;;
  let afterAvailable := int_add (Stock_AvailableQty stock) (i64 quantity) in
  updated <- updatePhysicalStock stock afterAvailable now ;;
  fail_if (negb updated) stockConcurrent ;;;
  id <- next_id ;;
  createStockRecord (stock_record id stock "wine_ticket_redeem_restore"
    ("redemption_restore:" +:+ format_uint redemptionID +:+ ":stock:" +:+
     format_uint (Stock_ShopProductID stock))
    (i64 quantity) afterAvailable redemptionID now).

(** The loop of [restoreCancellationLots], over the lots as they were locked
    and then as the restores left them. *)
Fixpoint restore_lots (ctx : Context) (redemption : Redemption) (now : time)
    (allocations : list RedemptionAllocation) (lotByID : gmap Z Lot) : G unit :=
  match allocations with
  | [] => ret tt
  | allocation :: rest =>
      let unsafe := Internal "wine ticket redemption allocation cannot be restored safely" in
      match lotByID !! RA_LotID allocation with
      | None => throw unsafe
      | Some lot =>
          fail_if (negb (String.eqb (RA_Status allocation) RedemptionAllocationStatusHeld) ||
                   (RA_Quantity allocation =? 0) ||
                   (uint_sub (Lot_TotalQuantity lot) (RA_Quantity allocation) <?
                    Lot_AvailableQuantity lot)) unsafe ;;;
          mutation <- Restore redemption_assets ctx redemption_ledger
                        (redemption_restore_command redemption lot allocation now) ;;
          restored <- restoreAllocation (RA_ID allocation) now ;;
          fail_if (negb restored)
            (concurrentModification "redemption allocation changed concurrently") ;;;
          restore_lots ctx redemption now rest (<[Lot_ID lot := Mutation_Lot mutation]> lotByID)
      end
  end.

Definition restoreCancellationLots (ctx : Context) (redemption : Redemption)
    (allocations : list RedemptionAllocation) (lots : list Lot) (now : time) : G unit :=
  restore_lots ctx redemption now allocations (giftLotMap lots).

(** ** Checks of a cancellation *)

Definition delivery_passed : list string :=
  ["picked_up"; "delivering"; "completed"; "delivered"; "returning"].

Definition order_settled_in_tickets (orderRow : Order) : bool :=
  String.eqb (Order_OrderType orderRow) redemptionOrderType &&
  String.eqb (Order_SettlementMode orderRow) redemptionSettlementMode &&
  String.eqb (Order_PayStatus orderRow) redemptionPayStatus &&
  (Order_GoodsAmount orderRow =? 0) && (Order_DiscountAmount orderRow =? 0) &&
  (Order_DeliveryFeeAmount orderRow =? 0) && (Order_PayableAmount orderRow =? 0) &&
  (Order_PaidAmount orderRow =? 0).

Definition validateCancellableRedemption (redemption : Redemption) (orderRow : Order)
    (delivery : RedemptionDispatchState) (customerID : Z) : res unit :=
  if negb (Red_CustomerID redemption =? customerID) ||
     negb (Order_CustomerID orderRow =? customerID) ||
     negb (Red_OrderID redemption =? Order_ID orderRow) ||
     negb (DState_OrderID delivery =? Order_ID orderRow) ||
     negb (order_settled_in_tickets orderRow)
  then Err (notRedemptionCancellable "redemption order settlement state is not cancellable")
  else if negb (String.eqb (Red_Status redemption) RedemptionStatusScheduled) &&
          negb (String.eqb (Red_Status redemption) RedemptionStatusAssigned)
  then Err (notRedemptionCancellable "redemption can only be cancelled before pickup")
  else if is_set (Red_PickedUpAt redemption) || is_set (Red_CompletedAt redemption) ||
          is_set (DState_PickedUpAt delivery) || is_set (DState_CompletedAt delivery)
  then Err (notRedemptionCancellable "redemption has already been picked up")
  else if one_of delivery_passed (DState_Status delivery)
  then Err (notRedemptionCancellable "delivery has already passed the cancellable state")
  else Ok tt.

Definition allocation_belongs (redemption : Redemption) (lotByID : gmap Z Lot)
    (allocation : RedemptionAllocation) : bool :=
  match lotByID !! RA_LotID allocation with
  | None => false
  | Some lot =>
      String.eqb (RA_Status allocation) RedemptionAllocationStatusHeld &&
      negb (RA_Quantity allocation =? 0) &&
      (Lot_OwnerCustomerID lot =? Red_CustomerID redemption) &&
      (Lot_IssuerMerchantID lot =? Red_IssuerMerchantID redemption) &&
      (Lot_ProductID lot =? Red_ProductID redemption)
  end.

Definition validateCancellationAllocations (redemption : Redemption)
    (allocations : list RedemptionAllocation) (lots : list Lot) : res unit :=
  if bool_decide (allocations = []) ||
     negb (allocationQuantity allocations =? Red_Quantity redemption)
  then Err (Internal "wine ticket redemption allocation total is inconsistent")
  else if negb (forallb (allocation_belongs redemption (giftLotMap lots)) allocations)
  then Err (Internal "wine ticket redemption allocation relation is inconsistent")
  else Ok tt.

(** ** Responses: [redemptionDTOs] of [dto.go] *)

Definition sortedRedemptionIDs (rows : list redemptionView) : list Z :=
  sort_by (by_keys [fun x => x]) (map (fun v => Red_ID (View_Redemption v)) rows).

(** The loop over the rows, stopped by the first error. *)
Fixpoint view_dtos (allocations : list redemptionAllocationView) (rows : list redemptionView)
    : res (list RedemptionDTO) :=
  match rows with
  | [] => Ok []
  | row :: rest =>
      let own := List.filter (fun v => RA_RedemptionID (AV_Allocation v) =?
                                       Red_ID (View_Redemption row)) allocations in
      match redemptionViewDTO row own with
      | Err e => Err e
      | Ok item =>
          match view_dtos allocations rest with
          | Err e => Err e
          | Ok items => Ok (item :: items)
          end
      end
  end.

Definition redemptionDTOs (rows : list redemptionView) : G (list RedemptionDTO) :=
  match rows with
  | [] => ret []
  | _ =>
      allocations <- allocationViews (sortedRedemptionIDs rows) ;;
      lift (view_dtos allocations rows)
  end.

(** The response of one row, [items[0]]. *)
Definition redemption_response (row : redemptionView) : G RedemptionDTO :=
  items <- redemptionDTOs [row] ;;
  match items with
  | item :: _ => ret item
  | [] => throw (EMessage "runtime error: index out of range [0] with length 0")
  end.

Definition redemptionDTOByID (customerID redemptionID : Z) : G RedemptionDTO :=
  row <- customerRedemptionByID customerID redemptionID ;;
  redemption_response row.

(** ** Reading *)

Record RedemptionSlotQuery := {
  SlotQuery_ProductID : Z;
  SlotQuery_Quantity : Z;
  SlotQuery_AddressID : Z;
  SlotQuery_AddressVersion : Z;
  SlotQuery_DateFrom : time;
  SlotQuery_DateTo : time;
}.

(** [strconv.ParseUint(s, 10, bits)] *)
Definition parse_uint_bits (bits : Z) (s : string) : option Z :=
  match parse_uint s with
  | Some v => if v <? 2 ^ bits then Some v else None
  | None => None
  end.

(** A date parameter: its day, or the default when it is empty. *)
Definition date_parameter (raw name : string) (default_ : Z) : res Z :=
  if String.eqb raw "" then Ok default_
  else match parse_date raw with
       | Some day => Ok day
       | None => Err (InvalidArgument "VALIDATION_FAILED" (name +:+ " must use YYYY-MM-DD"))
       end.

Definition ParseDeliveryTimeSlotQuery (productIDRaw quantityRaw addressIDRaw addressVersionRaw
    dateFromRaw dateToRaw : string) : G RedemptionSlotQuery :=
  productID <- lift (parseExternalID productIDRaw "product_id") ;;
  addressID <- lift (parseExternalID addressIDRaw "address_id") ;;
  match parse_uint_bits 16 quantityRaw with
  | None => throw (InvalidArgument "VALIDATION_FAILED" "quantity must be between 1 and 1000")
  | Some quantity =>
  fail_if ((quantity =? 0) || (redemptionQuantityMax <? quantity))
    (InvalidArgument "VALIDATION_FAILED" "quantity must be between 1 and 1000") ;;;
  match parse_uint_bits 32 addressVersionRaw with
  | None => throw (InvalidArgument "VALIDATION_FAILED" "address_version must be a positive integer")
  | Some addressVersion =>
  fail_if (addressVersion =? 0)
    (InvalidArgument "VALIDATION_FAILED" "address_version must be a positive integer") ;;;
  now <- nowShanghai ;;
  let today := shanghai_day now in
  dateFrom <- lift (date_parameter dateFromRaw "date_from" today) ;;
  dateTo <- lift (date_parameter dateToRaw "date_to" (today + 7)) ;;
  fail_if ((dateFrom <? today) || (dateTo <? dateFrom) || (dateFrom + 31 <? dateTo))
    (InvalidArgument "VALIDATION_FAILED"
       "date range must start today or later and span at most 31 days") ;;;
  ret {| SlotQuery_ProductID := productID; SlotQuery_Quantity := quantity;
         SlotQuery_AddressID := addressID; SlotQuery_AddressVersion := addressVersion;
         SlotQuery_DateFrom := shanghai_instant dateFrom 0;
         SlotQuery_DateTo := shanghai_instant dateTo 0 |}
  end
  end.

(** One turn of the loop of [DeliveryTimeSlots]: the slot, if it can serve. *)
Definition offer_slot (customerID : Z) (cityCode : string) (query : RedemptionSlotQuery)
    (now : time) (row : redemptionSlotRelation) : G (option RedemptionDeliveryTimeSlotDTO) :=
  match validateRedemptionRelation row with
  | Err _ => ret None
  | Ok _ =>
      match redemptionSlotWindow (Rel_ServiceDate row) (Rel_StartTime row) (Rel_EndTime row) with
      | Err _ => ret None
      | Ok (startAt, endAt) =>
          if negb (after endAt now) then ret None
          else
            groupQuantity <- availableLotQuantity customerID (Rel_MerchantID row) cityCode
                               (SlotQuery_ProductID query) endAt true ;;
            ret (if (groupQuantity <? SlotQuery_Quantity query) ||
                    (Rel_StockAvailableQty row <? i64 (SlotQuery_Quantity query))
                 then None else Some (redemptionSlotDTO row startAt endAt now))
      end
  end.

Fixpoint offer_slots (customerID : Z) (cityCode : string) (query : RedemptionSlotQuery)
    (now : time) (rows : list redemptionSlotRelation) : G (list RedemptionDeliveryTimeSlotDTO) :=
  match rows with
  | [] => ret []
  | row :: rest =>
      item <- offer_slot customerID cityCode query now row ;;
      items <- offer_slots customerID cityCode query now rest ;;
      ret (match item with Some dto => dto :: items | None => items end)
  end.

Definition DeliveryTimeSlots (claims : option Claims) (query : RedemptionSlotQuery)
    : G (list RedemptionDeliveryTimeSlotDTO) :=
  customerID <- lift (customerIDWithPermission claims "wine_ticket_slot:list") ;;
  fail_if ((SlotQuery_ProductID query =? 0) || (SlotQuery_AddressID query =? 0) ||
           (SlotQuery_AddressVersion query =? 0) || (SlotQuery_Quantity query =? 0) ||
           (redemptionQuantityMax <? SlotQuery_Quantity query) ||
           is_zero (SlotQuery_DateFrom query) ||
           before (SlotQuery_DateTo query) (SlotQuery_DateFrom query))
    (InvalidArgument "VALIDATION_FAILED" "invalid delivery time slot query") ;;;
  address <- or_missing addressVersionConflict
               (address customerID (SlotQuery_AddressID query) (SlotQuery_AddressVersion query)) ;;
  let cityCode := redemptionAddressCityCode address in
  fail_if (String.eqb cityCode "") (noFulfillableShop "address has no service city code") ;;;
  now <- nowShanghai ;;
  available <- totalAvailableByCityProduct customerID cityCode (SlotQuery_ProductID query) now true ;;
  (if available <? SlotQuery_Quantity query then
     withGuards <- totalAvailableByCityProduct customerID cityCode (SlotQuery_ProductID query)
                     now false ;;
     throw (if SlotQuery_Quantity query <=? withGuards then renewalInProgress
            else insufficientRedemptionQuantity)
   else ret tt) ;;;
  rows <- listSlotRelations (SlotQuery_ProductID query) (SlotQuery_DateFrom query)
            (SlotQuery_DateTo query) ;;
  items <- offer_slots customerID cityCode query now rows ;;
  fail_if (bool_decide (List.length items = 0%nat))
    (noFulfillableShop "no shop can fulfill this wine ticket group and delivery window") ;;;
  ret items.

Section Reading.
Context (secret : string).

Definition List (claims : option Claims) (query : Query) (status0 : string)
    : G (list RedemptionDTO * string) :=
  customerID <- lift (customerIDWithPermission claims "wine_ticket_redemption:list") ;;
  let status := trim_space status0 in
  fail_if (negb (validRedemptionStatus status true))
    (InvalidArgument "VALIDATION_FAILED" "invalid redemption status") ;;;
  rows <- listCustomerRedemptions customerID query status ;;
  if Query_PageSize query <? Z.of_nat (List.length rows) then
    let page := firstn (Z.to_nat (Query_PageSize query)) rows in
    match last page with
    | Some row =>
        next <- NextPageTokenWithCursor secret query [IDString (Red_ID (View_Redemption row))] ;;
        items <- redemptionDTOs page ;;
        ret (items, next)
    | None => throw (EMessage "runtime error: index out of range [-1]")
    end
  else
    items <- redemptionDTOs rows ;;
    ret (items, "").

Definition Detail (claims : option Claims) (redemptionNo0 : string) : G RedemptionDTO :=
  customerID <- lift (customerIDWithPermission claims "wine_ticket_redemption:view") ;;
  let redemptionNo := trim_space redemptionNo0 in
  lift (redemption_validateBusinessNo redemptionNo "redemption_no") ;;;
  row <- or_missing redemptionNotFound (customerRedemptionByNo customerID redemptionNo) ;;
  redemption_response row.
End Reading.

(** ** Writing *)

Definition claimIdempotency (customerID : Z) (method path key requestHash : string) : G bool :=
  id <- next_id ;;
  now <- time_now ;;
  StartAt "customer" customerID path key id method requestHash now.

Definition cachedResponse (customerID : Z) (path key : string) : G RedemptionDTO :=
  found <- CachedResponse "customer" customerID path key ;;
  match found with
  | Some dto => ret dto
  | None => throw (Conflict "IDEMPOTENCY_IN_PROGRESS"
                     "request with the same idempotency key is still processing")
  end.

(** The response of a completed request with the key, before the transaction. *)
Definition replay_or {A} `{JsonCodec A} (customerID : Z) (path key requestHash : string)
    (k : G A) : G A :=
  replayed <- ReplayCompleted "customer" customerID path key requestHash ;;
  match replayed with
  | Some response => ret response
  | None => k
  end.

(** The error of the transaction, mapped. *)
Definition mapped {A} (m : G A) : G A :=
  r <- attempt m ;;
  match r with
  | Ok a => ret a
  | Err e => throw (mapRedemptionDBError e)
  end.

(** The candidate window of a slot, read before the transaction. *)
Definition candidate_window (slotID productID : Z) : G (redemptionSlotRelation * time * time) :=
  candidate <- or_missing
    (noFulfillableShop "delivery slot has no eligible fulfillment relation")
    (resolveSlotRelation slotID productID) ;;
  match redemptionSlotWindow (Rel_ServiceDate candidate) (Rel_StartTime candidate)
          (Rel_EndTime candidate) with
  | Err _ => throw (noFulfillableShop "delivery slot window is invalid")
  | Ok (startAt, endAt) => ret (candidate, startAt, endAt)
  end.

(** The lots the bottles may come from. *)
Definition lock_lots (customerID merchantID : Z) (cityCode : string) (productID quantity : Z)
    (expiresAfter : time) : G (list Lot) :=
  lots <- lockEligibleLots customerID merchantID cityCode productID expiresAfter ;;
  guardedLots <- lockActiveRenewalsForLots lots ;;
  let availableLots := redemptionLotsWithoutGuards lots guardedLots in
  fail_if ((sumLotAvailability availableLots <? quantity) &&
           (quantity <=? sumLotAvailability lots)) renewalInProgress ;;;
  fail_if (sumLotAvailability availableLots <? quantity) insufficientRedemptionQuantity ;;;
  ret availableLots.

(** The slot, its live relation and its window, checked against the candidate. *)
Definition lock_slot (slotID productID : Z) (candidate : redemptionSlotRelation)
    (candidateStart candidateEnd now : time)
    : G (DeliveryTimeSlot * redemptionSlotRelation * time * time) :=
  slot <- or_missing (Conflict "WT_SLOT_FULL" "delivery slot is no longer available")
            (lockSlot slotID) ;;
  live <- or_missing (noFulfillableShop "fulfillment relation changed")
            (resolveSlotRelation slotID productID) ;;
  lift (validateStableRedemptionRelation candidate live slot) ;;;
  lift (validateRedemptionRelation live) ;;;
  let changed := concurrentModification "delivery slot changed; refresh available slots" in
  match redemptionSlotWindow (Slot_ServiceDate slot) (Slot_StartTime slot) (Slot_EndTime slot) with
  | Err _ => throw changed
  | Ok (liveStart, liveEnd) =>
      fail_if (negb (sameMillisecond candidateStart liveStart) ||
               negb (sameMillisecond candidateEnd liveEnd)) changed ;;;
      lift (validateLockedRedemptionSlot slot liveStart liveEnd now) ;;;
      ret (slot, live, liveStart, liveEnd)
  end.

Definition lock_stock (live : redemptionSlotRelation) (productID quantity : Z) : G PhysicalStock :=
  stock <- or_missing stockNotEnough (lockStock (Rel_ShopProductID live)) ;;
  fail_if (negb (Stock_ShopID stock =? Rel_ShopID live) ||
           negb (Stock_ProductID stock =? productID) ||
           negb (Stock_ShopProductID stock =? Rel_ShopProductID live) ||
           (Stock_AvailableQty stock <? i64 quantity)) stockNotEnough ;;;
  ret stock.

(** What [Create] works with once everything is locked and checked. *)
Record RedemptionPlan := {
  Plan_CustomerID : Z;
  Plan_Now : time;
  Plan_Request : normalizedRedemptionCreate;
  Plan_Key : string;
  Plan_Address : redemptionAddressRecord;
  Plan_Lots : list Lot;
  Plan_Slot : DeliveryTimeSlot;
  Plan_Live : redemptionSlotRelation;
  Plan_Start : time;
  Plan_End : time;
  Plan_Stock : PhysicalStock;
}.

Definition plan_quantity (p : RedemptionPlan) : Z := RReq_Quantity (Norm_Request (Plan_Request p)).

Definition not_before (p : RedemptionPlan) : time :=
  let notBeforeAt := add_duration (Plan_Start p) (- redemptionDispatchLead) in
  if before notBeforeAt (Plan_Now p) then Plan_Now p else notBeforeAt.

Definition new_order (p : RedemptionPlan) (orderID : Z) : Order := {|
  Order_ID := orderID; Order_OrderNo := "JXE" +:+ IDString orderID;
  Order_OrderType := redemptionOrderType; Order_SettlementMode := redemptionSettlementMode;
  Order_CustomerID := Plan_CustomerID p; Order_MerchantID := Rel_MerchantID (Plan_Live p);
  Order_ShopID := Rel_ShopID (Plan_Live p); Order_Status := "paid";
  Order_PayStatus := redemptionPayStatus; Order_DeliveryStatus := "pending_assign";
  Order_GoodsAmount := 0; Order_DiscountAmount := 0; Order_DeliveryFeeAmount := 0;
  Order_PayableAmount := 0; Order_PaidAmount := 0;
  Order_Remark := RReq_Remark (Norm_Request (Plan_Request p));
  Order_AddressSnapshot := marshalRedemptionAddressSnapshot (Plan_Address p);
  Order_DeliveryTimeSlotID := Some (Slot_ID (Plan_Slot p));
  Order_DeliveryTimeSlotSnapshot :=
    marshalRedemptionSlotSnapshot (Plan_Live p) (Plan_Start p) (Plan_End p);
  Order_ComplianceSnapshot := JSONData (JMap
    [("schema_version", JNum 1); ("adult_realname_verified", JBool true);
     ("verified_at_action", JStr "wine_ticket_redemption_create")]);
  Order_IdempotencyKey := Some (Plan_Key p); Order_CancelSource := None;
  Order_CancelReasonCode := None; Order_AfterSaleStatus := "none"; Order_Version := 1; Order_CancelledAt := None;
  Order_CreatedAt := Plan_Now p; Order_UpdatedAt := Plan_Now p; Order_DeletedAt := None |}.

Definition new_order_item (p : RedemptionPlan) (id orderID : Z) : OrderItem := {|
  Item_ID := id; Item_OrderID := orderID; Item_ShopProductID := Rel_ShopProductID (Plan_Live p);
  Item_ProductID := Norm_ProductID (Plan_Request p);
  Item_ProductSnapshot := marshalRedemptionProductSnapshot (Plan_Live p);
  Item_Quantity := i64 (plan_quantity p); Item_SalePriceAmount := 0; Item_TotalAmount := 0;
  Item_DeletedAt := None |}.

Definition new_redemption (p : RedemptionPlan) (redemptionID orderID : Z) : Redemption := {|
  Red_ID := redemptionID; Red_RedemptionNo := "WTRD" +:+ IDString redemptionID;
  Red_CustomerID := Plan_CustomerID p; Red_IssuerMerchantID := Rel_MerchantID (Plan_Live p);
  Red_ProductID := Norm_ProductID (Plan_Request p); Red_ShopID := Rel_ShopID (Plan_Live p);
  Red_ShopProductID := Rel_ShopProductID (Plan_Live p);
  Red_DeliveryTimeSlotID := Slot_ID (Plan_Slot p); Red_OrderID := orderID;
  Red_Quantity := plan_quantity p; Red_AddressID := Addr_ID (Plan_Address p);
  Red_AddressVersion := Addr_Version (Plan_Address p);
  Red_AddressSnapshot := marshalRedemptionAddressSnapshot (Plan_Address p);
  Red_DeliveryTimeSlotSnapshot :=
    marshalRedemptionSlotSnapshot (Plan_Live p) (Plan_Start p) (Plan_End p);
  Red_ProductSnapshot := marshalRedemptionProductSnapshot (Plan_Live p);
  Red_Status := RedemptionStatusScheduled; Red_Version := 1; Red_ScheduledStartAt := Plan_Start p;
  Red_ScheduledEndAt := Plan_End p; Red_NotBeforeAt := not_before p; Red_PickedUpAt := None;
  Red_CompletedAt := None; Red_CancelledAt := None; Red_RestoredAt := None;
  Red_CreatedAt := Plan_Now p; Red_UpdatedAt := Plan_Now p |}.

Section Writing.
(** [None] when no coordinator is configured. *)
Context (dispatch : option RedemptionDispatchCoordinator).

Definition configured : G RedemptionDispatchCoordinator :=
  match dispatch with
  | Some d => ret d
  | None => throw redemptionDispatchUnavailable
  end.

(** Reads and checks: everything [Create] does before it writes. *)
Definition plan_redemption (customerID : Z) (key : string) (normalized : normalizedRedemptionCreate)
    (candidate : redemptionSlotRelation) (candidateStart candidateEnd : time) : G RedemptionPlan :=
  now <- nowShanghai ;;
  redemption_requireAdultCustomer customerID now ;;;
  let request := Norm_Request normalized in
  address <- or_missing addressVersionConflict
               (lockAddress customerID (Norm_AddressID normalized) (RReq_AddressVersion request)) ;;
  let cityCode := redemptionAddressCityCode address in
  fail_if (String.eqb cityCode "") (noFulfillableShop "address has no service city code") ;;;
  lots <- lock_lots customerID (Rel_MerchantID candidate) cityCode (Norm_ProductID normalized)
            (RReq_Quantity request) candidateEnd ;;
  locked <- lock_slot (Norm_SlotID normalized) (Norm_ProductID normalized) candidate
              candidateStart candidateEnd now ;;
  let '(slot, live, liveStart, liveEnd) := locked in
  stock <- lock_stock live (Norm_ProductID normalized) (RReq_Quantity request) ;;
  ret {| Plan_CustomerID := customerID; Plan_Now := now; Plan_Request := normalized;
         Plan_Key := key; Plan_Address := address; Plan_Lots := lots; Plan_Slot := slot;
         Plan_Live := live; Plan_Start := liveStart; Plan_End := liveEnd; Plan_Stock := stock |}.

(** The order, its item and its log. *)
Definition write_order (ctx : Context) (p : RedemptionPlan) (orderID : Z) : G unit :=
  createOrder (new_order p orderID) ;;;
  itemID <- next_id ;;
  createOrderItem (new_order_item p itemID orderID) ;;;
  logID <- next_id ;;
  createOrderLog {|
    OLog_ID := logID; OLog_OrderID := orderID; OLog_ActorType := "customer";
    OLog_ActorID := Plan_CustomerID p; OLog_Action := "wine_ticket_redemption_create";
    OLog_FromStatus := None; OLog_ToStatus := Some "paid"; OLog_RequestID := RequestIDPtr ctx |}.

(** The delivery, which has to be the order's and not under way. *)
Definition open_delivery (ctx : Context) (d : RedemptionDispatchCoordinator) (p : RedemptionPlan)
    (orderID : Z) : G RedemptionDispatchState :=
  state <- EnsureRedemptionTaskTx d ctx {|
    DCreate_OrderID := orderID; DCreate_ShopID := Rel_ShopID (Plan_Live p);
    DCreate_AddressSnapshot := marshalRedemptionAddressSnapshot (Plan_Address p);
    DCreate_ScheduledStartAt := Plan_Start p; DCreate_ScheduledEndAt := Plan_End p;
    DCreate_NotBeforeAt := not_before p |} ;;
  fail_if ((DState_DeliveryOrderID state =? 0) || negb (DState_OrderID state =? orderID) ||
           is_set (DState_PickedUpAt state) || is_set (DState_CompletedAt state))
    (Internal "dispatch returned an invalid wine ticket delivery state") ;;;
  ret state.

Definition announce_created (ctx : Context) (p : RedemptionPlan) (redemptionID orderID : Z)
    (delivery : RedemptionDispatchState) : G unit :=
  let r := new_redemption p redemptionID orderID in
  createCustomerAudit ctx (Plan_CustomerID p) "wine_ticket.redemption.create"
    "wine_ticket_redemption" redemptionID JNull
    (JMap [("redemption_no", JStr (Red_RedemptionNo r));
           ("order_no", JStr ("JXE" +:+ IDString orderID)); ("quantity", JNum (plan_quantity p));
           ("status", JStr RedemptionStatusScheduled);
           ("shop_id", JStr (IDString (Rel_ShopID (Plan_Live p))));
           ("slot_id", JStr (IDString (Slot_ID (Plan_Slot p))))]) ;;;
  createWineTicketOutbox ctx "wine_ticket.redemption_created" "wine_ticket_redemption" redemptionID
    (JMap [("redemption_no", JStr (Red_RedemptionNo r)); ("order_id", JStr (IDString orderID));
           ("delivery_order_id", JStr (IDString (DState_DeliveryOrderID delivery)));
           ("customer_id", JStr (IDString (Plan_CustomerID p)));
           ("quantity", JNum (plan_quantity p));
           ("scheduled_start_at", JStr (FormatShanghai (Plan_Start p)));
           ("scheduled_end_at", JStr (FormatShanghai (Plan_End p)));
           ("not_before_at", JStr (FormatShanghai (not_before p)))]).

(** Writes: bottles, place and stock are taken, the order opened. *)
Definition execute_redemption (ctx : Context) (d : RedemptionDispatchCoordinator)
    (path key : string) (p : RedemptionPlan) : G RedemptionDTO :=
  redemptionID <- next_id ;;
  orderID <- next_id ;;
  let r := new_redemption p redemptionID orderID in
  allocations <- holdRedemptionLots ctx (Plan_CustomerID p) redemptionID (Red_RedemptionNo r)
                   (plan_quantity p) (Plan_Lots p) (Plan_Now p) ;;
  reserveRedemptionSlot (Plan_Slot p) (Plan_Now p) ;;;
  deductRedemptionStock (Plan_Stock p) (plan_quantity p) redemptionID (Plan_Now p) ;;;
  write_order ctx p orderID ;;;
  createRedemption r ;;;
  delivery <- open_delivery ctx d p orderID ;;
  fail_if (negb (allocationQuantity allocations =? plan_quantity p))
    (Internal "wine ticket redemption allocation total is inconsistent") ;;;
  announce_created ctx p redemptionID orderID delivery ;;;
  response <- redemptionDTOByID (Plan_CustomerID p) redemptionID ;;
  Succeed "customer" (Plan_CustomerID p) path key response ;;;
  ret response.

(** [Create] in its transaction, once the key is claimed. *)
Definition create_claimed (ctx : Context) (customerID : Z) (path key : string)
    (normalized : normalizedRedemptionCreate) (candidate : redemptionSlotRelation)
    (candidateStart candidateEnd : time) : G RedemptionDTO :=
  d <- configured ;;
  p <- plan_redemption customerID key normalized candidate candidateStart candidateEnd ;;
  execute_redemption ctx d path key p.

Definition Create (ctx : Context) (claims : option Claims) (method path key : string)
    (req : RedemptionCreateRequest) : G RedemptionDTO :=
  customerID <- lift (customerIDWithPermission claims "wine_ticket_redemption:create") ;;
  normalized <- lift (normalizeRedemptionCreate req) ;;
  lift (validateRedemptionIdempotencyKey key) ;;;
  let requestHash := RequestHash (RedemptionCreateRequest_json (Norm_Request normalized)) in
  replay_or customerID path key requestHash (
    window <- candidate_window (Norm_SlotID normalized) (Norm_ProductID normalized) ;;
    let '(candidate, candidateStart, candidateEnd) := window in
    mapped (transaction (
      started <- claimIdempotency customerID method path key requestHash ;;
      if negb started then cachedResponse customerID path key
      else create_claimed ctx customerID path key normalized candidate candidateStart
             candidateEnd))).

(** ** Cancelling *)

(** What [Cancel] works with once everything is locked and checked. *)
Record CancelPlan := {
  CP_CustomerID : Z;
  CP_Now : time;
  CP_Delivery : RedemptionDispatchState;
  CP_Order : Order;
  CP_Redemption : Redemption;
  CP_Allocations : list RedemptionAllocation;
  CP_Lots : list Lot;
  CP_Slot : DeliveryTimeSlot;
  CP_Stock : PhysicalStock;
}.

(** The delivery, the order and the redemption, none in after-sales. *)
Definition lock_cancellation (ctx : Context) (d : RedemptionDispatchCoordinator) (customerID : Z)
    (anchor : Redemption) : G (RedemptionDispatchState * Order * Redemption) :=
  delivery <- LockCancellationPrefixTx d ctx (Red_OrderID anchor) ;;
  fail_if ((DState_DeliveryOrderID delivery =? 0) ||
           negb (DState_OrderID delivery =? Red_OrderID anchor))
    (notRedemptionCancellable "delivery state is unavailable for cancellation") ;;;
  orderRow <- or_error (notRedemptionCancellable "redemption order is unavailable")
                (lockOrder (Red_OrderID anchor)) ;;
  afterSaleIDs <- lockAfterSaleIDs (Order_ID orderRow) ;;
  returnIDs <- lockDeliveryReturnIDs (Order_ID orderRow) ;;
  fail_if (negb (bool_decide (afterSaleIDs = [])) || negb (bool_decide (returnIDs = [])))
    (notRedemptionCancellable "redemption already entered after-sale or return handling") ;;;
  let inconsistent := notRedemptionCancellable "redemption relation is inconsistent" in
  redemption <- or_error inconsistent (lockRedemption (Red_ID anchor) customerID) ;;
  fail_if (negb (Red_OrderID redemption =? Order_ID orderRow)) inconsistent ;;;
  ret (delivery, orderRow, redemption).

(** What is to be given back, checked. *)
Definition plan_cancellation (customerID : Z) (now : time) (delivery : RedemptionDispatchState)
    (orderRow : Order) (redemption : Redemption) : G CancelPlan :=
  lift (validateCancellableRedemption redemption orderRow delivery customerID) ;;;
  allocations <- lockAllocations (Red_ID redemption) ;;
  lots <- lockAllocationLots allocations ;;
  lift (validateCancellationAllocations redemption allocations lots) ;;;
  let noSlot := Internal "wine ticket delivery slot reservation is inconsistent" in
  slot <- or_error noSlot (lockSlot (Red_DeliveryTimeSlotID redemption)) ;;
  fail_if (Slot_ReservedOrders slot =? 0) noSlot ;;;
  let noStock := Internal "wine ticket physical stock relation is inconsistent" in
  stock <- or_error noStock (lockStock (Red_ShopProductID redemption)) ;;
  fail_if (negb (Stock_ShopID stock =? Red_ShopID redemption) ||
           negb (Stock_ProductID stock =? Red_ProductID redemption)) noStock ;;;
  ret {| CP_CustomerID := customerID; CP_Now := now; CP_Delivery := delivery;
         CP_Order := orderRow; CP_Redemption := redemption; CP_Allocations := allocations;
         CP_Lots := lots; CP_Slot := slot; CP_Stock := stock |}.

Definition cancelSource : string := "customer".
Definition cancelReason : string := "wine_ticket_redemption_cancelled".

(** The bottles, the place and the stock are given back. *)
Definition give_back (ctx : Context) (p : CancelPlan) : G unit :=
  let r := CP_Redemption p in
  restoreCancellationLots ctx r (CP_Allocations p) (CP_Lots p) (CP_Now p) ;;;
  slotReleased <- releaseSlot (CP_Slot p) (CP_Now p) ;;
  fail_if (negb slotReleased) (concurrentModification "delivery slot changed concurrently") ;;;
  restoreRedemptionStock (CP_Stock p) (Red_Quantity r) (Red_ID r) (CP_Now p).

(** The order, the redemption and the delivery are cancelled. *)
Definition close_redemption (ctx : Context) (d : RedemptionDispatchCoordinator) (p : CancelPlan)
    : G unit :=
  orderCancelled <- cancelOrder (CP_Order p) cancelSource cancelReason (CP_Now p) ;;
  fail_if (negb orderCancelled) (concurrentModification "redemption order changed concurrently") ;;;
  redemptionCancelled <- cancelRedemption (CP_Redemption p) (CP_Now p) ;;
  fail_if (negb redemptionCancelled) (concurrentModification "redemption changed concurrently") ;;;
  ApplyCancellationTx d ctx
    {| DCancel_State := CP_Delivery p; DCancel_CustomerID := CP_CustomerID p;
       DCancel_ReasonCode := cancelReason; DCancel_CancelledAt := CP_Now p |}.

Definition announce_cancelled (ctx : Context) (p : CancelPlan) : G unit :=
  let r := CP_Redemption p in
  logID <- next_id ;;
  createOrderLog {|
    OLog_ID := logID; OLog_OrderID := Order_ID (CP_Order p); OLog_ActorType := "customer";
    OLog_ActorID := CP_CustomerID p; OLog_Action := "wine_ticket_redemption_cancel";
    OLog_FromStatus := Some (Order_Status (CP_Order p)); OLog_ToStatus := Some "cancelled";
    OLog_RequestID := RequestIDPtr ctx |} ;;;
  createCustomerAudit ctx (CP_CustomerID p) "wine_ticket.redemption.cancel"
    "wine_ticket_redemption" (Red_ID r)
    (JMap [("redemption_no", JStr (Red_RedemptionNo r)); ("status", JStr (Red_Status r));
           ("version", JNum (Red_Version r))])
    (JMap [("redemption_no", JStr (Red_RedemptionNo r));
           ("status", JStr RedemptionStatusCancelled);
           ("version", JNum (uint_add (Red_Version r) 1));
           ("quantity", JNum (Red_Quantity r))]) ;;;
  createWineTicketOutbox ctx "wine_ticket.redemption_cancelled" "wine_ticket_redemption" (Red_ID r)
    (JMap [("redemption_no", JStr (Red_RedemptionNo r));
           ("order_id", JStr (IDString (Order_ID (CP_Order p))));
           ("customer_id", JStr (IDString (CP_CustomerID p)));
           ("quantity", JNum (Red_Quantity r));
           ("restored_at", JStr (FormatShanghai (CP_Now p)))]).

(** The response of the redemption, stored for the key. *)
Definition respond (customerID : Z) (path key : string) (redemptionID : Z) : G RedemptionDTO :=
  response <- redemptionDTOByID customerID redemptionID ;;
  Succeed "customer" customerID path key response ;;;
  ret response.

(** [Cancel] in its transaction, once the key is claimed. *)
Definition cancel_claimed (ctx : Context) (customerID : Z) (path key : string)
    (anchor : Redemption) (expectedVersion : Z) : G RedemptionDTO :=
  d <- configured ;;
  now <- nowShanghai ;;
  requireActiveCustomer customerID ;;;
  locked <- lock_cancellation ctx d customerID anchor ;;
  let '(delivery, orderRow, redemption) := locked in
  if String.eqb (Red_Status redemption) RedemptionStatusCancelled then
    respond customerID path key (Red_ID redemption)
  else
    fail_if (negb (Red_Version redemption =? expectedVersion))
      (concurrentModification "redemption changed; refresh and retry") ;;;
    p <- plan_cancellation customerID now delivery orderRow redemption ;;
    give_back ctx p ;;;
    close_redemption ctx d p ;;;
    announce_cancelled ctx p ;;;
    respond customerID path key (Red_ID redemption).

Definition Cancel (ctx : Context) (claims : option Claims) (method path key redemptionNo0 : string)
    (req : RedemptionCancelRequest) : G RedemptionDTO :=
  customerID <- lift (customerIDWithPermission claims "wine_ticket_redemption:cancel") ;;
  let redemptionNo := trim_space redemptionNo0 in
  lift (redemption_validateBusinessNo redemptionNo "redemption_no") ;;;
  fail_if (RCancel_ExpectedVersion req =? 0)
    (InvalidArgument "VALIDATION_FAILED" "expected_version must be at least 1") ;;;
  lift (validateRedemptionIdempotencyKey key) ;;;
  let requestHash := ResourceRequestHash "wine_ticket.redemption.cancel" (JStr redemptionNo)
                       (RedemptionCancelRequest_json req) in
  replay_or customerID path key requestHash (
    anchor <- or_missing redemptionNotFound (cancellationAnchor customerID redemptionNo) ;;
    mapped (transaction (
      started <- claimIdempotency customerID method path key requestHash ;;
      if negb started then cachedResponse customerID path key
      else cancel_claimed ctx customerID path key anchor (RCancel_ExpectedVersion req)))).
End Writing.
