(* ===== verification/RedemptionSettlement.v ===== *)
(** * Fulfilment settlement: [wineticket/redemption/settlement.go]

    Dispatch and delivery tell the wine tickets, inside their own transaction,
    that a rider was assigned, picked the bottles up, or delivered them.  The
    redemption follows: its status moves forward and, on delivery, its
    allocations are consumed.  The bottles left the lots when the redemption
    was created, so no balance changes. *)

From S2P Require Import Prelude GoInt GoString GoTime Json Problem RequestCtx.
From S2P Require Import CoreModel AssetService GiftModel RedemptionModel AssetLaws.
From S2P Require Import Database FulfilmentTables GiftDto GiftRepository GiftService RedemptionDto.
From S2P Require Import RedemptionRepository ScheduledDispatch RedemptionService.
From Stdlib Require Import String.
#[local] Open Scope string_scope. #[local] Open Scope list_scope. #[local] Open Scope Z_scope.
#[local] Open Scope go_scope.

(** [delivery/fulfillment_settlement.go] *)
Definition FulfillmentAssigned : string := "assigned".
Definition FulfillmentPickedUp : string := "picked_up".
Definition FulfillmentDelivered : string := "delivered".

Record fulfillmentFact := {
  Fact_Action : string;
  Fact_DeliveryID : Z;
  Fact_DeliveryOrderID : Z;
  Fact_OrderID : Z;
  Fact_OrderType : string;
  Fact_SettlementMode : string;
  Fact_PayStatus : string;
  Fact_PaidAmount : Z;
  Fact_OccurredAt : time;
  Fact_ActorType : string;
  Fact_ActorID : Z;
}.

Definition fulfillmentInvalid (detail : string) : error :=
  Conflict "WT_REDEMPTION_FULFILLMENT_INVALID" detail.

Definition fact_linked (fact : fulfillmentFact) : bool :=
  negb (Fact_OrderID fact =? 0) && negb (Fact_DeliveryID fact =? 0) &&
  (Fact_DeliveryOrderID fact =? Fact_OrderID fact) &&
  String.eqb (Fact_OrderType fact) redemptionOrderType &&
  String.eqb (Fact_SettlementMode fact) redemptionSettlementMode &&
  String.eqb (Fact_PayStatus fact) redemptionPayStatus && (Fact_PaidAmount fact =? 0).

(** [requireAllocationStatus] *)
Definition requireAllocationStatus (allocations : list RedemptionAllocation) (status : string)
    : res unit :=
  if forallb (fun a => String.eqb (RA_Status a) status) allocations then Ok tt
  else Err (fulfillmentInvalid "wine-ticket redemption allocation state changed").

Definition fulfillmentStateConflict (current action : string) : error :=
  fulfillmentInvalid ("wine-ticket redemption cannot apply " +:+ action +:+ " from " +:+ current).

Definition evidence_holds (redemption : Redemption) (lotByID : gmap Z Lot)
    (allocation : RedemptionAllocation) : bool :=
  match lotByID !! RA_LotID allocation with
  | None => false
  | Some lot =>
      (Lot_OwnerCustomerID lot =? Red_CustomerID redemption) &&
      (Lot_ProductID lot =? Red_ProductID redemption) &&
      time_equal (Lot_ExpiresAt lot) (RA_SourceExpiresAt allocation)
  end.

Definition validateFulfillmentEvidence (redemption : Redemption)
    (allocations : list RedemptionAllocation) (lots : list Lot) : res unit :=
  if negb (forallb (evidence_holds redemption (giftLotMap lots)) allocations)
  then Err (Internal "wine-ticket redemption allocation evidence changed")
  else if negb (fold_left (fun total a => uint_add total (RA_Quantity a)) allocations 0 =?
                Red_Quantity redemption)
  then Err (Internal "wine-ticket redemption allocation quantity mismatch")
  else Ok tt.

Definition lockFulfillmentRedemption (orderID : Z) : G Redemption :=
  or_missing (fulfillmentInvalid "wine-ticket redemption link is missing")
    (lockRedemptionByOrderID orderID).

Definition lockFulfillmentAllocations (redemptionID : Z) : G (list RedemptionAllocation) :=
  lockAllocations redemptionID.

Definition lockFulfillmentLots (allocations : list RedemptionAllocation) : G (list Lot) :=
  lockLots (sorted_lot_ids allocations).

(** The verdict of the [switch] on the action: the status to move to, nothing
    to do, or an error. *)
Definition target_status (current action : string) (allocations : list RedemptionAllocation)
    : res (option string) :=
  let conflict := Err (fulfillmentStateConflict current action) in
  let held target :=
    match requireAllocationStatus allocations RedemptionAllocationStatusHeld with
    | Ok _ => Ok (Some target)
    | Err e => Err e
    end in
  if String.eqb action FulfillmentAssigned then
    if String.eqb current RedemptionStatusAssigned then Ok None
    else if negb (String.eqb current RedemptionStatusScheduled) then conflict
    else held RedemptionStatusAssigned
  else if String.eqb action FulfillmentPickedUp then
    if String.eqb current RedemptionStatusPickedUp then Ok None
    else if negb (String.eqb current RedemptionStatusAssigned) &&
            negb (String.eqb current RedemptionStatusScheduled) then conflict
    else held RedemptionStatusPickedUp
  else if String.eqb action FulfillmentDelivered then
    if String.eqb current RedemptionStatusDelivered then
      match requireAllocationStatus allocations RedemptionAllocationStatusConsumed with
      | Ok _ => Ok None
      | Err e => Err e
      end
    else if negb (String.eqb current RedemptionStatusPickedUp) then conflict
    else held RedemptionStatusDelivered
  else Err (Internal "unsupported wine-ticket fulfillment action").

Definition writeFulfillmentAuditAndOutbox (ctx : Context) (fact : fulfillmentFact)
    (redemption : Redemption) (beforeStatus afterStatus : string) (now : time) : G unit :=
  let eventType := "wine_ticket.redemption_" +:+ afterStatus in
  id <- next_id ;;
  createAudit {|
    Audit_ID := id; Audit_EventID := None;
    Audit_ActorType := if String.eqb (Fact_ActorType fact) "" then "system"
                       else Fact_ActorType fact;
    Audit_ActorID := Fact_ActorID fact; Audit_AccountID := None; Audit_Action := eventType;
    Audit_ResourceType := "wine_ticket_redemption"; Audit_ResourceID := Red_ID redemption;
    Audit_OrderID := Some (Red_OrderID redemption);
    Audit_DeliveryID := Some (Fact_DeliveryID fact);
    Audit_BeforeData := JSONData (JMap [("status", JStr beforeStatus)]);
    Audit_AfterData := JSONData (JMap
      [("status", JStr afterStatus);
       ("delivery_order_id", JStr (IDString (Fact_DeliveryID fact)))]);
    Audit_Result := "success"; Audit_BeforeStatus := Some beforeStatus;
    Audit_AfterStatus := Some afterStatus; Audit_Version := Some (uint_add (Red_Version redemption) 1);
    Audit_RequestID := RequestIDPtr ctx; Audit_IPHash := IPHashPtr ctx;
    Audit_UserAgent := UserAgentPtr ctx; Audit_CreatedAt := None |} ;;;
  wine_ticket_event ctx eventType "wine_ticket_redemption" (Red_ID redemption)
    (JMap [("redemption_id", JStr (IDString (Red_ID redemption)));
           ("redemption_no", JStr (Red_RedemptionNo redemption));
           ("order_id", JStr (IDString (Red_OrderID redemption)));
           ("delivery_order_id", JStr (IDString (Fact_DeliveryID fact)));
           ("status", JStr afterStatus)]) (ret now).

Definition changedState (detail : string) : error := fulfillmentInvalid detail.

(** The writes of [apply] once the target is known. *)
Definition advance (ctx : Context) (fact : fulfillmentFact) (redemption : Redemption)
    (allocations : list RedemptionAllocation) (target : string) (now : time) : G unit :=
  (if String.eqb target RedemptionStatusDelivered then
     affected <- consumeHeldAllocations (Red_ID redemption) now ;;
     fail_if (negb (affected =? Z.of_nat (List.length allocations)))
       (changedState "wine-ticket redemption allocation state changed")
   else ret tt) ;;;
  affected <- transitionRedemption (Red_ID redemption) (Red_Status redemption) target now ;;
  fail_if (negb (affected =? 1)) (changedState "wine-ticket redemption state changed") ;;;
  writeFulfillmentAuditAndOutbox ctx fact redemption (Red_Status redemption) target now.

(** [apply] of a configured handler *)
Definition apply (ctx : Context) (fact : fulfillmentFact) : G unit :=
  fail_if (negb (fact_linked fact))
    (fulfillmentInvalid "delivery is not linked to a zero-cash wine-ticket redemption") ;;;
  redemption <- lockFulfillmentRedemption (Fact_OrderID fact) ;;
  allocations <- lockFulfillmentAllocations (Red_ID redemption) ;;
  fail_if (bool_decide (allocations = []))
    (Internal "wine-ticket redemption allocations are missing") ;;;
  lots <- lockFulfillmentLots allocations ;;
  lift (validateFulfillmentEvidence redemption allocations lots) ;;;
  now <- (let now := truncate_ms (Fact_OccurredAt fact) in
          if is_zero now then nowShanghai else ret now) ;;
  target <- lift (target_status (Red_Status redemption) (Fact_Action fact) allocations) ;;
  match target with
  | None => ret tt
  | Some target => advance ctx fact redemption allocations target now
  end.

(** The facts of the two modules that call the handler. *)
Record FulfillmentSettlementFact := {
  FS_Action : string;
  FS_Delivery : DeliveryOrder;
  FS_Order : Order;
  FS_OccurredAt : time;
  FS_ActorType : string;
  FS_ActorID : Z;
}.

Definition ApplyFulfillment (ctx : Context) (fact : FulfillmentSettlementFact) : G unit :=
  apply ctx {|
    Fact_Action := FS_Action fact; Fact_DeliveryID := Del_ID (FS_Delivery fact);
    Fact_DeliveryOrderID := Del_OrderID (FS_Delivery fact);
    Fact_OrderID := Order_ID (FS_Order fact); Fact_OrderType := Order_OrderType (FS_Order fact);
    Fact_SettlementMode := Order_SettlementMode (FS_Order fact);
    Fact_PayStatus := Order_PayStatus (FS_Order fact);
    Fact_PaidAmount := Order_PaidAmount (FS_Order fact); Fact_OccurredAt := FS_OccurredAt fact;
    Fact_ActorType := FS_ActorType fact; Fact_ActorID := FS_ActorID fact |}.

Record AssignmentSettlementFact := {
  ASF_Delivery : DeliveryOrder;
  ASF_OrderID : Z;
  ASF_OrderType : string;
  ASF_SettlementMode : string;
  ASF_PayStatus : string;
  ASF_PaidAmount : Z;
  ASF_OccurredAt : time;
  ASF_ActorType : string;
  ASF_ActorID : Z;
}.

Definition ApplyAssignment (ctx : Context) (fact : AssignmentSettlementFact) : G unit :=
  apply ctx {|
    Fact_Action := FulfillmentAssigned; Fact_DeliveryID := Del_ID (ASF_Delivery fact);
    Fact_DeliveryOrderID := Del_OrderID (ASF_Delivery fact); Fact_OrderID := ASF_OrderID fact;
    Fact_OrderType := ASF_OrderType fact; Fact_SettlementMode := ASF_SettlementMode fact;
    Fact_PayStatus := ASF_PayStatus fact; Fact_PaidAmount := ASF_PaidAmount fact;
    Fact_OccurredAt := ASF_OccurredAt fact; Fact_ActorType := ASF_ActorType fact;
    Fact_ActorID := ASF_ActorID fact |}.
