(* ===== verification/PurchaseSettlement.v ===== *)
(** * What becomes of a purchase when its payment does

    [wineticket/purchase/payment_settlement.go]: the handler the payment
    service calls inside its transaction.  A payment that succeeded issues the
    lot of the purchase, once; one that comes too late for the bottles to be of
    use is paid back instead; one that ended frees what the purchase had
    reserved. *)

From S2P Require Import Prelude GoInt GoString GoTime Json Problem RequestCtx.
From S2P Require Import CoreModel AssetService GiftModel RedemptionModel PurchaseModel AssetLaws.
From S2P Require Import Database FulfilmentTables PurchaseTables AssetRepository GiftDto.
From S2P Require Import GiftRepository GiftService RedemptionDto PurchaseDto PurchaseRepository.
From S2P Require Import BusinessPayment ScheduledDispatch RedemptionService.
From Stdlib Require Import String.
#[local] Open Scope string_scope. #[local] Open Scope list_scope. #[local] Open Scope Z_scope.
#[local] Open Scope go_scope.

Record issuanceCompensationEligibilitySnapshot := {
  Comp_SchemaVersion : Z;
  Comp_PurchaseNo : string;
  Comp_PaymentID : string;
  Comp_PaymentNo : string;
  Comp_ProviderStatus : string;
  Comp_ProviderTradeNo : option string;
  Comp_ProviderPaidAt : string;
  Comp_SettlementErrorCode : string;
  Comp_SettlementAttempts : Z;
  Comp_LotCount : Z;
  Comp_AllocationCount : Z;
  Comp_IssueTransactionCount : Z;
}.

Definition eligibility_json (e : issuanceCompensationEligibilitySnapshot) : json :=
  JObj ([("schema_version", JNum (Comp_SchemaVersion e));
         ("purchase_no", JStr (Comp_PurchaseNo e)); ("payment_id", JStr (Comp_PaymentID e));
         ("payment_no", JStr (Comp_PaymentNo e));
         ("provider_status", JStr (Comp_ProviderStatus e))] ++
        omit_empty "provider_trade_no" JStr (Comp_ProviderTradeNo e) ++
        [("provider_paid_at", JStr (Comp_ProviderPaidAt e));
         ("settlement_error_code", JStr (Comp_SettlementErrorCode e));
         ("settlement_attempts", JNum (Comp_SettlementAttempts e));
         ("lot_count", JNum (Comp_LotCount e));
         ("allocation_count", JNum (Comp_AllocationCount e));
         ("issue_transaction_count", JNum (Comp_IssueTransactionCount e))]).

Definition purchaseIssueActionKey (purchaseID lotID : Z) : string :=
  "purchase_issue:" +:+ format_uint purchaseID +:+ ":" +:+ format_uint lotID.

(** [AddDate(0, 0, days)] in a zone without daylight saving time. *)
Definition add_days (t : time) (days : Z) : time := t + i64 days * (24 * hour).

Definition validPurchaseIssueEvidence (purchase : Purchase) (lot : Lot) (entry : Transaction)
    (expectedOriginalExpiry : time) : bool :=
  (Lot_OwnerCustomerID lot =? Pur_CustomerID purchase) &&
  (Lot_PurchaseID lot =? Pur_ID purchase) &&
  String.eqb (Lot_SourceType lot) LotSourcePurchase &&
  bool_decide (Lot_SourceLotID lot = None) && bool_decide (Lot_SourceGiftID lot = None) &&
  (Lot_IssuerMerchantID lot =? Pur_IssuerMerchantID purchase) &&
  (Lot_ProductID lot =? Pur_ProductID purchase) &&
  String.eqb (Lot_RedeemCityCode lot) (Pur_RedeemCityCode purchase) &&
  (Lot_TotalQuantity lot =? Pur_TotalBottleQuantity purchase) &&
  time_equal (Lot_OriginalExpiresAt lot) expectedOriginalExpiry &&
  (Tx_LotID entry =? Lot_ID lot) &&
  (Tx_OwnerCustomerID entry =? Pur_CustomerID purchase) &&
  String.eqb (Tx_TransactionType entry) TransactionTypePurchaseIssue &&
  (Tx_QuantityDelta entry =? i64 (Pur_TotalBottleQuantity purchase)) &&
  (Tx_BeforeAvailableQuantity entry =? 0) &&
  (Tx_AfterAvailableQuantity entry =? Pur_TotalBottleQuantity purchase) &&
  String.eqb (Tx_BizType entry) "purchase" && (Tx_BizID entry =? Pur_ID purchase) &&
  String.eqb (Tx_ActionKey entry) (purchaseIssueActionKey (Pur_ID purchase) (Lot_ID lot)).

Definition createSettlementAudit (ctx : Context) (action : string) (purchaseID : Z)
    (fromStatus toStatus : string) (after : json) : G unit :=
  id <- next_id ;;
  createAudit {|
    Audit_ID := id; Audit_EventID := None; Audit_ActorType := "system"; Audit_ActorID := 0;
    Audit_AccountID := None; Audit_Action := action;
    Audit_ResourceType := "wine_ticket_purchase"; Audit_ResourceID := purchaseID;
    Audit_OrderID := None; Audit_DeliveryID := None; Audit_BeforeData := JNull;
    Audit_AfterData := JSONData after; Audit_Result := "success";
    Audit_BeforeStatus := Some fromStatus; Audit_AfterStatus := Some toStatus;
    Audit_Version := Some 1; Audit_RequestID := RequestIDPtr ctx; Audit_IPHash := None;
    Audit_UserAgent := None; Audit_CreatedAt := None |}.

(** ** [LockBusiness] *)

Definition purchaseNotFound : error :=
  NotFound "WT_PURCHASE_NOT_FOUND" "wine ticket purchase not found".

Definition purchase_LockBusiness (purchaseID : Z) : G unit :=
  purchase <- or_missing purchaseNotFound (LockPurchaseByID purchaseID) ;;
  snapshot <- lift (parsePurchaseSnapshot (Pur_PackageSnapshot purchase)) ;;
  or_missing (Internal "wine ticket purchase quota is missing")
    (LockPurchaseQuota (Pur_CustomerID purchase) (Snap_PackageCode snapshot)) ;;;
  ret tt.

Definition lockedSettlementRows (fact : PaymentSettlementFact)
    : G (Purchase * PurchaseQuota * purchasePackageSnapshot) :=
  fail_if (negb (String.eqb (PFact_BizType fact) PurchasePaymentBusiness) ||
           (PFact_BizID fact =? 0))
    (Internal "wine ticket payment business link is invalid") ;;;
  purchase <- LockPurchaseByID (PFact_BizID fact) ;;
  fail_if (negb (Pur_PaymentID purchase =? PFact_PaymentID fact) ||
           negb (Pur_CustomerID purchase =? PFact_CustomerID fact) ||
           negb (Pur_PayableAmount purchase =? PFact_Amount fact) ||
           negb (String.eqb (Pur_Currency purchase) (PFact_Currency fact)))
    (Conflict "PAYMENT_PROVIDER_DATA_MISMATCH" "payment fact does not match wine ticket purchase") ;;;
  snapshot <- lift (parsePurchaseSnapshot (Pur_PackageSnapshot purchase)) ;;
  quota <- LockPurchaseQuota (Pur_CustomerID purchase) (Snap_PackageCode snapshot) ;;
  ret (purchase, quota, snapshot).

(** ** [ApplySuccess] *)

Definition open_purchase_statuses : list string :=
  [PurchaseStatusPendingPayment; PurchaseStatusPaymentUnknown; PurchaseStatusSettlementException].

Definition verifyIssuedPurchase (purchase : Purchase) : G unit :=
  lot <- or_error (Internal "issued wine ticket purchase has no lot")
           (PurchaseLot (Pur_ID purchase)) ;;
  entry <- or_error (Internal "issued wine ticket purchase has no issuance transaction")
             (transactionByActionKey (purchaseIssueActionKey (Pur_ID purchase) (Lot_ID lot))) ;;
  match parsePurchaseSnapshot (Pur_PackageSnapshot purchase), Pur_PaidAt purchase with
  | Ok snapshot, Some paidAt =>
      fail_if (negb (validPurchaseIssueEvidence purchase lot entry
                       (add_days (truncate_ms paidAt) (Snap_ValidityDays snapshot))))
        (Internal "issued wine ticket purchase facts are inconsistent")
  | _, _ => throw (Internal "issued wine ticket purchase lineage is incomplete")
  end.

(** The lot of a purchase about to be issued. *)
Definition purchase_lot (purchase : Purchase) (lotID : Z) (expiresAt now : time) : Lot := {|
  Lot_ID := lotID; Lot_LotNo := "WTL" +:+ IDString lotID;
  Lot_OwnerCustomerID := Pur_CustomerID purchase; Lot_PurchaseID := Pur_ID purchase;
  Lot_SourceType := LotSourcePurchase; Lot_SourceLotID := None; Lot_SourceGiftID := None;
  Lot_IssuerMerchantID := Pur_IssuerMerchantID purchase; Lot_ProductID := Pur_ProductID purchase;
  Lot_RedeemCityCode := Pur_RedeemCityCode purchase;
  Lot_TotalQuantity := Pur_TotalBottleQuantity purchase;
  Lot_AvailableQuantity := Pur_TotalBottleQuantity purchase; Lot_OriginalExpiresAt := expiresAt;
  Lot_ExpiresAt := expiresAt; Lot_ExpiryChangedAt := now; Lot_RenewalCount := 0;
  Lot_EverUsed := false; Lot_Status := LotStatusActive; Lot_Version := 1; Lot_CreatedAt := now;
  Lot_UpdatedAt := now |}.

Definition purchase_assets : AssetService World := NewAssetService time_now next_id.

Definition issue_command (purchase : Purchase) (snapshot : purchasePackageSnapshot) (lot : Lot)
    (paidAt now : time) : IssueCommand := {|
  Issue_Lot := lot; Issue_TransactionType := TransactionTypePurchaseIssue;
  Issue_BizType := "purchase"; Issue_BizID := Pur_ID purchase;
  Issue_ActionKey := purchaseIssueActionKey (Pur_ID purchase) (Lot_ID lot);
  Issue_Metadata := JMap [("purchase_no", JStr (Pur_PurchaseNo purchase));
                          ("package_no", JStr (Snap_PackageNo snapshot));
                          ("provider_paid_at", JStr (FormatShanghai paidAt))];
  Issue_OccurredAt := now |}.

(** The lot of the purchase: issued now, or found as it must have been left. *)
Definition issue_purchase_lot (ctx : Context) (purchase : Purchase)
    (snapshot : purchasePackageSnapshot) (paidAt expiresAt now : time) : G Lot :=
  found <- attempt (PurchaseLot (Pur_ID purchase)) ;;
  match found with
  | Err e =>
      fail_if (negb (is_record_not_found e)) e ;;;
      lotID <- next_id ;;
      mutation <- Issue purchase_assets ctx (Some NewTransactionAssetRepository)
                    (issue_command purchase snapshot (purchase_lot purchase lotID expiresAt now)
                       paidAt now) ;;
      ret (Mutation_Lot mutation)
  | Ok lot =>
      entry <- or_error
                 (Internal "wine ticket lot exists without its immutable issuance transaction")
                 (transactionByActionKey (purchaseIssueActionKey (Pur_ID purchase) (Lot_ID lot))) ;;
      fail_if (negb (validPurchaseIssueEvidence purchase lot entry expiresAt) ||
               negb (Lot_AvailableQuantity lot =? Pur_TotalBottleQuantity purchase) ||
               negb (time_equal (Lot_ExpiresAt lot) expiresAt))
        (Internal "existing wine ticket issuance fact is inconsistent") ;;;
      ret lot
  end.

(** The two checks before a reservation is consumed. *)
Definition check_reservation (purchase : Purchase) (quota : PurchaseQuota) : res unit :=
  if Quota_ReservedQuantity quota <? Pur_PackageQuantity purchase
  then Err (Internal "wine ticket purchase quota reservation is inconsistent")
  else if max_uint - Quota_ConsumedQuantity quota <? Pur_PackageQuantity purchase
  then Err (Internal "wine ticket purchase quota consumption overflow")
  else Ok tt.

Definition consume_reservation (purchase : Purchase) (quota : PurchaseQuota) (now : time) : G unit :=
  UpdatePurchaseQuota (Quota_ID quota)
    (quota_with (uint_sub (Quota_ReservedQuantity quota) (Pur_PackageQuantity purchase))
       (uint_add (Quota_ConsumedQuantity quota) (Pur_PackageQuantity purchase)) now).

Definition release_reservation (purchase : Purchase) (quota : PurchaseQuota) (now : time) : G unit :=
  UpdatePurchaseQuota (Quota_ID quota)
    (quota_reserved (uint_sub (Quota_ReservedQuantity quota) (Pur_PackageQuantity purchase)) now).

(** [createIssuanceCompensationTx]: the two rows of a refund. *)
Definition compensation_refund (purchase : Purchase) (fact : PaymentSettlementFact)
    (eligibility : issuanceCompensationEligibilitySnapshot) (businessID commonID : Z) (now : time)
    : issuanceCompensationRefund := {|
  WTR_ID := businessID; WTR_WineTicketRefundNo := "WTRF" +:+ IDString businessID;
  WTR_PurchaseID := Pur_ID purchase; WTR_CustomerID := Pur_CustomerID purchase;
  WTR_CurrentRefundID := commonID; WTR_RefundKind := RefundKindIssueCompensation;
  WTR_Amount := PFact_Amount fact; WTR_Currency := PFact_Currency fact;
  WTR_ReasonCode := "system_issuance_failed";
  WTR_ReasonText := Some "支付成功但酒票已无法安全发放，系统自动原路退款";
  WTR_EligibilitySnapshot := eligibility_json eligibility; WTR_Status := RefundStatusHolding;
  WTR_Version := 1; WTR_RequestedAt := now; WTR_SucceededAt := None; WTR_ClosedAt := None;
  WTR_CreatedAt := now; WTR_UpdatedAt := now |}.

Definition compensation_payment (fact : PaymentSettlementFact) (businessID commonID : Z)
    (now : time) : commonRefundRow := {|
  Refund_ID := commonID; Refund_AfterSaleID := None; Refund_OrderID := None;
  Refund_PaymentID := PFact_PaymentID fact; Refund_ReplacesRefundID := None;
  Refund_RefundNo := "WTRFC" +:+ IDString commonID;
  Refund_BizType := Some WineTicketPurchaseRefundBusiness; Refund_BizID := Some businessID;
  Refund_Provider := if String.eqb (trim_space (PFact_Provider fact)) "" then "wechat"
                     else PFact_Provider fact;
  Refund_ProviderRefundID := None; Refund_Status := "creating";
  Refund_Currency := PFact_Currency fact; Refund_Reason := "酒票发放失败自动退款";
  Refund_NotifyURL := None; Refund_ProviderStatus := None; Refund_FailureCode := None;
  Refund_FailureDetail := None; Refund_Amount := PFact_Amount fact;
  Refund_TotalAmount := PFact_Amount fact; Refund_Attempts := 0; Refund_NextRetryAt := Some now;
  Refund_LockedUntil := None; Refund_LockedBy := None; Refund_RequestedAt := now;
  Refund_ProviderAcceptedAt := None; Refund_SucceededAt := None; Refund_FailedAt := None;
  Refund_Version := 1; Refund_CreatedAt := now; Refund_UpdatedAt := now; Refund_DeletedAt := None |}.

Definition compensation_eligibility (purchase : Purchase) (fact : PaymentSettlementFact)
    (paidAt : time) (reasonCode : string) (lotCount allocationCount issueCount : Z)
    : issuanceCompensationEligibilitySnapshot := {|
  Comp_SchemaVersion := 1; Comp_PurchaseNo := Pur_PurchaseNo purchase;
  Comp_PaymentID := IDString (PFact_PaymentID fact); Comp_PaymentNo := PFact_PaymentNo fact;
  Comp_ProviderStatus := PFact_ProviderStatus fact;
  Comp_ProviderTradeNo := PFact_ProviderTradeNo fact;
  Comp_ProviderPaidAt := FormatShanghai paidAt; Comp_SettlementErrorCode := reasonCode;
  Comp_SettlementAttempts := PFact_ReconcileAttempts fact; Comp_LotCount := lotCount;
  Comp_AllocationCount := allocationCount; Comp_IssueTransactionCount := issueCount |}.

Definition createIssuanceCompensationTx (ctx : Context) (purchase : Purchase)
    (quota : PurchaseQuota) (fact : PaymentSettlementFact) (paidAt now : time)
    (reasonCode : string) : G unit :=
  lift (check_reservation purchase quota) ;;;
  counts <- issuanceCompensationFactCounts (Pur_ID purchase) ;;
  let '(lotCount, allocationCount, issueCount, activeRefundCount) := counts in
  fail_if (negb (lotCount =? 0) || negb (allocationCount =? 0) || negb (issueCount =? 0))
    (Internal "paid wine ticket purchase has entitlement facts and cannot be auto-refunded") ;;;
  fail_if (negb (activeRefundCount =? 0))
    (Internal "wine ticket purchase already has an active refund") ;;;
  businessID <- next_id ;;
  commonID <- next_id ;;
  let eligibility := compensation_eligibility purchase fact paidAt reasonCode lotCount
                       allocationCount issueCount in
  let business := compensation_refund purchase fact eligibility businessID commonID now in
  createIssuanceCompensationRefund business (compensation_payment fact businessID commonID now) ;;;
  consume_reservation purchase quota now ;;;
  UpdatePurchase (Pur_ID purchase) (purchase_refunding (PFact_Amount fact) paidAt now) ;;;
  createSettlementAudit ctx "wine_ticket.purchase.issuance_compensation" (Pur_ID purchase)
    (Pur_Status purchase) PurchaseStatusRefundHolding (JMap
      [("purchase_no", JStr (Pur_PurchaseNo purchase));
       ("refund_no", JStr (WTR_WineTicketRefundNo business)); ("reason_code", JStr reasonCode);
       ("amount", JNum (PFact_Amount fact))]) ;;;
  createWineTicketOutbox ctx "wine_ticket.refund_created" "wine_ticket_refund" businessID (JMap
    [("refund_no", JStr (WTR_WineTicketRefundNo business));
     ("purchase_no", JStr (Pur_PurchaseNo purchase));
     ("customer_id", JStr (IDString (Pur_CustomerID purchase)));
     ("status", JStr RefundStatusHolding)]).

Definition issue_purchase (ctx : Context) (purchase : Purchase) (quota : PurchaseQuota)
    (snapshot : purchasePackageSnapshot) (fact : PaymentSettlementFact)
    (paidAt expiresAt now : time) : G unit :=
  lift (check_reservation purchase quota) ;;;
  lot <- issue_purchase_lot ctx purchase snapshot paidAt expiresAt now ;;
  consume_reservation purchase quota now ;;;
  UpdatePurchase (Pur_ID purchase) (purchase_issued (PFact_Amount fact) paidAt now) ;;;
  createSettlementAudit ctx "wine_ticket.purchase.issue" (Pur_ID purchase) (Pur_Status purchase)
    PurchaseStatusIssued (JMap
      [("purchase_no", JStr (Pur_PurchaseNo purchase)); ("lot_no", JStr (Lot_LotNo lot));
       ("quantity", JNum (Pur_TotalBottleQuantity purchase))]) ;;;
  createWineTicketOutbox ctx "wine_ticket.purchase_issued" "wine_ticket_purchase"
    (Pur_ID purchase) (JMap
      [("purchase_no", JStr (Pur_PurchaseNo purchase)); ("lot_no", JStr (Lot_LotNo lot));
       ("customer_id", JStr (IDString (Pur_CustomerID purchase)));
       ("total_bottle_quantity", JNum (Pur_TotalBottleQuantity purchase));
       ("expires_at", JStr (FormatShanghai expiresAt))]).

Definition purchase_ApplySuccess (ctx : Context) (fact : PaymentSettlementFact) : G unit :=
  locked <- lockedSettlementRows fact ;;
  let '(purchase, quota, snapshot) := locked in
  if String.eqb (Pur_Status purchase) PurchaseStatusIssued then verifyIssuedPurchase purchase
  else
    fail_if (negb (one_of open_purchase_statuses (Pur_Status purchase)))
      (Conflict "WT_CONCURRENT_MODIFICATION"
         "wine ticket purchase cannot accept a successful payment") ;;;
    match PFact_PaidAt fact with
    | None => throw (Internal "provider paid_at is required for wine ticket issuance")
    | Some providerPaidAt =>
        let paidAt := truncate_ms providerPaidAt in
        let expiresAt := truncate_ms (add_days paidAt (Snap_ValidityDays snapshot)) in
        now <- nowShanghai ;;
        if negb (after expiresAt now)
        then createIssuanceCompensationTx ctx purchase quota fact paidAt now
               "validity_elapsed_before_issuance"
        else issue_purchase ctx purchase quota snapshot fact paidAt expiresAt now
    end.

(** ** [ApplyTerminal] and [ApplyException] *)

Definition purchase_ApplyTerminal (ctx : Context) (fact : PaymentSettlementFact) : G unit :=
  locked <- lockedSettlementRows fact ;;
  let '(purchase, quota, _) := locked in
  if negb (one_of open_purchase_statuses (Pur_Status purchase)) then ret tt
  else
    fail_if (Quota_ReservedQuantity quota <? Pur_PackageQuantity purchase)
      (Internal "wine ticket purchase quota reservation is inconsistent") ;;;
    now <- nowShanghai ;;
    release_reservation purchase quota now ;;;
    UpdatePurchase (Pur_ID purchase) (purchase_moved PurchaseStatusClosed now) ;;;
    createSettlementAudit ctx "wine_ticket.purchase.close" (Pur_ID purchase) (Pur_Status purchase)
      PurchaseStatusClosed (JMap
        [("purchase_no", JStr (Pur_PurchaseNo purchase));
         ("provider_status", JStr (PFact_ProviderStatus fact))]).

Definition settled_purchase_statuses : list string :=
  [PurchaseStatusIssued; PurchaseStatusClosed; PurchaseStatusRefundHolding;
   PurchaseStatusRefundException; PurchaseStatusRefunded; PurchaseStatusSettlementException].

Definition purchase_ApplyException (ctx : Context) (fact : PaymentSettlementFact)
    (reason : string) : G unit :=
  locked <- lockedSettlementRows fact ;;
  let '(purchase, _, _) := locked in
  if one_of settled_purchase_statuses (Pur_Status purchase) then ret tt
  else
    fail_if (negb (one_of [PurchaseStatusPendingPayment; PurchaseStatusPaymentUnknown]
                     (Pur_Status purchase)))
      (Internal "wine ticket purchase has an invalid payment settlement state") ;;;
    now <- nowShanghai ;;
    UpdatePurchase (Pur_ID purchase) (purchase_moved PurchaseStatusSettlementException now) ;;;
    createSettlementAudit ctx "wine_ticket.purchase.settlement_exception" (Pur_ID purchase)
      (Pur_Status purchase) PurchaseStatusSettlementException (JMap
        [("purchase_no", JStr (Pur_PurchaseNo purchase)); ("reason_code", JStr reason);
         ("provider_status", JStr (PFact_ProviderStatus fact))]).

(** The handler of purchases. *)
Definition purchase_handler : PaymentSettlementHandler := {|
  BusinessType := PurchasePaymentBusiness;
  LockBusiness := fun _ => purchase_LockBusiness;
  ApplySuccess := purchase_ApplySuccess;
  ApplyTerminal := purchase_ApplyTerminal;
  ApplyException := purchase_ApplyException |}.
