(* ===== verification/PurchaseService.v ===== *)
(** * The purchase service: [wineticket/purchase/service.go]

    A customer buys a number of packages.  One transaction reserves her quota
    and writes the purchase and its payment; the payment is then submitted to
    the provider, and what became of the submission is reflected in the
    purchase.  A request that stopped half-way is taken up where it stopped. *)

From S2P Require Import Prelude GoInt GoString GoTime Json Problem RequestCtx Pagination.
From S2P Require Import CoreModel AssetService GiftModel RedemptionModel PurchaseModel AssetLaws.
From S2P Require Import Database FulfilmentTables PurchaseTables Idempotency GiftDto.
From S2P Require Import GiftRepository GiftService RedemptionDto PurchaseDto PurchaseRepository.
From S2P Require Import BusinessPayment ScheduledDispatch RedemptionService PurchaseSettlement.
From Stdlib Require Import String.
#[local] Open Scope string_scope. #[local] Open Scope list_scope. #[local] Open Scope Z_scope.
#[local] Open Scope go_scope.

(** ** Checks: [service.go] and [support.go] *)

(** Products of machine integers. *)
Definition int_mul (a b : Z) : Z := i64 (a * b).
Definition uint_mul (a b : Z) : Z := u64 (a * b).
Definition max_int64 : Z := i64_half - 1.

Definition invalid_argument (detail : string) : error := InvalidArgument "VALIDATION_FAILED" detail.
Definition packageNotAvailable (detail : string) : error :=
  Conflict "WT_PACKAGE_NOT_AVAILABLE" detail.

Definition validatePurchaseCreate (req : PurchaseCreateRequest) : res unit :=
  match redemption_validateBusinessNo (PReq_PackageNo req) "package_no" with
  | Err e => Err e
  | Ok _ =>
      if (PReq_Quantity req =? 0) || (MaxPurchaseQuantity <? PReq_Quantity req)
      then Err (invalid_argument "quantity must be between 1 and 10000")
      else Ok tt
  end.

Definition checkedPurchaseTotals (unitPrice bottlesPerPackage quantity : Z) : res (Z * Z) :=
  if (unitPrice <=? 0) || (MaxWineTicketAmount <? unitPrice) || (quantity =? 0) ||
     (bottlesPerPackage =? 0)
  then Err (invalid_argument "invalid purchase amount inputs")
  else if max_int64 / unitPrice <? i64 quantity
  then Err (unprocessable "WT_AMOUNT_LIMIT_EXCEEDED" "purchase amount exceeds the supported limit")
  else
    let amount := int_mul unitPrice (i64 quantity) in
    if MaxWineTicketAmount <? amount
    then Err (unprocessable "WT_AMOUNT_LIMIT_EXCEEDED" "purchase amount exceeds 100000000 cents")
    else if max_uint / bottlesPerPackage <? quantity
    then Err (invalid_argument "total bottle quantity overflow")
    else Ok (amount, uint_mul quantity bottlesPerPackage).

Definition validatePurchaseQuota (quota : PurchaseQuota) (limit : option Z) (requested : Z)
    : res unit :=
  if (max_uint - Quota_ReservedQuantity quota <? requested) ||
     (max_uint - Quota_ConsumedQuantity quota <?
      uint_add (Quota_ReservedQuantity quota) requested)
  then Err (packageNotAvailable "purchase quota is inconsistent")
  else match limit with
       | Some limit =>
           if limit <? uint_add (uint_add (Quota_ReservedQuantity quota)
                                   (Quota_ConsumedQuantity quota)) requested
           then Err (packageNotAvailable "per-customer package purchase limit exceeded")
           else Ok tt
       | None => Ok tt
       end.

Definition validatePurchaseEligibility (row : CustomerEligibility) : res unit :=
  let is_text o text := match o with Some s => String.eqb s text | None => false end in
  if (Elig_CustomerID row =? 0) || negb (String.eqb (Elig_CustomerStatus row) "active")
  then Err (Unauthorized "AUTH_UNAUTHORIZED" "customer account is unavailable")
  else if String.eqb (trim_space (Elig_Phone row)) ""
  then Err (Conflict "PHONE_BINDING_REQUIRED" "phone binding is required for payment")
  else if negb (Elig_IdentityCount row =? 1) || String.eqb (trim_space (Elig_OpenID row)) ""
  then Err (Conflict "WECHAT_IDENTITY_REQUIRED"
              "one active mini-program identity is required for payment")
  else if negb (is_text (Elig_RealnameStatus row) "verified") || is_set (Elig_RevokedAt row)
  then if 0 <? Elig_PendingVerificationCount row
       then Err (Conflict "IDENTITY_VERIFICATION_PENDING"
                   "identity verification is still processing")
       else Err (unprocessable "REALNAME_REQUIRED" "valid real-name verification required")
  else if negb (is_text (Elig_AdultResult row) "adult")
  then Err (unprocessable "UNDERAGE_RESTRICTED" "wine ticket purchase requires an adult customer")
  else Ok tt.

Definition validPurchaseStatus (status : string) : bool := one_of purchase_statuses status.

Definition validPackageType (value : string) : bool :=
  one_of [PackageTypeStockpile; PackageTypeCorporate; PackageTypeGift] value.

(** [url.ParseRequestURI]: the scheme and the host of what it accepts. *)
Definition UrlParser : Type := string -> option (string * string).

Definition validHTTPURL (parse : UrlParser) (raw : string) : bool :=
  match parse raw with
  | Some (scheme, host) => one_of ["https"; "http"] scheme && negb (String.eqb host "")
  | None => false
  end.

Definition in_range (low high z : Z) : bool := (low <=? z) && (z <=? high).

(** The fields of a package a purchase relies on. *)
Definition valid_package_fields (parse : UrlParser) (row : Package) : bool :=
  in_range 1 64 (str_len (Pkg_PackageCode row)) && businessNoPattern (Pkg_PackageCode row) &&
  in_range 1 32 (str_len (Pkg_RedeemCityCode row)) &&
  businessNoPattern (Pkg_RedeemCityCode row) &&
  in_range 1 128 (rune_count (trim_space (Pkg_Name row))) &&
  match Pkg_Subtitle row with Some s => rune_count s <=? 255 | None => true end &&
  match Pkg_CoverImageURL row with
  | Some u => (str_len u <=? 512) && validHTTPURL parse u
  | None => true
  end &&
  negb (Pkg_IssuerMerchantID row =? 0) && negb (Pkg_SettlementShopID row =? 0) &&
  negb (Pkg_SettlementShopProductID row =? 0) && negb (Pkg_ProductID row =? 0) &&
  validPackageType (Pkg_PackageType row) && negb (Pkg_PackageVersion row =? 0) &&
  in_range 1 10000 (Pkg_BottleQuantity row) &&
  in_range 1 MaxWineTicketAmount (Pkg_SalePriceAmount row) &&
  in_range 1 MaxPurchaseQuantity (Pkg_MinPurchaseQuantity row) &&
  in_range (Pkg_MinPurchaseQuantity row) MaxPurchaseQuantity (Pkg_MaxPurchaseQuantity row) &&
  in_range 1 3650 (Pkg_ValidityDays row) &&
  match Pkg_PerCustomerLimit row with
  | Some limit => in_range (Pkg_MinPurchaseQuantity row) MaxPurchaseQuantity limit
  | None => true
  end &&
  match Pkg_SaleStartAt row, Pkg_SaleEndAt row with
  | Some s, Some e => before s e
  | _, _ => true
  end.

Definition refund_policy_members : list string :=
  ["schema_version"; "enabled"; "window_hours"; "require_never_used"; "fee_amount"].
Definition renewal_policy_members : list string :=
  ["schema_version"; "enabled"; "extension_days"; "max_count"; "grace_days"; "fee_amount"].
Definition delivery_policy_members : list string :=
  ["schema_version"; "delivery_fee_included"; "dispatch_lead_minutes"].

Definition valid_refund_policy (raw : json) : bool :=
  match DecodePolicyJSON refund_policy_of_json refund_policy_members raw with
  | None => false
  | Some p => (Refund_SchemaVersion p =? 1) && in_range 0 8760 (Refund_WindowHours p) &&
              Refund_RequireNeverUsed p && (Refund_FeeAmount p =? 0)
  end.

Definition valid_renewal_policy (raw : json) : bool :=
  match DecodePolicyJSON renewal_policy_of_json renewal_policy_members raw with
  | None => false
  | Some p => (Renewal_SchemaVersion p =? 1) && in_range 1 3650 (Renewal_ExtensionDays p) &&
              in_range 0 100 (Renewal_MaxCount p) && (Renewal_GraceDays p =? 0) &&
              in_range 0 MaxWineTicketAmount (Renewal_FeeAmount p)
  end.

Definition valid_delivery_policy (raw : json) : bool :=
  match DecodePolicyJSON delivery_policy_of_json delivery_policy_members raw with
  | None => false
  | Some p => (Delivery_SchemaVersion p =? 1) && Delivery_DeliveryFeeIncluded p &&
              in_range 0 1440 (Delivery_DispatchLeadMinutes p)
  end.

Definition validatePackageRow (parse : UrlParser) (row : Package) : res unit :=
  if negb (valid_package_fields parse row)
  then Err (invalid_argument "wine ticket package configuration cannot be purchased")
  else if negb (valid_refund_policy (Pkg_RefundPolicy row))
  then Err (invalid_argument "wine ticket package refund policy is invalid")
  else if negb (valid_renewal_policy (Pkg_RenewalPolicy row))
  then Err (invalid_argument "wine ticket package renewal policy is invalid")
  else if negb (valid_delivery_policy (Pkg_DeliveryPolicy row))
  then Err (invalid_argument "wine ticket package delivery policy is invalid")
  else Ok tt.

Definition on_sale (pkg : Package) (now : time) : bool :=
  String.eqb (Pkg_Status pkg) PackageStatusPublished &&
  match Pkg_SaleStartAt pkg with Some s => negb (after s now) | None => true end &&
  match Pkg_SaleEndAt pkg with Some e => after e now | None => true end.

Definition validatePurchasablePackage (parse : UrlParser) (pkg : Package) (quantity : Z)
    (now : time) : res unit :=
  if negb (on_sale pkg now)
  then Err (packageNotAvailable "wine ticket package is not currently available")
  else if (quantity <? Pkg_MinPurchaseQuantity pkg) || (Pkg_MaxPurchaseQuantity pkg <? quantity)
  then Err (invalid_argument "quantity is outside the package purchase range")
  else match validatePackageRow parse pkg with
       | Ok _ => Ok tt
       | Err _ => Err (packageNotAvailable "wine ticket package configuration is invalid")
       end.

(** ** The settlement configuration of a package: [service_core.go] *)

Definition relation_matches (r : SettlementRelation) (row : Package) : bool :=
  (Settle_MerchantID r =? Pkg_IssuerMerchantID row) &&
  (Settle_ShopID r =? Pkg_SettlementShopID row) &&
  (Settle_ShopMerchantID r =? Pkg_IssuerMerchantID row) &&
  (Settle_ShopProductID r =? Pkg_SettlementShopProductID row) &&
  (Settle_ShopProductMerchant r =? Pkg_IssuerMerchantID row) &&
  (Settle_ShopProductShop r =? Pkg_SettlementShopID row) &&
  (Settle_ShopProductProduct r =? Pkg_ProductID row) && (Settle_ProductID r =? Pkg_ProductID row).

Definition relation_eligible (r : SettlementRelation) : bool :=
  String.eqb (Settle_MerchantStatus r) "active" &&
  String.eqb (Settle_MerchantReviewStatus r) "approved" &&
  String.eqb (Settle_ShopStatus r) "active" && String.eqb (Settle_ShopBusinessStatus r) "open" &&
  String.eqb (Settle_ShopProductStatus r) "on_sale" &&
  String.eqb (Settle_ProductStatus r) "on_sale" &&
  String.eqb (Settle_ProductCategoryStatus r) "active" && Settle_ProductAgeRestricted r.

Definition validateSettlementForPublish (row : Package) : G unit :=
  relation <- or_missing (packageNotAvailable
                "settlement merchant, shop, shop product, or product does not exist")
                (SettlementRelationOf row) ;;
  fail_if (negb (relation_matches relation row))
    (packageNotAvailable
       "settlement merchant, shop, shop product, and product relationship is invalid") ;;;
  fail_if (negb (relation_eligible relation))
    (packageNotAvailable "settlement configuration is not eligible for wine ticket purchase").

Definition packageProductSummary (productID : Z) : G ProductSummaryDTO :=
  row <- PackageProduct productID ;;
  ret {| PS_ProductID := IDString (Product_ID row); PS_Name := Product_Name row;
         PS_BrandName := Product_BrandName row; PS_Spec := Product_Spec row;
         PS_ImageURL := Product_ImageURL row |}.

(** ** Idempotency *)

Definition claimIdempotencyWithID (claimID : Z) (actorType : string) (actorID : Z)
    (method path key requestHash : string) : G bool :=
  now <- time_now ;;
  StartAt actorType actorID path key claimID method requestHash now.

Definition purchase_cachedResponse (actorType : string) (actorID : Z) (path key : string)
    : G PurchaseDTO :=
  found <- CachedResponse actorType actorID path key ;;
  match found with
  | Some dto => ret dto
  | None => throw idempotencyInProgress
  end.

Definition releaseCustomerIdempotencyOwned (claimID : Z) (actorType : string) (actorID : Z)
    (path key : string) : G unit :=
  attempt (transaction (FailOwned actorType actorID path key claimID)) ;;;
  ret tt.

(** A step after the claim: when it fails, the claim is released. *)
Definition or_release {A} (claimID : Z) (actorType : string) (actorID : Z) (path key : string)
    (m : G A) : G A :=
  r <- attempt m ;;
  match r with
  | Ok a => ret a
  | Err e => releaseCustomerIdempotencyOwned claimID actorType actorID path key ;;; throw e
  end.

(** ** Reading *)

Fixpoint record_dtos (rows : list PurchaseRecord) (facts : list LotFactRecord)
    : res (list PurchaseDTO) :=
  match rows with
  | [] => Ok []
  | row :: rows =>
      let own := List.filter (fun f => Lot_PurchaseID (Fact_Lot f) =? Pur_ID (Rec_Purchase row))
                   facts in
      match purchaseRecordDTO row own, record_dtos rows facts with
      | Ok item, Ok items => Ok (item :: items)
      | Err e, _ => Err e
      | _, Err e => Err e
      end
  end.

Definition purchaseDTOs (rows : list PurchaseRecord) : G (list PurchaseDTO) :=
  facts <- PurchaseLotFacts (map (fun r => Pur_ID (Rec_Purchase r)) rows) ;;
  lift (record_dtos rows facts).

Definition one_purchase (row : PurchaseRecord) : G PurchaseDTO :=
  items <- purchaseDTOs [row] ;;
  match items with
  | item :: _ => ret item
  | [] => throw (EMessage "runtime error: index out of range [0] with length 0")
  end.

Definition customerPurchaseDTOByID (customerID purchaseID : Z) : G PurchaseDTO :=
  row <- CustomerPurchaseByID customerID purchaseID ;;
  one_purchase row.

Definition ListPurchases (secret : string) (claims : option Claims) (query : Query)
    (status0 : string) : G (list PurchaseDTO * string) :=
  customerID <- lift (customerIDWithPermission claims "wine_ticket_purchase:list") ;;
  let status := trim_space status0 in
  fail_if (negb (String.eqb status "") && negb (validPurchaseStatus status))
    (invalid_argument "invalid purchase status") ;;;
  rows <- ListCustomerPurchases customerID query status ;;
  if Query_PageSize query <? Z.of_nat (List.length rows) then
    let page := firstn (Z.to_nat (Query_PageSize query)) rows in
    match last page with
    | Some row =>
        next <- NextPageTokenWithCursor secret query [IDString (Pur_ID (Rec_Purchase row))] ;;
        items <- purchaseDTOs page ;;
        ret (items, next)
    | None => throw (EMessage "runtime error: index out of range [-1]")
    end
  else
    items <- purchaseDTOs rows ;;
    ret (items, "").

Definition GetPurchase (claims : option Claims) (purchaseNo : string) : G PurchaseDTO :=
  customerID <- lift (customerIDWithPermission claims "wine_ticket_purchase:view") ;;
  lift (redemption_validateBusinessNo purchaseNo "purchase_no") ;;;
  row <- or_missing purchaseNotFound (CustomerPurchaseByNo customerID purchaseNo) ;;
  one_purchase row.

(** ** [CreatePurchase] *)

(** What the transaction hands to the submission. *)
Record PurchaseDraft := {
  Draft_PurchaseID : Z;
  Draft_OpenID : string;
  Draft_Description : string;
}.

Section Service.
Variables (parse_url : UrlParser) (wechatAppID secret : string).
Variable payments : option PaymentService.
Variable retail : Context -> Payment -> ProviderPaymentState -> string -> Z -> string ->
  G (Payment * option error).

Definition payment_service_missing : error :=
  EProblem (providerUnavailable "payment service is unavailable").

(** A purchase whose response was never stored is taken up. *)
Definition resume_purchase (customerID : Z) (existing : purchasePaymentDraft) : G PurchaseDraft :=
  snapshot <- lift (parsePurchaseSnapshot (Pur_PackageSnapshot (Draft_Purchase existing))) ;;
  openID <- (if String.eqb (Draft_PaymentState existing) "creating" then
               now <- nowShanghai ;;
               eligibility <- CustomerPurchaseEligibility customerID wechatAppID now ;;
               lift (validatePurchaseEligibility eligibility) ;;;
               ret (Elig_OpenID eligibility)
             else ret "") ;;
  ret {| Draft_PurchaseID := Pur_ID (Draft_Purchase existing); Draft_OpenID := openID;
         Draft_Description := "酒票-" +:+ Snap_PackageName snapshot |}.

Definition quota_seed (id customerID : Z) (packageCode : string) (now : time) : PurchaseQuota := {|
  Quota_ID := id; Quota_CustomerID := customerID; Quota_PackageCode := packageCode;
  Quota_ReservedQuantity := 0; Quota_ConsumedQuantity := 0; Quota_Version := 1;
  Quota_CreatedAt := now; Quota_UpdatedAt := now |}.

(** The quota of the customer, checked and reserved. *)
Definition reserve_quota (customerID : Z) (pkg : Package) (quantity : Z) (now : time) : G unit :=
  id <- next_id ;;
  EnsurePurchaseQuota (quota_seed id customerID (Pkg_PackageCode pkg) now) ;;;
  quota <- LockPurchaseQuota customerID (Pkg_PackageCode pkg) ;;
  lift (validatePurchaseQuota quota (Pkg_PerCustomerLimit pkg) quantity) ;;;
  UpdatePurchaseQuota (Quota_ID quota)
    (quota_reserved (uint_add (Quota_ReservedQuantity quota) quantity) now).

Definition package_snapshot (pkg : Package) (product : ProductSummaryDTO)
    : purchasePackageSnapshot := {|
  Snap_SchemaVersion := 1; Snap_PackageNo := Pkg_PackageNo pkg;
  Snap_PackageCode := Pkg_PackageCode pkg; Snap_PackageName := Pkg_Name pkg;
  Snap_PackageType := Pkg_PackageType pkg; Snap_PackageVersion := Pkg_PackageVersion pkg;
  Snap_ValidityDays := Pkg_ValidityDays pkg; Snap_BottleQuantity := Pkg_BottleQuantity pkg;
  Snap_UnitPriceAmount := Pkg_SalePriceAmount pkg;
  Snap_IssuerMerchantID := IDString (Pkg_IssuerMerchantID pkg);
  Snap_SettlementShopID := IDString (Pkg_SettlementShopID pkg);
  Snap_SettlementShopProductID := IDString (Pkg_SettlementShopProductID pkg);
  Snap_RedeemCityCode := Pkg_RedeemCityCode pkg; Snap_Product := product |}.

Definition new_purchase (purchaseID paymentID customerID : Z) (pkg : Package)
    (product : ProductSummaryDTO) (quantity payableAmount totalBottles : Z) (now : time)
    : Purchase := {|
  Pur_ID := purchaseID; Pur_PurchaseNo := "WTPU" +:+ IDString purchaseID;
  Pur_CustomerID := customerID; Pur_PackageID := Pkg_ID pkg;
  Pur_PackageVersion := Pkg_PackageVersion pkg; Pur_PaymentID := paymentID;
  Pur_IssuerMerchantID := Pkg_IssuerMerchantID pkg;
  Pur_SettlementShopID := Pkg_SettlementShopID pkg;
  Pur_SettlementShopProductID := Pkg_SettlementShopProductID pkg;
  Pur_ProductID := Pkg_ProductID pkg; Pur_RedeemCityCode := Pkg_RedeemCityCode pkg;
  Pur_PackageQuantity := quantity; Pur_BottleQuantityPerPackage := Pkg_BottleQuantity pkg;
  Pur_TotalBottleQuantity := totalBottles; Pur_UnitPriceAmount := Pkg_SalePriceAmount pkg;
  Pur_PayableAmount := payableAmount; Pur_PaidAmount := 0; Pur_Currency := "CNY";
  Pur_PackageSnapshot := purchasePackageSnapshot_json (package_snapshot pkg product);
  Pur_RefundPolicySnapshot := Pkg_RefundPolicy pkg;
  Pur_RenewalPolicySnapshot := Pkg_RenewalPolicy pkg; Pur_Status := PurchaseStatusPendingPayment;
  Pur_Version := 1; Pur_PaidAt := None; Pur_IssuedAt := None; Pur_RefundedAt := None;
  Pur_CreatedAt := now; Pur_UpdatedAt := now |}.

Definition purchase_payment_input (purchase : Purchase) (key : string) (now : time)
    : BusinessPaymentCreateInput := {|
  BPI_PaymentID := Pur_PaymentID purchase;
  BPI_PaymentNo := "WTPAY" +:+ IDString (Pur_PaymentID purchase);
  BPI_BizType := PurchasePaymentBusiness; BPI_BizID := Pur_ID purchase;
  BPI_CustomerID := Pur_CustomerID purchase; BPI_Channel := "wechat_miniapp";
  BPI_Provider := "wechat"; BPI_Amount := Pur_PayableAmount purchase; BPI_Currency := "CNY";
  BPI_ExpiresAt := add_duration now (30 * 60 * second); BPI_IdempotencyKey := key |}.

(** The package, bought [quantity] times at [now]: checked, with its totals. *)
Definition check_package (req : PurchaseCreateRequest) (now : time) : G (Package * Z * Z) :=
  pkg <- or_missing (NotFound "WT_PACKAGE_NOT_FOUND" "wine ticket package not found")
           (LockPackageForPurchase (PReq_PackageNo req)) ;;
  lift (validatePurchasablePackage parse_url pkg (PReq_Quantity req) now) ;;;
  validateSettlementForPublish pkg ;;;
  totals <- lift (checkedPurchaseTotals (Pkg_SalePriceAmount pkg) (Pkg_BottleQuantity pkg)
                    (PReq_Quantity req)) ;;
  ret (pkg, totals.1, totals.2).

(** The openid of a customer who may buy. *)
Definition check_customer (customerID : Z) (now : time) : G string :=
  eligibility <- or_missing (Unauthorized "AUTH_UNAUTHORIZED" "customer account is unavailable")
                   (CustomerPurchaseEligibility customerID wechatAppID now) ;;
  lift (validatePurchaseEligibility eligibility) ;;;
  ret (Elig_OpenID eligibility).

(** The writes of a new purchase once everything is checked. *)
Definition write_purchase (ctx : Context) (svc : PaymentService) (customerID : Z) (key : string)
    (pkg : Package) (quantity payableAmount totalBottles : Z) (now : time) : G Z :=
  reserve_quota customerID pkg quantity now ;;;
  product <- packageProductSummary (Pkg_ProductID pkg) ;;
  purchaseID <- next_id ;;
  paymentID <- next_id ;;
  let purchase := new_purchase purchaseID paymentID customerID pkg product quantity payableAmount
                    totalBottles now in
  createPurchase purchase ;;;
  CreateBusinessPaymentTx svc (purchase_payment_input purchase key now) ;;;
  createCustomerAudit ctx customerID "wine_ticket.purchase.create" "wine_ticket_purchase"
    purchaseID JNull (JMap
      [("purchase_no", JStr (Pur_PurchaseNo purchase)); ("status", JStr (Pur_Status purchase));
       ("package_no", JStr (Pkg_PackageNo pkg)); ("package_quantity", JNum quantity);
       ("payable_amount", JNum payableAmount)]) ;;;
  createWineTicketOutbox ctx "wine_ticket.purchase_created" "wine_ticket_purchase" purchaseID (JMap
    [("purchase_no", JStr (Pur_PurchaseNo purchase));
     ("customer_id", JStr (IDString customerID)); ("package_no", JStr (Pkg_PackageNo pkg));
     ("payment_id", JStr (IDString paymentID))]) ;;;
  ret purchaseID.

Definition open_purchase (ctx : Context) (svc : PaymentService) (customerID : Z) (key : string)
    (req : PurchaseCreateRequest) : G PurchaseDraft :=
  now <- nowShanghai ;;
  checked <- check_package req now ;;
  let '(pkg, payableAmount, totalBottles) := checked in
  openID <- check_customer customerID now ;;
  purchaseID <- write_purchase ctx svc customerID key pkg (PReq_Quantity req) payableAmount
                  totalBottles now ;;
  ret {| Draft_PurchaseID := purchaseID; Draft_OpenID := openID;
         Draft_Description := "酒票-" +:+ Pkg_Name pkg |}.

(** The first transaction: the stored response, or a draft to submit. *)
Definition start_purchase (ctx : Context) (svc : PaymentService) (actorType : string)
    (customerID claimID : Z) (method path key requestHash : string) (req : PurchaseCreateRequest)
    : G (PurchaseDTO + PurchaseDraft) :=
  started <- claimIdempotencyWithID claimID actorType customerID method path key requestHash ;;
  if negb started then
    response <- purchase_cachedResponse actorType customerID path key ;;
    ret (inl response)
  else
    existing <- attempt (CustomerPurchaseByPaymentKey customerID key) ;;
    match existing with
    | Ok existing => draft <- resume_purchase customerID existing ;; ret (inr draft)
    | Err e =>
        fail_if (negb (is_record_not_found e)) e ;;;
        draft <- open_purchase ctx svc customerID key req ;;
        ret (inr draft)
    end.

(** [reflectPaymentSubmissionState] *)
Definition reflectPaymentSubmissionState (purchaseID : Z) (paymentStatus : string) : G unit :=
  transaction (
    purchase <- LockPurchaseByID purchaseID ;;
    if negb (String.eqb (Pur_Status purchase) PurchaseStatusPendingPayment) then ret tt
    else
      snapshot <- lift (parsePurchaseSnapshot (Pur_PackageSnapshot purchase)) ;;
      quota <- LockPurchaseQuota (Pur_CustomerID purchase) (Snap_PackageCode snapshot) ;;
      now <- nowShanghai ;;
      if one_of ["failed"; "closed"] paymentStatus then
        fail_if (Quota_ReservedQuantity quota <? Pur_PackageQuantity purchase)
          (Internal "wine ticket purchase quota reservation is inconsistent") ;;;
        release_reservation purchase quota now ;;;
        UpdatePurchase (Pur_ID purchase) (purchase_moved PurchaseStatusClosed now)
      else UpdatePurchase (Pur_ID purchase) (purchase_moved PurchaseStatusPaymentUnknown now)).

(** The payment of the purchase after its submission, and whether its state is
    to be reflected. *)
Definition submit_purchase (ctx : Context) (svc : PaymentService) (customerID : Z)
    (draft : PurchaseDraft) : G (Payment * bool) :=
  let find_payment := BusinessPayment svc customerID PurchasePaymentBusiness
                        (Draft_PurchaseID draft) in
  payment <- find_payment ;;
  if String.eqb (Pay_Status payment) "creating" then
    submitted <- attempt (SubmitBusinessPayment svc ctx (Pay_ID payment) (Draft_OpenID draft)
                            (Draft_Description draft)) ;;
    match submitted with
    | Ok _ => ret (payment, false)
    | Err submitErr =>
        payment <- or_error submitErr find_payment ;;
        ret (payment, true)
    end
  else ret (payment, one_of ["failed"; "closed"] (Pay_Status payment)).

(** What follows the first transaction. *)
Definition finish_purchase (ctx : Context) (svc : PaymentService) (actorType : string)
    (customerID claimID : Z) (path key : string) (draft : PurchaseDraft) : G PurchaseDTO :=
  submitted <- submit_purchase ctx svc customerID draft ;;
  (if submitted.2
   then reflectPaymentSubmissionState (Draft_PurchaseID draft) (Pay_Status submitted.1)
   else ret tt) ;;;
  response <- customerPurchaseDTOByID customerID (Draft_PurchaseID draft) ;;
  transaction (SucceedOwned actorType customerID path key claimID response) ;;;
  ret response.

Definition CreatePurchase (ctx : Context) (claims : option Claims) (method path key : string)
    (req : PurchaseCreateRequest) : G PurchaseDTO :=
  match payments with
  | None => throw payment_service_missing
  | Some svc =>
      customerID <- lift (customerIDWithPermission claims "wine_ticket_purchase:create") ;;
      lift (validatePurchaseCreate req) ;;;
      let actorType := default "" (Claims_AccountType <$> claims) in
      let requestHash := RequestHash (PurchaseCreateRequest_json req) in
      claimID <- next_id ;;
      started <- transaction (start_purchase ctx svc actorType customerID claimID method path key
                                requestHash req) ;;
      match started with
      | inl response => ret response
      | inr draft =>
          or_release claimID actorType customerID path key
            (finish_purchase ctx svc actorType customerID claimID path key draft)
      end
  end.

(** ** [ConfirmPurchasePayment] *)

(** The claim of a request: the stored response when it was completed. *)
Definition claim_or_cached (claimID : Z) (actorType : string) (customerID : Z)
    (method path key requestHash : string) : G (option PurchaseDTO) :=
  claimed <- claimIdempotencyWithID claimID actorType customerID method path key requestHash ;;
  if claimed then ret None
  else
    response <- purchase_cachedResponse actorType customerID path key ;;
    ret (Some response).

Definition ConfirmPurchasePayment (ctx : Context) (claims : option Claims)
    (method path key purchaseNo : string) : G PurchaseDTO :=
  match payments with
  | None => throw payment_service_missing
  | Some svc =>
      customerID <- lift (customerIDWithPermission claims "wine_ticket_payment:confirm") ;;
      lift (redemption_validateBusinessNo purchaseNo "purchase_no") ;;;
      row <- or_missing purchaseNotFound (CustomerPurchaseByNo customerID purchaseNo) ;;
      let actorType := default "" (Claims_AccountType <$> claims) in
      let purchaseID := Pur_ID (Rec_Purchase row) in
      let requestHash := ResourceRequestHash "wine_ticket.purchase.payment.confirm"
                           (JStr purchaseNo) (JMap []) in
      claimID <- next_id ;;
      cached <- transaction (claim_or_cached claimID actorType customerID method path key
                               requestHash) ;;
      match cached with
      | Some response => ret response
      | None =>
          or_release claimID actorType customerID path key (
            ConfirmBusinessPayment svc retail ctx customerID PurchasePaymentBusiness purchaseID ;;;
            response <- customerPurchaseDTOByID customerID purchaseID ;;
            transaction (SucceedOwned actorType customerID path key claimID response) ;;;
            ret response)
      end
  end.
End Service.
