(* ===== verification/AfterSaleReturn.v ===== *)
(** * The after-sale of a returned redemption

    [aftersale/system_wine_ticket_return.go], with the queries of
    [aftersale/repository.go] and the helpers of [aftersale/service.go] it
    uses.  When the return of a redemption is approved, the after-sale module
    opens a case without money for it: the shared receiving flow works on
    after-sales. *)

From S2P Require Import Prelude GoInt GoString GoTime Json Problem RequestCtx CoreModel.
From S2P Require Import GiftModel RedemptionModel PurchaseModel AssetLaws Database FulfilmentTables.
From S2P Require Import PurchaseTables GiftDto GiftRepository GiftService RedemptionDto.
From S2P Require Import RedemptionRepository.
From Stdlib Require Import String.
#[local] Open Scope string_scope. #[local] Open Scope list_scope. #[local] Open Scope Z_scope.
#[local] Open Scope go_scope.

(** What the service reads of its configuration, and how the process prints a
    time in its local zone. *)
Record AfterSaleService := {
  Cfg_AfterSaleEnabled : bool;
  Cfg_SystemAfterSaleEnabled : bool;
  Cfg_FormatLocal : time -> string;
}.

Record SystemWineTicketReturnRequest := {
  SysRet_DeliveryReturnID : Z;
  SysRet_OrderID : Z;
  SysRet_ApprovedBy : Z;
  SysRet_ReasonCode : string;
  SysRet_Description : string;
}.

Record SystemWineTicketReturnResult := { SysRet_AfterSaleID : Z }.

(** ** [repository.go] *)

Definition BySource (sourceType : string) (sourceID : Z) : G AfterSale :=
  take_row (fun a => String.eqb (AS_SourceType a) sourceType &&
                     same_id (AS_SourceID a) (Some sourceID) && not_deleted (AS_DeletedAt a)).

Definition RefundCountByAfterSale (afterSaleID : Z) : G Z :=
  count_rows (fun r => same_id (Refund_AfterSaleID r) (Some afterSaleID) && not_deleted (Refund_DeletedAt r)).

Definition PaymentCountByOrder (orderID : Z) : G Z :=
  count_rows (fun p => same_id (Pay_OrderID p) (Some orderID) && not_deleted (Pay_DeletedAt p)).

Definition ActiveConflicts (orderID : Z) : G bool :=
  rows <- find_rows (fun a => (AS_OrderID a =? orderID) &&
            negb (one_of ["rejected"; "withdrawn"; "closed_manual"] (AS_Status a)) &&
            not_deleted (AS_DeletedAt a)) (sort_by (by_keys [AS_ID])) ;;
  ret (negb (bool_decide (map AS_ID rows = []))).

Definition AllOrderItems (orderID : Z) : G (list OrderItem) :=
  find_rows (fun i => (Item_OrderID i =? orderID) && not_deleted (Item_DeletedAt i))
    (sort_by (by_keys [Item_ID])).

(** An order under after-sale handling; [version + 1] and [updated_at] are the
    server's. *)
Definition order_after_sale (status deliveryStatus afterSaleStatus : string) (at_ : time) (o : Order)
    : Order := {|
  Order_ID := Order_ID o; Order_OrderNo := Order_OrderNo o; Order_OrderType := Order_OrderType o;
  Order_SettlementMode := Order_SettlementMode o; Order_CustomerID := Order_CustomerID o;
  Order_MerchantID := Order_MerchantID o; Order_ShopID := Order_ShopID o;
  Order_Status := status; Order_PayStatus := Order_PayStatus o;
  Order_DeliveryStatus := deliveryStatus; Order_GoodsAmount := Order_GoodsAmount o;
  Order_DiscountAmount := Order_DiscountAmount o;
  Order_DeliveryFeeAmount := Order_DeliveryFeeAmount o;
  Order_PayableAmount := Order_PayableAmount o; Order_PaidAmount := Order_PaidAmount o;
  Order_Remark := Order_Remark o; Order_AddressSnapshot := Order_AddressSnapshot o;
  Order_DeliveryTimeSlotID := Order_DeliveryTimeSlotID o;
  Order_DeliveryTimeSlotSnapshot := Order_DeliveryTimeSlotSnapshot o;
  Order_ComplianceSnapshot := Order_ComplianceSnapshot o;
  Order_IdempotencyKey := Order_IdempotencyKey o; Order_CancelSource := Order_CancelSource o;
  Order_CancelReasonCode := Order_CancelReasonCode o; Order_AfterSaleStatus := afterSaleStatus;
  Order_Version := Order_Version o + 1; Order_CancelledAt := Order_CancelledAt o;
  Order_CreatedAt := Order_CreatedAt o; Order_UpdatedAt := at_;
  Order_DeletedAt := Order_DeletedAt o |}.

Definition UpdateOrderSummary (orderID : Z) (status : string) : G unit :=
  at_ <- time_now ;;
  update_rows (fun o => Order_ID o =? orderID)
    (fun o => order_after_sale (Order_Status o) (Order_DeliveryStatus o) status at_ o) ;;;
  ret tt.

(** [Create] without evidence *)
Definition createAfterSale (row : AfterSale) (items : list AfterSaleItem)
    (history : AfterSaleHistory) (audit : AuditLog) (outbox : OutboxEvent) : G unit :=
  create_row row ;;;
  (match items with [] => ret tt | _ => create_rows items end) ;;;
  create_row history ;;;
  create_row audit ;;;
  create_row outbox.

(** ** [service.go]: the rows written beside an after-sale *)

Definition optional (v : string) : option string :=
  if String.eqb (trim_space v) "" then None else Some (trim_space v).

Definition history (id : Z) (actorType : string) (actorID : Z) (action : string)
    (from to : option string) (reason remark : string) : G AfterSaleHistory :=
  historyID <- next_id ;;
  ret {| ASH_ID := historyID; ASH_AfterSaleID := id; ASH_ActorID := actorID;
         ASH_ActorType := actorType; ASH_Action := action; ASH_FromStatus := from;
         ASH_ToStatus := to; ASH_ReasonCode := optional reason; ASH_Remark := optional remark;
         ASH_RequestID := None |}.

Definition audit (ctx : Context) (actorType : string) (actorID : Z) (action : string) (id : Z)
    (before after : json) : G AuditLog :=
  auditID <- next_id ;;
  ret {| Audit_ID := auditID; Audit_EventID := None; Audit_ActorType := actorType;
         Audit_ActorID := actorID; Audit_AccountID := None; Audit_Action := action;
         Audit_ResourceType := "after_sale"; Audit_ResourceID := id; Audit_OrderID := None;
         Audit_DeliveryID := None; Audit_BeforeData := before; Audit_AfterData := after;
         Audit_Result := "success"; Audit_BeforeStatus := None; Audit_AfterStatus := None;
         Audit_Version := None; Audit_RequestID := RequestIDPtr ctx;
         Audit_IPHash := IPHashPtr ctx; Audit_UserAgent := UserAgentPtr ctx;
         Audit_CreatedAt := None |}.

Definition outbox (ctx : Context) (event : string) (id : Z) (payload : json) : G OutboxEvent :=
  outboxID <- next_id ;;
  eventID <- new_uuid ;;
  ret {| Outbox_ID := outboxID; Outbox_EventID := eventID; Outbox_EventType := event;
         Outbox_EventVersion := 1; Outbox_SpecVersion := "1.0";
         Outbox_AggregateType := "after_sale"; Outbox_AggregateID := id;
         Outbox_Producer := None; Outbox_Payload := payload; Outbox_Status := "pending";
         Outbox_RetryCount := 0; Outbox_RequestID := RequestIDPtr ctx;
         Outbox_CreatedAt := None |}.

Definition opt_id (o : option Z) : json := match o with Some n => JNum n | None => JNull end.

(** [json.Marshal] of a row that is not stored yet: fields by their Go names,
    times in the local zone, the dates GORM sets still zero. *)
Definition AfterSale_json (format_local : time -> string) (a : AfterSale) : json :=
  let opt_time o := match o with Some t => JStr (format_local t) | None => JNull end in
  JObj [("ID", JNum (AS_ID a)); ("OrderID", JNum (AS_OrderID a));
        ("CustomerID", JNum (AS_CustomerID a)); ("MerchantID", JNum (AS_MerchantID a));
        ("ShopID", JNum (AS_ShopID a)); ("AfterSaleNo", JStr (AS_AfterSaleNo a));
        ("Type", JStr (AS_Type a)); ("RequestedResolution", JStr (AS_RequestedResolution a));
        ("Status", JStr (AS_Status a)); ("InitiatorType", JStr (AS_InitiatorType a));
        ("SourceType", JStr (AS_SourceType a)); ("SourceID", opt_id (AS_SourceID a));
        ("ApprovedResolution", opt_str (AS_ApprovedResolution a));
        ("ReasonCode", opt_str (AS_ReasonCode a));
        ("RequestedAmount", JNum (AS_RequestedAmount a));
        ("ApprovedAmount", JNum (AS_ApprovedAmount a));
        ("RefundedAmount", JNum (AS_RefundedAmount a));
        ("CompensationAmount", JNum (AS_CompensationAmount a));
        ("IncludeDeliveryFee", JBool (AS_IncludeDeliveryFee a));
        ("Description", JStr (AS_Description a)); ("AppealedAt", JNull);
        ("ApprovedAt", opt_time (AS_ApprovedAt a)); ("RejectedAt", JNull);
        ("ClosedAt", opt_time (AS_ClosedAt a));
        ("SubmittedAt", JStr (format_local (AS_SubmittedAt a)));
        ("CreatedAt", JStr "0001-01-01T00:00:00Z"); ("UpdatedAt", JStr "0001-01-01T00:00:00Z");
        ("Version", JNum (AS_Version a))].

(** ** [CreateSystemWineTicketReturnWithTx] *)

Definition ErrDeliveryReturnManualReview : error :=
  EMessage "delivery return requires manual review".

Definition system_result (afterSaleID : Z) : SystemWineTicketReturnResult :=
  {| SysRet_AfterSaleID := afterSaleID |}.

(** The case was opened before. *)
Definition replay_system_return (req : SystemWineTicketReturnRequest) (existing : AfterSale)
    : G SystemWineTicketReturnResult :=
  fail_if (negb (AS_OrderID existing =? SysRet_OrderID req) ||
           negb (AS_RequestedAmount existing =? 0) || negb (AS_ApprovedAmount existing =? 0) ||
           negb (AS_RefundedAmount existing =? 0))
    (Internal "wine-ticket system after-sale replay mismatch") ;;;
  refundCount <- RefundCountByAfterSale (AS_ID existing) ;;
  fail_if (negb (refundCount =? 0))
    (Internal "wine-ticket system after-sale unexpectedly has a refund") ;;;
  ret (system_result (AS_ID existing)).

(** The order of a case that may be opened, and its items. *)
Definition returnable_order (req : SystemWineTicketReturnRequest) : G (Order * list OrderItem) :=
  order <- or_error (Conflict "AFTER_SALE_NOT_ELIGIBLE" "delivery return order not found")
             (lockOrder (SysRet_OrderID req)) ;;
  fail_if (negb (String.eqb (Order_OrderType order) "wine_ticket_redemption") ||
           negb (String.eqb (Order_SettlementMode order) "wine_ticket") ||
           negb (String.eqb (Order_PayStatus order) "not_required") ||
           negb (Order_PaidAmount order =? 0))
    (Conflict "AFTER_SALE_NOT_ELIGIBLE"
       "delivery return order is not a zero-cash wine-ticket redemption") ;;;
  paymentCount <- PaymentCountByOrder (Order_ID order) ;;
  fail_if (negb (paymentCount =? 0))
    (Internal "wine-ticket redemption order unexpectedly has a payment") ;;;
  conflict <- ActiveConflicts (Order_ID order) ;;
  fail_if conflict ErrDeliveryReturnManualReview ;;;
  let noItems := Conflict "AFTER_SALE_NOT_ELIGIBLE" "delivery return order items not found" in
  orderItems <- or_error noItems (AllOrderItems (Order_ID order)) ;;
  fail_if (bool_decide (map Item_ID orderItems = [])) noItems ;;;
  fail_if (existsb (fun i => (Item_Quantity i <=? 0) || negb (Item_TotalAmount i =? 0)) orderItems)
    (Internal "wine-ticket redemption order item is not zero-cash") ;;;
  ret (order, orderItems).

Definition system_after_sale (req : SystemWineTicketReturnRequest) (order : Order)
    (afterSaleID : Z) (now : time) (description : string) : AfterSale := {|
  AS_ID := afterSaleID; AS_OrderID := Order_ID order; AS_CustomerID := Order_CustomerID order;
  AS_MerchantID := Order_MerchantID order; AS_ShopID := Order_ShopID order;
  AS_AfterSaleNo := "AS" +:+ IDString afterSaleID; AS_Type := "other";
  AS_RequestedResolution := "wine_ticket_restore"; AS_Status := "return_processing";
  AS_InitiatorType := "system"; AS_SourceType := "delivery_return";
  AS_SourceID := Some (SysRet_DeliveryReturnID req);
  AS_ApprovedResolution := Some "wine_ticket_restore";
  AS_ReasonCode := optional (trim_space (SysRet_ReasonCode req)); AS_RequestedAmount := 0;
  AS_ApprovedAmount := 0; AS_RefundedAmount := 0; AS_CompensationAmount := 0;
  AS_IncludeDeliveryFee := false; AS_Description := description; AS_ApprovedAt := Some now;
  AS_ClosedAt := None; AS_SubmittedAt := now; AS_Version := 1; AS_DeletedAt := None |}.

Fixpoint system_items (afterSaleID orderID : Z) (sources : list OrderItem)
    : G (list AfterSaleItem) :=
  match sources with
  | [] => ret []
  | source :: rest =>
      id <- next_id ;;
      others <- system_items afterSaleID orderID rest ;;
      ret ({| ASI_ID := id; ASI_AfterSaleID := afterSaleID; ASI_OrderID := orderID;
              ASI_OrderItemID := Item_ID source; ASI_ShopProductID := Item_ShopProductID source;
              ASI_ProductID := Item_ProductID source;
              ASI_RequestedQuantity := Item_Quantity source;
              ASI_ApprovedQuantity := Item_Quantity source; ASI_RequestedAmount := 0;
              ASI_ApprovedAmount := 0; ASI_RefundedAmount := 0;
              ASI_ReturnDisposition := "none" |} :: others)
  end.

Definition open_system_return (s : AfterSaleService) (ctx : Context)
    (req : SystemWineTicketReturnRequest) (order : Order) (orderItems : list OrderItem)
    : G SystemWineTicketReturnResult :=
  reading <- time_now ;;
  let now := truncate_ms reading in
  afterSaleID <- next_id ;;
  let reason := trim_space (SysRet_ReasonCode req) in
  let description := if String.eqb (trim_space (SysRet_Description req)) ""
                     then "system-created after-sale for wine-ticket delivery return"
                     else trim_space (SysRet_Description req) in
  let row := system_after_sale req order afterSaleID now description in
  items <- system_items afterSaleID (Order_ID order) orderItems ;;
  historyRow <- history afterSaleID "admin" (SysRet_ApprovedBy req) "system_approve" None
                  (Some "return_processing") reason description ;;
  auditRow <- audit ctx "admin" (SysRet_ApprovedBy req) "after_sale.system_wine_ticket_return"
                afterSaleID JNull (AfterSale_json (Cfg_FormatLocal s) row) ;;
  outboxRow <- outbox ctx "after_sale.approved" afterSaleID
                 (JMap [("after_sale_id", JStr (IDString afterSaleID));
                        ("order_id", JStr (IDString (Order_ID order)));
                        ("source_type", JStr "delivery_return");
                        ("source_id", JStr (IDString (SysRet_DeliveryReturnID req)));
                        ("settlement", JStr "wine_ticket_restore")]) ;;
  createAfterSale row items historyRow auditRow outboxRow ;;;
  UpdateOrderSummary (Order_ID order) "processing" ;;;
  ret (system_result afterSaleID).

Definition CreateSystemWineTicketReturnWithTx (s : AfterSaleService) (ctx : Context)
    (req : SystemWineTicketReturnRequest) : G SystemWineTicketReturnResult :=
  fail_if ((SysRet_DeliveryReturnID req =? 0) || (SysRet_OrderID req =? 0) ||
           (SysRet_ApprovedBy req =? 0))
    (Internal "invalid wine-ticket system after-sale transaction input") ;;;
  fail_if (negb (Cfg_AfterSaleEnabled s) || negb (Cfg_SystemAfterSaleEnabled s))
    (EProblem (Problem.New 503 "SYSTEM_AFTERSALE_DISABLED" "Service Unavailable"
                 "system delivery-return after-sale is disabled")) ;;;
  found <- attempt (BySource "delivery_return" (SysRet_DeliveryReturnID req)) ;;
  match found with
  | Ok existing => replay_system_return req existing
  | Err e =>
      fail_if (negb (is_record_not_found e)) e ;;;
      eligible <- returnable_order req ;;
      open_system_return s ctx req eligible.1 eligible.2
  end.
