(* ===== verification/ReturnSettlement.v ===== *)
(** * Return settlement: [wineticket/redemption/return_settlement.go]

    Bottles that were picked up but could not be delivered come back to the
    shop.  The delivery-return module keeps the return; it calls the wine
    tickets, inside its own transaction, when the return is approved and when
    the bottles were received.  Then the bottles go back to the lots they were
    taken from, with the expiry they had: a lot past its expiry is emptied at
    once. *)

From S2P Require Import Prelude GoInt GoString GoTime Json Problem RequestCtx.
From S2P Require Import CoreModel AssetService GiftModel RedemptionModel AssetLaws.
From S2P Require Import Database FulfilmentTables GiftDto GiftRepository GiftService RedemptionDto.
From S2P Require Import RedemptionRepository ScheduledDispatch RedemptionService.
From S2P Require Import RedemptionSettlement AfterSaleReturn.
From Stdlib Require Import String.
#[local] Open Scope string_scope. #[local] Open Scope list_scope. #[local] Open Scope Z_scope.
#[local] Open Scope go_scope.

(** ** The facts the delivery-return module hands over

    [deliveryreturn/model.go] and [settlement_registry.go]; of a return the
    fields the settlement reads. *)

Definition SettlementWineTicketRestore : string := "wine_ticket_restore".

Record Return := {
  Ret_ID : Z;
  Ret_OrderID : Z;
  Ret_AfterSaleID : option Z;
  Ret_SettlementType : option string;
  Ret_SettlementBizID : option Z;
  Ret_ReasonCode : string;
}.

Record ReturnAfterSale := {
  RAS_ID : Z;
  RAS_OrderID : Z;
  RAS_ShopID : Z;
  RAS_SourceType : string;
  RAS_SourceID : option Z;
  RAS_Status : string;
  RAS_ApprovedAmount : Z;
  RAS_RefundedAmount : Z;
  RAS_Version : Z;
}.

Record OrderRef := {
  ORef_ID : Z;
  ORef_OrderType : string;
  ORef_SettlementMode : string;
  ORef_PayStatus : string;
  ORef_PaidAmount : Z;
  ORef_Version : Z;
}.

Record ReturnSettlementBinding := {
  Binding_SettlementType : string;
  Binding_SettlementBizID : option Z;
}.

Record ReturnSettlementApproval := {
  Approval_AfterSaleID : Z;
  Approval_SettlementBizID : option Z;
  Approval_OrderStatus : string;
  Approval_AfterSaleStatus : string;
}.

Record wineTicketReturnReceivePlan := {
  RP_ReturnID : Z;
  RP_AfterSaleID : Z;
  RP_OrderID : Z;
  RP_Redemption : Redemption;
  RP_Allocations : list RedemptionAllocation;
  RP_Lots : list Lot;
}.

(** ** [return_settlement_repository.go]

    The updates report no count: the caller looks at the error only. *)

Definition lockRedemptionByID (id : Z) : G Redemption := take_row (fun r => Red_ID r =? id).

Definition markReturnInProgress (redemptionID : Z) (updatedAt : time) : G unit :=
  update_rows (fun r => (Red_ID r =? redemptionID) &&
                        String.eqb (Red_Status r) RedemptionStatusPickedUp)
    (redemption_moved RedemptionStatusReturnInProgress updatedAt) ;;;
  ret tt.

Definition markAllocationRestored (allocationID redemptionID : Z) (updatedAt : time) : G unit :=
  update_rows (fun a => (RA_ID a =? allocationID) && (RA_RedemptionID a =? redemptionID) &&
                        one_of [RedemptionAllocationStatusHeld; RedemptionAllocationStatusConsumed]
                          (RA_Status a))
    (redemption_allocation_with RedemptionAllocationStatusRestored updatedAt) ;;;
  ret tt.

Definition redemption_returned (now : time) (r : Redemption) : Redemption :=
  redemption_with r RedemptionStatusRestored (Red_Version r + 1) (Red_PickedUpAt r)
    (Red_CompletedAt r) (Red_CancelledAt r) (Some now) now.

Definition markRedemptionRestored (redemptionID : Z) (updatedAt : time) : G unit :=
  update_rows (fun r => (Red_ID r =? redemptionID) &&
                        String.eqb (Red_Status r) RedemptionStatusReturnInProgress)
    (redemption_returned updatedAt) ;;;
  ret tt.

Definition after_sale_closed (closedAt : time) (a : AfterSale) : AfterSale := {|
  AS_ID := AS_ID a; AS_OrderID := AS_OrderID a; AS_CustomerID := AS_CustomerID a;
  AS_MerchantID := AS_MerchantID a; AS_ShopID := AS_ShopID a;
  AS_AfterSaleNo := AS_AfterSaleNo a; AS_Type := AS_Type a;
  AS_RequestedResolution := AS_RequestedResolution a; AS_Status := "closed";
  AS_InitiatorType := AS_InitiatorType a; AS_SourceType := AS_SourceType a;
  AS_SourceID := AS_SourceID a; AS_ApprovedResolution := AS_ApprovedResolution a;
  AS_ReasonCode := AS_ReasonCode a; AS_RequestedAmount := AS_RequestedAmount a;
  AS_ApprovedAmount := AS_ApprovedAmount a; AS_RefundedAmount := AS_RefundedAmount a;
  AS_CompensationAmount := AS_CompensationAmount a;
  AS_IncludeDeliveryFee := AS_IncludeDeliveryFee a; AS_Description := AS_Description a;
  AS_ApprovedAt := AS_ApprovedAt a; AS_ClosedAt := Some closedAt;
  AS_SubmittedAt := AS_SubmittedAt a; AS_Version := AS_Version a + 1;
  AS_DeletedAt := AS_DeletedAt a |}.

Definition closeAfterSale (afterSaleID deliveryReturnID : Z) (closedAt : time) : G unit :=
  update_rows (fun a => (AS_ID a =? afterSaleID) &&
                        String.eqb (AS_SourceType a) "delivery_return" &&
                        same_id (AS_SourceID a) (Some deliveryReturnID))
    (after_sale_closed closedAt) ;;;
  ret tt.

Definition markOrderReturned (orderID : Z) : G unit :=
  at_ <- time_now ;;
  update_rows (fun o => (Order_ID o =? orderID) &&
                        String.eqb (Order_OrderType o) "wine_ticket_redemption" &&
                        String.eqb (Order_SettlementMode o) "wine_ticket")
    (order_after_sale "cancelled" "returned" "completed" at_) ;;;
  ret tt.

(** ** Checks *)

Definition returnInvalid (detail : string) : error :=
  Conflict "WT_REDEMPTION_RETURN_INVALID" detail.

Definition is_text (o : option string) (s : string) : bool :=
  match o with Some x => String.eqb x s | None => false end.

(** The redemption a return is bound to: [*row.SettlementBizID]. *)
Definition validateWineTicketReturnLink (row : Return) : res Z :=
  match Ret_SettlementBizID row with
  | Some redemptionID =>
      if negb (is_text (Ret_SettlementType row) SettlementWineTicketRestore) ||
         (redemptionID =? 0)
      then Err (Internal "wine-ticket delivery return settlement link is invalid")
      else Ok redemptionID
  | None => Err (Internal "wine-ticket delivery return settlement link is invalid")
  end.

(** The order is a redemption, settled in tickets without money. *)
Definition zero_cash (order : OrderRef) : bool :=
  String.eqb (ORef_OrderType order) "wine_ticket_redemption" &&
  String.eqb (ORef_SettlementMode order) "wine_ticket" &&
  String.eqb (ORef_PayStatus order) "not_required" && (ORef_PaidAmount order =? 0).

Definition after_sale_linked (row : Return) (afterSale : ReturnAfterSale) : bool :=
  same_id (Ret_AfterSaleID row) (Some (RAS_ID afterSale)) &&
  String.eqb (RAS_SourceType afterSale) "delivery_return" &&
  same_id (RAS_SourceID afterSale) (Some (Ret_ID row)) &&
  (RAS_ApprovedAmount afterSale =? 0) && (RAS_RefundedAmount afterSale =? 0).

Definition validateWineTicketReturnReceiveFacts (row : Return) (afterSale : ReturnAfterSale)
    (order : OrderRef) : res Z :=
  match validateWineTicketReturnLink row with
  | Err e => Err e
  | Ok redemptionID =>
      if negb (after_sale_linked row afterSale)
      then Err (Internal "wine-ticket return after-sale link is invalid")
      else if negb (zero_cash order)
      then Err (Internal "wine-ticket return order money facts changed")
      else Ok redemptionID
  end.

(** The loop of [validate] over the allocations: what they add up to. *)
Fixpoint check_allocations (redemptionID : Z) (previous : option Z)
    (allocations : list RedemptionAllocation) (quantity : Z) : res Z :=
  match allocations with
  | [] => Ok quantity
  | a :: rest =>
      if (RA_ID a =? 0) || (match previous with Some p => RA_ID a <=? p | None => false end) ||
         negb (RA_RedemptionID a =? redemptionID)
      then Err (Internal "wine-ticket redemption allocation lock order changed")
      else if negb (one_of [RedemptionAllocationStatusHeld; RedemptionAllocationStatusConsumed;
                            RedemptionAllocationStatusRestored] (RA_Status a))
      then Err (returnInvalid "wine-ticket redemption allocation cannot be restored")
      else check_allocations redemptionID (Some (RA_ID a)) rest
             (uint_add quantity (RA_Quantity a))
  end.

(** The loop of [validate] over the lots, in the order they were locked. *)
Fixpoint check_lots (customerID : Z) (expected : list Z) (lots : list Lot) : res unit :=
  match expected, lots with
  | id :: expected', lot :: lots' =>
      if negb (Lot_ID lot =? id)
      then Err (Internal "wine-ticket redemption lot lock order changed")
      else if negb (Lot_OwnerCustomerID lot =? customerID)
      then Err (Internal "wine-ticket redemption source lot owner changed")
      else check_lots customerID expected' lots'
  | _, _ => Ok tt
  end.

Definition uniqueSortedIDs (values : list Z) : list Z :=
  sort_by (by_keys [fun x => x]) (distinct_ids [] values).

(** [validate] of a plan of a configured handler, in its own transaction. *)
Definition validate (p : wineTicketReturnReceivePlan) (row : Return) (afterSale : ReturnAfterSale)
    (order : OrderRef) : res unit :=
  let redemption := RP_Redemption p in
  match validateWineTicketReturnReceiveFacts row afterSale order with
  | Err e => Err e
  | Ok redemptionID =>
      if negb (Ret_ID row =? RP_ReturnID p) || negb (RAS_ID afterSale =? RP_AfterSaleID p) ||
         negb (ORef_ID order =? RP_OrderID p) || negb (redemptionID =? Red_ID redemption)
      then Err (Internal "wine-ticket return settlement preparation link changed")
      else if negb (Red_OrderID redemption =? ORef_ID order) ||
              negb (one_of [RedemptionStatusReturnInProgress; RedemptionStatusRestored]
                      (Red_Status redemption))
      then Err (returnInvalid "wine-ticket redemption cannot be restored in its current state")
      else if bool_decide (map RA_ID (RP_Allocations p) = [])
      then Err (Internal "wine-ticket redemption allocations are missing")
      else
        match check_allocations (Red_ID redemption) None (RP_Allocations p) 0 with
        | Err e => Err e
        | Ok quantity =>
            if negb (quantity =? Red_Quantity redemption)
            then Err (Internal "wine-ticket redemption allocation quantity mismatch")
            else
              let expected := uniqueSortedIDs (map RA_LotID (RP_Allocations p)) in
              if negb (Z.of_nat (List.length (RP_Lots p)) =? Z.of_nat (List.length expected))
              then Err (Internal "wine-ticket redemption source lots are missing")
              else check_lots (Red_CustomerID redemption) expected (RP_Lots p)
        end
  end.

(** ** Audit and outbox *)

Definition writeReturnAuditAndOutbox (ctx : Context) (actorID : Z) (eventType : string)
    (redemption : Redemption) (deliveryReturnID : Z) (status : string) (now : time) : G unit :=
  id <- next_id ;;
  createAudit {|
    Audit_ID := id; Audit_EventID := None;
    Audit_ActorType := if actorID =? 0 then "system" else "admin"; Audit_ActorID := actorID;
    Audit_AccountID := None; Audit_Action := eventType;
    Audit_ResourceType := "wine_ticket_redemption"; Audit_ResourceID := Red_ID redemption;
    Audit_OrderID := None; Audit_DeliveryID := None;
    Audit_BeforeData := JSONData (JMap [("status", JStr (Red_Status redemption))]);
    Audit_AfterData := JSONData (JMap
      [("status", JStr status); ("delivery_return_id", JStr (IDString deliveryReturnID))]);
    Audit_Result := "success"; Audit_BeforeStatus := None; Audit_AfterStatus := None;
    Audit_Version := None; Audit_RequestID := RequestIDPtr ctx; Audit_IPHash := IPHashPtr ctx;
    Audit_UserAgent := UserAgentPtr ctx; Audit_CreatedAt := None |} ;;;
  wine_ticket_event ctx eventType "wine_ticket_redemption" (Red_ID redemption)
    (JMap [("redemption_id", JStr (IDString (Red_ID redemption)));
           ("redemption_no", JStr (Red_RedemptionNo redemption));
           ("delivery_return_id", JStr (IDString deliveryReturnID));
           ("status", JStr status)]) (ret now).

(** ** The handler, configured *)

Definition InitialBinding (order : OrderRef) : G ReturnSettlementBinding :=
  fail_if (negb (zero_cash order))
    (returnInvalid "delivery order is not a zero-cash wine-ticket redemption") ;;;
  redemption <- or_missing (returnInvalid "wine-ticket redemption link is missing")
                  (lockRedemptionByOrderID (ORef_ID order)) ;;
  fail_if (negb (one_of [RedemptionStatusPickedUp; RedemptionStatusReturnInProgress]
                   (Red_Status redemption)))
    (returnInvalid "wine-ticket redemption is not returnable after pickup") ;;;
  ret {| Binding_SettlementType := SettlementWineTicketRestore;
         Binding_SettlementBizID := Some (Red_ID redemption) |}.

(** The handler's own [lockRedemption] *)
Definition lock_returned (id : Z) : G Redemption :=
  or_missing (returnInvalid "wine-ticket redemption link is missing") (lockRedemptionByID id).

Definition Approve (afterSales : AfterSaleService) (ctx : Context) (row : Return)
    (order : OrderRef) (actorID : Z) (note : string) : G ReturnSettlementApproval :=
  redemptionID <- lift (validateWineTicketReturnLink row) ;;
  redemption <- lock_returned redemptionID ;;
  fail_if (negb (Red_OrderID redemption =? ORef_ID order) ||
           negb (Red_ID redemption =? redemptionID) ||
           negb (one_of [RedemptionStatusPickedUp; RedemptionStatusReturnInProgress]
                   (Red_Status redemption)))
    (returnInvalid "wine-ticket redemption return state changed") ;;;
  result <- CreateSystemWineTicketReturnWithTx afterSales ctx
              {| SysRet_DeliveryReturnID := Ret_ID row; SysRet_OrderID := Ret_OrderID row;
                 SysRet_ApprovedBy := actorID; SysRet_ReasonCode := Ret_ReasonCode row;
                 SysRet_Description := note |} ;;
  now <- nowShanghai ;;
  (if String.eqb (Red_Status redemption) RedemptionStatusPickedUp
   then markReturnInProgress (Red_ID redemption) now else ret tt) ;;;
  writeReturnAuditAndOutbox ctx actorID "wine_ticket.redemption_return_started" redemption
    (Ret_ID row) RedemptionStatusReturnInProgress now ;;;
  ret {| Approval_AfterSaleID := SysRet_AfterSaleID result;
         Approval_SettlementBizID := Some (Red_ID redemption);
         Approval_OrderStatus := "returning"; Approval_AfterSaleStatus := "processing" |}.

Definition PrepareReceived (row : Return) (afterSale : ReturnAfterSale) (order : OrderRef)
    : G wineTicketReturnReceivePlan :=
  redemptionID <- lift (validateWineTicketReturnReceiveFacts row afterSale order) ;;
  redemption <- lock_returned redemptionID ;;
  allocations <- lockAllocations (Red_ID redemption) ;;
  lots <- lockLots (uniqueSortedIDs (map RA_LotID allocations)) ;;
  let plan := {| RP_ReturnID := Ret_ID row; RP_AfterSaleID := RAS_ID afterSale;
                 RP_OrderID := ORef_ID order; RP_Redemption := redemption;
                 RP_Allocations := allocations; RP_Lots := lots |} in
  lift (validate plan row afterSale order) ;;;
  ret plan.

Definition return_restore_key (returnID allocationID : Z) : string :=
  "redemption_return_restore:" +:+ format_uint returnID +:+ ":" +:+ format_uint allocationID.
Definition return_expire_key (returnID allocationID : Z) : string :=
  "redemption_return_expire:" +:+ format_uint returnID +:+ ":" +:+ format_uint allocationID.

Definition return_restore_command (returnID redemptionID : Z) (lot : Lot)
    (allocation : RedemptionAllocation) (now : time) : AssetCommand := {|
  Cmd_LotID := Lot_ID lot; Cmd_OwnerCustomerID := Lot_OwnerCustomerID lot;
  Cmd_Quantity := RA_Quantity allocation; Cmd_MarkUsed := false;
  Cmd_TransactionType := TransactionTypeRedemptionReturnRestore;
  Cmd_BizType := "wine_ticket_redemption_return"; Cmd_BizID := returnID;
  Cmd_ActionKey := return_restore_key returnID (RA_ID allocation);
  Cmd_Metadata := JMap [("delivery_return_id", JStr (IDString returnID));
                        ("redemption_id", JStr (IDString redemptionID));
                        ("allocation_id", JStr (IDString (RA_ID allocation)))];
  Cmd_OccurredAt := now;
  Cmd_ExpiryEvidence := Some {|
    Evidence_TransactionType := TransactionTypeRedemptionReturnExpire;
    Evidence_BizType := "wine_ticket_redemption_return"; Evidence_BizID := returnID;
    Evidence_ActionKey := return_expire_key returnID (RA_ID allocation);
    Evidence_Metadata := JMap
      [("reason", JStr "restored_after_expiry");
       ("restore_action_key", JStr (return_restore_key returnID (RA_ID allocation)));
       ("restore_biz_type", JStr "wine_ticket_redemption_return");
       ("restore_biz_id", JStr (IDString returnID))] |} |}.

(** The loop of [ApplyReceived] *)
Fixpoint return_lots (ctx : Context) (returnID redemptionID : Z) (now : time)
    (allocations : list RedemptionAllocation) (lotByID : gmap Z Lot) : G unit :=
  match allocations with
  | [] => ret tt
  | allocation :: rest =>
      match lotByID !! RA_LotID allocation with
      | None => throw (Internal "wine-ticket redemption source lot is missing")
      | Some lot =>
          fail_if (String.eqb (Lot_Status lot) LotStatusRefunded)
            (Conflict "WT_LOT_INVALID_STATUS" "refunded wine ticket lot cannot be restored") ;;;
          Restore redemption_assets ctx redemption_ledger
            (return_restore_command returnID redemptionID lot allocation now) ;;;
          (if String.eqb (RA_Status allocation) RedemptionAllocationStatusRestored then ret tt
           else markAllocationRestored (RA_ID allocation) redemptionID now) ;;;
          return_lots ctx returnID redemptionID now rest lotByID
      end
  end.

Definition ApplyReceived (ctx : Context) (p : wineTicketReturnReceivePlan) (row : Return)
    (afterSale : ReturnAfterSale) (order : OrderRef) : G bool :=
  lift (validate p row afterSale order) ;;;
  let redemption := RP_Redemption p in
  now <- nowShanghai ;;
  return_lots ctx (Ret_ID row) (Red_ID redemption) now (RP_Allocations p)
    (giftLotMap (RP_Lots p)) ;;;
  (if String.eqb (Red_Status redemption) RedemptionStatusRestored then ret tt
   else markRedemptionRestored (Red_ID redemption) now) ;;;
  closeAfterSale (RAS_ID afterSale) (Ret_ID row) now ;;;
  markOrderReturned (ORef_ID order) ;;;
  writeReturnAuditAndOutbox ctx 0 "wine_ticket.redemption_return_restored" redemption
    (Ret_ID row) RedemptionStatusRestored now ;;;
  ret true.

Definition SettleReceived (ctx : Context) (row : Return) (afterSale : ReturnAfterSale)
    (order : OrderRef) : G bool :=
  plan <- PrepareReceived row afterSale order ;;
  ApplyReceived ctx plan row afterSale order.
