(* ===== verification/RedemptionSamples.v ===== *)
(** * Sample data of the redemption theorems

    The shop of the sample merchant has a slot tomorrow and stock of the sample
    product; the sample customer has an address in the lot's city. *)

From S2P Require Import Prelude GoInt GoString GoTime GoDate Json Problem RequestCtx.
From S2P Require Import CoreModel AssetService GiftModel RedemptionModel RedemptionSlot AssetLaws.
From S2P Require Import Database FulfilmentTables AssetRepository Samples GiftDto GiftService.
From S2P Require Import RedemptionDto RedemptionRepository ScheduledDispatch RedemptionService.
From S2P Require Import RedemptionSettlement.
From Stdlib Require Import String.
#[local] Open Scope string_scope. #[local] Open Scope list_scope. #[local] Open Scope Z_scope.
#[local] Open Scope go_scope.

Definition sample_slot : DeliveryTimeSlot := {|
  Slot_ID := 61; Slot_ShopID := 31; Slot_ServiceDate := shanghai_day sample_now + 1;
  Slot_StartTime := "10:00:00"; Slot_EndTime := "12:00:00";
  Slot_CutoffAt := sample_now + 12 * hour; Slot_CapacityOrders := 5; Slot_ReservedOrders := 0;
  Slot_Status := "open"; Slot_Version := 1; Slot_UpdatedAt := sample_now - sample_day |}.

Definition sample_address : redemptionAddressRecord := {|
  Addr_ID := 41; Addr_CustomerID := 7; Addr_ContactName := "Li Lei";
  Addr_ContactPhone := "13800138000"; Addr_Province := "Shanghai"; Addr_City := "Shanghai";
  Addr_CityCode := Some "310100"; Addr_District := "Huangpu"; Addr_DistrictCode := Some "310101";
  Addr_AddressDetail := "Nanjing Road 1"; Addr_Doorplate := None; Addr_POIID := None;
  Addr_FormattedAddress := None; Addr_Latitude := Some 312304000;
  Addr_Longitude := Some 1214737000; Addr_CoordinateSystem := "gcj02";
  Addr_LocationSource := "map_pin"; Addr_GeocodeProvider := None;
  Addr_GeocodeStatus := "verified"; Addr_Version := 2; Addr_DeletedAt := None |}.

Definition sample_stock : PhysicalStock := {|
  Stock_ID := 81; Stock_ShopProductID := 71; Stock_ShopID := 31; Stock_ProductID := 5;
  Stock_AvailableQty := 20; Stock_ReservedQty := 0; Stock_LockedQty := 0; Stock_Version := 3;
  Stock_UpdatedAt := sample_now - sample_day; Stock_DeletedAt := None |}.

Definition sample_fulfilment : Fulfilment := {|
  ful_slots := [sample_slot]; ful_redemptions := []; ful_addresses := [sample_address];
  ful_shops := [{| Shop_ID := 31; Shop_MerchantID := 3; Shop_Name := "Bund shop";
                   Shop_Status := "active"; Shop_BusinessStatus := "open";
                   Shop_DeletedAt := None |}];
  ful_merchants := [{| Merchant_ID := 3; Merchant_Name := "Cellar"; Merchant_Status := "active";
                       Merchant_ReviewStatus := "approved"; Merchant_DeletedAt := None |}];
  ful_shop_products := [{| SP_ID := 71; SP_MerchantID := 3; SP_ShopID := 31; SP_ProductID := 5;
                           SP_Status := "on_sale"; SP_DeletedAt := None |}];
  ful_categories := [{| Category_ID := 21; Category_Status := "active";
                        Category_AgeRestricted := false; Category_DeletedAt := None |}];
  ful_stocks := [sample_stock]; ful_stock_records := []; ful_orders := []; ful_order_items := [];
  ful_order_logs := []; ful_after_sales := empty_after_sales; ful_returns := []; ful_deliveries := [];
  ful_jobs := []; ful_offers := []; ful_assignments := [] |}.

Definition redemption_database : Database := set_fulfilment sample_database sample_fulfilment.

Definition redemption_world : World := sample_world_on redemption_database.

(** A dispatch service that only opens the delivery. *)
Definition sample_ensure (ctx : Context) (input : RedemptionDispatchCreateInput)
    : G DeliveryOrder :=
  id <- next_id ;;
  let row := {|
    Del_ID := id; Del_OrderID := DCreate_OrderID input; Del_RiderID := None;
    Del_Status := "pending_assign"; Del_DispatchStatus := "pending";
    Del_PickupReadyStatus := "waiting_store";
    Del_ScheduledStartAt := Some (DCreate_ScheduledStartAt input);
    Del_ScheduledEndAt := Some (DCreate_ScheduledEndAt input);
    Del_NotBeforeAt := Some (DCreate_NotBeforeAt input); Del_AcceptedAt := None;
    Del_PickedUpAt := None; Del_CompletedAt := None; Del_CancelledAt := None;
    Del_DeletedAt := None |} in
  create_row row ;;;
  ret row.

Definition sample_dispatch : option RedemptionDispatchCoordinator :=
  Some (FulfillmentDispatch sample_ensure).

Definition redeemer_claims : Claims := {|
  Claims_AccountType := "customer"; Claims_CustomerID := "7";
  Claims_Permissions := ["wine_ticket_redemption:create"; "wine_ticket_redemption:cancel";
                         "wine_ticket_redemption:view"; "wine_ticket_redemption:list";
                         "wine_ticket_slot:list"] |}.

Definition redeem_request : RedemptionCreateRequest := {|
  RReq_ProductID := "5"; RReq_Quantity := 4; RReq_AddressID := "41"; RReq_AddressVersion := 2;
  RReq_DeliveryTimeSlotID := "61"; RReq_Remark := Some " ring twice " |}.

Definition sample_create : G RedemptionDTO :=
  Create sample_dispatch Background (Some redeemer_claims) "POST" "/redemptions" "key-0001"
    redeem_request.
