(* ===== verification/GiftList.v ===== *)
(** * The list of a customer's gifts

    [giftRepository.listCustomerGifts], [GiftService.List] and
    [GiftHandler.List] of [wineticket/gift]. *)

From S2P Require Import Prelude GoInt GoString GoTime Json Problem RequestCtx CoreModel GiftModel.
From S2P Require Import AssetService Database Pagination Snowflake Idempotency GiftDto.
From S2P Require Import GiftRepository GiftService.
From Stdlib Require Import String.
#[local] Open Scope string_scope. #[local] Open Scope list_scope. #[local] Open Scope Z_scope.
#[local] Open Scope go_scope.

(** The conditions of the list on a gift. *)
Definition listed (customerID : Z) (direction status : string) (g : Gift) : bool :=
  (if String.eqb direction giftListDirectionIn
   then match Gift_ReceiverCustomerID g with Some r => r =? customerID | None => false end
   else Gift_GiverCustomerID g =? customerID) &&
  (String.eqb status "" || String.eqb (Gift_Status g) status).

(** The joined rows of the gifts [p] selects, [ORDER BY gift.id DESC]. *)
Definition projected_rows (p : Gift -> bool) (db : Database) : list giftProjection :=
  sort_by (by_keys [fun row => - Gift_ID (Proj_Gift row)])
    (omap (project_gift_row db) (List.filter p (db_gifts db))).

Definition listCustomerGifts (customerID : Z) (direction status : string) (query : Query)
    : G (list giftProjection) :=
  cond <- lift (ApplyIDCursor query "desc") ;;
  exec (fun db =>
    Ok (firstn (Z.to_nat (Query_PageSize query + 1))
          (projected_rows (fun g => listed customerID direction status g && cond (Gift_ID g)) db),
        db)).

Section Listing.
Context (secret : string).

Definition List (claims : option Claims) (query : Query) (direction0 status0 : string)
    : G (list GiftDTO * string) :=
  customerID <- lift (giftCustomerIDWithPermission claims "wine_ticket_gift:list") ;;
  let direction1 := trim_space direction0 in
  let direction := if String.eqb direction1 "" then giftListDirectionOut else direction1 in
  fail_if (negb (validGiftDirection direction))
    (InvalidArgument "VALIDATION_FAILED" "direction must be sent or received") ;;;
  let status := trim_space status0 in
  fail_if (negb (validGiftStatus status))
    (InvalidArgument "VALIDATION_FAILED" "invalid gift status") ;;;
  rows <- listCustomerGifts customerID direction status query ;;
  if Query_PageSize query <? Z.of_nat (List.length rows) then
    let page := firstn (Z.to_nat (Query_PageSize query)) rows in
    match last page with
    | Some row =>
        next <- NextPageTokenWithCursor secret query [IDString (Gift_ID (Proj_Gift row))] ;;
        ret (map giftDTO page, next)
    | None => throw (EMessage "runtime error: index out of range [-1]")
    end
  else ret (map giftDTO rows, "").

(** [GiftHandler.rejectUnknownGiftQuery]; of several unknown parameters Go
    reports any, here the first. *)
Definition rejectUnknownGiftQuery (c : Request) (allowed : list string) : res unit :=
  match find (fun kv => negb (member_of allowed kv.1)) (Req_Query c) with
  | None => Ok tt
  | Some kv => Err (invalid_query ("unknown query parameter: " +:+ kv.1))
  end.

(** [GiftHandler.List], past the authentication *)
Definition handle_list (claims : Claims) (c : Request) : G (list GiftDTO * string) :=
  lift (rejectUnknownGiftQuery c ["direction"; "status"; "page_size"; "page_token"]) ;;;
  query <- FromGin secret c ["wine_ticket_gifts"; Claims_CustomerID claims] ;;
  List (Some claims) query (query_value c "direction") (query_value c "status").
End Listing.
