(* ===== verification/GiftSelection.v ===== *)
(** * Choosing the lots of a gift: first to expire, first out

    [selectGiftFEFO] walks the group in the order of expiry and counts the
    request down; the reference says at once what is taken from each lot. *)

From S2P Require Import Prelude GoInt GoString GoTime Problem CoreModel AssetService GiftModel.
From S2P Require Import AssetLaws AssetLedger Database AssetRepository Samples GiftDto.
From S2P Require Import GiftRepository GiftService.
From Stdlib Require Import String.
#[local] Open Scope string_scope. #[local] Open Scope list_scope. #[local] Open Scope Z_scope.

(** What a lot gives when the lots before it held [before] bottles. *)
Definition fefo_share (quantity before : Z) (lot : Lot) : Z :=
  Z.min (Lot_AvailableQuantity lot) (Z.max 0 (quantity - before)).

(** The selection in closed form. *)
Fixpoint fefo_reference (quantity before : Z) (group : list Lot) : list giftFEFOSelection :=
  match group with
  | [] => []
  | lot :: rest =>
      let share := fefo_share quantity before lot in
      (if share =? 0 then [] else [{| Sel_lot := lot; Sel_quantity := share |}]) ++
      fefo_reference quantity (before + Lot_AvailableQuantity lot) rest
  end.

Definition stock (group : list Lot) : Z := foldr Z.add 0 (map Lot_AvailableQuantity group).

Definition selected_total (selection : list giftFEFOSelection) : Z :=
  foldr Z.add 0 (map Sel_quantity selection).

(** The numbers of a group the database holds. *)
Definition stocked (group : list Lot) : Prop :=
  Forall (fun l => 0 <= Lot_AvailableQuantity l < 2 ^ 32) group.

Lemma stock_nonneg group : stocked group -> 0 <= stock group.
Proof. unfold stock. induction 1; simpl; lia. Qed.

Lemma reference_done quantity group : forall before,
  stocked group -> quantity <= before -> fefo_reference quantity before group = [].
Proof.
  induction group as [|lot group IH]; intros before Hs Hq; [done|].
  inversion Hs; subst. simpl. unfold fefo_share.
  replace (Z.max 0 (quantity - before)) with 0 by lia. rewrite Z.min_r by lia. simpl.
  apply IH; [done|lia].
Qed.

Lemma fefo_loop_reference group : forall quantity before,
  stocked group -> 0 <= quantity - before < u64_mod ->
  fefo_loop group (quantity - before) =
    (fefo_reference quantity before group, Z.max 0 (quantity - before - stock group)).
Proof.
  induction group as [|lot group IH]; intros quantity before Hs Hq; simpl.
  { f_equal. unfold stock. simpl. lia. }
  inversion Hs as [|? ? Hlot Hrest]; subst. pose proof (stock_nonneg _ Hrest) as Hst.
  change (stock (lot :: group)) with (Lot_AvailableQuantity lot + stock group).
  destruct (Z.eqb_spec (quantity - before) 0) as [E|E].
  { rewrite E. unfold fefo_share. rewrite E. simpl. rewrite Z.min_r by lia. simpl.
    rewrite reference_done by (done || lia). f_equal. lia. }
  unfold fefo_share. rewrite (Z.max_r 0 (quantity - before)) by lia.
  replace (if quantity - before <? Lot_AvailableQuantity lot then quantity - before
           else Lot_AvailableQuantity lot)
    with (Z.min (Lot_AvailableQuantity lot) (quantity - before)) by (destruct (_ <? _) eqn:?; lia).
  destruct (Z.eqb_spec (Z.min (Lot_AvailableQuantity lot) (quantity - before)) 0) as [Ez|Ez].
  - assert (Lot_AvailableQuantity lot = 0) as -> by lia. rewrite Z.add_0_r.
    rewrite IH by (done || lia). simpl. f_equal; lia.
  - rewrite uint_sub_small by int_range. simpl.
    destruct (Z.le_gt_cases (quantity - before) (Lot_AvailableQuantity lot)) as [Hle|Hgt].
    + rewrite Z.min_r by lia. replace (quantity - before - (quantity - before)) with (before - before) by lia.
      rewrite (IH before before) by (done || lia).
      rewrite !reference_done by (done || lia). f_equal. lia.
    + rewrite Z.min_l by lia.
      replace (quantity - before - Lot_AvailableQuantity lot)
        with (quantity - (before + Lot_AvailableQuantity lot)) by lia.
      rewrite IH by (done || lia). f_equal. lia.
Qed.

Lemma selectGiftFEFO_reference group quantity :
  stocked group -> 0 <= quantity < u64_mod ->
  selectGiftFEFO group quantity =
    if quantity <=? stock group then Ok (fefo_reference quantity 0 group)
    else Err (Conflict "WT_INSUFFICIENT_QUANTITY"
                "insufficient wine ticket quantity in the selected group").
Proof.
  intros Hs Hq. unfold selectGiftFEFO. rewrite <- (Z.sub_0_r quantity) at 1.
  rewrite fefo_loop_reference by (done || lia). rewrite Z.sub_0_r.
  destruct (Z.leb_spec quantity (stock group)).
  - by rewrite Z.max_l by lia.
  - rewrite Z.max_r by lia. by rewrite (proj2 (Z.eqb_neq _ _)) by lia.
Qed.

Lemma reference_items group : forall quantity before,
  stocked group ->
  Forall (fun i => Sel_lot i ∈ group /\ 0 < Sel_quantity i <= Lot_AvailableQuantity (Sel_lot i))
    (fefo_reference quantity before group).
Proof.
  induction group as [|lot group IH]; intros quantity before Hs; simpl; [constructor|].
  inversion Hs; subst. apply Forall_app. split.
  - destruct (Z.eqb_spec (fefo_share quantity before lot) 0) as [|E]; [constructor|].
    constructor; [simpl|constructor]. split; [by left|].
    unfold fefo_share in *. lia.
  - eapply Forall_impl; [by apply IH|]. simpl. intros i [Hi Hq]. split; [by right|done].
Qed.

Lemma reference_total group : forall quantity before,
  stocked group -> selected_total (fefo_reference quantity before group) =
    Z.min (stock group) (Z.max 0 (quantity - before)).
Proof.
  induction group as [|lot group IH]; intros quantity before Hs; simpl.
  { unfold selected_total, stock. simpl. lia. }
  inversion Hs as [|? ? Hlot Hrest]; subst. pose proof (stock_nonneg _ Hrest).
  assert (Happ : forall l1 l2, selected_total (l1 ++ l2) = selected_total l1 + selected_total l2).
  { unfold selected_total. induction l1 as [|x l1 IH1]; simpl; intros l2; [done|].
    rewrite IH1. lia. }
  rewrite Happ, IH by done.
  change (stock (lot :: group)) with (Lot_AvailableQuantity lot + stock group).
  assert (selected_total (if fefo_share quantity before lot =? 0 then []
            else [{| Sel_lot := lot; Sel_quantity := fefo_share quantity before lot |}]) =
          fefo_share quantity before lot) as ->.
  { destruct (Z.eqb_spec (fefo_share quantity before lot) 0) as [->|]; [done|].
    unfold selected_total. simpl. lia. }
  unfold fefo_share. lia.
Qed.


