(* ===== verification/GiftInvariant.v ===== *)
(** * What a gift operation may do to the database

    [inv] is what every table of the module keeps: the ledger agrees with its
    lots, and the gift tables obey their keys and checks.  [evolves] relates
    the database before and after a run that keeps it and only extends the
    ledger; the lemmas give it for every statement of the gift service. *)

From S2P Require Import Prelude GoInt GoString GoTime Json Problem RequestCtx.
From S2P Require Import CoreModel AssetService GiftModel AssetLaws AssetLedger Database Steps.
From S2P Require Import AssetRepository IntegrityScan Samples AssetTheorems LedgerEntries Idempotency.
From S2P Require Import GiftDto GiftRepository GiftService.
From Stdlib Require Import String.
#[local] Open Scope string_scope. #[local] Open Scope list_scope. #[local] Open Scope Z_scope.
#[local] Open Scope go_scope.

(** ** The keys and checks of a table *)

Definition table_ok (R : Type) `{Table R} (db : Database) : Prop :=
  no_conflict row_conflict (rows db) = true /\
  Forall (fun r : R => row_check r = true) (rows db).

Record inv (db : Database) : Prop := {
  inv_ledger : ledger_ok (view_db db);
  inv_gifts : table_ok Gift db;
  inv_allocations : table_ok GiftAllocation db;
  inv_tokens : table_ok GiftClaimToken db;
}.

Section Tables.
Context {R : Type} `{Table R}.

Lemma table_create_rows (l : list R) r :
  (forall a b : R, row_conflict a b = row_conflict b a) ->
  no_conflict row_conflict l = true -> Forall (fun r => row_check r = true) l ->
  row_check r = true -> (forall r', r' ∈ l -> row_conflict r r' = false) ->
  no_conflict row_conflict (l ++ [r]) = true /\
  Forall (fun r => row_check r = true) (l ++ [r]).
Proof.
  intros Hsym Hc Hr Hrow Hno. split.
  - apply no_conflict_app_one; [done|]. intros y Hy. rewrite Hsym. auto.
  - apply Forall_app. auto.
Qed.

Lemma table_update_rows (l : list R) (p : R -> bool) f :
  Forall (fun r => row_check r = true) l ->
  (forall r, r ∈ l -> p r = true -> row_check (f r) = true) ->
  Forall (fun r => row_check r = true) (map (fun r => if p r then f r else r) l).
Proof.
  rewrite !Forall_forall. intros Hl Hf r Hr. apply list_elem_of_In, in_map_iff in Hr.
  destruct Hr as (x & <- & Hx). apply list_elem_of_In in Hx.
  destruct (p x) eqn:E; auto.
Qed.

(** Rows that share a unique key are one row. *)
Lemma unique_rows {K} `{EqDecision K} (key : R -> K) (l : list R) :
  (forall a b, key a = key b -> row_conflict a b = true) ->
  no_conflict row_conflict l = true -> NoDup (map key l).
Proof.
  intros Hk. induction l as [|x l IH]; simpl; [constructor|].
  rewrite andb_true_iff, negb_true_iff. intros [Hx Hl]. constructor; [|auto].
  intros Hin. apply list_elem_of_In, in_map_iff in Hin as (y & E & Hy).
  apply not_true_iff_false in Hx. apply Hx, existsb_exists. exists y. auto.
Qed.
End Tables.

Lemma gift_ids db : inv db -> NoDup (map Gift_ID (db_gifts db)).
Proof.
  intros Hi. apply (unique_rows Gift_ID (db_gifts db)); [|apply (inv_gifts _ Hi)].
  intros a b E. simpl. by rewrite E, Z.eqb_refl.
Qed.

Lemma allocation_ids db : inv db -> NoDup (map GA_ID (db_gift_allocations db)).
Proof.
  intros Hi. apply (unique_rows GA_ID (db_gift_allocations db)); [|apply (inv_allocations _ Hi)].
  intros a b E. simpl. by rewrite E, Z.eqb_refl.
Qed.

Lemma token_ids db : inv db -> NoDup (map Token_ID (db_gift_tokens db)).
Proof.
  intros Hi. apply (unique_rows Token_ID (db_gift_tokens db)); [|apply (inv_tokens _ Hi)].
  intros a b E. simpl. by rewrite E, Z.eqb_refl.
Qed.

(** ** Runs that keep the invariant *)

Definition evolves (Q : Database -> Database -> Prop) (db db' : Database) : Prop :=
  inv db -> inv db' /\ extends (view_db db) (view_db db') /\ Q db db'.

#[export] Instance evolves_preorder Q `{!PreOrder Q} : PreOrder (evolves Q).
Proof.
  split.
  - intros db Hi. split; [done|]. split; [apply extends_refl|reflexivity].
  - intros a b c H1 H2 Hi. destruct (H1 Hi) as (Hb & E1 & Q1), (H2 Hb) as (Hc & E2 & Q2).
    split; [done|]. split; [by eapply extends_trans|]. by transitivity b.
Qed.

(** A change outside the module's tables. *)
Lemma evolves_outside Q db db' :
  view_db db' = view_db db -> db_gifts db' = db_gifts db ->
  db_gift_allocations db' = db_gift_allocations db ->
  db_gift_tokens db' = db_gift_tokens db -> Q db db' -> evolves Q db db'.
Proof.
  intros Hv Hg Ha Ht HQ [H1 H2 H3 H4]. split; [|split; [rewrite Hv; apply extends_refl|done]].
  split; [by rewrite Hv | | |]; unfold table_ok, rows in *; simpl in *; congruence.
Qed.

(** What the three gift tables hold. *)
Definition gift_tables (db : Database) := (db_gifts db, db_gift_allocations db, db_gift_tokens db).

Abbreviation neutral := (evolves (keep gift_tables)).

Lemma neutral_audit l db : neutral db (set_rows (R:=AuditLog) l db).
Proof. by apply evolves_outside. Qed.

Lemma neutral_outbox l db : neutral db (set_rows (R:=OutboxEvent) l db).
Proof. by apply evolves_outside. Qed.

Lemma neutral_idempotency l db : neutral db (set_rows (R:=IdempotencyRecord) l db).
Proof. by apply evolves_outside. Qed.

#[export] Hint Resolve neutral_audit neutral_outbox neutral_idempotency : steps.

(** ** The service's calls that leave the gift tables alone *)

Lemma steps_gift_write Q `{!PreOrder Q} {A} (m : G A) : steps Q m -> steps Q (gift_write m).
Proof.
  intros Hm w a w' H. unfold gift_write in H. run_step H. destruct a0; run H. by apply Hm in R.
Qed.

Lemma steps_or_missing Q `{!PreOrder Q} {A} e (m : G A) : steps Q m -> steps Q (or_missing e m).
Proof.
  intros Hm w a w' H. unfold or_missing in H. run_step H. destruct a0; run H. by apply Hm in R.
Qed.

Lemma steps_or_error Q `{!PreOrder Q} {A} e (m : G A) : steps Q m -> steps Q (or_error e m).
Proof.
  intros Hm w a w' H. unfold or_error in H. run_step H. destruct a0; run H. by apply Hm in R.
Qed.

Lemma steps_any_fail_if Q `{!PreOrder Q} c e : steps_any Q (fail_if c e).
Proof. intros w r w' H. destruct c; cbv in H; by simplify_eq. Qed.

Lemma steps_any_attempt Q `{!PreOrder Q} {A} (m : G A) : steps_any Q m -> steps_any Q (attempt m).
Proof.
  intros Hm w r w' H. unfold attempt in H. destruct (m w) as [x w1] eqn:E. apply Hm in E.
  by simplify_eq.
Qed.

Lemma steps_any_or_missing Q `{!PreOrder Q} {A} e (m : G A) :
  steps_any Q m -> steps_any Q (or_missing e m).
Proof.
  intros Hm w r w' H. unfold or_missing, bind, attempt in H.
  destruct (m w) as [[a|x] w1] eqn:E; apply Hm in E; cbv in H; by simplify_eq.
Qed.

Lemma steps_any_or_error Q `{!PreOrder Q} {A} e (m : G A) :
  steps_any Q m -> steps_any Q (or_error e m).
Proof.
  intros Hm w r w' H. unfold or_error, bind, attempt in H.
  destruct (m w) as [[a|x] w1] eqn:E; apply Hm in E; cbv in H; by simplify_eq.
Qed.
#[export] Hint Resolve steps_any_fail_if steps_any_or_missing : steps.

Ltac go_step ::=
  lazymatch goal with
  | |- forall x : _, _ => intros ?
  | |- steps _ (bind _ _) => apply steps_bind; [exact _| |]
  | |- steps_any _ (bind _ _) => apply steps_any_bind; [exact _| |]
  | |- steps _ (attempt _) => apply steps_attempt
  | |- steps _ (gift_write _) => apply steps_gift_write; [exact _|]
  | |- steps _ (or_missing _ _) => apply steps_or_missing; [exact _|]
  | |- steps _ (or_error _ _) => apply steps_or_error; [exact _|]
  | |- steps_any _ (attempt _) => apply steps_any_attempt; [exact _|]
  | |- steps_any _ (or_missing _ _) => apply steps_any_or_missing; [exact _|]
  | |- steps_any _ (or_error _ _) => apply steps_any_or_error; [exact _|]
  | |- steps_any _ (let _ := _ in _) => cbv zeta
  | |- steps _ (if ?c then _ else _) => destruct c
  | |- steps_any _ (if ?c then _ else _) => destruct c
  | |- steps _ (match ?c with _ => _ end) => destruct c
  | |- steps_any _ (match ?c with _ => _ end) => destruct c
  | |- steps _ (let _ := _ in _) => cbv zeta
  | _ => solve [eauto 2 with steps
               | apply steps_any_steps; eauto 2 with steps]
  end.

Lemma steps_any_projection Q `{!PreOrder Q} p : steps_any Q (take_projection p).
Proof.
  apply steps_any_exec; [done|]. intros db a db' E. destruct (first_projection _ _ _); by simplify_eq.
Qed.
#[export] Hint Resolve steps_any_projection : steps.

Lemma steps_nowShanghai Q `{!PreOrder Q} : steps Q nowShanghai.
Proof. unfold nowShanghai. go_steps. Qed.
#[export] Hint Resolve steps_nowShanghai : steps.

Lemma create_audit_neutral (r : AuditLog) : steps neutral (createAudit r).
Proof. apply steps_any_steps, steps_any_create; eauto with steps. Qed.

Lemma create_outbox_neutral (r : OutboxEvent) : steps neutral (createOutbox r).
Proof. apply steps_any_steps, steps_any_create; eauto with steps. Qed.

Lemma update_idempotency_neutral p (f : IdempotencyRecord -> IdempotencyRecord) :
  steps_any neutral (update_rows p f).
Proof. apply steps_any_update; eauto with steps. Qed.

Lemma ignore_idempotency_neutral (r : IdempotencyRecord) : steps_any neutral (create_or_ignore r).
Proof. apply steps_any_create_or_ignore; eauto with steps. Qed.

#[export] Hint Resolve create_audit_neutral create_outbox_neutral update_idempotency_neutral
  ignore_idempotency_neutral : steps.

Lemma writeGiftAudit_neutral ctx ty id action gift before after md :
  steps neutral (writeGiftAudit ctx ty id action gift before after md).
Proof. unfold writeGiftAudit. go_steps. Qed.

Lemma writeGiftOutbox_neutral ctx ty gift md : steps neutral (writeGiftOutbox ctx ty gift md).
Proof. unfold writeGiftOutbox. go_steps. Qed.

(** Calls that only read. *)
Lemma requireAdultCustomer_reads Q `{!PreOrder Q} id now : steps Q (requireAdultCustomer id now).
Proof.
  unfold requireAdultCustomer, customerAccount, customerRealname, pendingIdentityVerification.
  go_steps.
Qed.

Lemma cachedIdempotency_reads Q `{!PreOrder Q} id path key :
  steps Q (cachedIdempotency id path key).
Proof. unfold cachedIdempotency, CachedResponse. go_steps. Qed.

Lemma activeRenewal_reads Q `{!PreOrder Q} ids : steps Q (activeRenewalForLots ids).
Proof. unfold activeRenewalForLots. go_steps. Qed.

Lemma validate_reads Q `{!PreOrder Q} gift allocations lots :
  steps Q (validateGiftHoldEvidence gift allocations lots).
Proof. unfold validateGiftHoldEvidence, giftHoldTransactions. go_steps. Qed.

#[export] Hint Resolve requireAdultCustomer_reads cachedIdempotency_reads activeRenewal_reads
  validate_reads : steps.

Lemma startIdempotency_neutral id method path key h :
  steps neutral (startIdempotency id method path key h).
Proof. unfold startIdempotency, StartAt. go_steps. Qed.

Lemma Succeed_neutral ty id path key (d : GiftDTO) : steps neutral (Succeed ty id path key d).
Proof. unfold Succeed. go_steps. Qed.

Lemma fail_quietly_neutral id path key : steps neutral (fail_quietly id path key).
Proof. unfold fail_quietly, Fail. go_steps. Qed.

#[export] Hint Resolve writeGiftAudit_neutral writeGiftOutbox_neutral
  startIdempotency_neutral Succeed_neutral fail_quietly_neutral : steps.

(** Claiming a key changes nothing but the key. *)
Definition but_keys (db : Database) : Database := set_rows (R:=IdempotencyRecord) [] db.

Lemma startIdempotency_keys id method path key h :
  steps (keep but_keys) (startIdempotency id method path key h).
Proof.
  unfold startIdempotency, StartAt. go_steps; apply steps_any_steps;
    [apply steps_any_create_or_ignore|apply steps_any_update]; eauto with steps; done.
Qed.

(** ** The asset operations *)

Lemma asset_neutral ctx op : op_ok op -> steps neutral (asset_op ctx op).
Proof.
  intros Hop w m w' H Hi. destruct (asset_op_effect _ _ _ _ _ H Hop (inv_ledger _ Hi))
    as (Hok & He & Hf).
  pose proof (Hf _ gift_tables (fun _ => eq_refl)) as Hk.
  destruct Hi as [H1 H2 H3 H4]. split; [|by split].
  unfold gift_tables in Hk. injection Hk as Hg Ha Ht.
  split; [done| | |]; unfold table_ok, rows in *; simpl in *; congruence.
Qed.

(** ** Writes to the gift tables *)

Lemma update_one_ok {R} `{Table R} (p : R -> bool) f w u w' :
  update_one p f w = (Ok u, w') ->
  exists r, List.filter p (rows (w_db w)) = [r] /\ row_check (f r) = true /\
    w_db w' = set_rows (map (fun r => if p r then f r else r) (rows (w_db w))) (w_db w).
Proof.
  unfold update_one. intros E. run E. apply negb_false_iff, Z.eqb_eq in G. subst.
  apply update_rows_ok in R0 as (Hc & Hn & Hdb).
  destruct (List.filter p _) as [|r [|? ?]] eqn:F; simpl in Hn; try lia.
  exists r. split; [done|]. split.
  - apply Hc.
    + apply list_elem_of_In. apply (filter_In p r (rows (w_db w))). rewrite F. by left.
    + apply (filter_In p r (rows (w_db w))). rewrite F. by left.
  - by destruct Hdb as [[? _]|[_ ?]].
Qed.

Definition other_than_gifts (db : Database) := (db_gift_allocations db, db_gift_tokens db).
Definition other_than_allocations (db : Database) := (db_gifts db, db_gift_tokens db).
Definition other_than_tokens (db : Database) := (db_gifts db, db_gift_allocations db).

Section Writes.
Lemma steps_update_one {R} `{Table R} Q `{!PreOrder Q} (p : R -> bool) f :
  steps_any Q (update_rows p f) -> steps Q (update_one p f).
Proof. intros Hu. unfold update_one. go_steps. Qed.

Lemma update_gift_evolves id v f :
  steps (evolves (keep other_than_gifts)) (updateGift id v f).
Proof.
  apply steps_update_one; [exact _|]. apply steps_any_update; [exact _|].
  intros db Hc Hn [H1 H2 H3 H4]. split; [|split; [apply extends_refl|done]].
  split; auto. split; [done|]. by apply table_update_rows; [apply H2|].
Qed.

Lemma update_allocation_evolves id f :
  steps (evolves (keep other_than_allocations)) (updateGiftAllocation id f).
Proof.
  apply steps_update_one; [exact _|]. apply steps_any_update; [exact _|].
  intros db Hc Hn [H1 H2 H3 H4]. split; [|split; [apply extends_refl|done]].
  split; auto. split; [done|]. by apply table_update_rows; [apply H3|].
Qed.

Lemma update_token_evolves id f :
  steps (evolves (keep other_than_tokens)) (updateGiftToken id f).
Proof.
  apply steps_update_one; [exact _|]. apply steps_any_update; [exact _|].
  intros db Hc Hn [H1 H2 H3 H4]. split; [|split; [apply extends_refl|done]].
  split; auto. split; [done|]. by apply table_update_rows; [apply H4|].
Qed.

Lemma create_gift_evolves g : steps (evolves (keep other_than_gifts)) (createGift g).
Proof.
  apply steps_any_steps, steps_any_create; [exact _|].
  intros db Hr Hno [H1 H2 H3 H4]. split; [|split; [apply extends_refl|done]].
  split; auto. apply table_create_rows; auto; [|apply H2..].
  intros a b. simpl. by rewrite (Z.eqb_sym (Gift_ID a)), (String.eqb_sym (Gift_GiftNo a)).
Qed.

Lemma create_allocation_evolves a :
  steps (evolves (keep other_than_allocations)) (createGiftAllocation a).
Proof.
  apply steps_any_steps, steps_any_create; [exact _|].
  intros db Hr Hno [H1 H2 H3 H4]. split; [|split; [apply extends_refl|done]].
  split; auto. apply table_create_rows; auto; [|apply H3..].
  intros x y. simpl. rewrite (Z.eqb_sym (GA_ID x)), (Z.eqb_sym (GA_GiftID x)),
    (Z.eqb_sym (GA_SourceLotID x)). unfold same_option.
  destruct (GA_ReceiverLotID x), (GA_ReceiverLotID y); auto. by rewrite (Z.eqb_sym z).
Qed.

Lemma create_token_evolves t : steps (evolves (keep other_than_tokens)) (createGiftToken t).
Proof.
  apply steps_any_steps, steps_any_create; [exact _|].
  intros db Hr Hno [H1 H2 H3 H4]. split; [|split; [apply extends_refl|done]].
  split; auto. apply table_create_rows; auto; [|apply H4..].
  intros a b. simpl. by rewrite (Z.eqb_sym (Token_ID a)), (String.eqb_sym (Token_TokenDigest a)).
Qed.
End Writes.

(** A run that keeps more keeps less. *)
Lemma steps_weaken (Q1 Q2 : Database -> Database -> Prop) {A} (m : G A) :
  (forall db db', Q1 db db' -> Q2 db db') -> steps Q1 m -> steps Q2 m.
Proof. intros HQ Hm w a w' H. by apply HQ, (Hm _ _ _ H). Qed.

Lemma evolves_weaken Q1 Q2 db db' :
  (Q1 db db' -> Q2 db db') -> evolves Q1 db db' -> evolves Q2 db db'.
Proof. intros HQ H Hi. destruct (H Hi) as (? & ? & ?). auto. Qed.
