(* ===== verification/GiftState.v ===== *)
(** * The state of a gift

    What the tables hold for a gift in each of its states ([gift_good]), and
    how the loops of the service over allocations and tokens change them. *)

From S2P Require Import Prelude GoInt GoString GoTime Json Problem RequestCtx.
From S2P Require Import CoreModel AssetService GiftModel AssetLaws AssetLedger Database Steps.
From S2P Require Import AssetRepository IntegrityScan Samples AssetTheorems LedgerEntries Idempotency.
From S2P Require Import GiftDto GiftRepository GiftService GiftInvariant.
From Stdlib Require Import String.
#[local] Open Scope string_scope. #[local] Open Scope list_scope. #[local] Open Scope Z_scope.
#[local] Open Scope go_scope.

(** ** Ledger entries of a gift *)

Definition gift_entry (v : AssetView) (ty key : string) (giftID lotID delta : Z) : Prop :=
  ledger_entry v "gift" ty key giftID lotID delta.

(** The bottles of an allocation were taken out of its source lot. *)
Definition held (v : AssetView) (g : Gift) (a : GiftAllocation) : Prop :=
  gift_entry v TransactionTypeGiftHold (gift_hold_key (Gift_ID g) (GA_SourceLotID a))
    (Gift_ID g) (GA_SourceLotID a) (- GA_Quantity a).

(** They were put back. *)
Definition returned (v : AssetView) (g : Gift) (a : GiftAllocation) : Prop :=
  gift_entry v TransactionTypeGiftRestore (gift_restore_key (Gift_ID g) (GA_SourceLotID a))
    (Gift_ID g) (GA_SourceLotID a) (GA_Quantity a).

(** They became a lot of the receiver, of the lineage of the source.  (A zero
    identifier would make [Issue] draw another one.) *)
Definition credited (v : AssetView) (g : Gift) (a : GiftAllocation) (receiver lotID : Z) : Prop :=
  exists lot, lot ∈ v_lots v /\ (lotID <> 0 -> Lot_ID lot = lotID) /\
    Lot_OwnerCustomerID lot = receiver /\ Lot_SourceType lot = LotSourceGift /\
    Lot_SourceLotID lot = Some (GA_SourceLotID a) /\ Lot_SourceGiftID lot = Some (Gift_ID g) /\
    Lot_ProductID lot = Gift_ProductID g /\ Lot_TotalQuantity lot = GA_Quantity a /\
    gift_entry v TransactionTypeGiftClaim (gift_claim_key (Gift_ID g) lotID) (Gift_ID g)
      (Lot_ID lot) (GA_Quantity a).

Lemma gift_entry_extends v v' ty key g l d :
  extends v v' -> gift_entry v ty key g l d -> gift_entry v' ty key g l d.
Proof. apply ledger_entry_extends. Qed.

Lemma credited_extends v v' g a r l : extends v v' -> credited v g a r l -> credited v' g a r l.
Proof.
  intros He (lot & Hin & Hid & Ho & Hst & Hsl & Hsg & Hp & Ht & Hent).
  destruct (proj2 He _ Hin) as (lot' & Hin' & Hs). exists lot'.
  apply (gift_entry_extends _ v') in Hent; [|done].
  unfold same_lot in Hs.
  destruct Hs as (E1 & _ & E2 & _ & E3 & E4 & E5 & _ & E6 & _ & E7 & _).
  rewrite E1, E2, E3, E4, E5, E6, E7. auto 10.
Qed.

Lemma gift_write_ok {A} (m : G A) w a w' : gift_write m w = (Ok a, w') -> m w = (Ok a, w').
Proof. unfold gift_write. intros H. run_step H. destruct a0; run H. done. Qed.

Lemma hold_entry ctx customerID giftID item now w m w' :
  Freeze assets ctx asset_ledger (hold_command customerID giftID item now) w = (Ok m, w') ->
  0 <= Sel_quantity item < 2 ^ 32 -> inv (w_db w) ->
  gift_entry (view_db (w_db w')) TransactionTypeGiftHold
    (gift_hold_key giftID (Lot_ID (Sel_lot item))) giftID (Lot_ID (Sel_lot item))
    (- Sel_quantity item).
Proof.
  intros H Hq Hi.
  by apply (debit_entry_written ctx (hold_command customerID giftID item now)) in H;
    [|done|apply inv_ledger].
Qed.

Lemma restore_entry_written ctx gift source q now w m w' :
  Restore assets ctx asset_ledger (restore_command gift source q now) w = (Ok m, w') ->
  0 <= q < 2 ^ 32 -> inv (w_db w) ->
  gift_entry (view_db (w_db w')) TransactionTypeGiftRestore
    (gift_restore_key (Gift_ID gift) (Lot_ID source)) (Gift_ID gift) (Lot_ID source) q.
Proof.
  intros H Hq Hi.
  by apply (Restore_entry_written ctx (restore_command gift source q now)) in H;
    [|done|apply inv_ledger].
Qed.

Lemma claim_entry ctx gift a source lotID customerID now w m w' :
  let lot := receiver_lot gift a source lotID customerID now in
  Transfer assets ctx (Some NewTransactionAssetRepository) (claim_command gift lot now) w =
    (Ok m, w') ->
  0 <= GA_Quantity a < 2 ^ 32 -> inv (w_db w) ->
  Lot_ID source = GA_SourceLotID a -> Lot_ProductID source = Gift_ProductID gift ->
  credited (view_db (w_db w')) gift a customerID lotID.
Proof.
  intros lot H Hq Hi Hs Hp. apply Transfer_ok in H as (_ & _ & _ & H).
  destruct (Issue_ok asset_view asset_frame NewTransactionAssetRepository next_id time_now
              _ _ _ _ _ H) as [_ [(Hw & Hr & Hl)|(new & t & Hd)]].
  { split; simpl; [lia|by right]. }
  - change (view_db (w_db w')) with (asset_view w'). rewrite Hw.
    destruct Hr as [_ Hin Hrid (t & _ & Ht & Hk & Htl & Hty & Hbt & Hbi & Hd)]. simpl in *.
    rewrite i64_small in Hd by int_range. exists (Mutation_Lot m).
    unfold sameLotLineage in Hl. simpl in Hl. rewrite !andb_true_iff in Hl.
    destruct Hl as [[[[[[[[[L1 L2] L3] L4] L5] L6] L7] L8] L9] L10].
    apply String.eqb_eq in L3. unfold sameOptionalID in L4, L5.
    destruct (Lot_SourceLotID (Mutation_Lot m)); [|done].
    destruct (Lot_SourceGiftID (Mutation_Lot m)); [|done].
    split; [done|]. split; [done|]. repeat split; auto; try lia; try (f_equal; lia).
    exists t. auto 10.
  - change (view_db (w_db w')) with (asset_view w'). destruct Hd. rewrite issue_view.
    destruct issue_lot as (newID & now' & ->). exists (issued_lot lot newID now').
    destruct issue_entry. simpl in *. rewrite !elem_of_app, !list_elem_of_singleton.
    split; [by right|]. split; [intros Hz; by rewrite (proj2 (Z.eqb_neq _ _) Hz)|].
    repeat split; auto; [by rewrite Hs|].
    exists t. simpl. rewrite elem_of_app, list_elem_of_singleton. intuition auto.
Qed.

(** ** What the tables hold for a gift *)

Definition allocations_of (db : Database) (id : Z) : list GiftAllocation :=
  List.filter (fun a => GA_GiftID a =? id) (db_gift_allocations db).

Definition tokens_of (db : Database) (id : Z) : list GiftClaimToken :=
  List.filter (fun t => Token_GiftID t =? id) (db_gift_tokens db).

Definition total (l : list GiftAllocation) : Z := foldr Z.add 0 (map GA_Quantity l).

Definition open_allocation (a : GiftAllocation) : Prop :=
  GA_Status a = GiftAllocationStatusHeld /\ GA_ReceiverLotID a = None.

Definition claimed_allocation (v : AssetView) (g : Gift) (receiver : Z) (a : GiftAllocation)
    : Prop :=
  GA_Status a = GiftAllocationStatusClaimed /\
  exists lotID, GA_ReceiverLotID a = Some lotID /\ credited v g a receiver lotID.

Definition restored_allocation (v : AssetView) (g : Gift) (a : GiftAllocation) : Prop :=
  GA_Status a = GiftAllocationStatusRestored /\ GA_ReceiverLotID a = None /\ returned v g a.

(** A token that can no longer be used. *)
Definition closed_token (t : GiftClaimToken) : Prop :=
  Token_ConsumedAt t <> None \/ Token_RevokedAt t <> None.

(** The four states of a gift: its row, its allocations and its tokens. *)
Inductive gift_state (v : AssetView) (g : Gift) (allocations : list GiftAllocation)
    (tokens : list GiftClaimToken) : Prop :=
| state_pending :
    Gift_Status g = GiftStatusPending -> Gift_ReceiverCustomerID g = None ->
    Gift_ClaimedAt g = None -> Gift_CancelledAt g = None -> Gift_ReturnedAt g = None ->
    Forall open_allocation allocations -> gift_state v g allocations tokens
| state_claimed receiver at_ :
    Gift_Status g = GiftStatusClaimed -> Gift_ReceiverCustomerID g = Some receiver ->
    receiver <> Gift_GiverCustomerID g -> Gift_ClaimedAt g = Some at_ ->
    at_ < Gift_ClaimDeadline g -> Gift_CancelledAt g = None -> Gift_ReturnedAt g = None ->
    Forall (claimed_allocation v g receiver) allocations -> Forall closed_token tokens ->
    gift_state v g allocations tokens
| state_cancelled at_ :
    Gift_Status g = GiftStatusCancelled -> Gift_ReceiverCustomerID g = None ->
    Gift_ClaimedAt g = None -> Gift_CancelledAt g = Some at_ -> Gift_ReturnedAt g = Some at_ ->
    at_ < Gift_ClaimDeadline g ->
    Forall (restored_allocation v g) allocations -> Forall closed_token tokens ->
    gift_state v g allocations tokens
| state_expired at_ :
    Gift_Status g = GiftStatusExpiredReturned -> Gift_ReceiverCustomerID g = None ->
    Gift_ClaimedAt g = None -> Gift_CancelledAt g = None -> Gift_ReturnedAt g = Some at_ ->
    Gift_ClaimDeadline g <= at_ ->
    Forall (restored_allocation v g) allocations -> Forall closed_token tokens ->
    gift_state v g allocations tokens.

Record gift_good (db : Database) (g : Gift) : Prop := {
  good_held : Forall (held (view_db db) g) (allocations_of db (Gift_ID g));
  good_total : total (allocations_of db (Gift_ID g)) = Gift_Quantity g;
  good_state : gift_state (view_db db) g (allocations_of db (Gift_ID g))
                 (tokens_of db (Gift_ID g));
}.

(** The invariant of the gift tables. *)
Record gifts_ok (db : Database) : Prop := {
  gifts_inv : inv db;
  gifts_good : Forall (gift_good db) (db_gifts db);
  gifts_allocations : forall a, a ∈ db_gift_allocations db ->
    exists g, g ∈ db_gifts db /\ Gift_ID g = GA_GiftID a;
  gifts_tokens : forall t, t ∈ db_gift_tokens db ->
    exists g, g ∈ db_gifts db /\ Gift_ID g = Token_GiftID t;
}.

Lemma claimed_extends v v' g r a :
  extends v v' -> claimed_allocation v g r a -> claimed_allocation v' g r a.
Proof. intros He (Hs & lotID & Hl & Hc). split; [done|]. eauto using credited_extends. Qed.

Lemma restored_extends v v' g a :
  extends v v' -> restored_allocation v g a -> restored_allocation v' g a.
Proof.
  intros He (Hs & Hl & Hr). split; [done|]. split; [done|]. by eapply gift_entry_extends.
Qed.

Lemma gift_state_extends v v' g l tokens :
  extends v v' -> gift_state v g l tokens -> gift_state v' g l tokens.
Proof.
  intros He []; [by apply state_pending | eapply state_claimed | eapply state_cancelled
                | eapply state_expired]; eauto; eapply Forall_impl; eauto;
    simpl; eauto using claimed_extends, restored_extends.
Qed.

Lemma gift_good_extends db db' g :
  extends (view_db db) (view_db db') ->
  allocations_of db' (Gift_ID g) = allocations_of db (Gift_ID g) ->
  tokens_of db' (Gift_ID g) = tokens_of db (Gift_ID g) -> gift_good db g -> gift_good db' g.
Proof.
  intros He Ha Ht [H1 H2 H3]. split; rewrite ?Ha, ?Ht; [|done|by eapply gift_state_extends].
  eapply Forall_impl; [exact H1|]. simpl. intros a. by apply gift_entry_extends.
Qed.

(** A run that changed one gift, or added it, keeps the invariant when it
    leaves that gift good. *)
Lemma gifts_ok_change db db' g :
  gifts_ok db -> inv db' -> extends (view_db db) (view_db db') ->
  (forall x, x ∈ db_gifts db' -> x = g \/ x ∈ db_gifts db /\ Gift_ID x <> Gift_ID g) ->
  (forall x, x ∈ db_gifts db -> Gift_ID x <> Gift_ID g -> x ∈ db_gifts db') ->
  g ∈ db_gifts db' ->
  (forall a, a ∈ db_gift_allocations db' -> GA_GiftID a = Gift_ID g \/ a ∈ db_gift_allocations db) ->
  (forall id, id <> Gift_ID g -> allocations_of db' id = allocations_of db id) ->
  (forall t, t ∈ db_gift_tokens db' -> Token_GiftID t = Gift_ID g \/ t ∈ db_gift_tokens db) ->
  (forall id, id <> Gift_ID g -> tokens_of db' id = tokens_of db id) ->
  gift_good db' g -> gifts_ok db'.
Proof.
  intros [Hi Hgood Hal Htk] Hi' He Hg1 Hg2 Hg Ha1 Ha2 Ht1 Ht2 Hnew.
  assert (Hown : forall id, (exists x, x ∈ db_gifts db /\ Gift_ID x = id) ->
                 exists x, x ∈ db_gifts db' /\ Gift_ID x = id).
  { intros id (x & Hx & <-). destruct (Z.eq_dec (Gift_ID x) (Gift_ID g)) as [->|E]; eauto. }
  split; [done| | |].
  - apply Forall_forall. intros x Hx. destruct (Hg1 x Hx) as [->|[Hx' E]]; [done|].
    rewrite Forall_forall in Hgood. apply (gift_good_extends db); auto.
  - intros a Ha. destruct (Ha1 a Ha) as [->|Ha']; eauto.
  - intros t Ht. destruct (Ht1 t Ht) as [->|Ht']; eauto.
Qed.
