(* ===== verification/GiftRuns.v ===== *)
(** * The gift operations keep the gifts good

    What the loops over allocations and tokens and the update of the gift row
    do to the tables, and from that, that each operation that changes a gift
    leaves it in a state of [GiftState]. *)

From S2P Require Import Prelude GoInt GoString GoTime Json Problem RequestCtx.
From S2P Require Import CoreModel AssetService GiftModel AssetLaws AssetLedger Database Steps.
From S2P Require Import AssetRepository IntegrityScan Samples AssetTheorems LedgerEntries Idempotency.
From S2P Require Import GiftDto GiftRepository GiftService GiftSelection GiftInvariant GiftState.
From Stdlib Require Import String.
#[local] Open Scope string_scope. #[local] Open Scope list_scope. #[local] Open Scope Z_scope.
#[local] Open Scope go_scope.

(** ** Rows read under the lock *)

Lemma giftLotMap_in lots : forall (m : gmap Z Lot) id l,
  fold_left (fun (m : gmap Z Lot) l => <[Lot_ID l := l]> m) lots m !! id = Some l ->
  (Lot_ID l = id /\ l ∈ lots) \/ m !! id = Some l.
Proof.
  induction lots as [|x lots IH]; simpl; intros m id l H; [by right|].
  apply IH in H as [[H1 H2]|H]; [left; by rewrite elem_of_cons; auto|].
  destruct (Z.eq_dec (Lot_ID x) id) as [<-|E].
  - rewrite lookup_insert_eq in H. simplify_eq. left. rewrite elem_of_cons. auto.
  - rewrite lookup_insert_ne in H by done. auto.
Qed.

Lemma giftLotMap_id lots id l : giftLotMap lots !! id = Some l -> Lot_ID l = id /\ l ∈ lots.
Proof.
  unfold giftLotMap. intros H. apply giftLotMap_in in H as [H|H]; [done|].
  by rewrite lookup_empty in H.
Qed.

Lemma allocation_quantity db a :
  inv db -> a ∈ db_gift_allocations db -> 0 < GA_Quantity a < 2 ^ 32.
Proof.
  intros Hi Ha. destruct (inv_allocations _ Hi) as [_ Hr]. rewrite Forall_forall in Hr.
  specialize (Hr a Ha). simpl in Hr. unfold allocation_row_check, fits_uint32 in Hr.
  rewrite !andb_true_iff in Hr. lia.
Qed.

Lemma update_allocation_rows id f w u w' :
  updateGiftAllocation id f w = (Ok u, w') -> (forall a, GA_ID (f a) = GA_ID a) ->
  forall x, GA_ID x = id -> row_changed GA_ID x f (w_db w) (w_db w').
Proof.
  intros H Hf x <-. apply update_one_ok in H as (r & _ & _ & ->). by split.
Qed.

Lemma update_token_rows id f w u w' :
  updateGiftToken id f w = (Ok u, w') -> (forall t, Token_ID (f t) = Token_ID t) ->
  forall x, Token_ID x = id -> row_changed Token_ID x f (w_db w) (w_db w').
Proof.
  intros H Hf x <-. apply update_one_ok in H as (r & _ & _ & ->). by split.
Qed.

(** ** The loops *)

(** What a loop that started in [db0] and writes one gift table keeps. *)
Definition since {X} (other : Database -> X) (db0 db : Database) : Prop :=
  inv db /\ extends (view_db db0) (view_db db) /\ other db = other db0.

Lemma since_step {X} (other : Database -> X) db0 db db' :
  since other db0 db -> evolves (keep other) db db' -> since other db0 db'.
Proof.
  intros (Hi & He & Ho) H. destruct (H Hi) as (Hi' & He' & Ho'). unfold keep in Ho'.
  split; [done|]. split; [by eapply extends_trans|congruence].
Qed.

Lemma since_start {X} (other : Database -> X) db : inv db -> since other db db.
Proof. intros Hi. split; [done|]. split; [apply extends_refl|done]. Qed.

(** A run that leaves the three tables alone leaves any part of them alone. *)
Lemma neutral_keeps {X} (other : Database -> X) db db' :
  (forall a b, gift_tables a = gift_tables b -> other a = other b) ->
  neutral db db' -> evolves (keep other) db db'.
Proof. intros Ho. apply evolves_weaken. unfold keep. auto. Qed.

Definition claimed_row (customerID : Z) (gift : Gift) (now : time) (db : Database)
    (a a' : GiftAllocation) : Prop :=
  exists lotID, a' = allocation_claimed lotID now a /\ open_allocation a /\
    credited (view_db db) gift a customerID lotID.

Definition restored_row (gift : Gift) (now : time) (db : Database) (a a' : GiftAllocation)
    : Prop :=
  a' = allocation_restored now a /\ open_allocation a /\ returned (view_db db) gift a.

Lemma open_guard (a : GiftAllocation) :
  negb (String.eqb (GA_Status a) GiftAllocationStatusHeld) ||
  negb (bool_decide (GA_ReceiverLotID a = None)) = false -> open_allocation a.
Proof.
  rewrite orb_false_iff, !negb_false_iff, bool_decide_eq_true. intros [H1 H2].
  apply String.eqb_eq in H1. by split.
Qed.

(** One turn of the loop of [Claim]. *)
Lemma claim_turn ctx customerID gift lots now db0 a w1 w2 :
  claim_allocation ctx customerID gift (giftLotMap lots) now a w1 = (Ok tt, w2) ->
  since other_than_allocations db0 (w_db w1) -> a ∈ db_gift_allocations (w_db w1) ->
  since other_than_allocations db0 (w_db w2) /\
  extends (view_db (w_db w1)) (view_db (w_db w2)) /\
  exists f, row_changed GA_ID a f (w_db w1) (w_db w2) /\
    claimed_row customerID gift now (w_db w2) a (f a).
Proof.
  intros H Hs Ha. unfold claim_allocation in H. run_step H. apply open_guard in G.
  destruct (giftLotMap lots !! GA_SourceLotID a) as [source|] eqn:Es; [|by run H].
  apply giftLotMap_id in Es as [Es _]. run_step H. apply negb_false_iff in G0.
  unfold source_lineage in G0. rewrite !andb_true_iff, !Z.eqb_eq in G0.
  destruct G0 as [[[[_ _] Hp] _] _].
  run_step H. apply next_id_db in R. rename a0 into lotID. rewrite <- R in Hs, Ha |- *.
  destruct Hs as (Hi & He & Ho). pose proof (allocation_quantity _ _ Hi Ha) as Hq.
  run_step H. rename R0 into Ht. apply gift_write_ok in Ht.
  pose proof (claim_entry _ _ _ _ _ _ _ _ _ _ Ht ltac:(lia) Hi Es Hp) as Hc.
  assert (Hn : neutral (w_db w) (w_db w0)).
  { eapply (asset_neutral ctx (OpTransfer (claim_command gift
      (receiver_lot gift a source lotID customerID now) now))); [|exact Ht].
    split; simpl; [lia|by right]. }
  destruct (Hn Hi) as (Hi0 & He0 & Hk0). unfold keep, gift_tables in Hk0.
  pose proof (update_allocation_evolves _ _ _ _ _ H) as Hu. destruct (Hu Hi0) as (Hi2 & He2 & Hk2).
  assert (Hrows : db_gift_allocations (w_db w0) = db_gift_allocations (w_db w)) by congruence.
  split.
  { split; [done|]. split; [eauto using extends_trans|]. unfold keep in *.
    unfold other_than_allocations, gift_tables in *. congruence. }
  split; [by eapply extends_trans|].
  exists (allocation_claimed lotID now). split.
  - destruct (update_allocation_rows _ _ _ _ _ H ltac:(done) a eq_refl) as [Hr Hf].
    split; [|done]. simpl in Hr |- *. by rewrite Hr, Hrows.
  - exists lotID. split; [done|]. split; [done|]. by eapply credited_extends.
Qed.

(** One turn of the loop of [restoreGiftLocked]. *)
Lemma restore_turn ctx gift lots now db0 a w1 w2 :
  restore_allocation ctx gift (giftLotMap lots) now a w1 = (Ok tt, w2) ->
  since other_than_allocations db0 (w_db w1) -> a ∈ db_gift_allocations (w_db w1) ->
  since other_than_allocations db0 (w_db w2) /\
  extends (view_db (w_db w1)) (view_db (w_db w2)) /\
  exists f, row_changed GA_ID a f (w_db w1) (w_db w2) /\
    restored_row gift now (w_db w2) a (f a).
Proof.
  intros H Hs Ha. unfold restore_allocation in H. run_step H. apply open_guard in G.
  destruct (giftLotMap lots !! GA_SourceLotID a) as [source|] eqn:Es; [|by run H].
  apply giftLotMap_id in Es as [Es _]. do 2 run_step H.
  destruct Hs as (Hi & He & Ho). pose proof (allocation_quantity _ _ Hi Ha) as Hq.
  run_step H. rename R into Ht. apply gift_write_ok in Ht.
  pose proof (restore_entry_written _ _ _ _ _ _ _ _ Ht ltac:(lia) Hi) as Hc.
  assert (Hn : neutral (w_db w1) (w_db w)).
  { eapply (asset_neutral ctx (OpRestore (restore_command gift source (GA_Quantity a) now)));
      [|exact Ht]. unfold op_ok, quantity_ok. simpl. lia. }
  destruct (Hn Hi) as (Hi0 & He0 & Hk0). unfold keep, gift_tables in Hk0.
  pose proof (update_allocation_evolves _ _ _ _ _ H) as Hu. destruct (Hu Hi0) as (Hi2 & He2 & Hk2).
  split.
  { split; [done|]. split; [eauto using extends_trans|]. unfold keep in *.
    unfold other_than_allocations, gift_tables in *. congruence. }
  split; [by eapply extends_trans|].
  exists (allocation_restored now). split.
  - destruct (update_allocation_rows _ _ _ _ _ H ltac:(done) a eq_refl) as [Hr Hf].
    split; [|done]. simpl in Hr |- *.
    assert (Hrows : db_gift_allocations (w_db w) = db_gift_allocations (w_db w1)) by congruence.
    by rewrite Hr, Hrows.
  - split; [done|]. split; [done|]. rewrite Es in Hc. by eapply gift_entry_extends.
Qed.

(** The rows read with [lockGiftAllocations] and [lockGiftTokens]. *)
Definition locked_allocations (db : Database) (id : Z) : list GiftAllocation :=
  sort_by (by_keys [GA_ID]) (allocations_of db id).
Definition locked_tokens (db : Database) (id : Z) : list GiftClaimToken :=
  sort_by (by_keys [Token_ID]) (tokens_of db id).

Lemma locked_allocations_spec db id a :
  a ∈ locked_allocations db id <-> a ∈ db_gift_allocations db /\ GA_GiftID a = id.
Proof. unfold locked_allocations, allocations_of. by rewrite selected_rows, Z.eqb_eq. Qed.

Lemma locked_tokens_spec db id t :
  t ∈ locked_tokens db id <-> t ∈ db_gift_tokens db /\ Token_GiftID t = id.
Proof. unfold locked_tokens, tokens_of. by rewrite selected_rows, Z.eqb_eq. Qed.

(** What a loop over the allocations of a gift did to the table. *)
Record allocations_changed (db db' : Database) (id : Z)
    (E : GiftAllocation -> GiftAllocation -> Prop) : Prop := {
  ac_since : since other_than_allocations db db';
  ac_others : forall i, i <> id -> allocations_of db' i = allocations_of db i;
  ac_own : Forall2 E (allocations_of db id) (allocations_of db' id);
  ac_old : forall a, a ∈ db_gift_allocations db' -> GA_GiftID a = id \/ a ∈ db_gift_allocations db;
}.

Lemma allocations_loop (body : GiftAllocation -> G unit)
    (E : Database -> GiftAllocation -> GiftAllocation -> Prop) id w w' :
  for_each (locked_allocations (w_db w) id) body w = (Ok tt, w') -> inv (w_db w) ->
  (forall db a a', E db a a' -> GA_GiftID a' = GA_GiftID a) ->
  (forall db db' a a', extends (view_db db) (view_db db') -> E db a a' -> E db' a a') ->
  (forall a w1 w2, body a w1 = (Ok tt, w2) ->
    since other_than_allocations (w_db w) (w_db w1) -> a ∈ db_gift_allocations (w_db w1) ->
    since other_than_allocations (w_db w) (w_db w2) /\
    extends (view_db (w_db w1)) (view_db (w_db w2)) /\
    exists f, row_changed GA_ID a f (w_db w1) (w_db w2) /\ E (w_db w2) a (f a)) ->
  allocations_changed (w_db w) (w_db w') id (E (w_db w')).
Proof.
  intros H Hi Hown Hmono Hturn.
  destruct (loop_rows GA_ID body (since other_than_allocations (w_db w)) E) with (2 := H)
    as (Hs & _ & Hch).
  - intros a w1 w2 Hb Hs Ha. destruct (Hturn a w1 w2 Hb Hs Ha) as (Hs2 & He & Hf). eauto.
  - by apply since_start.
  - apply selected_keys. by apply allocation_ids.
  - by apply allocation_ids.
  - intros a Ha. by apply locked_allocations_spec in Ha as [? _].
  - destruct (owned_changed GA_ID GA_GiftID id (E (w_db w')) ltac:(eauto) _ _ _ Hch)
      as (H1 & H2 & H3).
    + by apply allocation_ids.
    + intros a. apply locked_allocations_spec.
    + by split.
Qed.

(** A token after its loop: closed, and otherwise the same. *)
Definition closed_row (t t' : GiftClaimToken) : Prop :=
  closed_token t' /\ Token_GiftID t' = Token_GiftID t /\
  Token_TokenDigest t' = Token_TokenDigest t.

Record tokens_changed (db db' : Database) (id : Z) (E : GiftClaimToken -> GiftClaimToken -> Prop)
    : Prop := {
  tc_since : since other_than_tokens db db';
  tc_others : forall i, i <> id -> tokens_of db' i = tokens_of db i;
  tc_own : Forall2 E (tokens_of db id) (tokens_of db' id);
  tc_old : forall t, t ∈ db_gift_tokens db' -> Token_GiftID t = id \/ t ∈ db_gift_tokens db;
}.

Lemma tokens_loop (body : GiftClaimToken -> G unit) (E : GiftClaimToken -> GiftClaimToken -> Prop)
    id w w' :
  for_each (locked_tokens (w_db w) id) body w = (Ok tt, w') -> inv (w_db w) ->
  (forall t t', E t t' -> Token_GiftID t' = Token_GiftID t) ->
  (forall t w1 w2, body t w1 = (Ok tt, w2) ->
    evolves (keep other_than_tokens) (w_db w1) (w_db w2) /\
    exists f, row_changed Token_ID t f (w_db w1) (w_db w2) /\ E t (f t)) ->
  tokens_changed (w_db w) (w_db w') id E.
Proof.
  intros H Hi Hown Hturn.
  destruct (loop_rows Token_ID body (since other_than_tokens (w_db w)) (fun _ => E)) with (2 := H)
    as (Hs & _ & Hch).
  - intros t w1 w2 Hb Hs Ht. destruct (Hturn t w1 w2 Hb) as (Hev & Hf).
    split; [by eapply since_step|]. by split.
  - by apply since_start.
  - apply selected_keys. by apply token_ids.
  - by apply token_ids.
  - intros t Ht. by apply locked_tokens_spec in Ht as [? _].
  - destruct (owned_changed Token_ID Token_GiftID id E ltac:(eauto) _ _ _ Hch) as (H1 & H2 & H3).
    + by apply token_ids.
    + intros t. apply locked_tokens_spec.
    + by split.
Qed.

Lemma token_update_turn t f w1 w2 :
  updateGiftToken (Token_ID t) f w1 = (Ok tt, w2) -> (forall t, Token_ID (f t) = Token_ID t) ->
  evolves (keep other_than_tokens) (w_db w1) (w_db w2) /\
  row_changed Token_ID t f (w_db w1) (w_db w2).
Proof.
  intros H Hf. split; [by eapply update_token_evolves in H|]. by eapply update_token_rows.
Qed.

Lemma row_kept {Row} `{Table Row} (key : Row -> Z) (x : Row) db :
  row_changed key x (fun r => r) db db.
Proof.
  split; [|done]. symmetry. rewrite <- (map_id (rows db)) at 2. apply map_ext.
  intros r. by destruct (_ =? _).
Qed.

Lemma revoke_turn now t w1 w2 :
  revoke_open_token now t w1 = (Ok tt, w2) ->
  evolves (keep other_than_tokens) (w_db w1) (w_db w2) /\
  exists f, row_changed Token_ID t f (w_db w1) (w_db w2) /\ closed_row t (f t).
Proof.
  unfold revoke_open_token. intros H. destruct (_ && _) eqn:Ho.
  - apply token_update_turn in H as [He Hr]; [|done]. split; [done|].
    exists (token_revoked now). split; [done|]. by repeat split; right.
  - run H. split; [reflexivity|]. exists (fun r => r). split; [apply row_kept|].
    repeat split. apply andb_false_iff in Ho as [Ho|Ho]; apply bool_decide_eq_false in Ho;
      [by left|by right].
Qed.

Lemma settle_turn matched now t w1 w2 :
  settle_token matched now t w1 = (Ok tt, w2) ->
  evolves (keep other_than_tokens) (w_db w1) (w_db w2) /\
  exists f, row_changed Token_ID t f (w_db w1) (w_db w2) /\ closed_row t (f t) /\
    (Token_ID t = Token_ID matched -> f t = token_consumed now t).
Proof.
  unfold settle_token. intros H. destruct (Z.eqb_spec (Token_ID t) (Token_ID matched)).
  - apply token_update_turn in H as [He Hr]; [|done]. split; [done|].
    exists (token_consumed now). split; [done|]. by repeat split; left.
  - apply revoke_turn in H as (He & f & Hr & Hc). split; [done|]. exists f. split; [done|]. by split.
Qed.

(** ** The gift row *)

Definition replace_gift (g : Gift) (l : list Gift) : list Gift :=
  map (fun x => if Gift_ID x =? Gift_ID g then g else x) l.

Lemma elem_of_replace_gift x g l : x ∈ replace_gift g l ->
  x = g \/ x ∈ l /\ Gift_ID x <> Gift_ID g.
Proof.
  intros Hx. apply list_elem_of_In, in_map_iff in Hx as (y & <- & Hy).
  apply list_elem_of_In in Hy. destruct (Z.eqb_spec (Gift_ID y) (Gift_ID g)); auto.
Qed.

Lemma replaced_gift_in g old l : old ∈ l -> Gift_ID old = Gift_ID g -> g ∈ replace_gift g l.
Proof.
  intros Hin E. apply list_elem_of_In, in_map_iff. exists old. rewrite E, Z.eqb_refl.
  split; [done|]. by apply list_elem_of_In.
Qed.

Lemma other_gift_in x g l : x ∈ l -> Gift_ID x <> Gift_ID g -> x ∈ replace_gift g l.
Proof.
  intros Hin E. apply list_elem_of_In, in_map_iff. exists x.
  rewrite (proj2 (Z.eqb_neq _ _) E). split; [done|]. by apply list_elem_of_In.
Qed.

Lemma updateGift_rows g f w u w' :
  updateGift (Gift_ID g) (Gift_Version g) f w = (Ok u, w') -> inv (w_db w) ->
  g ∈ db_gifts (w_db w) -> Gift_ID (f g) = Gift_ID g ->
  db_gifts (w_db w') = replace_gift (f g) (db_gifts (w_db w)) /\ gift_row_check (f g) = true.
Proof.
  intros H Hi Hg Hf. pose proof (gift_ids _ Hi) as Hnd.
  apply update_one_ok in H as (r & Hr & Hc & ->). simpl in *.
  assert (Hmem : g ∈ List.filter (fun x => (Gift_ID x =? Gift_ID g) &&
                                          (Gift_Version x =? Gift_Version g)) (db_gifts (w_db w))).
  { apply list_elem_of_In, filter_In. split; [by apply list_elem_of_In|lia]. }
  rewrite Hr in Hmem. apply list_elem_of_singleton in Hmem as <-. split; [|done].
  unfold replace_gift. apply map_ext_in. intros x Hx. apply list_elem_of_In in Hx.
  rewrite Hf. destruct (Z.eqb_spec (Gift_ID x) (Gift_ID g)) as [E|E]; simpl; [|done].
  rewrite (NoDup_map_inj Gift_ID _ _ _ Hnd Hx Hg E). by rewrite Z.eqb_refl.
Qed.

Lemma same_tables db db' : gift_tables db' = gift_tables db ->
  (forall id, allocations_of db' id = allocations_of db id) /\
  (forall id, tokens_of db' id = tokens_of db id) /\
  db_gifts db' = db_gifts db /\ db_gift_allocations db' = db_gift_allocations db /\
  db_gift_tokens db' = db_gift_tokens db.
Proof.
  unfold gift_tables, allocations_of, tokens_of. intros [= -> -> ->]. done.
Qed.

Lemma gifts_ok_neutral db db' : gifts_ok db -> neutral db db' -> gifts_ok db'.
Proof.
  intros [Hi Hg Ha Ht] Hn. destruct (Hn Hi) as (Hi' & He & Hk).
  apply same_tables in Hk as (Ea & Et & Eg & Eal & Etk).
  split; [done| |by rewrite Eg, Eal|by rewrite Eg, Etk].
  rewrite Eg. eapply Forall_impl; [exact Hg|]. simpl. intros g.
  by apply gift_good_extends.
Qed.

Lemma Forall2_carry {A B} (E : A -> B -> Prop) (P : A -> Prop) (Q : B -> Prop) l l' :
  Forall2 E l l' -> Forall P l -> (forall a b, E a b -> P a -> Q b) -> Forall Q l'.
Proof.
  induction 1; intros HP HQ; constructor; inversion HP; subst; eauto.
Qed.

Lemma total_carry (E : GiftAllocation -> GiftAllocation -> Prop) l l' :
  Forall2 E l l' -> (forall a b, E a b -> GA_Quantity b = GA_Quantity a) -> total l' = total l.
Proof.
  intros H HE. unfold total. induction H as [|a b l l' Hab _ IH]; simpl; [done|].
  rewrite (HE _ _ Hab). lia.
Qed.

(** A gift whose allocations and tokens were settled and whose row was
    replaced. *)
Lemma gift_settled db0 db1 db2 db3 db4 gift g1 E T :
  gifts_ok db0 -> gift ∈ db_gifts db0 ->
  Gift_ID g1 = Gift_ID gift -> Gift_Quantity g1 = Gift_Quantity gift ->
  allocations_changed db0 db1 (Gift_ID gift) E -> tokens_changed db1 db2 (Gift_ID gift) T ->
  evolves (keep other_than_gifts) db2 db3 ->
  db_gifts db3 = replace_gift g1 (db_gifts db2) -> neutral db3 db4 ->
  (forall a a', E a a' -> GA_SourceLotID a' = GA_SourceLotID a /\ GA_Quantity a' = GA_Quantity a) ->
  (forall t t', T t t' -> closed_token t') ->
  (forall allocations tokens, extends (view_db db1) (view_db db4) ->
     Forall2 E (allocations_of db0 (Gift_ID gift)) allocations -> Forall closed_token tokens ->
     gift_state (view_db db4) g1 allocations tokens) ->
  gifts_ok db4 /\ extends (view_db db0) (view_db db4) /\
  db_gifts db4 = replace_gift g1 (db_gifts db0).
Proof.
  intros Hok Hg Hid Hq [(Hi1 & He1 & Ho1) Hoth1 Hown1 Hold1] [(Hi2 & He2 & Ho2) Hoth2 Hown2 Hold2]
    H3 Hg3 H4 HE HT Hst.
  destruct (H3 Hi2) as (Hi3 & He3 & Hk3), (H4 Hi3) as (Hi4 & He4 & Hk4).
  apply same_tables in Hk4 as (Ea4 & Et4 & Eg4 & Eal4 & Etk4).
  unfold keep, other_than_allocations, other_than_tokens, other_than_gifts in *.
  injection Ho1 as Eg1 Etk1. injection Ho2 as Eg2 Eal2. injection Hk3 as Eal3 Etk3.
  assert (Egs : db_gifts db4 = replace_gift g1 (db_gifts db0)) by congruence.
  assert (Ea : forall i, allocations_of db4 i = allocations_of db1 i).
  { intros i. rewrite Ea4. unfold allocations_of. congruence. }
  assert (Et : forall i, tokens_of db4 i = tokens_of db2 i).
  { intros i. rewrite Et4. unfold tokens_of. congruence. }
  assert (He : extends (view_db db1) (view_db db4)) by eauto using extends_trans.
  assert (He0 : extends (view_db db0) (view_db db4)) by eauto using extends_trans.
  split; [|by split].
  apply (gifts_ok_change db0 db4 g1); auto; rewrite ?Egs, ?Hid.
  - intros x Hx. rewrite <- Hid. by apply elem_of_replace_gift.
  - intros x Hx Hne. apply other_gift_in; [done|congruence].
  - by apply (replaced_gift_in g1 gift).
  - intros a. rewrite Eal4, Eal3, Eal2. auto.
  - intros i Hne. rewrite Ea. auto.
  - intros t. rewrite Etk4, Etk3, <- Etk1. auto.
  - intros i Hne. rewrite Et, Hoth2 by done. unfold tokens_of. by rewrite Etk1.
  - destruct Hok as [_ Hgood _ _]. rewrite Forall_forall in Hgood.
    destruct (Hgood gift Hg) as [Hh Ht _]. split; rewrite Hid, ?Ea, ?Et.
    + eapply Forall2_carry; [exact Hown1|exact Hh|]. simpl. intros a a' Haa.
      destruct (HE _ _ Haa) as [Es Eq]. unfold held. rewrite Hid, Es, Eq.
      by apply gift_entry_extends.
    + rewrite (total_carry _ _ _ Hown1); [congruence|]. intros a a' Haa. by apply HE.
    + apply Hst; auto. eapply Forall2_carry; [exact Hown2| |].
      * apply Forall_forall. intros t _. exact I.
      * intros t t' Htt _. eauto.
Qed.

(** ** Returning and claiming *)

Lemma or_error_ok {A} e (m : G A) w a w' : or_error e m w = (Ok a, w') -> m w = (Ok a, w').
Proof. unfold or_error. intros H. run_step H. destruct a0; run H. done. Qed.

Lemma or_missing_ok {A} e (m : G A) w a w' : or_missing e m w = (Ok a, w') -> m w = (Ok a, w').
Proof. unfold or_missing. intros H. run_step H. destruct a0; run H. done. Qed.

Lemma good_pending db g : gifts_ok db -> g ∈ db_gifts db -> Gift_Status g = GiftStatusPending ->
  Gift_ReceiverCustomerID g = None /\ Gift_ClaimedAt g = None /\ Gift_CancelledAt g = None /\
  Gift_ReturnedAt g = None.
Proof.
  intros [_ Hg _ _] Hin Hst. rewrite Forall_forall in Hg.
  destruct (good_state _ _ (Hg g Hin)) as [|? ? Hs|? Hs|? Hs]; [auto|..];
    by rewrite Hst in Hs.
Qed.

Lemma locked_same db db' id : gift_tables db' = gift_tables db ->
  locked_allocations db id = locked_allocations db' id /\
  locked_tokens db id = locked_tokens db' id.
Proof.
  intros (Ea & Et & _)%same_tables. unfold locked_allocations, locked_tokens. by rewrite Ea, Et.
Qed.

(** How a gift comes back: cancelled in time, or past its deadline. *)
Definition return_kind (gift : Gift) (status : string) (now : time) : Prop :=
  status = GiftStatusCancelled /\ now < Gift_ClaimDeadline gift \/
  status = GiftStatusExpiredReturned /\ Gift_ClaimDeadline gift <= now.

(** What an operation that settled a gift leaves. *)
Definition settled (db db' : Database) (g1 : Gift) : Prop :=
  gifts_ok db' /\ extends (view_db db) (view_db db') /\
  db_gifts db' = replace_gift g1 (db_gifts db).

Lemma restore_gift ctx gift lots status now w w' :
  restoreGiftLocked ctx gift (locked_tokens (w_db w) (Gift_ID gift))
    (locked_allocations (w_db w) (Gift_ID gift)) lots status now w = (Ok tt, w') ->
  gifts_ok (w_db w) -> gift ∈ db_gifts (w_db w) -> Gift_Status gift = GiftStatusPending ->
  return_kind gift status now -> settled (w_db w) (w_db w') (gift_returned status now gift).
Proof.
  intros H Hok Hg Hp Hkind. unfold restoreGiftLocked in H.
  do 2 run_step H. run_step H. rename R into Hv. apply (validate_reads neutral) in Hv.
  pose proof (gifts_ok_neutral _ _ Hok Hv) as Hok0.
  destruct (Hv (gifts_inv _ Hok)) as (Hi0 & He0 & Hk0).
  destruct (locked_same _ _ (Gift_ID gift) Hk0) as [El Et]. rewrite El, Et in H.
  apply same_tables in Hk0 as (_ & _ & Eg0 & _). rewrite <- Eg0 in Hg.
  run_step H. apply (allocations_loop _ (restored_row gift now)) in R; [|done| | |].
  2: { by intros db a a' (-> & _). }
  2: { intros db db' a a' He (-> & Ho & Hr). split; [done|]. split; [done|].
       by eapply gift_entry_extends. }
  2: { intros a wa wb Hb Hs Ha. by eapply restore_turn in Hb. }
  run_step H. rename R0 into Htk. pose proof (ac_since _ _ _ _ R) as (Hi1 & He1 & Ho1).
  injection Ho1 as Eg1 Etk1.
  replace (locked_tokens (w_db w0) (Gift_ID gift)) with (locked_tokens (w_db w1) (Gift_ID gift))
    in Htk by (unfold locked_tokens, tokens_of; by rewrite Etk1).
  apply (tokens_loop _ closed_row) in Htk; [|done| |].
  2: { by intros t t' (_ & ? & _). }
  2: { intros t wa wb. apply revoke_turn. }
  run_step H. apply or_error_ok in R0. pose proof (tc_since _ _ _ _ Htk) as (Hi2 & He2 & Ho2).
  injection Ho2 as Eg2 Eal2.
  apply updateGift_rows in R0 as Hrows; [|done|by rewrite Eg2, Eg1|done].
  destruct Hrows as [Hrows _]. apply update_gift_evolves in R0.
  apply writeGiftOutbox_neutral in H.
  destruct (good_pending _ _ Hok0 Hg Hp) as (Hr1 & Hr2 & Hr3 & Hr4).
  destruct (gift_settled _ _ _ _ _ gift (gift_returned status now gift) _ _ Hok0 Hg eq_refl eq_refl
              R Htk R0 Hrows H) as (H1 & H2 & H3).
  - by intros a a' (-> & _).
  - by intros t t' (? & _).
  - intros al tk He Hal Htok.
    assert (Hall : Forall (restored_allocation (view_db (w_db w')) (gift_returned status now gift)) al).
    { eapply Forall2_carry; [exact Hal|apply Forall_forall; intros a _; exact I|].
      simpl. intros a a' (-> & [_ Hn] & Hret) _. split; [done|]. split; [done|].
      by eapply gift_entry_extends. }
    destruct Hkind as [[-> Hn]|[-> Hn]].
    + by eapply (state_cancelled _ _ _ _ now).
    + by eapply (state_expired _ _ _ _ now).
  - split; [done|]. rewrite <- Eg0. split; [by eapply extends_trans|done].
Qed.

(** What [claim_guard] passes. *)
Lemma claim_guard_ok customerID gift matched now token :
  claim_guard customerID gift matched now = Ok token ->
  Gift_Status gift = GiftStatusPending /\ matched = Some token /\
  token_active now token = true /\ Gift_GiverCustomerID gift <> customerID.
Proof.
  unfold claim_guard. destruct (String.eqb _ GiftStatusClaimed); [done|].
  destruct (String.eqb _ GiftStatusCancelled); [done|].
  destruct (String.eqb _ GiftStatusExpiredReturned); [done|].
  destruct (String.eqb_spec (Gift_Status gift) GiftStatusPending) as [Hp|]; simpl; [|done].
  destruct matched as [t|]; [|done]. destruct (token_active now t) eqn:Ha; simpl; [|done].
  destruct (Z.eqb_spec (Gift_GiverCustomerID gift) customerID); [done|]. intros [= <-]. done.
Qed.

Lemma claim_gift_settles ctx customerID path key gift matched lots now w d w' :
  claim_gift ctx customerID path key gift (locked_tokens (w_db w) (Gift_ID gift)) matched
    (locked_allocations (w_db w) (Gift_ID gift)) lots now w = (Ok d, w') ->
  gifts_ok (w_db w) -> gift ∈ db_gifts (w_db w) -> Gift_Status gift = GiftStatusPending ->
  Gift_GiverCustomerID gift <> customerID -> now < Gift_ClaimDeadline gift ->
  settled (w_db w) (w_db w') (gift_claimed customerID now gift).
Proof.
  intros H Hok Hg Hp Hself Hdl. unfold claim_gift in H.
  run_step H. rename R into Hadult. run_step H. run_step H. rename R into Hv.
  assert (Hn0 : neutral (w_db w) (w_db w1)).
  { transitivity (w_db w0); [by apply (requireAdultCustomer_reads neutral) in Hadult
                            |by apply (validate_reads neutral) in Hv]. }
  pose proof (gifts_ok_neutral _ _ Hok Hn0) as Hok0.
  destruct (Hn0 (gifts_inv _ Hok)) as (Hi0 & He0 & Hk0).
  destruct (locked_same _ _ (Gift_ID gift) Hk0) as [El Et]. rewrite El, Et in H.
  apply same_tables in Hk0 as (_ & _ & Eg0 & _). rewrite <- Eg0 in Hg.
  run_step H. apply (allocations_loop _ (claimed_row customerID gift now)) in R; [|done| | |].
  2: { by intros db a a' (lotID & -> & _). }
  2: { intros db db' a a' He (lotID & -> & Ho & Hr). exists lotID. split; [done|]. split; [done|].
       by eapply credited_extends. }
  2: { intros a wa wb Hb Hs Ha. by eapply claim_turn in Hb. }
  run_step H. rename R0 into Htk. pose proof (ac_since _ _ _ _ R) as (Hi1 & He1 & Ho1).
  injection Ho1 as Eg1 Etk1.
  replace (locked_tokens (w_db w1) (Gift_ID gift)) with (locked_tokens (w_db w2) (Gift_ID gift))
    in Htk by (unfold locked_tokens, tokens_of; by rewrite Etk1).
  apply (tokens_loop _ closed_row) in Htk; [|done| |].
  2: { by intros t t' (_ & ? & _). }
  2: { intros t wa wb Hb. apply settle_turn in Hb as (He & f & Hr & Hc & _). eauto. }
  run_step H. apply or_error_ok in R0. pose proof (tc_since _ _ _ _ Htk) as (Hi2 & He2 & Ho2).
  injection Ho2 as Eg2 Eal2.
  apply updateGift_rows in R0 as Hrows; [|done|by rewrite Eg2, Eg1|done].
  destruct Hrows as [Hrows _]. apply update_gift_evolves in R0.
  assert (Hn : neutral (w_db w4) (w_db w')).
  { match type of H with ?m w4 = _ => assert (Hs : steps neutral m) end; [|exact (Hs _ _ _ H)].
    unfold giftProjectionByID. go_steps. }
  destruct (good_pending _ _ Hok0 Hg Hp) as (Hr1 & Hr2 & Hr3 & Hr4).
  destruct (gift_settled _ _ _ _ _ gift (gift_claimed customerID now gift) _ _ Hok0 Hg eq_refl
              eq_refl R Htk R0 Hrows Hn) as (H1 & H2 & H3).
  - by intros a a' (lotID & -> & _).
  - by intros t t' (? & _).
  - intros al tk He Hal Htok. apply (state_claimed _ _ _ _ customerID now); auto.
    eapply Forall2_carry; [exact Hal|apply Forall_forall; intros a _; exact I|].
    simpl. intros a a' (lotID & -> & _ & Hc) _. split; [done|]. exists lotID. split; [done|].
    by eapply credited_extends in Hc.
  - split; [done|]. rewrite <- Eg0. split; [by eapply extends_trans|done].
Qed.

(** ** Creating *)

(** The allocation a turn of the loop of [Create] records. *)
Definition recorded (giftID : Z) (now : time) (db : Database) (item : giftFEFOSelection)
    (a : GiftAllocation) : Prop :=
  GA_GiftID a = giftID /\ GA_SourceLotID a = Lot_ID (Sel_lot item) /\
  GA_Quantity a = Sel_quantity item /\ GA_SourceExpiresAt a = Lot_ExpiresAt (Sel_lot item) /\
  GA_CreatedAt a = now /\ open_allocation a /\
  gift_entry (view_db db) TransactionTypeGiftHold (gift_hold_key giftID (Lot_ID (Sel_lot item)))
    giftID (Lot_ID (Sel_lot item)) (- Sel_quantity item).

Lemma recorded_extends giftID now db db' item a :
  extends (view_db db) (view_db db') -> recorded giftID now db item a ->
  recorded giftID now db' item a.
Proof. unfold recorded. intuition eauto using gift_entry_extends. Qed.

Lemma hold_turn ctx customerID giftID now item w w' :
  hold_selection ctx customerID giftID now item w = (Ok tt, w') ->
  0 <= Sel_quantity item < 2 ^ 32 -> inv (w_db w) ->
  evolves (keep other_than_allocations) (w_db w) (w_db w') /\
  exists a, db_gift_allocations (w_db w') = db_gift_allocations (w_db w) ++ [a] /\
    recorded giftID now (w_db w') item a.
Proof.
  intros H Hq Hi. unfold hold_selection in H. run_step H. apply gift_write_ok in R.
  pose proof (hold_entry _ _ _ _ _ _ _ _ R Hq Hi) as He.
  assert (Hn : neutral (w_db w) (w_db w0)).
  { eapply (asset_neutral ctx (OpFreeze (hold_command customerID giftID item now)));
      [unfold op_ok, quantity_ok; simpl; lia|exact R]. }
  run_step H. apply next_id_db in R0. apply gift_write_ok in H.
  pose proof (create_allocation_evolves _ _ _ _ H) as Hc. rewrite R0 in Hc.
  apply create_row_ok in H as (Hdb & _). rewrite R0 in Hdb.
  destruct (Hn Hi) as (Hi0 & He0 & Hk0). apply same_tables in Hk0 as (_ & _ & _ & Eal & _).
  destruct (Hc Hi0) as (_ & He1 & _). split.
  - transitivity (w_db w0); [|done]. apply neutral_keeps; [|done].
    unfold gift_tables, other_than_allocations. by intros [] [] [= -> -> ->].
  - eexists. split; [rewrite Hdb; simpl; by rewrite Eal|].
    do 5 (split; [done|]). split; [done|]. by eapply gift_entry_extends.
Qed.

Lemma hold_loop ctx customerID giftID now selected : forall w w',
  for_each selected (hold_selection ctx customerID giftID now) w = (Ok tt, w') ->
  Forall (fun i => 0 <= Sel_quantity i < 2 ^ 32) selected -> inv (w_db w) ->
  evolves (keep other_than_allocations) (w_db w) (w_db w') /\
  exists news, db_gift_allocations (w_db w') = db_gift_allocations (w_db w) ++ news /\
    Forall2 (recorded giftID now (w_db w')) selected news.
Proof.
  induction selected as [|item selected IH]; simpl; intros w w' H Hq Hi.
  - apply ret_ok_inv in H as [_ ->]. split; [reflexivity|]. exists []. by rewrite app_nil_r.
  - apply bind_ok_inv in H as ([] & w1 & H1 & H2). inversion Hq; subst.
    destruct (hold_turn _ _ _ _ _ _ _ H1) as (Hev & a & Ha & Hrec); [done|done|].
    destruct (Hev Hi) as (Hi1 & _ & _).
    destruct (IH _ _ H2) as (Hev2 & news & Hn & Hrecs); [done|done|].
    split; [by transitivity (w_db w1)|]. exists (a :: news).
    split; [by rewrite Hn, Ha, <- app_assoc|]. constructor; [|done].
    destruct (Hev2 Hi1) as (_ & He2 & _). by eapply recorded_extends.
Qed.

Lemma lot_ranges db : inv db -> Forall (fun l => 0 <= Lot_AvailableQuantity l < 2 ^ 32) (db_lots db).
Proof.
  intros Hi. apply Forall_forall. intros l Hl.
  pose proof (lot_row_values _ (in_ledger_row (view_db db) _ (inv_ledger _ Hi) Hl)). lia.
Qed.

(** The lots [lock_group] reads. *)
Definition gift_group (db : Database) (anchor : Lot) (now : time) : list Lot :=
  sort_by (by_keys [Lot_ExpiresAt; Lot_ID])
    (List.filter (fun l => giftable (Lot_OwnerCustomerID anchor) now l && same_group anchor l)
       (db_lots db)).

Lemma gift_group_stocked db anchor now : inv db -> stocked (gift_group db anchor now).
Proof.
  intros Hi. pose proof (lot_ranges _ Hi) as Hl. apply Forall_forall. intros l Hin.
  apply selected_rows in Hin as [Hin _]. rewrite Forall_forall in Hl. auto.
Qed.

Lemma lock_group_ok customerID lotNo now w anchor group w' :
  lock_group customerID lotNo now w = (Ok (anchor, group), w') ->
  w_db w' = w_db w /\ anchor ∈ db_lots (w_db w) /\ Lot_LotNo anchor = lotNo /\
  giftable customerID now anchor = true /\ group = gift_group (w_db w) anchor now /\
  anchor ∈ group.
Proof.
  unfold lock_group. intros H. run_step H. apply or_missing_ok, take_row_ok in R as (E1 & Hin & Hp).
  apply andb_true_iff in Hp as [Hno Hgift]. apply String.eqb_eq in Hno.
  run_step H. apply find_rows_ok in R as (E2 & ->). run_step H. run H. injection E as -> ->.
  change (rows (w_db w0)) with (db_lots (w_db w0)). rewrite E1.
  change (rows (w_db w)) with (db_lots (w_db w)) in Hin.
  split; [congruence|]. repeat split; auto. apply selected_rows. split; [done|].
  unfold giftable, same_group in *. rewrite !andb_true_iff in *.
  rewrite !Z.eqb_refl, String.eqb_refl. tauto.
Qed.

Lemma filter_app_owned {Row} (f : Row -> bool) (l news : list Row) :
  (forall r, r ∈ l -> f r = false) -> (forall r, r ∈ news -> f r = true) ->
  List.filter f (l ++ news) = news.
Proof.
  intros Hl Hn. rewrite List.filter_app, (filter_none_in f l Hl). simpl.
  apply filter_all, Forall_forall. auto.
Qed.

Lemma recorded_gift giftID now db selected news :
  Forall2 (recorded giftID now db) selected news -> forall a, a ∈ news -> GA_GiftID a = giftID.
Proof.
  intros H a Ha. apply list_elem_of_lookup in Ha as [n Ha].
  destruct (Forall2_lookup_r _ _ _ _ _ H Ha) as (i & _ & Hr). apply Hr.
Qed.

Lemma recorded_total giftID now db selected news :
  Forall2 (recorded giftID now db) selected news -> total news = selected_total selected.
Proof.
  unfold total, selected_total. induction 1 as [|i a l l' (_ & _ & Hq & _) _ IH]; simpl; [done|].
  rewrite Hq. lia.
Qed.

(** A new gift with its allocations keeps the invariant. *)
Lemma gift_created db0 db1 db2 g selected now news :
  gifts_ok db0 -> (forall x, x ∈ db_gifts db0 -> Gift_ID x <> Gift_ID g) ->
  evolves (keep other_than_gifts) db0 db1 -> db_gifts db1 = db_gifts db0 ++ [g] ->
  evolves (keep other_than_allocations) db1 db2 ->
  db_gift_allocations db2 = db_gift_allocations db1 ++ news ->
  Forall2 (recorded (Gift_ID g) now db2) selected news ->
  selected_total selected = Gift_Quantity g -> Gift_Status g = GiftStatusPending ->
  Gift_ReceiverCustomerID g = None -> Gift_ClaimedAt g = None -> Gift_CancelledAt g = None ->
  Gift_ReturnedAt g = None ->
  gifts_ok db2 /\ extends (view_db db0) (view_db db2) /\ db_gifts db2 = db_gifts db0 ++ [g] /\
  allocations_of db2 (Gift_ID g) = news.
Proof.
  intros Hok Hnew H1 Eg H2 Eal Hrec Htot Hst Hr1 Hr2 Hr3 Hr4.
  destruct (H1 (gifts_inv _ Hok)) as (Hi1 & He1 & Hk1), (H2 Hi1) as (Hi2 & He2 & Hk2).
  unfold keep, other_than_gifts, other_than_allocations in *.
  injection Hk1 as Eal1 Etk1. injection Hk2 as Eg2 Etk2.
  assert (Hown : forall a, a ∈ news -> GA_GiftID a = Gift_ID g) by (by eapply recorded_gift).
  assert (Hal : allocations_of db2 (Gift_ID g) = news).
  { unfold allocations_of. rewrite Eal, Eal1. apply filter_app_owned.
    - intros a Ha. apply Z.eqb_neq. intros E.
      destruct (gifts_allocations _ Hok a Ha) as (x & Hx & Ex). apply (Hnew x Hx). congruence.
    - intros a Ha. apply Z.eqb_eq. auto. }
  split; [|split; [by eapply extends_trans|split; [congruence|done]]].
  apply (gifts_ok_change db0 db2 g); auto; rewrite ?Eg2, ?Eg.
  - by eapply extends_trans.
  - intros x. rewrite elem_of_app, list_elem_of_singleton. intros [Hx| ->]; auto.
  - intros x Hx _. rewrite elem_of_app. by left.
  - rewrite elem_of_app, list_elem_of_singleton. by right.
  - intros a. rewrite Eal, Eal1, elem_of_app. intros [Ha|Ha]; auto.
  - intros id Hne. unfold allocations_of. rewrite Eal, Eal1, List.filter_app.
    rewrite (filter_none_in _ news); [by rewrite app_nil_r|]. intros a Ha.
    rewrite (Hown a Ha). apply Z.eqb_neq. congruence.
  - intros t. rewrite Etk2, Etk1. auto.
  - intros id _. unfold tokens_of. by rewrite Etk2, Etk1.
  - split; rewrite Hal.
    + eapply (Forall2_carry _ (fun _ => True)); [exact Hrec|by apply Forall_forall|].
      simpl. intros i a (Hg & Hs & Hq & _ & _ & _ & Hent) _. unfold held. by rewrite Hs, Hq.
    + by rewrite (recorded_total _ _ _ _ _ Hrec).
    + apply state_pending; auto.
      eapply (Forall2_carry _ (fun _ => True)); [exact Hrec|by apply Forall_forall|].
      simpl. by intros i a (_ & _ & _ & _ & _ & Ho & _) _.
Qed.

(** What a successful [Create] did: the group it read, the selection, and the
    gift it inserted. *)
Record gift_made (db db' : Database) (customerID : Z) (request : GiftCreateRequest)
    (anchor : Lot) (selected : list giftFEFOSelection) (now : time) (g : Gift) : Prop := {
  made_anchor : anchor ∈ db_lots db /\ Lot_LotNo anchor = Create_SourceLotNo request /\
    giftable customerID now anchor = true;
  made_selection :
    selectGiftFEFO (gift_group db anchor now) (Create_Quantity request) = Ok selected;
  made_gift : exists first others, selected = first :: others /\
    g = new_gift (Gift_ID g) customerID anchor request (earliest_expiry (Sel_lot first) others) now;
  made_total : selected_total selected = Create_Quantity request;
  made_ok : gifts_ok db' /\ extends (view_db db) (view_db db');
  made_row : db_gifts db' = db_gifts db ++ [g];
  made_new : forall x, x ∈ db_gifts db -> Gift_ID x <> Gift_ID g;
  made_allocations :
    Forall2 (recorded (Gift_ID g) now db') selected (allocations_of db' (Gift_ID g));
}.

Lemma first_projection_spec db p l row : first_projection db p l = Some row ->
  Proj_Gift row ∈ l /\ p (Proj_Gift row) = true.
Proof.
  induction l as [|g l IH]; simpl; [done|]. destruct (p g) eqn:Hp.
  - destruct (project_gift_row db g) as [r|] eqn:Hr; intros H.
    + injection H as <-. unfold project_gift_row in Hr.
      destruct (find _ (db_products db)); [|done]. injection Hr as <-. simpl.
      split; [apply list_elem_of_here|done].
    + apply IH in H as [? ?]. split; [by apply list_elem_of_further|done].
  - intros H. apply IH in H as [? ?]. split; [by apply list_elem_of_further|done].
Qed.

Lemma take_projection_gift giftID w row w' :
  giftProjectionByID giftID w = (Ok row, w') ->
  w_db w' = w_db w /\ Gift_ID (Proj_Gift row) = giftID /\ Proj_Gift row ∈ db_gifts (w_db w).
Proof.
  intros H. apply exec_ok in H.
  destruct (first_projection _ _ _) as [r|] eqn:F; [|done]. injection H as <- <-.
  apply first_projection_spec in F as [Hin Hid]. split; [done|]. split; [lia|done].
Qed.

Lemma createGift_ok g w u w' : createGift g w = (Ok u, w') ->
  db_gifts (w_db w') = db_gifts (w_db w) ++ [g] /\ gift_row_check g = true /\
  forall x, x ∈ db_gifts (w_db w) -> Gift_ID x <> Gift_ID g.
Proof.
  intros H. apply create_row_ok in H as (-> & Hc & Hno). split; [done|]. split; [done|].
  intros x Hx E. specialize (Hno x Hx). simpl in Hno. rewrite orb_false_iff in Hno. lia.
Qed.

Lemma reads_db {A} (m : G A) w a w' :
  steps eq m -> m w = (Ok a, w') -> w_db w' = w_db w.
Proof. intros Hm H. symmetry. by apply Hm in H. Qed.

Lemma create_started_makes ctx customerID path key request w d w' :
  create_started ctx customerID path key request w = (Ok d, w') -> gifts_ok (w_db w) ->
  0 <= Create_Quantity request < u64_mod ->
  exists anchor selected now g row,
    gift_made (w_db w) (w_db w') customerID request anchor selected now g /\
    d = giftDTO row /\ Proj_Gift row = g.
Proof.
  intros H Hok Hq. pose proof (gifts_inv _ Hok) as Hi. unfold create_started in H.
  run_step H. apply reads_db in R as E1; [|eauto with steps]. rename a into now.
  run_step H. apply reads_db in R0 as E2; [|eauto with steps].
  run_step H. rename R1 into Hl. destruct a as [anchor group].
  apply lock_group_ok in Hl as (E3 & Hanchor & Hno & Hgift & Hgroup & _).
  rewrite E2, E1 in *. subst group. run_step H. rename E into Hsel. rename a into selected.
  run_step H. apply reads_db in R1 as E4; [|eauto with steps]. run_step H.
  run_step H. rename R2 into Hid. apply next_id_db in Hid as E5. rename a into giftID.
  destruct selected as [|first others]; [by run H|]. cbv zeta in H.
  set (g := new_gift _ _ _ _ _ _) in H.
  assert (Hdb : w_db w4 = w_db w) by congruence.
  pose proof (gift_group_stocked (w_db w) anchor now Hi) as Hst.
  pose proof (selectGiftFEFO_reference _ _ Hst Hq) as Href. rewrite Hsel in Href.
  destruct (Z.leb_spec (Create_Quantity request) (stock (gift_group (w_db w) anchor now))); [|done].
  injection Href as Href.
  assert (Htot : selected_total (first :: others) = Create_Quantity request).
  { rewrite Href, reference_total by done. lia. }
  assert (Hitems : Forall (fun i => 0 <= Sel_quantity i < 2 ^ 32) (first :: others)).
  { rewrite Href. eapply Forall_impl; [by apply reference_items|].
    simpl. intros i [Hin Hr]. unfold stocked in Hst. rewrite Forall_forall in Hst.
    specialize (Hst _ Hin). lia. }
  run_step H. rename R2 into R3. apply gift_write_ok in R3.
  pose proof (createGift_ok _ _ _ _ R3) as (Eg & _ & Hnew).
  apply create_gift_evolves in R3. rewrite Hdb in *.
  run_step H. destruct (R3 Hi) as (Hi6 & _ & _).
  apply hold_loop in R2 as (Hev & news & Hal & Hrec); [|done|done].
  destruct (gift_created (w_db w) (w_db w5) (w_db w6) g (first :: others) now news)
    as (Hok7 & He7 & Eg7 & Hal7); auto.
  run_step H. rename R2 into Hrow. apply take_projection_gift in Hrow as (E8 & Hrid & Hin).
  rename a into row. run_step H. rename R2 into Raud. run_step H. rename R2 into Rsuc. run H.
  assert (Hn : neutral (w_db w6) (w_db w9)).
  { rewrite <- E8. transitivity (w_db w8); [by apply writeGiftAudit_neutral in Raud|].
    by apply Succeed_neutral in Rsuc. }
  pose proof (gifts_ok_neutral _ _ Hok7 Hn) as Hok'.
  destruct (Hn (gifts_inv _ Hok7)) as (_ & He' & Hk'). apply same_tables in Hk' as (Ea' & _ & Eg' & _).
  exists anchor, (first :: others), now, g, row. split; [|split; [done|]].
  - constructor; auto.
    + exists first, others. done.
    + split; [done|by eapply extends_trans].
    + congruence.
    + rewrite Ea'. eapply Forall2_impl; [exact Hrec|]. intros i a.
      by apply recorded_extends.
  - apply (NoDup_map_inj Gift_ID (db_gifts (w_db w6))); auto.
    + by apply gift_ids, gifts_inv.
    + rewrite Eg7, elem_of_app, list_elem_of_singleton. by right.
Qed.

(** ** Sharing *)

Lemma pendingGiftProblem_ok gift : pendingGiftProblem gift = Ok tt ->
  Gift_Status gift = GiftStatusPending.
Proof.
  unfold pendingGiftProblem.
  destruct (String.eqb_spec (Gift_Status gift) GiftStatusPending); [done|].
  by repeat destruct (String.eqb _ _).
Qed.

(** What a successful [issue_token] did. *)
Record token_issued (pepper : string) (db db' : Database) (customerID : Z) (gift : Gift)
    (version : Z) (now : time) (raw : string) (t : GiftClaimToken) : Prop := {
  issued_pending : Gift_Status gift = GiftStatusPending;
  issued_version : Gift_Version gift = version;
  issued_settled : settled db db' (gift_touched now gift);
  issued_row : db_gift_tokens db' = db_gift_tokens db ++ [t];
  issued_token : Token_GiftID t = Gift_ID gift /\ Token_TokenDigest t = tokenDigest pepper raw /\
    Token_IssuedByCustomerID t = customerID /\ Token_ConsumedAt t = None /\
    Token_RevokedAt t = None /\ Token_CreatedAt t = now;
  issued_expiry : Token_ExpiresAt t = token_expiry gift now /\ now < Token_ExpiresAt t;
}.

Lemma issue_token_issues pepper ctx customerID gift tokens version now w dto w' :
  issue_token pepper ctx customerID gift tokens version now w = (Ok dto, w') ->
  gifts_ok (w_db w) -> gift ∈ db_gifts (w_db w) ->
  exists w0 t,
    newGiftShareToken w = (Ok (ShareDTO_ShareToken dto), w0) /\
    (activeGiftTokenCount tokens now 0 None).1 < giftActiveTokenMax /\
    token_issued pepper (w_db w) (w_db w') customerID gift version now
      (ShareDTO_ShareToken dto) t.
Proof.
  intros H Hok Hg. pose proof (gifts_inv _ Hok) as Hi. unfold issue_token in H.
  run_step H. apply pendingGiftProblem_ok in E as Hp. run_step H.
  apply negb_false_iff, Z.eqb_eq in G.
  destruct (activeGiftTokenCount tokens now 0 None) as [count earliest]. run_step H.
  run_step H. rename a into raw. pose proof R as Er.
  apply reads_db in Er; [|unfold newGiftShareToken; go_steps].
  run_step H. run_step H. apply next_id_db in R0. rename a into id.
  run_step H. apply gift_write_ok in R1. pose proof R1 as Hrow.
  apply create_row_ok in Hrow as (Hrow & _). apply create_token_evolves in R1.
  assert (Hdb : w_db w1 = w_db w) by congruence. rewrite Hdb in *.
  destruct (R1 Hi) as (Hi2 & He2 & Hk2). injection Hk2 as Eg2 Eal2.
  run_step H. apply or_error_ok in R2.
  pose proof (updateGift_rows _ _ _ _ _ R2 Hi2 ltac:(by rewrite Eg2) eq_refl) as [Hg3 _].
  apply update_gift_evolves in R2. destruct (R2 Hi2) as (Hi3 & He3 & Hk3).
  injection Hk3 as Eal3 Etk3.
  run_step H. apply writeGiftAudit_neutral in R3. run H.
  destruct (R3 Hi3) as (Hi4 & He4 & Hk4). apply same_tables in Hk4 as (Ea4 & Et4 & Eg4 & Eal4 & Etk4).
  set (t := Build_GiftClaimToken _ _ _ _ _ _ _ _ _) in Hrow.
  assert (Etk : db_gift_tokens (w_db w4) = db_gift_tokens (w_db w) ++ [t]).
  { rewrite Etk4, Etk3, Hrow. done. }
  assert (Egs : db_gifts (w_db w4) = replace_gift (gift_touched now gift) (db_gifts (w_db w)))
    by congruence.
  assert (He : extends (view_db (w_db w)) (view_db (w_db w4))) by eauto using extends_trans.
  destruct (good_pending _ _ Hok Hg Hp) as (Hr1 & Hr2 & Hr3 & Hr4).
  assert (Eal : forall i, allocations_of (w_db w4) i = allocations_of (w_db w) i).
  { intros i. rewrite Ea4. unfold allocations_of. congruence. }
  exists w0, t. split; [done|]. split; [simpl; lia|].
  rewrite negb_false_iff in G. apply Z.ltb_lt in G.
  constructor; auto; [|by split].
  split; [|by split]. apply (gifts_ok_change (w_db w) _ (gift_touched now gift)); auto; rewrite ?Egs.
  - intros x Hx. by apply elem_of_replace_gift.
  - intros x Hx Hne. by apply other_gift_in.
  - by apply (replaced_gift_in _ gift).
  - intros a. rewrite Eal4, Eal3, Eal2. auto.
  - intros x. rewrite Etk, elem_of_app, list_elem_of_singleton. intros [Hx| ->]; auto.
  - intros i Hne. unfold tokens_of. rewrite Etk, List.filter_app. simpl.
    rewrite (proj2 (Z.eqb_neq _ _)) by (simpl in Hne; congruence). by rewrite app_nil_r.
  - pose proof (gifts_good _ Hok) as Hgood. rewrite Forall_forall in Hgood.
    destruct (Hgood gift Hg) as [Hh Ht Hs].
    split; simpl; rewrite Eal; [|done|].
    + eapply Forall_impl; [exact Hh|]. intros a. by apply gift_entry_extends.
    + apply state_pending; auto. destruct Hs as [|? ? Hs|? Hs|? Hs]; [done|..]; by rewrite Hp in Hs.
Qed.
