(* ===== verification/GiftCalls.v ===== *)
(** * What each gift operation can end in

    One lemma per operation: the outcomes of a run on good gifts, successful
    or not, as facts about the database before and after. *)

From S2P Require Import Prelude GoInt GoString GoTime Json Problem RequestCtx.
From S2P Require Import CoreModel AssetService GiftModel AssetLaws AssetLedger Database Steps.
From S2P Require Import AssetRepository IntegrityScan Samples AssetTheorems LedgerEntries Idempotency.
From S2P Require Import GiftDto GiftRepository GiftService GiftSelection.
From S2P Require Import GiftInvariant GiftState GiftRuns.
From Stdlib Require Import String.
#[local] Open Scope string_scope. #[local] Open Scope list_scope. #[local] Open Scope Z_scope.
#[local] Open Scope go_scope.

(** ** Transactions that commit an error *)

Lemma commit_then_cases {A} (fn : G (res A)) w r w' : commit_then fn w = (r, w') ->
  (exists w1 w2, w_db w1 = w_db w /\ fn w1 = (Ok r, w2) /\ w_db w' = w_db w2) \/
  (exists e, r = Err e /\ w_db w' = w_db w).
Proof.
  unfold commit_then, bind. destruct (transaction fn w) as [[o|e] w1] eqn:E; intros H.
  - unfold lift in H. injection H as -> ->. left. apply transaction_ok in E. exact E.
  - injection H as <- <-. right. exists e. split; [done|]. by apply transaction_err in E.
Qed.

Lemma bind_cases {A B} (m : G A) (f : A -> G B) w r w' : bind m f w = (r, w') ->
  (exists a w1, m w = (Ok a, w1) /\ f a w1 = (r, w')) \/
  (exists e, m w = (Err e, w') /\ r = Err e).
Proof.
  unfold bind. destruct (m w) as [[a|e] w1]; intros H; [left; eauto|right].
  injection H as <- <-. eauto.
Qed.

(** A guard before the transaction: its error leaves the database alone. *)
Lemma guard_cases {A B} (m : G A) (f : A -> G B) w r w' :
  steps_any eq m -> bind m f w = (r, w') ->
  (exists a w1, m w = (Ok a, w1) /\ w_db w1 = w_db w /\ f a w1 = (r, w')) \/
  (exists e, r = Err e /\ w_db w' = w_db w).
Proof.
  intros Hm H. apply bind_cases in H as [(a & w1 & H1 & H2)|(e & H1 & ->)];
    apply Hm in H1 as E; [left|right]; eauto 6.
Qed.

(** ** Rows read under the lock *)

Lemma lockGiftTokens_ok id w l w' : lockGiftTokens id w = (Ok l, w') ->
  w_db w' = w_db w /\ l = locked_tokens (w_db w) id.
Proof. intros H. by apply find_rows_ok in H. Qed.

Lemma lockGiftAllocationsAndLots_ok id w out w' :
  lockGiftAllocationsAndLots id w = (Ok out, w') ->
  w_db w' = w_db w /\ out.1 = locked_allocations (w_db w) id.
Proof.
  unfold lockGiftAllocationsAndLots, lockGiftAllocations. intros H.
  run_step H. apply find_rows_ok in R as [E1 ->]. run_step H.
  apply reads_db in R; [|unfold lockGiftLots; go_steps]. run H. split; [congruence|done].
Qed.

Lemma lockGiftByNo_ok no w g w' : lockGiftByNo no w = (Ok g, w') ->
  w_db w' = w_db w /\ g ∈ db_gifts (w_db w) /\ Gift_GiftNo g = no.
Proof.
  intros H. apply take_row_ok in H as (E & Hin & Hp). by apply String.eqb_eq in Hp.
Qed.

Lemma lockGiftByID_ok id w g w' : lockGiftByID id w = (Ok g, w') ->
  w_db w' = w_db w /\ g ∈ db_gifts (w_db w) /\ Gift_ID g = id.
Proof. intros H. apply take_row_ok in H as (E & Hin & Hp). by apply Z.eqb_eq in Hp. Qed.

Lemma timed_out_spec gift now :
  if timed_out gift now
  then Gift_Status gift = GiftStatusPending /\ Gift_ClaimDeadline gift <= now
  else Gift_Status gift = GiftStatusPending -> now < Gift_ClaimDeadline gift.
Proof.
  unfold timed_out, before. destruct (String.eqb_spec (Gift_Status gift) GiftStatusPending); simpl.
  - destruct (Z.ltb_spec now (Gift_ClaimDeadline gift)); simpl; [auto|split; [done|lia]].
  - done.
Qed.

(** ** Outcomes *)

(** The bookkeeping of a run: keys, audit, outbox. *)
Lemma keys_neutral db db' : keep but_keys db db' -> neutral db db'.
Proof.
  unfold keep, but_keys. intros H.
  assert (Hf : forall X (f : Database -> X), (forall l d, f (set_rows (R:=IdempotencyRecord) l d) = f d) ->
               f db' = f db).
  { intros X f Hf. rewrite <- (Hf [] db'), <- (Hf [] db). by rewrite H. }
  by apply evolves_outside; try (apply Hf).
Qed.

Lemma settled_neutral db db0 db1 db2 g :
  gifts_ok db -> neutral db db0 -> settled db0 db1 g -> neutral db1 db2 -> settled db db2 g.
Proof.
  intros Hok H0 (Hok1 & He1 & Eg1) H2.
  destruct (H0 (gifts_inv _ Hok)) as (_ & He0 & Hk0), (H2 (gifts_inv _ Hok1)) as (_ & He2 & Hk2).
  apply same_tables in Hk0 as (_ & _ & E0 & _), Hk2 as (_ & _ & E2 & _).
  split; [by eapply gifts_ok_neutral|]. split; [eauto using extends_trans|congruence].
Qed.

(** A pending gift past its deadline was returned. *)
Definition returned_late (db db' : Database) : Prop :=
  exists gift now, gift ∈ db_gifts db /\ Gift_Status gift = GiftStatusPending /\
    Gift_ClaimDeadline gift <= now /\
    settled db db' (gift_returned GiftStatusExpiredReturned now gift).

Lemma restore_timeout_returns ctx ty id trigger gift lots now w w' :
  restore_timeout ctx ty id trigger gift (locked_tokens (w_db w) (Gift_ID gift))
    (locked_allocations (w_db w) (Gift_ID gift)) lots now w = (Ok tt, w') ->
  gifts_ok (w_db w) -> gift ∈ db_gifts (w_db w) -> timed_out gift now = true ->
  settled (w_db w) (w_db w') (gift_returned GiftStatusExpiredReturned now gift).
Proof.
  intros H Hok Hg Ht. pose proof (timed_out_spec gift now) as Hspec. rewrite Ht in Hspec.
  destruct Hspec as [Hp Hd]. unfold restore_timeout in H. run_step H.
  apply restore_gift in R; [|done|done|done|by right]. apply writeGiftAudit_neutral in H.
  by eapply settled_neutral; [exact Hok|reflexivity|exact R|].
Qed.

(** The stored response of an earlier run under the same key and request. *)
Record replay_of {A} `{JsonCodec A} (db db' : Database) (customerID : Z)
    (path key requestHash : string) (d : A) : Prop := {
  replay_keys : keep but_keys db db';
  replay_claim : exists r, r ∈ db_idempotency db /\ names "customer" customerID path key r = true /\
    Idem_RequestHash r = requestHash /\ Idem_Status r = "succeeded";
  replay_response : exists r, r ∈ db_idempotency db /\
    names "customer" customerID path key r = true /\ Idem_Status r = "succeeded" /\
    stored_response r = Ok (Some d);
}.

(** [StartAt] leaves no completed row that was not there. *)
Lemma startIdempotency_rows id method path key h w b w' :
  startIdempotency id method path key h w = (Ok b, w') ->
  (forall r, r ∈ db_idempotency (w_db w') -> Idem_Status r = "succeeded" ->
     r ∈ db_idempotency (w_db w)) /\
  (b = false -> exists r, r ∈ db_idempotency (w_db w) /\ names "customer" id path key r = true /\
     Idem_RequestHash r = h /\ Idem_Status r = "succeeded").
Proof.
  unfold startIdempotency. intros H. run_step H. rename a into rid. apply next_id_db in R.
  run_step H. rename a into now. apply time_now_db in R0. unfold StartAt in H.
  do 3 run_step H. apply create_or_ignore_ok in R1 as [_ Hcr].
  run_step H. apply update_rows_ok in R1 as (_ & _ & Hup).
  run_step H. apply take_row_ok in R1 as (E & Hin & Hn). rename a0 into existing.
  assert (Hold : forall r, r ∈ db_idempotency (w_db w4) -> Idem_Status r = "succeeded" ->
                 r ∈ db_idempotency (w_db w)).
  { intros r Hr Hs. rewrite E in Hr.
    assert (Hr3 : r ∈ db_idempotency (w_db w2)).
    { destruct Hup as [[_ Hup]|[_ Hup]]; rewrite Hup in Hr; [done|]. simpl in Hr.
      apply list_elem_of_In, in_map_iff in Hr as (x & Ex & Hx). apply list_elem_of_In in Hx.
      destruct (_ && _); [by subst|congruence]. }
    destruct Hcr as [[Hcr _]|[Hcr _]]; rewrite Hcr, R0, R in Hr3; [|done].
    simpl in Hr3. apply elem_of_app in Hr3 as [|Hr3]; [done|].
    apply list_elem_of_singleton in Hr3. by subst. }
  destruct (Idem_ID existing =? rid); [run H; split; [|done]; intros r Hr; by apply Hold|].
  apply lift_ok_inv in H as [H ->]. split; [done|]. intros ->.
  unfold existingClaimResult in H.
  destruct (String.eqb_spec (Idem_RequestHash existing) h) as [Hh|]; simpl in H; [|done].
  destruct (String.eqb_spec (Idem_Status existing) "succeeded") as [Hs|]; simpl in H.
  - exists existing. split; [|done]. apply Hold; [|done]. rewrite E. exact Hin.
  - by destruct (_ && _).
Qed.

Lemma cachedIdempotency_ok id path key w d w' :
  cachedIdempotency id path key w = (Ok d, w') ->
  w_db w' = w_db w /\ exists r, r ∈ db_idempotency (w_db w) /\
    names "customer" id path key r = true /\ Idem_Status r = "succeeded" /\
    stored_response r = Ok (Some d).
Proof.
  unfold cachedIdempotency, CachedResponse. intros H. run_step H. destruct a as [x|]; run H.
  run_step R. destruct a as [r|e].
  - apply take_row_ok in R0 as (E & Hin & Hp). run R. apply andb_true_iff in Hp as [Hn Hs].
    apply String.eqb_eq in Hs. split; [done|]. exists r. auto.
  - run R. discriminate.
Qed.

Lemma replay_found id method path key h w d w1 w' :
  startIdempotency id method path key h w = (Ok false, w1) ->
  cachedIdempotency id path key w1 = (Ok d, w') -> replay_of (w_db w) (w_db w') id path key h d.
Proof.
  intros H1 H2. apply startIdempotency_keys in H1 as Hk.
  apply startIdempotency_rows in H1 as [Hold Hr].
  apply cachedIdempotency_ok in H2 as (E & r & Hin & Hn & Hs & Hd). rewrite E.
  constructor; [done|auto|]. exists r. auto.
Qed.

Lemma returned_late_from db db0 db1 :
  gifts_ok db -> neutral db db0 -> returned_late db0 db1 -> returned_late db db1.
Proof.
  intros Hok Hn (gift & now & Hg & Hp & Hd & Hs).
  destruct (Hn (gifts_inv _ Hok)) as (_ & _ & Hk). apply same_tables in Hk as (_ & _ & Eg & _).
  exists gift, now. rewrite <- Eg. split; [done|]. split; [done|]. split; [done|].
  by eapply settled_neutral; [exact Hok|exact Hn|exact Hs|reflexivity].
Qed.

(** ** Claim *)

Record claim_settled (pepper rawToken : string) (db db' : Database) (customerID : Z)
    (gift : Gift) (token : GiftClaimToken) (now : time) : Prop := {
  cs_gift : gift ∈ db_gifts db /\ Gift_Status gift = GiftStatusPending;
  cs_token : token ∈ tokens_of db (Gift_ID gift) /\
    Token_TokenDigest token = tokenDigest pepper rawToken /\ token_active now token = true;
  cs_parties : Gift_GiverCustomerID gift <> customerID;
  cs_time : now < Gift_ClaimDeadline gift;
  cs_settled : settled db db' (gift_claimed customerID now gift);
}.

Lemma findLockedToken_ok db id digest t : findLockedToken (locked_tokens db id) digest = Some t ->
  t ∈ tokens_of db id /\ Token_TokenDigest t = digest.
Proof.
  intros F. apply find_some in F as [Hin Hd]. apply String.eqb_eq in Hd. split; [|done].
  apply list_elem_of_In in Hin. unfold locked_tokens in Hin. by apply elem_of_sort_by in Hin.
Qed.

(** The body of the transaction of [Claim] once the key is claimed. *)
Lemma claim_body_cases pepper ctx customerID path key rawToken digest giftID w r w' :
  (now <- nowShanghai ;;
   gift <- or_missing invalidGiftTokenProblem (lockGiftByID giftID) ;;
   tokens <- lockGiftTokens (Gift_ID gift) ;;
   locked <- lockGiftAllocationsAndLots (Gift_ID gift) ;;
   if timed_out gift now then
     restore_timeout ctx "customer" customerID "claim" gift tokens locked.1 locked.2 now ;;;
     fail_quietly customerID path key ;;;
     ret (Err giftExpired)
   else
     matched <- lift (claim_guard customerID gift (findLockedToken tokens digest) now) ;;
     dto <- claim_gift ctx customerID path key gift tokens matched locked.1 locked.2 now ;;
     ret (Ok dto)) w = (Ok r, w') ->
  gifts_ok (w_db w) -> digest = tokenDigest pepper rawToken ->
  match r with
  | Ok d => exists gift token now,
      claim_settled pepper rawToken (w_db w) (w_db w') customerID gift token now
  | Err e => e = giftExpired /\ returned_late (w_db w) (w_db w')
  end.
Proof.
  intros H Hok ->. run_step H. apply reads_db in R as E1; [|eauto with steps]. rename a into now.
  run_step H. apply or_missing_ok, lockGiftByID_ok in R0 as (E2 & Hg & _). rename a into gift.
  run_step H. apply lockGiftTokens_ok in R0 as (E3 & ->).
  run_step H. apply lockGiftAllocationsAndLots_ok in R0 as (E4 & Hal). destruct a as [al lots].
  simpl in Hal. subst al. simpl in H.
  assert (Hdb : w_db w3 = w_db w) by congruence.
  rewrite E3, E2, E1 in H. rewrite E1 in Hg.
  rewrite <- Hdb in *.
  destruct (timed_out gift now) eqn:Ht.
  - run_step H. apply restore_timeout_returns in R0 as Hs; [|done..].
    pose proof (timed_out_spec gift now) as Hspec. rewrite Ht in Hspec.
    run_step H. apply fail_quietly_neutral in R1. run H. split; [done|].
    exists gift, now. split; [done|]. split; [apply Hspec|]. split; [apply Hspec|].
    by eapply settled_neutral; [exact Hok|reflexivity|exact Hs|].
  - pose proof (timed_out_spec gift now) as Hspec. rewrite Ht in Hspec.
    run_step H. apply claim_guard_ok in E as (Hp & Hm & Hact & Hself).
    apply findLockedToken_ok in Hm as [Htk Hdig]. run_step H.
    apply claim_gift_settles in R0; auto. run H. exists gift, a, now. constructor; auto.
Qed.

Lemma Claim_cases pepper ctx claims method path key rawToken w r w' :
  Claim pepper ctx claims method path key rawToken w = (r, w') -> gifts_ok (w_db w) ->
  match r with
  | Ok d =>
      exists customerID,
        giftCustomerIDWithPermission claims "wine_ticket_gift:claim" = Ok customerID /\
        (replay_of (w_db w) (w_db w') customerID path key
           (ResourceRequestHash "wine_ticket_gift_claim"
              (JStr (tokenDigest pepper rawToken)) (JObj [])) d \/
         exists gift token now, claim_settled pepper rawToken (w_db w) (w_db w') customerID gift token
           now)
  | Err e => w_db w' = w_db w \/ e = giftExpired /\ returned_late (w_db w) (w_db w')
  end.
Proof.
  intros H Hok. unfold Claim in H.
  apply guard_cases in H as [(customerID & w1 & Hc & E1 & H)|(e & -> & E)];
    [|by left|eauto with steps].
  apply lift_ok_inv in Hc as [Hc _].
  apply guard_cases in H as [(u & w2 & _ & E2 & H)|(e & -> & E)];
    [|left; congruence|eauto with steps].
  apply guard_cases in H as [(giftID & w3 & _ & E3 & H)|(e & -> & E)]; [|left; congruence|].
  2: { apply steps_any_or_missing; [exact _|]. unfold giftIDByTokenDigest.
       apply steps_any_bind; eauto with steps. }
  assert (Hdb : w_db w3 = w_db w) by congruence. clear E1 E2 E3.
  apply commit_then_cases in H as [(w4 & w5 & E4 & H & E5)|(e & -> & E)]; [|left; congruence].
  rewrite E5, <- Hdb, <- E4. rewrite <- Hdb, <- E4 in Hok. clear E5 Hdb E4.
  run_step H. rename R into Hstart. apply startIdempotency_keys in Hstart as Hkeys.
  destruct a; simpl in H.
  - pose proof (keys_neutral _ _ Hkeys) as Hn.
    pose proof (gifts_ok_neutral _ _ Hok Hn) as Hok0.
    apply (claim_body_cases pepper _ _ _ _ rawToken) in H; [|done..].
    destruct (Hn (gifts_inv _ Hok)) as (_ & _ & Hk). apply same_tables in Hk as (_ & Et & Eg & _).
    destruct r as [d|e].
    + exists customerID. split; [done|]. right.
      destruct H as (gift & token & now & [Hg Htk Hp Htime Hs]).
      exists gift, token, now. rewrite Eg, Et in *.
      constructor; auto. by eapply settled_neutral; [exact Hok|exact Hn|exact Hs|reflexivity].
    + right. destruct H as [-> Hl]. split; [done|]. by eapply returned_late_from.
  - run_step H. rename R into Hcached. run H. exists customerID. split; [done|]. left.
    by eapply replay_found.
Qed.

(** ** Cancel *)

Record cancel_settled (db db' : Database) (customerID : Z) (giftNo : string) (version : Z)
    (gift : Gift) (now : time) : Prop := {
  xs_gift : gift ∈ db_gifts db /\ Gift_Status gift = GiftStatusPending /\
    Gift_GiftNo gift = giftNo;
  xs_giver : Gift_GiverCustomerID gift = customerID;
  xs_version : Gift_Version gift = version;
  xs_time : now < Gift_ClaimDeadline gift;
  xs_settled : settled db db' (gift_returned GiftStatusCancelled now gift);
}.

Lemma lock_own_gift_ok customerID giftNo w gift w' :
  lock_own_gift customerID giftNo w = (Ok gift, w') ->
  w_db w' = w_db w /\ gift ∈ db_gifts (w_db w) /\ Gift_GiftNo gift = giftNo /\
  Gift_GiverCustomerID gift = customerID.
Proof.
  unfold lock_own_gift. intros H. run_step H. apply or_missing_ok, lockGiftByNo_ok in R as (E & Hg & Hno).
  run_step H. run H. apply negb_false_iff, Z.eqb_eq in G. done.
Qed.

Lemma cancel_body_cases ctx customerID path key giftNo version w r w' :
  (now <- nowShanghai ;;
   gift <- lock_own_gift customerID giftNo ;;
   tokens <- lockGiftTokens (Gift_ID gift) ;;
   locked <- lockGiftAllocationsAndLots (Gift_ID gift) ;;
   if timed_out gift now then
     restore_timeout ctx "customer" customerID "cancel" gift tokens locked.1 locked.2 now ;;;
     fail_quietly customerID path key ;;;
     ret (Err giftExpired)
   else
     lift (pendingGiftProblem gift) ;;;
     fail_if (negb (Gift_Version gift =? version)) giftVersionChanged ;;;
     restoreGiftLocked ctx gift tokens locked.1 locked.2 GiftStatusCancelled now ;;;
     writeGiftAudit ctx "customer" customerID "wine_ticket.gift.cancel" gift
       GiftStatusPending GiftStatusCancelled
       [("gift_no", JStr (Gift_GiftNo gift)); ("quantity", JNum (Gift_Quantity gift))] ;;;
     projected <- giftProjectionByID (Gift_ID gift) ;;
     let response := giftDTO projected in
     Succeed "customer" customerID path key response ;;;
     ret (Ok response)) w = (Ok r, w') ->
  gifts_ok (w_db w) ->
  match r with
  | Ok d => exists gift now,
      cancel_settled (w_db w) (w_db w') customerID giftNo version gift now
  | Err e => e = giftExpired /\ returned_late (w_db w) (w_db w')
  end.
Proof.
  intros H Hok. run_step H. apply reads_db in R as E1; [|eauto with steps]. rename a into now.
  run_step H. apply lock_own_gift_ok in R0 as (E2 & Hg & Hno & Hgiver). rename a into gift.
  run_step H. apply lockGiftTokens_ok in R0 as (E3 & ->).
  run_step H. apply lockGiftAllocationsAndLots_ok in R0 as (E4 & Hal). destruct a as [al lots].
  simpl in Hal. subst al. simpl in H.
  assert (Hdb : w_db w3 = w_db w) by congruence.
  rewrite E3, E2, E1 in H. rewrite E1 in Hg.
  rewrite <- Hdb in *. pose proof (timed_out_spec gift now) as Hspec.
  destruct (timed_out gift now) eqn:Ht.
  - run_step H. apply restore_timeout_returns in R0 as Hs; [|done..].
    run_step H. apply fail_quietly_neutral in R1. run H. split; [done|].
    exists gift, now. split; [done|]. split; [apply Hspec|]. split; [apply Hspec|].
    by eapply settled_neutral; [exact Hok|reflexivity|exact Hs|].
  - run_step H. apply pendingGiftProblem_ok in E as Hp. run_step H.
    apply negb_false_iff, Z.eqb_eq in G.
    run_step H. apply restore_gift in R0 as Hs; [|done|done|done|by left; auto].
    match type of H with ?m ?w4 = _ => assert (Hn : steps neutral m) end.
    { unfold giftProjectionByID. go_steps. }
    apply Hn in H as Hn'. destruct r as [d|e].
    + exists gift, now. constructor; auto.
      by eapply settled_neutral; [exact Hok|reflexivity|exact Hs|].
    + exfalso. clear - H. do 3 run_step H. by run H.
Qed.

Lemma Cancel_cases ctx claims method path key giftNo request w r w' :
  Cancel ctx claims method path key giftNo request w = (r, w') -> gifts_ok (w_db w) ->
  match r with
  | Ok d =>
      exists customerID,
        giftCustomerIDWithPermission claims "wine_ticket_gift:cancel" = Ok customerID /\
        (replay_of (w_db w) (w_db w') customerID path key
           (ResourceRequestHash "wine_ticket_gift_cancel" (JStr giftNo)
              (GiftExpectedVersionRequest_json request)) d \/
         exists gift now,
           cancel_settled (w_db w) (w_db w') customerID giftNo (Expected_ExpectedVersion request)
             gift now)
  | Err e => w_db w' = w_db w \/ e = giftExpired /\ returned_late (w_db w) (w_db w')
  end.
Proof.
  intros H Hok. unfold Cancel in H.
  apply guard_cases in H as [(customerID & w1 & Hc & E1 & H)|(e & -> & E)];
    [|by left|eauto with steps].
  apply lift_ok_inv in Hc as [Hc _].
  apply guard_cases in H as [(u & w2 & _ & E2 & H)|(e & -> & E)];
    [|left; congruence|eauto with steps].
  apply guard_cases in H as [(v & w3 & _ & E3 & H)|(e & -> & E)];
    [|left; congruence|eauto with steps].
  assert (Hdb : w_db w3 = w_db w) by congruence. clear E1 E2 E3.
  apply commit_then_cases in H as [(w4 & w5 & E4 & H & E5)|(e & -> & E)]; [|left; congruence].
  rewrite E5, <- Hdb, <- E4. rewrite <- Hdb, <- E4 in Hok. clear E5 Hdb E4.
  run_step H. rename R into Hstart. apply startIdempotency_keys in Hstart as Hkeys.
  destruct a; simpl in H.
  - pose proof (keys_neutral _ _ Hkeys) as Hn.
    pose proof (gifts_ok_neutral _ _ Hok Hn) as Hok0.
    apply cancel_body_cases in H; [|done].
    destruct (Hn (gifts_inv _ Hok)) as (_ & _ & Hk). apply same_tables in Hk as (_ & _ & Eg & _).
    destruct r as [d|e].
    + exists customerID. split; [done|]. right.
      destruct H as (gift & now & [Hg Hgv Hv Htime Hs]).
      exists gift, now. rewrite Eg in *.
      constructor; auto. by eapply settled_neutral; [exact Hok|exact Hn|exact Hs|reflexivity].
    + right. destruct H as [-> Hl]. split; [done|]. by eapply returned_late_from.
  - run_step H. rename R into Hcached. run H. exists customerID. split; [done|]. left.
    by eapply replay_found.
Qed.

(** ** CreateShareToken *)

Record share_issued (pepper : string) (db db' : Database) (customerID : Z) (giftNo : string)
    (version : Z) (raw : string) (gift : Gift) (t : GiftClaimToken) (now : time) : Prop := {
  si_gift : gift ∈ db_gifts db /\ Gift_GiftNo gift = giftNo;
  si_giver : Gift_GiverCustomerID gift = customerID;
  si_time : now < Gift_ClaimDeadline gift;
  si_room : (activeGiftTokenCount (locked_tokens db (Gift_ID gift)) now 0 None).1 <
            giftActiveTokenMax;
  si_issued : token_issued pepper db db' customerID gift version now raw t;
}.

Lemma Share_cases pepper ctx claims giftNo request w r w' :
  CreateShareToken pepper ctx claims giftNo request w = (r, w') -> gifts_ok (w_db w) ->
  match r with
  | Ok dto => exists customerID gift t now,
      giftCustomerIDWithPermission claims "wine_ticket_gift:share" = Ok customerID /\
      share_issued pepper (w_db w) (w_db w') customerID giftNo
        (Share_ExpectedGiftVersion request) (ShareDTO_ShareToken dto) gift t now
  | Err e => w_db w' = w_db w \/ e = giftExpired /\ returned_late (w_db w) (w_db w')
  end.
Proof.
  intros H Hok. unfold CreateShareToken in H.
  apply guard_cases in H as [(customerID & w1 & Hc & E1 & H)|(e & -> & E)];
    [|by left|eauto with steps].
  apply lift_ok_inv in Hc as [Hc _].
  apply guard_cases in H as [(u & w2 & _ & E2 & H)|(e & -> & E)];
    [|left; congruence|eauto with steps].
  apply guard_cases in H as [(v & w3 & _ & E3 & H)|(e & -> & E)];
    [|left; congruence|eauto with steps].
  apply guard_cases in H as [(x & w4 & _ & E4 & H)|(e & -> & E)];
    [|left; congruence|eauto with steps].
  assert (Hdb : w_db w4 = w_db w) by congruence. clear E1 E2 E3 E4.
  apply commit_then_cases in H as [(w5 & w6 & E5 & H & E6)|(e & -> & E)]; [|left; congruence].
  rewrite E6, <- Hdb, <- E5. rewrite <- Hdb, <- E5 in Hok. clear E6 Hdb E5.
  run_step H. apply reads_db in R as E1; [|eauto with steps]. rename a into now.
  run_step H. apply lock_own_gift_ok in R0 as (E2 & Hg & Hno & Hgiver). rename a into gift.
  run_step H. apply lockGiftTokens_ok in R0 as (E3 & ->).
  assert (Hdb : w_db w8 = w_db w5) by congruence.
  rewrite E2, E1 in H. rewrite E1 in Hg. rewrite <- Hdb in *.
  pose proof (timed_out_spec gift now) as Hspec. destruct (timed_out gift now) eqn:Ht.
  - run_step H. apply lockGiftAllocationsAndLots_ok in R0 as (E4 & Hal). destruct a as [al lots].
    simpl in Hal. subst al. simpl in H. rewrite <- E4 in H.
    run_step H. apply restore_timeout_returns in R0 as Hs; [|by rewrite ?E4..].
    run H. right. split; [done|]. exists gift, now. rewrite <- E4 in *. split; [done|].
    split; [apply Hspec|]. split; [apply Hspec|done].
  - run_step H. apply issue_token_issues in R0 as (wt & t & _ & Hroom & Hiss); [|done..].
    run H. eexists _, gift, t, now. split; [exact Hc|].
    constructor; auto. apply Hspec, Hiss.
Qed.

(** ** Create *)

Lemma normalize_quantity request0 request :
  normalizeGiftCreateRequest request0 = Ok request ->
  Create_SourceLotNo request = trim_space (Create_SourceLotNo request0) /\
  Create_Quantity request = Create_Quantity request0 /\
  Create_Quantity request <> 0 /\ Create_Quantity request <= giftQuantityMax.
Proof.
  unfold normalizeGiftCreateRequest. destruct (validateBusinessNo _ _); [|done].
  destruct (_ || _) eqn:Hq; [done|]. rewrite orb_false_iff in Hq.
  destruct (Create_Message request0) as [m|].
  - destruct (_ || _); [done|]. intros [= <-]. simpl. repeat split; lia.
  - intros [= <-]. simpl. repeat split; lia.
Qed.

Lemma Create_cases ctx claims method path key request0 w r w' :
  Create ctx claims method path key request0 w = (r, w') -> gifts_ok (w_db w) ->
  0 <= Create_Quantity request0 ->
  match r with
  | Ok d =>
      exists customerID request,
        giftCustomerIDWithPermission claims "wine_ticket_gift:create" = Ok customerID /\
        normalizeGiftCreateRequest request0 = Ok request /\
        (replay_of (w_db w) (w_db w') customerID path key
           (RequestHash (GiftCreateRequest_json request0)) d \/
         exists anchor selected now g row,
           gift_made (w_db w) (w_db w') customerID request anchor selected now g /\
           d = giftDTO row /\ Proj_Gift row = g)
  | Err e => w_db w' = w_db w
  end.
Proof.
  intros H Hok Hq0. unfold Create in H.
  apply guard_cases in H as [(customerID & w1 & Hc & E1 & H)|(e & -> & E)];
    [|done|eauto with steps].
  apply lift_ok_inv in Hc as [Hc _].
  apply guard_cases in H as [(request & w2 & Hr & E2 & H)|(e & -> & E)];
    [|congruence|eauto with steps].
  apply lift_ok_inv in Hr as [Hr _]. apply normalize_quantity in Hr as Hn.
  assert (Hdb : w_db w2 = w_db w) by congruence. clear E1 E2. cbv zeta in H.
  destruct r as [d|e]; [|apply transaction_err in H; congruence].
  apply transaction_ok in H as (w4 & w5 & E4 & H & E5).
  rewrite E5, <- Hdb, <- E4. rewrite <- Hdb, <- E4 in Hok. clear E5 Hdb E4.
  run_step H. rename R into Hstart. apply startIdempotency_keys in Hstart as Hkeys.
  destruct a; simpl in H.
  - pose proof (keys_neutral _ _ Hkeys) as Hne.
    pose proof (gifts_ok_neutral _ _ Hok Hne) as Hok0.
    apply create_started_makes in H as (anchor & selected & now & g & row & Hm & Hd & Hrow); [|done|].
    2: { unfold giftQuantityMax, u64_mod in *. lia. }
    exists customerID, request. split; [done|]. split; [done|]. right.
    exists anchor, selected, now, g, row. split; [|done]. destruct Hm.
    assert (Hf : forall X (f : Database -> X),
              (forall l db, f (set_rows (R:=IdempotencyRecord) l db) = f db) ->
              f (w_db w0) = f (w_db w4)).
    { intros X f Hf. unfold keep, but_keys in Hkeys.
      rewrite <- (Hf [] (w_db w0)), <- (Hf [] (w_db w4)). by rewrite Hkeys. }
    assert (El : db_lots (w_db w0) = db_lots (w_db w4)) by (by apply Hf).
    assert (Eg : db_gifts (w_db w0) = db_gifts (w_db w4)) by (by apply Hf).
    assert (Ev : view_db (w_db w0) = view_db (w_db w4)) by (by apply Hf).
    unfold gift_group in *. rewrite El, ?Eg, ?Ev in *. by constructor.
  - exists customerID, request. split; [done|]. split; [done|]. left. by eapply replay_found.
Qed.

(** ** ExpireDue *)

Definition expire_row (ids : list Z) (now : time) (g : Gift) : Gift :=
  if bool_decide (Gift_ID g ∈ ids) then gift_returned GiftStatusExpiredReturned now g else g.

Lemma expire_row_id ids now g : Gift_ID (expire_row ids now g) = Gift_ID g.
Proof. unfold expire_row. by case_bool_decide. Qed.

Lemma expire_gift_cases ctx now giftID w r w' :
  expire_gift ctx now giftID w = (r, w') -> gifts_ok (w_db w) ->
  match r with
  | Ok true => exists gift, gift ∈ db_gifts (w_db w) /\ Gift_ID gift = giftID /\
      timed_out gift now = true /\
      settled (w_db w) (w_db w') (gift_returned GiftStatusExpiredReturned now gift)
  | Ok false => w_db w' = w_db w /\
      forall g, g ∈ db_gifts (w_db w) -> Gift_ID g = giftID -> timed_out g now = false
  | Err _ => w_db w' = w_db w
  end.
Proof.
  intros H Hok. unfold expire_gift in H.
  destruct r as [b|e]; [|by apply transaction_err in H].
  apply transaction_ok in H as (w1 & w2 & E1 & H & E2). rewrite E2, <- E1.
  rewrite <- E1 in Hok. clear E1 E2. run_step H. destruct a as [gift|e].
  - apply lockGiftByID_ok in R as (E1 & Hg & Hid).
    run_step H. apply lockGiftTokens_ok in R as (E2 & ->).
    run_step H. apply lockGiftAllocationsAndLots_ok in R as (E3 & Hal). destruct a as [al lots].
    simpl in Hal. subst al. simpl in H. assert (Hdb : w_db w4 = w_db w1) by congruence.
    rewrite E2, E1 in H. rewrite <- Hdb in *.
    destruct (timed_out gift now) eqn:Ht; simpl in H.
    + run_step H. apply restore_timeout_returns in R; [|done..]. run H. by exists gift.
    + run H. split; [done|]. intros g Hin Eid.
      assert (g = gift) as ->; [|done].
      pose proof (gift_ids _ (gifts_inv _ Hok)) as Hnd.
      apply (NoDup_map_inj Gift_ID _ _ _ Hnd Hin Hg). congruence.
  - destruct (is_record_not_found e) eqn:He; [|by run H]. run H.
    destruct e; try discriminate He. apply take_row_none in R as [E Hno].
    split; [done|]. intros g Hin Eid. apply Hno in Hin. lia.
Qed.

Lemma replace_expired gift ids now l :
  NoDup (map Gift_ID l) -> gift ∈ l -> Gift_ID gift ∉ ids ->
  map (expire_row ids now) (replace_gift (gift_returned GiftStatusExpiredReturned now gift) l) =
  map (expire_row (Gift_ID gift :: ids) now) l.
Proof.
  intros Hnd Hg Hno. unfold replace_gift. rewrite map_map. apply map_ext_in. intros g Hin.
  apply list_elem_of_In in Hin. simpl. unfold expire_row.
  destruct (Z.eqb_spec (Gift_ID g) (Gift_ID gift)) as [E|E].
  - rewrite (NoDup_map_inj Gift_ID _ _ _ Hnd Hin Hg E). simpl.
    rewrite (bool_decide_eq_false_2 _ Hno), bool_decide_eq_true_2 by (by left). done.
  - erewrite bool_decide_ext; [done|]. rewrite elem_of_cons. tauto.
Qed.

(** The gifts returned by the loop are a prefix of the list; a successful run
    returns them all. *)
Lemma expire_gifts_cases ctx now ids : forall n w r w',
  expire_gifts ctx now ids n w = (r, w') -> gifts_ok (w_db w) -> NoDup ids ->
  (forall id, id ∈ ids -> exists g, g ∈ db_gifts (w_db w) /\ Gift_ID g = id /\
                                    timed_out g now = true) ->
  exists done rest, ids = done ++ rest /\
    match r with Ok m => rest = [] /\ m = n + Z.of_nat (List.length ids) | Err _ => True end /\
    gifts_ok (w_db w') /\ extends (view_db (w_db w)) (view_db (w_db w')) /\
    db_gifts (w_db w') = map (expire_row done now) (db_gifts (w_db w)).
Proof.
  assert (Hnil : forall l, l = map (expire_row [] now) l).
  { intros l. rewrite <- (map_id l) at 1. apply map_ext. intros g. unfold expire_row.
    by rewrite bool_decide_eq_false_2 by apply not_elem_of_nil. }
  induction ids as [|id ids IH]; simpl; intros n w r w' H Hok Hnd Hdue.
  - injection H as <- <-. exists [], []. split; [done|]. split; [split; [done|lia]|].
    split; [done|]. split; [apply extends_refl|done].
  - apply NoDup_cons in Hnd as [Hid Hnd].
    apply bind_cases in H as [(b & w1 & H1 & H)|(e & H1 & ->)];
      pose proof (expire_gift_cases _ _ _ _ _ _ H1 Hok) as Hc; clear H1; rename Hc into H1.
    + destruct (Hdue id ltac:(by left)) as (g & Hg & Eg & Ht). destruct b.
      2: { destruct H1 as [_ Hno]. by rewrite (Hno g Hg Eg) in Ht. }
      destruct H1 as (gift & Hgift & Egift & _ & (Hok1 & He1 & Eg1)).
      pose proof (gift_ids _ (gifts_inv _ Hok)) as Hids.
      destruct (IH (n + 1) w1 r w' H Hok1 Hnd) as (dn & rest & -> & Hr & Hok' & He' & Eg').
      { intros i Hi. destruct (Hdue i ltac:(by right)) as (x & Hx & Ex & Htx).
        exists x. split; [|done]. rewrite Eg1. apply other_gift_in; [done|].
        simpl. intros E. apply Hid. congruence. }
      exists (id :: dn), rest. split; [done|]. split.
      { destruct r; [|done]. destruct Hr as [-> ->]. split; [done|]. simpl. lia. }
      split; [done|]. split; [by eapply extends_trans|].
      rewrite Eg', Eg1, <- Egift. apply replace_expired; auto. rewrite Egift.
      intros Hin. apply Hid, elem_of_app. by left.
    + exists [], (id :: ids). split; [done|]. split; [done|]. rewrite H1.
      split; [done|]. split; [apply extends_refl|done].
Qed.

(** The gifts a run of [ExpireDue] works on. *)
Definition due_gifts (db : Database) (now : time) (limit : Z) : list Gift :=
  take (Z.to_nat (if (limit <=? 0) || (100 <? limit) then 100 else limit))
    (sort_by (by_keys [Gift_ClaimDeadline; Gift_ID])
       (List.filter (fun g => String.eqb (Gift_Status g) GiftStatusPending &&
                              (Gift_ClaimDeadline g <=? now)) (db_gifts db))).

Lemma due_gifts_spec db now limit g : g ∈ due_gifts db now limit ->
  g ∈ db_gifts db /\ timed_out g now = true.
Proof.
  unfold due_gifts. intros H. apply elem_of_take in H as (i & H & _).
  apply list_elem_of_lookup_2, selected_rows in H as [Hin Hp]. split; [done|].
  apply andb_true_iff in Hp as [Hp Hd]. unfold timed_out, before. rewrite Hp. simpl.
  rewrite negb_true_iff. lia.
Qed.

Lemma due_gifts_nodup db now limit :
  NoDup (map Gift_ID (db_gifts db)) -> NoDup (map Gift_ID (due_gifts db now limit)).
Proof.
  intros H. unfold due_gifts. rewrite <- firstn_map.
  eapply sublist_NoDup; [|apply sublist_take]. by apply selected_keys.
Qed.

Lemma ExpireDue_cases ctx limit w r w' :
  ExpireDue ctx limit w = (r, w') -> gifts_ok (w_db w) ->
  let now := truncate_ms (w_clock w (w_ticks w)) in
  let batch := due_gifts (w_db w) now limit in
  exists done rest, map Gift_ID batch = done ++ rest /\
    match r with Ok n => rest = [] /\ n = Z.of_nat (List.length batch) | Err _ => True end /\
    gifts_ok (w_db w') /\ extends (view_db (w_db w)) (view_db (w_db w')) /\
    db_gifts (w_db w') = map (expire_row done now) (db_gifts (w_db w)).
Proof.
  intros H Hok now batch. unfold ExpireDue in H. cbv zeta in H.
  set (limit' := if _ || _ then 100 else limit) in H.
  assert (Hnow : nowShanghai w = (Ok now, (time_now w).2)) by done.
  rewrite (bind_ok _ _ _ _ _ Hnow) in H. set (w1 := (time_now w).2) in H.
  assert (E1 : w_db w1 = w_db w) by done.
  unfold bind at 1 in H. destruct (dueGiftIDs now (Z.to_nat limit') w1) as [[ids|e] w2] eqn:Ed.
  - assert (w_db w2 = w_db w /\ ids = map Gift_ID batch) as [Hdb ->].
    { unfold dueGiftIDs in Ed. apply bind_ok_inv in Ed as (l & w3 & R & Ed).
      apply find_rows_ok in R as [E2 ->]. apply ret_ok_inv in Ed as [-> ->].
      split; [congruence|done]. }
    assert (Hok2 : gifts_ok (w_db w2)) by (by rewrite Hdb).
    destruct (expire_gifts_cases _ _ _ _ _ _ _ H Hok2) as (dn & rest & Ei & Hr & Hrest).
    + apply due_gifts_nodup. by apply gift_ids, gifts_inv.
    + intros id Hid. apply list_elem_of_In, in_map_iff in Hid as (g & <- & Hg).
      apply list_elem_of_In in Hg. apply due_gifts_spec in Hg.
      exists g. rewrite Hdb. tauto.
    + exists dn, rest. rewrite Hdb in Hrest. split; [exact Ei|]. split; [|done].
      destruct r; [|done]. destruct Hr as [-> Hr]. split; [done|].
      rewrite length_map in Hr. lia.
  - simplify_eq. exists [], (map Gift_ID batch). split; [done|]. split; [done|].
    unfold dueGiftIDs in Ed. apply bind_cases in Ed as [(a & w3 & _ & Ed)|(e' & Ed & _)].
    { by unfold ret in Ed. }
    apply exec_err in Ed as [Ed _]. rewrite Ed, E1. split; [done|]. split; [apply extends_refl|].
    rewrite <- (map_id (db_gifts (w_db w))) at 1. apply map_ext. intros g. unfold expire_row.
    by rewrite bool_decide_eq_false_2 by apply not_elem_of_nil.
Qed.
