(* ===== verification/GiftTheorems.v ===== *)
(** * The gift service: its theorems

    Over every history of gift operations, with any callers and arguments, the
    tables stay consistent and each gift follows its state machine; and each
    operation does what its name says. *)

From S2P Require Import Prelude GoInt GoString GoTime Json Base64 Problem RequestCtx.
From S2P Require Import CoreModel AssetService GiftModel AssetLaws AssetLedger Database Steps.
From S2P Require Import AssetRepository IntegrityScan Samples AssetTheorems LedgerEntries Idempotency.
From S2P Require Import GiftDto GiftRepository GiftService GiftSelection.
From S2P Require Import GiftInvariant GiftState GiftRuns GiftCalls.
From Stdlib Require Import String.
#[local] Open Scope string_scope. #[local] Open Scope list_scope. #[local] Open Scope Z_scope.
#[local] Open Scope go_scope.

(** ** Histories of gift operations *)

Inductive GiftCall :=
| CallCreate (ctx : Context) (claims : option Claims) (method path key : string)
    (request : GiftCreateRequest)
| CallShare (ctx : Context) (claims : option Claims) (giftNo : string)
    (request : GiftShareTokenRequest)
| CallClaim (ctx : Context) (claims : option Claims) (method path key rawToken : string)
| CallCancel (ctx : Context) (claims : option Claims) (method path key giftNo : string)
    (request : GiftExpectedVersionRequest)
| CallExpireDue (ctx : Context) (limit : Z)
| CallDetail (claims : option Claims) (giftNo : string)
| CallPreview (rawToken : string).

(** A quantity has the type [uint]. *)
Definition call_ok (c : GiftCall) : Prop :=
  match c with
  | CallCreate _ _ _ _ _ request => 0 <= Create_Quantity request
  | _ => True
  end.

Definition gift_call (pepper : string) (c : GiftCall) : G unit :=
  match c with
  | CallCreate ctx claims method path key request =>
      Create ctx claims method path key request ;;; ret tt
  | CallShare ctx claims giftNo request =>
      CreateShareToken pepper ctx claims giftNo request ;;; ret tt
  | CallClaim ctx claims method path key rawToken =>
      Claim pepper ctx claims method path key rawToken ;;; ret tt
  | CallCancel ctx claims method path key giftNo request =>
      Cancel ctx claims method path key giftNo request ;;; ret tt
  | CallExpireDue ctx limit => ExpireDue ctx limit ;;; ret tt
  | CallDetail claims giftNo => Detail claims giftNo ;;; ret tt
  | CallPreview rawToken => Preview pepper rawToken ;;; ret tt
  end.

(** The worlds a history reaches.  Calls may fail; between them anything may
    happen that keeps the gift tables and a ledger in agreement that only
    grows: what the other modules do with lots. *)
Inductive gift_reachable (pepper : string) : World -> Prop :=
| gift_start w :
    ledger_ok (asset_view w) -> gift_tables (w_db w) = ([], [], []) -> gift_reachable pepper w
| gift_env w w' :
    gift_reachable pepper w -> gift_tables (w_db w') = gift_tables (w_db w) ->
    ledger_ok (asset_view w') -> extends (asset_view w) (asset_view w') ->
    gift_reachable pepper w'
| gift_step w c r w' :
    gift_reachable pepper w -> call_ok c -> gift_call pepper c w = (r, w') ->
    gift_reachable pepper w'.

(** The state machine of a gift: the row before and after an operation. *)
Inductive gift_move (g : Gift) : Gift -> Prop :=
| move_shared now :
    Gift_Status g = GiftStatusPending -> now < Gift_ClaimDeadline g ->
    gift_move g (gift_touched now g)
| move_claimed receiver now :
    Gift_Status g = GiftStatusPending -> now < Gift_ClaimDeadline g ->
    receiver <> Gift_GiverCustomerID g -> gift_move g (gift_claimed receiver now g)
| move_cancelled now :
    Gift_Status g = GiftStatusPending -> now < Gift_ClaimDeadline g ->
    gift_move g (gift_returned GiftStatusCancelled now g)
| move_expired now :
    Gift_Status g = GiftStatusPending -> Gift_ClaimDeadline g <= now ->
    gift_move g (gift_returned GiftStatusExpiredReturned now g).

(** What one call may do to the gifts. *)
Record moved (db db' : Database) : Prop := {
  moved_ok : gifts_ok db';
  moved_extends : extends (view_db db) (view_db db');
  moved_old : forall g, g ∈ db_gifts db ->
    exists g', g' ∈ db_gifts db' /\ Gift_ID g' = Gift_ID g /\ (g' = g \/ gift_move g g');
  moved_new : forall g', g' ∈ db_gifts db' ->
    (exists g, g ∈ db_gifts db /\ Gift_ID g' = Gift_ID g) \/
    Gift_Status g' = GiftStatusPending /\ Gift_Version g' = 1;
}.

Lemma moved_neutral db db' : gifts_ok db -> neutral db db' -> moved db db'.
Proof.
  intros Hok Hn. destruct (Hn (gifts_inv _ Hok)) as (_ & He & Hk).
  apply same_tables in Hk as (_ & _ & Eg & _).
  constructor; [by eapply gifts_ok_neutral|done| |]; rewrite Eg; eauto 6.
Qed.

Lemma moved_same db db' : gifts_ok db -> db' = db -> moved db db'.
Proof. intros Hok ->. by apply moved_neutral. Qed.

Lemma moved_settled db db' g g1 :
  gifts_ok db -> g ∈ db_gifts db -> Gift_ID g1 = Gift_ID g -> gift_move g g1 ->
  settled db db' g1 -> moved db db'.
Proof.
  intros Hok Hg Eid Hm (Hok' & He & Eg). pose proof (gift_ids _ (gifts_inv _ Hok)) as Hnd.
  constructor; [done|done| |]; rewrite Eg.
  - intros x Hx. destruct (Z.eq_dec (Gift_ID x) (Gift_ID g)) as [E|E].
    + rewrite (NoDup_map_inj Gift_ID _ _ _ Hnd Hx Hg E). exists g1.
      split; [by apply (replaced_gift_in g1 g)|auto].
    + exists x. split; [apply other_gift_in; [done|congruence]|auto].
  - intros x Hx. left. apply elem_of_replace_gift in Hx as [->|[Hx _]]; eauto.
Qed.

Lemma moved_late db db' : gifts_ok db -> returned_late db db' -> moved db db'.
Proof.
  intros Hok (g & now & Hg & Hp & Hd & Hs). eapply moved_settled; [done|done| | |exact Hs]; [done|].
  by apply move_expired.
Qed.

Lemma moved_made db db' customerID request anchor selected now g :
  gift_made db db' customerID request anchor selected now g -> moved db db'.
Proof.
  intros Hm. pose proof (made_gift _ _ _ _ _ _ _ _ Hm) as (f & o & _ & Eg).
  destruct Hm. destruct made_ok as [Hok He]. constructor; [done|done| |]; rewrite made_row.
  - intros x Hx. exists x. rewrite elem_of_app. auto.
  - intros x. rewrite elem_of_app, list_elem_of_singleton. intros [Hx| ->]; [eauto|right].
    by rewrite Eg.
Qed.

Lemma moved_expired db db' ids now :
  gifts_ok db -> gifts_ok db' -> extends (view_db db) (view_db db') ->
  db_gifts db' = map (expire_row ids now) (db_gifts db) ->
  (forall g, g ∈ db_gifts db -> Gift_ID g ∈ ids -> timed_out g now = true) -> moved db db'.
Proof.
  intros Hok Hok' He Eg Hdue. constructor; [done|done| |]; rewrite Eg.
  - intros g Hg. exists (expire_row ids now g). split.
    { by apply list_elem_of_In, in_map, list_elem_of_In. }
    split; [apply expire_row_id|]. unfold expire_row. case_bool_decide as Hin; [right|auto].
    pose proof (timed_out_spec g now) as Ht. rewrite (Hdue g Hg Hin) in Ht.
    by destruct Ht; apply move_expired.
  - intros g' Hg. left. apply list_elem_of_In, in_map_iff in Hg as (g & <- & Hg).
    exists g. rewrite list_elem_of_In, expire_row_id. auto.
Qed.

Lemma Detail_reads claims giftNo : steps_any eq (Detail claims giftNo).
Proof.
  unfold Detail, customerGiftByNo. go_steps.
Qed.

Lemma Preview_reads pepper raw : steps_any eq (Preview pepper raw).
Proof.
  unfold Preview, nowShanghai, previewByTokenDigest. go_steps; eauto with steps.
Qed.

Lemma then_ret {A} (m : G A) w r w' : (m ;;; ret tt) w = (r, w') ->
  exists r0, m w = (r0, w') /\ match r0 with Ok _ => r = Ok tt | Err e => r = Err e end.
Proof.
  intros H. apply bind_cases in H as [(a & w1 & H1 & H)|(e & H1 & ->)].
  - unfold ret in H. injection H as <- <-. by exists (Ok a).
  - by exists (Err e).
Qed.

Lemma gift_call_moves pepper c w r w' :
  gift_call pepper c w = (r, w') -> gifts_ok (w_db w) -> call_ok c -> moved (w_db w) (w_db w').
Proof.
  intros H Hok Hc. destruct c; simpl in H; apply then_ret in H as (r0 & H & _).
  - apply Create_cases in H; [|done|done]. destruct r0 as [d|e]; [|by apply moved_same].
    destruct H as (id & rq & _ & _ & [Hr|(an & sel & now & g & row & Hm & _)]).
    + by apply moved_neutral, keys_neutral, (replay_keys _ _ _ _ _ _ _ Hr).
    + by eapply moved_made.
  - apply Share_cases in H; [|done]. destruct r0 as [d|e].
    + destruct H as (id & g & t & now & _ & [[Hg _] _ Ht _ Hi]).
      eapply moved_settled; [done|exact Hg| | |apply (issued_settled _ _ _ _ _ _ _ _ _ Hi)]; [done|].
      by apply move_shared; [apply (issued_pending _ _ _ _ _ _ _ _ _ Hi)|].
    + destruct H as [H|[_ H]]; [by apply moved_same|by apply moved_late].
  - apply Claim_cases in H; [|done]. destruct r0 as [d|e].
    + destruct H as (id & _ & [Hr|(g & t & now & [[Hg Hp] _ Hne Ht Hs])]).
      * by apply moved_neutral, keys_neutral, (replay_keys _ _ _ _ _ _ _ Hr).
      * eapply moved_settled; [done|exact Hg| | |exact Hs]; [done|]. by apply move_claimed; auto.
    + destruct H as [H|[_ H]]; [by apply moved_same|by apply moved_late].
  - apply Cancel_cases in H; [|done]. destruct r0 as [d|e].
    + destruct H as (id & _ & [Hr|(g & now & [(Hg & Hp & _) _ _ Ht Hs])]).
      * by apply moved_neutral, keys_neutral, (replay_keys _ _ _ _ _ _ _ Hr).
      * eapply moved_settled; [done|exact Hg| | |exact Hs]; [done|]. by apply move_cancelled.
    + destruct H as [H|[_ H]]; [by apply moved_same|by apply moved_late].
  - apply ExpireDue_cases in H as (dn & rest & Hids & _ & Hok' & He & Eg); [|done].
    eapply moved_expired; [done|done|done|exact Eg|]. intros g Hg Hin.
    assert (Hmem : Gift_ID g ∈ map Gift_ID
      (due_gifts (w_db w) (truncate_ms (w_clock w (w_ticks w))) limit)).
    { rewrite Hids, elem_of_app. by left. }
    apply list_elem_of_In, in_map_iff in Hmem as (x & Ex & Hx). apply list_elem_of_In in Hx.
    apply due_gifts_spec in Hx as [Hx Ht].
    by rewrite (NoDup_map_inj Gift_ID _ _ _ (gift_ids _ (gifts_inv _ Hok)) Hg Hx (eq_sym Ex)).
  - apply Detail_reads in H. by apply moved_same.
  - apply Preview_reads in H. by apply moved_same.
Qed.

Lemma gift_reachable_ok pepper w : gift_reachable pepper w -> gifts_ok (w_db w).
Proof.
  induction 1 as [w Hl Ht|w w' _ IH Ht Hl He|w c r w' _ IH Hc H].
  - unfold gift_tables in Ht. injection Ht as Hg Ha Htk. constructor.
    + split; [exact Hl| | |]; unfold table_ok; simpl; rewrite ?Hg, ?Ha, ?Htk; by split.
    + rewrite Hg. constructor.
    + rewrite Ha. by intros a ?%not_elem_of_nil.
    + rewrite Htk. by intros t ?%not_elem_of_nil.
  - apply (gifts_ok_neutral (w_db w)); [done|]. intros [H1 H2 H3 H4].
    pose proof (same_tables _ _ Ht) as (_ & _ & Eg & Ea & Et).
    split; [|by split]. split; [exact Hl| | |]; unfold table_ok in *; simpl in *; congruence.
  - apply (gift_call_moves _ _ _ _ _ H IH Hc).
Qed.

(** ** Sample calls *)

Definition sample_pepper : string := "0123456789abcdef0123456789abcdef".

Definition sample_claims (id : string) : option Claims := Some {|
  Claims_AccountType := "customer"; Claims_CustomerID := id;
  Claims_Permissions := ["wine_ticket_gift:create"; "wine_ticket_gift:share";
    "wine_ticket_gift:claim"; "wine_ticket_gift:cancel"; "wine_ticket_gift:view"] |}.

Definition sample_create : GiftCreateRequest := {|
  Create_SourceLotNo := " WTL101"; Create_Quantity := 4; Create_Message := Some "enjoy" |}.

Definition sample_creating : GiftCall :=
  CallCreate Background (sample_claims "7") "POST" "/gifts" "create-key-1" sample_create.

Definition gift_world : World := (gift_call sample_pepper sample_creating sample_world).2.

Definition sample_gift_no : string := "WTG264905529766187008".

Definition sample_sharing : GiftCall :=
  CallShare Background (sample_claims "7") sample_gift_no {| Share_ExpectedGiftVersion := 1 |}.

Definition shared_world : World := (gift_call sample_pepper sample_sharing gift_world).2.

Definition sample_token : string := "AAcOFRwjKjE4P0ZNVFtiaXB3foWMk5qhqK-2vcTL0tk".

Definition sample_claiming : GiftCall :=
  CallClaim Background (sample_claims "8") "POST" "/claims" "claim-key-1" sample_token.

Definition given_world : World := (gift_call sample_pepper sample_claiming shared_world).2.

Definition the_gift (w : World) : Gift :=
  default (new_gift 0 0 sample_lot sample_create 0 0) (head (db_gifts (w_db w))).

Lemma ledger_gifts_ok db :
  ledger_check (view_db db) = true -> gift_tables db = ([], [], []) -> gifts_ok db.
Proof.
  intros Hl Ht. change db with (w_db (sample_world_on db)).
  apply (gift_reachable_ok ""), gift_start; [by apply ledger_check_ok|done].
Qed.

Lemma sample_gifts_ok : gifts_ok (w_db sample_world).
Proof. apply ledger_gifts_ok; [vm_compute; reflexivity|reflexivity]. Qed.

Lemma gift_world_ok : gifts_ok (w_db gift_world).
Proof.
  refine (moved_ok _ _ (gift_call_moves sample_pepper sample_creating sample_world (Ok tt)
    gift_world _ sample_gifts_ok _)); [|done].
  unfold gift_world. apply run_ok. vm_compute. reflexivity.
Qed.

Lemma shared_world_ok : gifts_ok (w_db shared_world).
Proof.
  refine (moved_ok _ _ (gift_call_moves sample_pepper sample_sharing gift_world (Ok tt)
    shared_world _ gift_world_ok I)).
  unfold shared_world. apply run_ok. vm_compute. reflexivity.
Qed.

(** ** The properties *)

(** C1: Whatever calls of the gift service ran, from any callers, successful
    or not, interleaved with what the rest of the program does to lots, every
    gift is in one of its four states, with its row, allocations, tokens and
    ledger entries agreeing: its allocations add up to its quantity and every
    one of them was taken out of its source lot; while it is pending they are
    held and none has a receiver; once claimed each is a lot of the receiver,
    who is not the giver; once returned each was put back; and a gift that is
    no longer pending has no open token.  The ledger agrees with the lots. *)
Theorem gifts_stay_consistent pepper w g :
  gift_reachable pepper w -> g ∈ db_gifts (w_db w) ->
  gift_good (w_db w) g /\ ledger_ok (asset_view w).
Proof.
  intros Hr Hg. apply gift_reachable_ok in Hr as [Hi Hgood _ _].
  rewrite Forall_forall in Hgood. split; [auto|]. apply (inv_ledger _ Hi).
Qed.

Lemma given_reachable : gift_reachable sample_pepper given_world.
Proof.
  apply (gift_step _ shared_world sample_claiming (Ok tt)); [|done|].
  2: { unfold given_world. apply run_ok. vm_compute. reflexivity. }
  apply (gift_step _ gift_world sample_sharing (Ok tt)); [|done|].
  2: { unfold shared_world. apply run_ok. vm_compute. reflexivity. }
  apply (gift_step _ sample_world sample_creating (Ok tt)); [|done|].
  2: { unfold gift_world. apply run_ok. vm_compute. reflexivity. }
  apply gift_start; [by apply ledger_check_ok|reflexivity].
Qed.

Lemma gifts_stay_consistent_witness :
  gift_good (w_db given_world) (the_gift given_world) /\
  Gift_Status (the_gift given_world) = GiftStatusClaimed.
Proof.
  split; [|vm_compute; reflexivity].
  apply (gifts_stay_consistent sample_pepper given_world); [exact given_reachable|].
  vm_compute. apply list_elem_of_here.
Defined.

(** C2: One call moves a gift at most one step along its state machine:
    sharing keeps it pending, and a pending gift becomes claimed (by somebody
    else than the giver) or cancelled before its deadline, or returned after
    it.  A gift that is not pending never changes again, no gift disappears,
    and new gifts start pending. *)
Theorem gift_follows_its_state_machine pepper c w r w' :
  gift_call pepper c w = (r, w') -> gifts_ok (w_db w) -> call_ok c ->
  (forall g, g ∈ db_gifts (w_db w) ->
     exists g', g' ∈ db_gifts (w_db w') /\ Gift_ID g' = Gift_ID g /\ (g' = g \/ gift_move g g')) /\
  (forall g, g ∈ db_gifts (w_db w) -> Gift_Status g <> GiftStatusPending ->
     g ∈ db_gifts (w_db w')) /\
  (forall g', g' ∈ db_gifts (w_db w') ->
     (exists g, g ∈ db_gifts (w_db w) /\ Gift_ID g' = Gift_ID g) \/
     Gift_Status g' = GiftStatusPending /\ Gift_Version g' = 1).
Proof.
  intros H Hok Hc. destruct (gift_call_moves _ _ _ _ _ H Hok Hc) as [_ _ Hold Hnew].
  split; [done|]. split; [|done]. intros g Hg Hst.
  destruct (Hold g Hg) as (g' & Hg' & _ & [->|[]]); done.
Qed.

Lemma gift_follows_its_state_machine_witness :
  (gift_call sample_pepper sample_claiming shared_world).1 = Ok tt /\
  exists g', g' ∈ db_gifts (w_db given_world) /\ Gift_ID g' = Gift_ID (the_gift shared_world) /\
    (g' = the_gift shared_world \/ gift_move (the_gift shared_world) g').
Proof.
  split; [vm_compute; reflexivity|].
  refine (proj1 (gift_follows_its_state_machine sample_pepper sample_claiming
    shared_world (Ok tt) given_world _ shared_world_ok I) (the_gift shared_world) _).
  - unfold given_world. apply run_ok. vm_compute. reflexivity.
  - vm_compute. apply list_elem_of_here.
Defined.

(** The expiry of a gift is the first among its lots. *)
Lemma earliest_expiry_least first others :
  Forall (fun i => earliest_expiry (Sel_lot first) others <= Lot_ExpiresAt (Sel_lot i))
    (first :: others).
Proof.
  assert (Hmin : forall l e,
    let least := fold_left (fun earliest item =>
      if before (Lot_ExpiresAt (Sel_lot item)) earliest then Lot_ExpiresAt (Sel_lot item)
      else earliest) l e in
    least <= e /\ forall x, x ∈ l -> least <= Lot_ExpiresAt (Sel_lot x)).
  { induction l as [|y l IH]; intros e; simpl; [split; [lia|by intros x ?%not_elem_of_nil]|].
    destruct (IH (if before (Lot_ExpiresAt (Sel_lot y)) e then Lot_ExpiresAt (Sel_lot y) else e))
      as [H1 H2].
    unfold before in *. split; [destruct (_ <? _) eqn:?; lia|].
    intros x [->|Hx]%elem_of_cons; [destruct (_ <? _) eqn:?; lia|auto]. }
  apply Forall_forall. intros i [->|Hi]%elem_of_cons.
  - exact (proj1 (Hmin others (Lot_ExpiresAt (Sel_lot first)))).
  - exact (proj2 (Hmin others (Lot_ExpiresAt (Sel_lot first))) i Hi).
Qed.

(** C18: A successful [Create] either returns the stored response of an
    earlier run with the same key and request, and changes nothing but the
    key, or inserts one pending gift.  It needs the permission; the anchor is
    an active, unexpired lot of the caller with bottles in it, and the lots are
    chosen first-expiring first among those of the anchor's owner, issuer, city
    and product.  The gift has the request's quantity, a deadline of 48 hours
    or the first expiry, and one held allocation per chosen lot, each with its
    entry in the ledger; together they make the quantity. *)
Theorem Create_makes_a_pending_gift ctx claims method path key request0 w d w' :
  Create ctx claims method path key request0 w = (Ok d, w') -> gifts_ok (w_db w) ->
  0 <= Create_Quantity request0 ->
  exists customerID request,
    giftCustomerIDWithPermission claims "wine_ticket_gift:create" = Ok customerID /\
    normalizeGiftCreateRequest request0 = Ok request /\
    (replay_of (w_db w) (w_db w') customerID path key
       (RequestHash (GiftCreateRequest_json request0)) d \/
     exists anchor selected now g row,
       gift_made (w_db w) (w_db w') customerID request anchor selected now g /\
       Gift_Status g = GiftStatusPending /\ Gift_GiverCustomerID g = customerID /\
       Gift_Quantity g = Create_Quantity request /\
       now < Gift_ClaimDeadline g <= now + 48 * hour /\
       Gift_ClaimDeadline g <= Gift_EarliestExpiresAt g /\
       Forall (fun i => Gift_EarliestExpiresAt g <= Lot_ExpiresAt (Sel_lot i)) selected /\
       d = giftDTO row /\ Proj_Gift row = g).
Proof.
  intros H Hok Hq.
  destruct (Create_cases _ _ _ _ _ _ _ _ _ H Hok Hq) as (id & rq & Hp & Hn & [Hr|Hm]).
  { exists id, rq. auto. }
  destruct Hm as (anchor & selected & now & g & row & Hm & Hd & Hrow).
  exists id, rq. split; [done|]. split; [done|]. right. exists anchor, selected, now, g, row.
  split; [done|]. pose proof (made_gift _ _ _ _ _ _ _ _ Hm) as (first & others & Hsel & Eg).
  pose proof (made_ok _ _ _ _ _ _ _ _ Hm) as [[Hi _ _ _] _].
  assert (Hcheck : gift_row_check g = true).
  { destruct (inv_gifts _ Hi) as [_ Hf]. rewrite Forall_forall in Hf. apply (Hf g).
    unfold rows. simpl. rewrite (made_row _ _ _ _ _ _ _ _ Hm), elem_of_app.
    right. by apply list_elem_of_singleton. }
  unfold gift_row_check in Hcheck. rewrite !andb_true_iff in Hcheck.
  destruct Hcheck as ((((((_ & _) & _) & _) & Hcr) & Hde) & _).
  assert (Hea : Gift_EarliestExpiresAt g = earliest_expiry (Sel_lot first) others) by (by rewrite Eg).
  assert (Hdl : Gift_ClaimDeadline g <= now + 48 * hour).
  { rewrite Eg. simpl. unfold before, add_duration, giftClaimTTL, hour, second.
    generalize (earliest_expiry (Sel_lot first) others). intros e. unfold time in *.
    destruct (Z.ltb_spec e (now + 48 * 60 * 60 * 1000000000)); lia. }
  assert (Hct : Gift_CreatedAt g = now) by (by rewrite Eg).
  repeat match goal with |- _ /\ _ => split end; try done; try lia; try (by rewrite Eg).
  rewrite Hea, Hsel. apply earliest_expiry_least.
Qed.

(** ** Running the sample calls *)

Definition create_run (w : World) : res GiftDTO * World :=
  Create Background (sample_claims "7") "POST" "/gifts" "create-key-1" sample_create w.
Definition share_run (w : World) : res GiftShareTokenDTO * World :=
  CreateShareToken sample_pepper Background (sample_claims "7") sample_gift_no
    {| Share_ExpectedGiftVersion := 1 |} w.
Definition claim_run (w : World) : res GiftDTO * World :=
  Claim sample_pepper Background (sample_claims "8") "POST" "/claims" "claim-key-1" sample_token w.
Definition cancel_run (w : World) : res GiftDTO * World :=
  Cancel Background (sample_claims "7") "POST" "/cancel" "cancel-key-1" sample_gift_no
    {| Expected_ExpectedVersion := 2 |} w.

Lemma Create_makes_a_pending_gift_witness : exists d,
  (create_run sample_world).1 = Ok d /\
  exists customerID request,
    giftCustomerIDWithPermission (sample_claims "7") "wine_ticket_gift:create" = Ok customerID /\
    normalizeGiftCreateRequest sample_create = Ok request.
Proof.
  eexists. split; [vm_compute; reflexivity|].
  edestruct (Create_makes_a_pending_gift Background (sample_claims "7") "POST" "/gifts"
    "create-key-1" sample_create sample_world) as (c & rq & H1 & H2 & _).
  - apply run_ok. vm_compute. reflexivity.
  - exact sample_gifts_ok.
  - done.
  - by exists c, rq.
Defined.

(** C17: A successful [Claim] either returns the stored response of an earlier
    run with the same key and token, and changes nothing but the key, or hands
    the bottles over.  The token is an active one of a pending gift, the
    deadline has not passed and the caller is not the giver.  The gift becomes
    claimed by the caller; every allocation becomes a lot of the caller with
    its quantity, of the lineage of its source, credited in the ledger, and
    together they make the gift's quantity; no token of the gift stays open;
    and no other gift changes. *)
Theorem Claim_hands_the_bottles_over pepper ctx claims method path key rawToken w d w' :
  Claim pepper ctx claims method path key rawToken w = (Ok d, w') -> gifts_ok (w_db w) ->
  exists customerID,
    giftCustomerIDWithPermission claims "wine_ticket_gift:claim" = Ok customerID /\
    (replay_of (w_db w) (w_db w') customerID path key
       (ResourceRequestHash "wine_ticket_gift_claim"
          (JStr (tokenDigest pepper rawToken)) (JObj [])) d \/
     exists gift token now,
       let g := gift_claimed customerID now gift in
       let allocations := allocations_of (w_db w') (Gift_ID gift) in
       claim_settled pepper rawToken (w_db w) (w_db w') customerID gift token now /\
       g ∈ db_gifts (w_db w') /\ total allocations = Gift_Quantity gift /\
       Forall (claimed_allocation (asset_view w') g customerID) allocations /\
       Forall closed_token (tokens_of (w_db w') (Gift_ID gift)) /\
       forall x, x ∈ db_gifts (w_db w) -> Gift_ID x <> Gift_ID gift -> x ∈ db_gifts (w_db w')).
Proof.
  intros H Hok.
  destruct (Claim_cases _ _ _ _ _ _ _ _ _ _ H Hok) as (id & Hp & [Hr|(gift & token & now & Hc)]).
  { exists id. auto. }
  exists id. split; [done|]. right. exists gift, token, now. cbv zeta. split; [done|].
  destruct (cs_settled _ _ _ _ _ _ _ _ Hc) as ([_ Hgood _ _] & _ & Eg).
  assert (Hin : gift_claimed id now gift ∈ db_gifts (w_db w')).
  { rewrite Eg. apply (replaced_gift_in _ gift); [|done]. apply (cs_gift _ _ _ _ _ _ _ _ Hc). }
  split; [done|]. rewrite Forall_forall in Hgood. destruct (Hgood _ Hin) as [_ Ht Hs].
  split; [exact Ht|]. destruct Hs as [Hs|r t Hs Hr _ _ _ _ _ Hal Htk|t Hs|t Hs];
    [done| |done|done].
  injection Hr as <-. split; [exact Hal|]. split; [exact Htk|].
  intros x Hx Hne. rewrite Eg. by apply other_gift_in.
Qed.

Lemma Claim_hands_the_bottles_over_witness : exists d,
  (claim_run shared_world).1 = Ok d /\ DTO_Status d = GiftStatusClaimed /\
  exists customerID,
    giftCustomerIDWithPermission (sample_claims "8") "wine_ticket_gift:claim" = Ok customerID.
Proof.
  eexists. split; [vm_compute; reflexivity|]. split; [reflexivity|].
  edestruct (Claim_hands_the_bottles_over sample_pepper Background (sample_claims "8") "POST"
    "/claims" "claim-key-1" sample_token shared_world) as (c & H & _).
  - apply run_ok. vm_compute. reflexivity.
  - exact shared_world_ok.
  - by exists c.
Defined.

(** C19: A successful [Cancel] either returns the stored response of an
    earlier run with the same key, gift and version, and changes nothing but
    the key, or gives the bottles back.  Only the giver can cancel, a pending
    gift before its deadline, with the version she saw.  The gift becomes
    cancelled; every allocation is restored with an entry that puts its
    quantity back on its source lot, and no token of the gift stays open. *)
Theorem Cancel_gives_the_bottles_back ctx claims method path key giftNo request w d w' :
  Cancel ctx claims method path key giftNo request w = (Ok d, w') -> gifts_ok (w_db w) ->
  exists customerID,
    giftCustomerIDWithPermission claims "wine_ticket_gift:cancel" = Ok customerID /\
    (replay_of (w_db w) (w_db w') customerID path key
       (ResourceRequestHash "wine_ticket_gift_cancel" (JStr giftNo)
          (GiftExpectedVersionRequest_json request)) d \/
     exists gift now,
       let g := gift_returned GiftStatusCancelled now gift in
       let allocations := allocations_of (w_db w') (Gift_ID gift) in
       cancel_settled (w_db w) (w_db w') customerID giftNo (Expected_ExpectedVersion request)
         gift now /\
       g ∈ db_gifts (w_db w') /\ total allocations = Gift_Quantity gift /\
       Forall (restored_allocation (asset_view w') g) allocations /\
       Forall closed_token (tokens_of (w_db w') (Gift_ID gift)) /\
       forall x, x ∈ db_gifts (w_db w) -> Gift_ID x <> Gift_ID gift -> x ∈ db_gifts (w_db w')).
Proof.
  intros H Hok.
  destruct (Cancel_cases _ _ _ _ _ _ _ _ _ _ H Hok) as (id & Hp & [Hr|(gift & now & Hc)]).
  { exists id. auto. }
  exists id. split; [done|]. right. exists gift, now. cbv zeta. split; [done|].
  destruct (xs_settled _ _ _ _ _ _ _ Hc) as ([_ Hgood _ _] & _ & Eg).
  assert (Hin : gift_returned GiftStatusCancelled now gift ∈ db_gifts (w_db w')).
  { rewrite Eg. apply (replaced_gift_in _ gift); [|done]. apply (xs_gift _ _ _ _ _ _ _ Hc). }
  split; [done|]. rewrite Forall_forall in Hgood. destruct (Hgood _ Hin) as [_ Ht Hs].
  split; [exact Ht|]. destruct Hs as [Hs|r t Hs|t Hs _ _ _ _ _ Hal Htk|t Hs];
    [done|done| |done].
  split; [exact Hal|]. split; [exact Htk|]. intros x Hx Hne. rewrite Eg. by apply other_gift_in.
Qed.

Lemma Cancel_gives_the_bottles_back_witness : exists d,
  (cancel_run shared_world).1 = Ok d /\ DTO_Status d = GiftStatusCancelled /\
  exists customerID,
    giftCustomerIDWithPermission (sample_claims "7") "wine_ticket_gift:cancel" = Ok customerID.
Proof.
  eexists. split; [vm_compute; reflexivity|]. split; [reflexivity|].
  edestruct (Cancel_gives_the_bottles_back Background (sample_claims "7") "POST"
    "/cancel" "cancel-key-1" sample_gift_no {| Expected_ExpectedVersion := 2 |} shared_world)
    as (c & H & _).
  - apply run_ok. vm_compute. reflexivity.
  - exact shared_world_ok.
  - by exists c.
Defined.
