(* ===== verification/RedemptionBooks.v ===== *)
(** * The books of the redemptions

    What a redemption changes besides the lots and their ledger: the slots,
    the redemptions with their allocations, the stock with its records, the
    orders.  The lemmas say what each statement of the service does to these
    books; what only writes elsewhere is [quiet]. *)

From S2P Require Import Prelude GoInt GoString GoTime Json Problem RequestCtx.
From S2P Require Import CoreModel AssetService GiftModel RedemptionModel AssetLaws AssetLedger.
From S2P Require Import Database FulfilmentTables Steps AssetRepository IntegrityScan Samples.
From S2P Require Import AssetTheorems AssetKeeps LedgerEntries Idempotency GiftDto GiftRepository GiftService.
From S2P Require Import GiftSelection GiftInvariant RedemptionDto RedemptionRepository.
From S2P Require Import ScheduledDispatch RedemptionService.
From Stdlib Require Import String.
#[local] Open Scope string_scope. #[local] Open Scope list_scope. #[local] Open Scope Z_scope.
#[local] Open Scope go_scope.

Record Books := {
  bk_slots : list DeliveryTimeSlot;
  bk_redemptions : list Redemption;
  bk_allocations : list RedemptionAllocation;
  bk_stocks : list PhysicalStock;
  bk_records : list StockRecord;
  bk_orders : list Order;
  bk_items : list OrderItem;
}.

Definition books (db : Database) : Books :=
  let f := db_fulfilment db in {|
  bk_slots := ful_slots f; bk_redemptions := ful_redemptions f;
  bk_allocations := db_redemption_allocations db; bk_stocks := ful_stocks f;
  bk_records := ful_stock_records f; bk_orders := ful_orders f;
  bk_items := ful_order_items f |}.

(** A change of one of the books. *)
Definition on_slots (f : list DeliveryTimeSlot -> list DeliveryTimeSlot) (b : Books) : Books := {|
  bk_slots := f (bk_slots b); bk_redemptions := bk_redemptions b;
  bk_allocations := bk_allocations b; bk_stocks := bk_stocks b; bk_records := bk_records b;
  bk_orders := bk_orders b; bk_items := bk_items b |}.
Definition on_redemptions (f : list Redemption -> list Redemption) (b : Books) : Books := {|
  bk_slots := bk_slots b; bk_redemptions := f (bk_redemptions b);
  bk_allocations := bk_allocations b; bk_stocks := bk_stocks b; bk_records := bk_records b;
  bk_orders := bk_orders b; bk_items := bk_items b |}.
Definition on_allocations (f : list RedemptionAllocation -> list RedemptionAllocation)
    (b : Books) : Books := {|
  bk_slots := bk_slots b; bk_redemptions := bk_redemptions b;
  bk_allocations := f (bk_allocations b); bk_stocks := bk_stocks b; bk_records := bk_records b;
  bk_orders := bk_orders b; bk_items := bk_items b |}.
Definition on_stocks (f : list PhysicalStock -> list PhysicalStock)
    (g : list StockRecord -> list StockRecord) (b : Books) : Books := {|
  bk_slots := bk_slots b; bk_redemptions := bk_redemptions b;
  bk_allocations := bk_allocations b; bk_stocks := f (bk_stocks b);
  bk_records := g (bk_records b); bk_orders := bk_orders b; bk_items := bk_items b |}.
Definition on_orders (f : list Order -> list Order) (g : list OrderItem -> list OrderItem)
    (b : Books) : Books := {|
  bk_slots := bk_slots b; bk_redemptions := bk_redemptions b;
  bk_allocations := bk_allocations b; bk_stocks := bk_stocks b; bk_records := bk_records b;
  bk_orders := f (bk_orders b); bk_items := g (bk_items b) |}.

(** The row with the key of [x] becomes [y]. *)
Definition replaced {R} (key : R -> Z) (x y : R) (l : list R) : list R :=
  map (fun r => if key r =? key x then y else r) l.

(** ** The shelf: what the wine tickets keep of bottles *)

Definition shelf (db : Database) := (view_db db, gift_tables db, (books db, db_sales db)).

Abbreviation quiet := (keep shelf).

Lemma quiet_view db db' : quiet db db' -> view_db db' = view_db db.
Proof. unfold keep. intros H. exact (f_equal (fun s => s.1.1) H). Qed.

Lemma quiet_books db db' : quiet db db' -> books db' = books db.
Proof. unfold keep. intros H. exact (f_equal (fun s => s.2.1) H). Qed.

Lemma quiet_spare db db' : quiet db db' -> spare db db'.
Proof.
  intros H. apply spare_same; [exact (f_equal (fun s => s.2.2) H)|].
  exact (f_equal v_lots (quiet_view _ _ H)).
Qed.

Lemma quiet_audit l db : quiet db (set_rows (R:=AuditLog) l db).
Proof. done. Qed.
Lemma quiet_outbox l db : quiet db (set_rows (R:=OutboxEvent) l db).
Proof. done. Qed.
Lemma quiet_idempotency l db : quiet db (set_rows (R:=IdempotencyRecord) l db).
Proof. done. Qed.
Lemma quiet_order_log l db : quiet db (set_rows (R:=OrderLog) l db).
Proof. done. Qed.
Lemma quiet_delivery l db : quiet db (set_rows (R:=DeliveryOrder) l db).
Proof. done. Qed.
Lemma quiet_job l db : quiet db (set_rows (R:=DispatchJob) l db).
Proof. done. Qed.
Lemma quiet_offer l db : quiet db (set_rows (R:=DispatchOffer) l db).
Proof. done. Qed.
Lemma quiet_assignment l db : quiet db (set_rows (R:=DispatchAssignment) l db).
Proof. done. Qed.

Lemma quiet_after_sale l db : quiet db (set_rows (R:=AfterSale) l db).
Proof. done. Qed.
Lemma quiet_after_sale_item l db : quiet db (set_rows (R:=AfterSaleItem) l db).
Proof. done. Qed.
Lemma quiet_after_sale_history l db : quiet db (set_rows (R:=AfterSaleHistory) l db).
Proof. done. Qed.

#[export] Hint Resolve quiet_audit quiet_outbox quiet_idempotency quiet_order_log quiet_delivery
  quiet_job quiet_offer quiet_assignment quiet_after_sale quiet_after_sale_item
  quiet_after_sale_history : steps.

Section Quiet.
Context {R : Type} `{Table R} (Hset : forall l db, quiet db (set_rows (R:=R) l db)).

Lemma create_quiet (r : R) : steps quiet (create_row r).
Proof. apply steps_any_steps, steps_any_create; [exact _|]. intros. apply Hset. Qed.

Lemma create_any_quiet (r : R) : steps_any quiet (create_row r).
Proof. apply steps_any_create; [exact _|]. intros. apply Hset. Qed.

Lemma ignore_quiet (r : R) : steps_any quiet (create_or_ignore r).
Proof. apply steps_any_create_or_ignore; [exact _|]. intros. apply Hset. Qed.

Lemma create_rows_quiet (l : list R) : steps quiet (create_rows l).
Proof. apply steps_any_steps, steps_any_create_rows; [exact _|]. intros. apply Hset. Qed.

Lemma update_quiet p (f : R -> R) : steps_any quiet (update_rows p f).
Proof. apply steps_any_update; [exact _|]. intros. apply Hset. Qed.
End Quiet.

#[export] Hint Resolve create_quiet create_rows_quiet ignore_quiet update_quiet : steps.

(** ** The dispatch side

    [ports.go] asks of an implementation that it touches the delivery and the
    dispatch tasks only. *)
Class Confined (d : RedemptionDispatchCoordinator) : Prop := {
  ensure_confined ctx input : steps quiet (EnsureRedemptionTaskTx d ctx input);
  prefix_confined ctx orderID : steps quiet (LockCancellationPrefixTx d ctx orderID);
  cancellation_confined ctx input : steps quiet (ApplyCancellationTx d ctx input);
}.
#[export] Hint Resolve ensure_confined prefix_confined cancellation_confined : steps.

#[export] Instance fulfillment_dispatch_confined ensure :
  (forall ctx input, steps quiet (ensure ctx input)) -> Confined (FulfillmentDispatch ensure).
Proof.
  intros He. split; simpl; intros ctx x.
  - unfold adapter_EnsureRedemptionTaskTx. go_steps.
  - unfold LockScheduledCancellationPrefixTx, take_delivery, lockDispatchChildrenForCancellation.
    go_steps.
  - unfold ApplyScheduledCancellationTx, createOutbox. go_steps.
Qed.

(** ** Statements that change one of the books *)

Definition list_ok {R} `{Table R} (l : list R) : Prop :=
  no_conflict row_conflict l = true /\ Forall (fun r : R => row_check r = true) l.

Section OneRow.
Context {R : Type} `{Table R} (key : R -> Z).
Context (Hkey : forall a b : R, key a = key b -> row_conflict a b = true).

Lemma list_keys (l : list R) : list_ok l -> NoDup (map key l).
Proof. intros [Hc _]. by apply (unique_rows key). Qed.

(** An update that hit rows leaves the keys and checks in order. *)
Lemma update_rows_list p (f : R -> R) n w w' :
  update_rows p f w = (Ok n, w') -> n <> 0 -> list_ok (rows (w_db w)) ->
  n = Z.of_nat (List.length (List.filter p (rows (w_db w)))) /\
  w_db w' = set_rows (map (fun r => if p r then f r else r) (rows (w_db w))) (w_db w) /\
  list_ok (map (fun r => if p r then f r else r) (rows (w_db w))).
Proof.
  intros E Hn Hok. apply exec_ok in E. cbv zeta in E. destruct (forallb _ _) eqn:F; [|discriminate].
  simpl in E. destruct (List.filter p _) as [|r l] eqn:Hf; [by simplify_eq|].
  destruct (no_conflict _ _) eqn:Hc; [|discriminate]. injection E as <- Hdb.
  split; [done|]. split; [done|]. split; [done|]. apply table_update_rows; [apply Hok|].
  rewrite forallb_forall in F. intros y Hy Py. apply F. rewrite <- Hf. apply filter_In.
  by rewrite <- list_elem_of_In.
Qed.

(** An update that reports no count leaves a table in order. *)
Lemma update_rows_any p (f : R -> R) n w w' :
  update_rows p f w = (Ok n, w') -> list_ok (rows (w_db w)) ->
  (w_db w' = w_db w /\ List.filter p (rows (w_db w)) = []) \/
  w_db w' = set_rows (map (fun r => if p r then f r else r) (rows (w_db w))) (w_db w) /\
  list_ok (map (fun r => if p r then f r else r) (rows (w_db w))).
Proof.
  intros E Hok. destruct (Z.eq_dec n 0) as [->|Hn]; [left|right].
  - apply exec_ok in E. cbv zeta in E. destruct (forallb _ _); [|discriminate]. simpl in E.
    destruct (List.filter p _) as [|r l]; [by simplify_eq|].
    destruct (no_conflict _ _); [|discriminate]. injection E as En _. simpl in En. lia.
  - by apply update_rows_list in E as (_ & ? & ?).
Qed.

(** An update guarded by the key of one row replaces that row. *)
Lemma guarded_replaced p (f : R -> R) (x : R) l :
  NoDup (map key l) -> x ∈ l -> p x = true -> (forall r, p r = true -> key r = key x) ->
  map (fun r => if p r then f r else r) l = replaced key x (f x) l.
Proof.
  intros Hnd Hx Hpx Hp. apply map_ext_in. intros y Hy. apply list_elem_of_In in Hy.
  destruct (Z.eqb_spec (key y) (key x)) as [Ey|Ey].
  - by rewrite (NoDup_map_inj key _ _ _ Hnd Hy Hx Ey), Hpx.
  - destruct (p y) eqn:Py; [by apply Hp in Py|done].
Qed.

(** A guarded update that hit one row hit the row with the key. *)
Lemma update_one_row p f (x : R) w w' :
  update_rows p f w = (Ok 1, w') -> list_ok (rows (w_db w)) -> x ∈ rows (w_db w) ->
  (forall r, p r = true -> key r = key x) ->
  p x = true /\ w_db w' = set_rows (replaced key x (f x) (rows (w_db w))) (w_db w) /\
  list_ok (replaced key x (f x) (rows (w_db w))).
Proof.
  intros E Hok Hx Hp. pose proof (list_keys _ Hok) as Hnd.
  apply update_rows_list in E as (Hlen & Hdb & Hl); [|done|done].
  destruct (List.filter p _) as [|r [|r2 l]] eqn:Hf; simpl in Hlen; [lia| |lia].
  assert (Hr : r ∈ rows (w_db w) /\ p r = true).
  { assert (Hin : In r [r]) by (by left). rewrite <- Hf in Hin. apply filter_In in Hin.
    by rewrite list_elem_of_In. }
  destruct Hr as [Hr Hpr].
  assert (r = x) as -> by (apply (NoDup_map_inj key _ _ _ Hnd); auto).
  by rewrite <- (guarded_replaced p f x _ Hnd Hx Hpr Hp).
Qed.

(** An update whose guard holds of [x] and of no other row changes [x]. *)
Lemma update_this_row p f (x : R) n w w' :
  update_rows p f w = (Ok n, w') -> list_ok (rows (w_db w)) -> x ∈ rows (w_db w) ->
  p x = true -> (forall r, p r = true -> key r = key x) ->
  w_db w' = set_rows (replaced key x (f x) (rows (w_db w))) (w_db w) /\
  list_ok (replaced key x (f x) (rows (w_db w))).
Proof.
  intros E Hok Hx Hpx Hp. pose proof (list_keys _ Hok) as Hnd.
  rewrite <- (guarded_replaced p f x _ Hnd Hx Hpx Hp).
  destruct (update_rows_any _ _ _ _ _ E Hok) as [[_ Hnone]|Hup]; [|done].
  exfalso. assert (Hin : In x (List.filter p (rows (w_db w)))).
  { apply filter_In. split; [by apply list_elem_of_In|done]. }
  by rewrite Hnone in Hin.
Qed.

Lemma changed_one_row p f (x : R) w w' :
  changed_one p f w = (Ok true, w') -> list_ok (rows (w_db w)) -> x ∈ rows (w_db w) ->
  (forall r, p r = true -> key r = key x) ->
  p x = true /\ w_db w' = set_rows (replaced key x (f x) (rows (w_db w))) (w_db w) /\
  list_ok (replaced key x (f x) (rows (w_db w))).
Proof.
  unfold changed_one. intros E. run_step E. apply ret_ok_inv in E as [Ea ->].
  symmetry in Ea. apply Z.eqb_eq in Ea. subst a. by apply update_one_row.
Qed.

Context (Hsym : forall a b : R, row_conflict a b = row_conflict b a).

Lemma create_one_row (r : R) w u w' :
  create_row r w = (Ok u, w') -> list_ok (rows (w_db w)) ->
  w_db w' = set_rows (rows (w_db w) ++ [r]) (w_db w) /\ list_ok (rows (w_db w) ++ [r]) /\
  (forall x, x ∈ rows (w_db w) -> key x <> key r).
Proof.
  intros E Hok. apply create_row_ok in E as (Hdb & Hc & Hno). split; [done|]. split.
  - apply table_create_rows; auto; apply Hok.
  - intros x Hx Ex. specialize (Hno x Hx). rewrite Hkey in Hno; [done|auto].
Qed.
End OneRow.

Lemma replaced_elem {R} (key : R -> Z) (x y z : R) l :
  z ∈ replaced key x y l -> z = y \/ z ∈ l /\ key z <> key x.
Proof.
  intros Hz. apply list_elem_of_In, in_map_iff in Hz as (r & <- & Hr).
  apply list_elem_of_In in Hr. destruct (Z.eqb_spec (key r) (key x)); auto.
Qed.

Lemma replaced_in {R} (key : R -> Z) (x y : R) l : x ∈ l -> y ∈ replaced key x y l.
Proof.
  intros Hx. apply list_elem_of_In, in_map_iff. exists x. rewrite Z.eqb_refl.
  split; [done|]. by apply list_elem_of_In.
Qed.

Lemma replaced_other {R} (key : R -> Z) (x y z : R) l :
  z ∈ l -> key z <> key x -> z ∈ replaced key x y l.
Proof.
  intros Hz E. apply list_elem_of_In, in_map_iff. exists z.
  rewrite (proj2 (Z.eqb_neq _ _) E). split; [done|]. by apply list_elem_of_In.
Qed.

(** ** The keys and checks of the books *)

Record shelf_ok (db : Database) : Prop := {
  shelf_ledger : ledger_ok (view_db db);
  shelf_slots : list_ok (bk_slots (books db));
  shelf_redemptions : list_ok (bk_redemptions (books db));
  shelf_allocations : list_ok (bk_allocations (books db));
  shelf_stocks : list_ok (bk_stocks (books db));
  shelf_orders : list_ok (bk_orders (books db));
}.

Lemma shelf_ok_quiet db db' : shelf_ok db -> quiet db db' -> shelf_ok db'.
Proof.
  intros [H1 H2 H3 H4 H5 H6] Hq. pose proof (quiet_view _ _ Hq) as Hv.
  pose proof (quiet_books _ _ Hq) as Hb. by split; rewrite ?Hv, ?Hb.
Qed.

(** The unique keys of the tables name the same row both ways. *)
Ltac symmetric_keys :=
  let a := fresh in let b := fresh in
  intros a b; simpl; unfold same_window, same_text, same_option;
  repeat match goal with
  | |- context [?f a =? ?f b] => rewrite (Z.eqb_sym (f a))
  | |- context [String.eqb (?f a) (?f b)] => rewrite (String.eqb_sym (f a))
  end; try done.

Lemma slot_key a b : Slot_ID a = Slot_ID b -> row_conflict a b = true.
Proof. simpl. intros ->. by rewrite Z.eqb_refl. Qed.
Lemma redemption_key a b : Red_ID a = Red_ID b -> row_conflict a b = true.
Proof. simpl. intros ->. by rewrite Z.eqb_refl. Qed.
Lemma allocation_key a b : RA_ID a = RA_ID b -> row_conflict a b = true.
Proof. simpl. intros ->. by rewrite Z.eqb_refl. Qed.
Lemma order_key a b : Order_ID a = Order_ID b -> row_conflict a b = true.
Proof. simpl. intros ->. by rewrite Z.eqb_refl. Qed.
Lemma stock_key a b : Stock_ID a = Stock_ID b -> row_conflict a b = true.
Proof. simpl. intros ->. by rewrite Z.eqb_refl. Qed.

Lemma redemption_conflict_sym (a b : Redemption) : row_conflict a b = row_conflict b a.
Proof. revert a b. symmetric_keys. Qed.
Lemma allocation_conflict_sym (a b : RedemptionAllocation) : row_conflict a b = row_conflict b a.
Proof. revert a b. symmetric_keys. Qed.
Lemma order_conflict_sym (a b : Order) : row_conflict a b = row_conflict b a.
Proof. revert a b. symmetric_keys. Qed.
