(* ===== verification/RedemptionHold.v ===== *)
(** * Taking and giving back what a redemption needs

    The loops over lots and allocations, the slot and the stock: each does to
    the books what its name says, and the ledger only grows. *)

From S2P Require Import Prelude GoInt GoString GoTime Json Problem RequestCtx.
From S2P Require Import CoreModel AssetService GiftModel RedemptionModel AssetLaws AssetLedger.
From S2P Require Import Database FulfilmentTables Steps AssetRepository IntegrityScan Samples.
From S2P Require Import AssetTheorems AssetKeeps LedgerEntries Idempotency GiftDto GiftRepository GiftService.
From S2P Require Import GiftSelection GiftInvariant RedemptionDto RedemptionRepository.
From S2P Require Import GiftRuns ScheduledDispatch RedemptionService RedemptionBooks.
From Stdlib Require Import String.
#[local] Open Scope string_scope. #[local] Open Scope list_scope. #[local] Open Scope Z_scope.
#[local] Open Scope go_scope.

(** ** Runs that change the books *)

(** The books become [F] of what they were; the ledger only grows. *)
Record booked (F : Books -> Books) (db db' : Database) : Prop := {
  booked_ok : shelf_ok db';
  booked_extends : extends (view_db db) (view_db db');
  booked_gifts : gift_tables db' = gift_tables db;
  booked_books : books db' = F (books db);
  booked_spare : spare db db';
}.

Definition same_books (b : Books) : Books := b.

Lemma booked_quiet db db' : shelf_ok db -> quiet db db' -> booked same_books db db'.
Proof.
  intros Hok Hq. pose proof (quiet_view _ _ Hq) as Hv. split; [by eapply shelf_ok_quiet| | | |].
  - rewrite Hv. apply extends_refl.
  - unfold keep in Hq. exact (f_equal (fun s => s.1.2) Hq).
  - by apply quiet_books.
  - by apply quiet_spare.
Qed.

Lemma booked_then F G a b c : booked F a b -> booked G b c -> booked (fun x => G (F x)) a c.
Proof.
  intros [H1 H2 H3 H4 S1] [H5 H6 H7 H8 S2].
  split; [done|by eapply extends_trans|congruence|by rewrite H8, H4|by transitivity b].
Qed.

Lemma booked_eq F G a b : booked F a b -> F (books a) = G (books a) -> booked G a b.
Proof. intros [H1 H2 H3 H4 H5] E. split; [done..| |done]. by rewrite H4. Qed.

Lemma on_allocations_same f b : f (bk_allocations b) = bk_allocations b -> on_allocations f b = b.
Proof. intros E. unfold on_allocations. rewrite E. by destruct b. Qed.

(** A run that changed one table of the books. *)
Lemma booked_set F db db' :
  view_db db' = view_db db -> gift_tables db' = gift_tables db -> db_sales db' = db_sales db ->
  books db' = F (books db) -> shelf_ok db' -> booked F db db'.
Proof.
  intros Hv Hg Hs Hb Hok. split; auto; [rewrite Hv; apply extends_refl|].
  apply spare_same; [done|]. exact (f_equal v_lots Hv).
Qed.

(** ** Ledger entries of a redemption *)

Definition redemption_entry (v : AssetView) (ty key : string) (redemptionID lotID delta : Z)
    : Prop := ledger_entry v "wine_ticket_redemption" ty key redemptionID lotID delta.

Lemma redemption_entry_extends v v' ty key r l d :
  extends v v' -> redemption_entry v ty key r l d -> redemption_entry v' ty key r l d.
Proof. apply ledger_entry_extends. Qed.

(** The bottles of an allocation were taken out of its lot. *)
Definition taken (v : AssetView) (a : RedemptionAllocation) : Prop :=
  redemption_entry v TransactionTypeRedemptionHold
    (redemption_hold_key (RA_RedemptionID a) (RA_LotID a)) (RA_RedemptionID a) (RA_LotID a)
    (- RA_Quantity a).

(** They were put back. *)
Definition put_back (v : AssetView) (a : RedemptionAllocation) : Prop :=
  redemption_entry v TransactionTypeRedemptionRestore
    (redemption_restore_key (RA_RedemptionID a) (RA_LotID a)) (RA_RedemptionID a) (RA_LotID a)
    (RA_Quantity a).

(** The allocation of a selected lot. *)
Definition held_from (redemptionID : Z) (now : time) (v : AssetView) (item : giftFEFOSelection)
    (a : RedemptionAllocation) : Prop :=
  (exists id, a = held_allocation id redemptionID (Sel_lot item) (Sel_quantity item) now) /\
  taken v a.

Lemma asset_booked ctx op w m w' :
  asset_op ctx op w = (Ok m, w') -> op_ok op -> op_spares op -> shelf_ok (w_db w) ->
  booked same_books (w_db w) (w_db w').
Proof.
  intros H Hop Hsp [H1 H2 H3 H4 H5 H6].
  destruct (asset_op_effect _ _ _ _ _ H Hop H1) as (Hok & He & Hf).
  pose proof (Hf _ gift_tables (fun _ => eq_refl)) as Hg.
  pose proof (Hf _ books (fun _ => eq_refl)) as Hb.
  split; [|done..|by eapply asset_op_spare]. by split; rewrite ?Hb.
Qed.

Lemma allocation_created a w u w' :
  createAllocation a w = (Ok u, w') -> shelf_ok (w_db w) ->
  booked (on_allocations (fun l => l ++ [a])) (w_db w) (w_db w').
Proof.
  intros H [H1 H2 H3 H4 H5 H6].
  destruct (create_one_row RA_ID allocation_key allocation_conflict_sym _ _ _ _ H H4)
    as (Hdb & Hl & _).
  rewrite Hdb. apply booked_set; [done..|]. by split.
Qed.

(** One turn of the loop of [holdRedemptionLots]. *)
Lemma hold_lot_turn ctx customerID redemptionID no lot take_ id now w w' :
  (Redeem redemption_assets ctx redemption_ledger
     (redemption_hold_command customerID redemptionID no lot take_ id now) ;;;
   createAllocation (held_allocation id redemptionID lot take_ now)) w = (Ok tt, w') ->
  0 <= take_ < 2 ^ 32 -> shelf_ok (w_db w) ->
  let a := held_allocation id redemptionID lot take_ now in
  booked (on_allocations (fun l => l ++ [a])) (w_db w) (w_db w') /\ taken (view_db (w_db w')) a.
Proof.
  intros H Hq Hok a. apply bind_ok_inv in H as (m & w1 & H1 & H2).
  pose proof (debit_entry_written _ _ _ _ _ _ H1 Hq (shelf_ledger _ Hok)) as Ht.
  apply (asset_booked ctx (OpRedeem _)) in H1; [|unfold op_ok, quantity_ok; simpl; lia|done|done].
  apply allocation_created in H2; [|apply H1]. split; [exact (booked_then _ _ _ _ _ H1 H2)|].
  eapply redemption_entry_extends; [apply H2|]. exact Ht.
Qed.

Lemma hold_lots_ok ctx customerID redemptionID no now lots : forall remaining w out w',
  hold_lots ctx customerID redemptionID no now lots remaining w = (Ok out, w') ->
  0 <= remaining < u64_mod -> stocked lots -> shelf_ok (w_db w) ->
  exists selected, fefo_loop lots remaining = (selected, out.2) /\
    booked (on_allocations (fun l => l ++ out.1)) (w_db w) (w_db w') /\
    Forall2 (held_from redemptionID now (view_db (w_db w'))) selected out.1.
Proof.
  induction lots as [|lot lots IH]; intros remaining w out w' H Hr Hst Hok; simpl in H |- *.
  { run H. exists []. split; [done|]. split; [|constructor].
    eapply booked_eq; [by apply booked_quiet|]. symmetry. apply on_allocations_same, app_nil_r. }
  inversion Hst as [|? ? Hlot Hrest]; subst. destruct (remaining =? 0) eqn:E0.
  { run H. exists []. split; [done|]. split; [|constructor].
    eapply booked_eq; [by apply booked_quiet|]. symmetry. apply on_allocations_same, app_nil_r. }
  set (take_ := if remaining <? Lot_AvailableQuantity lot then _ else _) in *.
  assert (Htake : 0 <= take_ <= remaining /\ take_ < 2 ^ 32)
    by (subst take_; destruct (_ <? _) eqn:?; lia).
  clearbody take_. destruct (Z.eqb_spec take_ 0) as [_|Hnz].
  { by apply IH in H. }
  run_step H. apply next_id_db in R as Eid. rename a into id.
  assert (H' : exists w2, (Redeem redemption_assets ctx redemption_ledger
     (redemption_hold_command customerID redemptionID no lot take_ id now) ;;;
     createAllocation (held_allocation id redemptionID lot take_ now)) w0 = (Ok tt, w2) /\
     (others <- hold_lots ctx customerID redemptionID no now lots (uint_sub remaining take_) ;;
      ret (held_allocation id redemptionID lot take_ now :: others.1, others.2)) w2 = (Ok out, w')).
  { apply bind_ok_inv in H as (m & w1 & H1 & H). apply bind_ok_inv in H as ([] & w2 & H2 & H).
    exists w2. split; [|done]. unfold bind. by rewrite H1. }
  clear H. destruct H' as (w2 & H1 & H). rewrite <- Eid in Hok.
  apply hold_lot_turn in H1 as [Hb1 Ht]; [|lia|done]. rewrite Eid in Hb1.
  run_step H. apply ret_ok_inv in H as [-> ->].
  apply IH in R0 as (selected & Hf & Hb2 & Hall); [|rewrite uint_sub_small by int_range; lia|done|apply Hb1].
  rewrite Hf. exists ({| Sel_lot := lot; Sel_quantity := take_ |} :: selected).
  split; [done|]. split.
  - eapply booked_eq; [exact (booked_then _ _ _ _ _ Hb1 Hb2)|]. simpl. unfold on_allocations. simpl.
    by rewrite <- app_assoc.
  - constructor; [|done]. split; [by exists id|].
    eapply redemption_entry_extends; [apply Hb2|exact Ht].
Qed.

(** The lots give first-expiring first, all that was asked for. *)
Lemma holdRedemptionLots_ok ctx customerID redemptionID no quantity lots now w news w' :
  holdRedemptionLots ctx customerID redemptionID no quantity lots now w = (Ok news, w') ->
  0 <= quantity < u64_mod -> stocked lots -> shelf_ok (w_db w) ->
  booked (on_allocations (fun l => l ++ news)) (w_db w) (w_db w') /\
  Forall2 (held_from redemptionID now (view_db (w_db w'))) (fefo_reference quantity 0 lots) news /\
  quantity <= stock lots.
Proof.
  intros H Hq Hst Hok. unfold holdRedemptionLots in H. run_step H. rename a into out.
  run_step H. apply ret_ok_inv in H as [-> ->]. apply negb_false_iff, Z.eqb_eq in G.
  apply hold_lots_ok in R as (selected & Hf & Hb & Hall); [|done..].
  pose proof (fefo_loop_reference lots quantity 0 Hst ltac:(lia)) as Href.
  rewrite Z.sub_0_r in Href. rewrite Hf in Href. injection Href as -> Hrem.
  split; [done|]. split; [done|]. lia.
Qed.

(** ** The slot *)

Lemma list_row {R} `{Table R} (l : list R) x : list_ok l -> x ∈ l -> row_check x = true.
Proof. intros [_ Hl]. rewrite Forall_forall in Hl. auto. Qed.

Lemma slot_numbers db s : shelf_ok db -> s ∈ bk_slots (books db) ->
  0 <= Slot_ReservedOrders s <= Slot_CapacityOrders s /\ Slot_CapacityOrders s < 2 ^ 32 /\
  0 <= Slot_Version s < 2 ^ 32.
Proof.
  intros Hok Hin. pose proof (list_row _ s (shelf_slots _ Hok) Hin) as Hs.
  change (slot_row_check s = true) in Hs. unfold slot_row_check, fits_uint32 in Hs.
  rewrite !andb_true_iff in Hs. lia.
Qed.

Definition slot_reserved (now : time) (s : DeliveryTimeSlot) : DeliveryTimeSlot :=
  slot_with (Slot_ReservedOrders s + 1) (Slot_Version s + 1) now s.
Definition slot_released (now : time) (s : DeliveryTimeSlot) : DeliveryTimeSlot :=
  slot_with (Slot_ReservedOrders s - 1) (Slot_Version s + 1) now s.

Lemma slots_booked l db : shelf_ok db -> list_ok l ->
  booked (on_slots (fun _ => l)) db (set_rows (R:=DeliveryTimeSlot) l db).
Proof. intros [H1 H2 H3 H4 H5 H6] Hl. apply booked_set; [done..|]. by split. Qed.

Lemma reserveRedemptionSlot_ok slot now w w' :
  reserveRedemptionSlot slot now w = (Ok tt, w') -> shelf_ok (w_db w) ->
  slot ∈ bk_slots (books (w_db w)) ->
  booked (on_slots (replaced Slot_ID slot (slot_reserved now slot))) (w_db w) (w_db w') /\
  Slot_Status slot = "open" /\ Slot_ReservedOrders slot < Slot_CapacityOrders slot.
Proof.
  intros H Hok Hs. pose proof (slot_numbers _ _ Hok Hs) as Hn.
  unfold reserveRedemptionSlot in H. run_step H. run_step H. destruct a; [|done].
  unfold reserveSlot in R.
  apply (changed_one_row Slot_ID slot_key _ _ slot) in R as (Hp & Hdb & Hl);
    [|apply (shelf_slots _ Hok)|done|intros r; rewrite !andb_true_iff; lia].
  rewrite !uint_add_small in Hdb, Hl by int_range. rewrite !andb_true_iff in Hp.
  destruct Hp as [[[_ Hopen] _] Hroom]. apply String.eqb_eq in Hopen.
  split; [|split; [done|lia]]. rewrite Hdb.
  eapply booked_eq; [by apply slots_booked|done].
Qed.

Lemma releaseSlot_ok slot now w w' :
  releaseSlot slot now w = (Ok true, w') -> shelf_ok (w_db w) ->
  slot ∈ bk_slots (books (w_db w)) ->
  booked (on_slots (replaced Slot_ID slot (slot_released now slot))) (w_db w) (w_db w') /\
  0 < Slot_ReservedOrders slot.
Proof.
  intros R Hok Hs. pose proof (slot_numbers _ _ Hok Hs) as Hn. unfold releaseSlot in R.
  apply (changed_one_row Slot_ID slot_key _ _ slot) in R as (Hp & Hdb & Hl);
    [|apply (shelf_slots _ Hok)|done|intros r; rewrite !andb_true_iff; lia].
  rewrite !andb_true_iff in Hp. assert (0 < Slot_ReservedOrders slot) by lia.
  rewrite uint_add_small, uint_sub_small in Hdb, Hl by int_range.
  split; [|done]. rewrite Hdb. eapply booked_eq; [by apply slots_booked|done].
Qed.

(** ** The stock *)

Lemma stock_numbers db s : shelf_ok db -> s ∈ bk_stocks (books db) ->
  - 2 ^ 31 <= Stock_AvailableQty s < 2 ^ 31 /\ - 2 ^ 31 <= Stock_Version s < 2 ^ 31.
Proof.
  intros Hok Hin. pose proof (list_row _ s (shelf_stocks _ Hok) Hin) as Hs.
  simpl in Hs. unfold fits_int32 in Hs. rewrite !andb_true_iff in Hs. lia.
Qed.

(** A stock after a change of [delta] bottles. *)
Definition stock_moved (delta : Z) (now : time) (s : PhysicalStock) : PhysicalStock :=
  stock_with (Stock_AvailableQty s + delta) (Stock_Version s + 1) now s.

Lemma stocks_booked l db : shelf_ok db -> list_ok l ->
  booked (on_stocks (fun _ => l) (fun r => r)) db (set_rows (R:=PhysicalStock) l db).
Proof. intros [H1 H2 H3 H4 H5 H6] Hl. apply booked_set; [done..|]. by split. Qed.

Lemma stock_record_booked r w u w' :
  createStockRecord r w = (Ok u, w') -> shelf_ok (w_db w) ->
  booked (on_stocks (fun l => l) (fun l => l ++ [r])) (w_db w) (w_db w').
Proof.
  intros H [H1 H2 H3 H4 H5 H6]. apply create_row_ok in H as (-> & _).
  apply booked_set; [done..|]. by split.
Qed.

(** The stock updated and the change recorded. *)
Lemma stock_change stock available delta now record w w' :
  (updated <- updatePhysicalStock stock available now ;;
   fail_if (negb updated) stockConcurrent ;;;
   id <- next_id ;;
   createStockRecord (record id)) w = (Ok tt, w') ->
  shelf_ok (w_db w) -> stock ∈ bk_stocks (books (w_db w)) ->
  available = Stock_AvailableQty stock + delta ->
  exists id, booked (on_stocks (replaced Stock_ID stock (stock_moved delta now stock))
                       (fun l => l ++ [record id])) (w_db w) (w_db w').
Proof.
  intros H Hok Hs ->. pose proof (stock_numbers _ _ Hok Hs) as Hn.
  run_step H. run_step H. destruct a; [|done]. unfold updatePhysicalStock in R.
  apply (changed_one_row Stock_ID stock_key _ _ stock) in R as (_ & Hdb & Hl);
    [|apply (shelf_stocks _ Hok)|done|intros r; rewrite !andb_true_iff; lia].
  rewrite int_add_small in Hdb, Hl by int_range.
  run_step H. apply next_id_db in R as Eid. exists a.
  pose proof (stocks_booked _ _ Hok Hl) as Hb. change (stock_with _ _ _ _) with
    (stock_moved delta now stock) in *. rewrite <- Hdb, <- Eid in Hb.
  apply stock_record_booked in H; [|apply Hb].
  eapply booked_eq; [exact (booked_then _ _ _ _ _ Hb H)|done].
Qed.

Lemma deductRedemptionStock_ok stock q redemptionID now w w' :
  deductRedemptionStock stock q redemptionID now w = (Ok tt, w') ->
  0 <= q < 2 ^ 32 -> shelf_ok (w_db w) -> stock ∈ bk_stocks (books (w_db w)) ->
  0 < q <= Stock_AvailableQty stock /\
  exists id, booked (on_stocks (replaced Stock_ID stock (stock_moved (- q) now stock))
    (fun l => l ++ [stock_record id stock "wine_ticket_redeem"
       ("redemption_hold:" +:+ format_uint redemptionID +:+ ":stock:" +:+
        format_uint (Stock_ShopProductID stock))
       (- q) (Stock_AvailableQty stock - q) redemptionID now])) (w_db w) (w_db w').
Proof.
  intros H Hq Hok Hs. pose proof (stock_numbers _ _ Hok Hs) as Hn.
  unfold deductRedemptionStock in H. run_step H. rewrite i64_small in G by int_range.
  rewrite orb_false_iff in G. split; [lia|].
  rewrite i64_small, int_neg_small, int_add_small in H by int_range.
  apply stock_change with (delta := - q) in H; [done|done|done|lia].
Qed.

Lemma restoreRedemptionStock_ok stock q redemptionID now w w' :
  restoreRedemptionStock stock q redemptionID now w = (Ok tt, w') ->
  0 <= q < 2 ^ 32 -> shelf_ok (w_db w) -> stock ∈ bk_stocks (books (w_db w)) ->
  exists id, booked (on_stocks (replaced Stock_ID stock (stock_moved q now stock))
    (fun l => l ++ [stock_record id stock "wine_ticket_redeem_restore"
       ("redemption_restore:" +:+ format_uint redemptionID +:+ ":stock:" +:+
        format_uint (Stock_ShopProductID stock))
       q (Stock_AvailableQty stock + q) redemptionID now])) (w_db w) (w_db w').
Proof.
  intros H Hq Hok Hs. pose proof (stock_numbers _ _ Hok Hs) as Hn.
  unfold restoreRedemptionStock in H. run_step H.
  rewrite i64_small, int_add_small in H by int_range.
  by apply stock_change with (delta := q) in H.
Qed.

(** ** Giving the bottles back *)

Definition settled_rows (status : string) (now : time) (ids : list Z)
    (l : list RedemptionAllocation) : list RedemptionAllocation :=
  map (fun a => if bool_decide (RA_ID a ∈ ids) then redemption_allocation_with status now a
                else a) l.

Lemma settled_rows_nil status now l : settled_rows status now [] l = l.
Proof.
  unfold settled_rows. rewrite <- (map_id l) at 2. apply map_ext. intros a.
  case_bool_decide as E; [|done]. by apply not_elem_of_nil in E.
Qed.

Lemma settled_rows_cons status now a ids l :
  NoDup (map RA_ID l) -> a ∈ l -> RA_ID a ∉ ids ->
  settled_rows status now ids
    (replaced RA_ID a (redemption_allocation_with status now a) l) =
  settled_rows status now (RA_ID a :: ids) l.
Proof.
  intros Hnd Ha Hno. unfold settled_rows, replaced. rewrite map_map. apply map_ext_in.
  intros x Hx. apply list_elem_of_In in Hx. destruct (Z.eqb_spec (RA_ID x) (RA_ID a)) as [E|E].
  - rewrite (NoDup_map_inj RA_ID _ _ _ Hnd Hx Ha E). simpl.
    rewrite bool_decide_eq_false_2 by done. by rewrite bool_decide_eq_true_2 by by left.
  - erewrite bool_decide_ext; [done|]. rewrite elem_of_cons. tauto.
Qed.

Lemma allocations_booked l db : shelf_ok db -> list_ok l ->
  booked (on_allocations (fun _ => l)) db (set_rows (R:=RedemptionAllocation) l db).
Proof. intros [H1 H2 H3 H4 H5 H6] Hl. apply booked_set; [done..|]. by split. Qed.

Lemma restoreAllocation_ok a now w w' :
  restoreAllocation (RA_ID a) now w = (Ok true, w') -> shelf_ok (w_db w) ->
  a ∈ bk_allocations (books (w_db w)) ->
  booked (on_allocations (replaced RA_ID a
    (redemption_allocation_with RedemptionAllocationStatusRestored now a))) (w_db w) (w_db w').
Proof.
  intros R Hok Ha. unfold restoreAllocation in R.
  apply (changed_one_row RA_ID allocation_key _ _ a) in R as (_ & Hdb & Hl);
    [|apply (shelf_allocations _ Hok)|done|intros r; rewrite !andb_true_iff; lia].
  rewrite Hdb. eapply booked_eq; [by apply allocations_booked|done].
Qed.

Lemma allocation_numbers db a : shelf_ok db -> a ∈ bk_allocations (books db) ->
  0 < RA_Quantity a < 2 ^ 32.
Proof.
  intros Hok Hin. pose proof (list_row _ a (shelf_allocations _ Hok) Hin) as Ha.
  change (redemption_allocation_row_check a = true) in Ha.
  unfold redemption_allocation_row_check, fits_uint32 in Ha. rewrite !andb_true_iff in Ha. lia.
Qed.

(** The lots the loop still has to look up. *)
Definition lots_known (allocations : list RedemptionAllocation) (m : gmap Z Lot) : Prop :=
  forall a lot, a ∈ allocations -> m !! RA_LotID a = Some lot -> Lot_ID lot = RA_LotID a.

Lemma restore_lots_ok ctx redemption now allocations : forall m w w',
  restore_lots ctx redemption now allocations m w = (Ok tt, w') ->
  lots_known allocations m -> NoDup (map RA_ID allocations) -> NoDup (map RA_LotID allocations) ->
  (forall a, a ∈ allocations ->
     a ∈ bk_allocations (books (w_db w)) /\ RA_RedemptionID a = Red_ID redemption) ->
  shelf_ok (w_db w) ->
  booked (on_allocations (settled_rows RedemptionAllocationStatusRestored now
            (map RA_ID allocations))) (w_db w) (w_db w') /\
  Forall (fun a => RA_Status a = RedemptionAllocationStatusHeld /\
                   put_back (view_db (w_db w')) a) allocations.
Proof.
  induction allocations as [|a allocations IH]; intros m w w' H Hm Hids Hlots Hin Hok; simpl in H.
  { run H. split; [|constructor]. eapply booked_eq; [by apply booked_quiet|].
    symmetry. apply on_allocations_same, settled_rows_nil. }
  destruct (m !! RA_LotID a) as [lot|] eqn:Em; [|by run H].
  pose proof (Hm a lot ltac:(by left) Em) as Elot.
  destruct (Hin a ltac:(by left)) as [Ha Hred].
  pose proof (allocation_numbers _ _ Hok Ha) as Hq.
  simpl in Hids, Hlots. apply NoDup_cons in Hids as [Hid Hids], Hlots as [Hlot Hlots].
  run_step H. rewrite !orb_false_iff, negb_false_iff in G. destruct G as [[Hst _] _].
  apply String.eqb_eq in Hst.
  run_step H. rename R into Hr.
  pose proof (Restore_entry_written ctx (redemption_restore_command redemption lot a now)
                _ _ _ Hr ltac:(simpl; lia) (shelf_ledger _ Hok)) as Ht. simpl in Ht.
  apply (asset_booked ctx (OpRestore _)) in Hr; [|unfold op_ok, quantity_ok; simpl; lia|done|done].
  assert (Ha0 : a ∈ bk_allocations (books (w_db w0))) by (by rewrite (booked_books _ _ _ Hr)).
  run_step H. rename R into Hu. run_step H. destruct a1; [|done].
  pose proof (booked_ok _ _ _ Hr) as Hok0.
  pose proof (restoreAllocation_ok _ _ _ _ Hu Hok0 Ha0) as Hb.
  apply IH in H as [Hrest Hall].
  - split.
    + eapply booked_eq; [exact (booked_then _ _ _ _ _ Hr (booked_then _ _ _ _ _ Hb Hrest))|].
      unfold same_books, on_allocations. simpl. f_equal. apply settled_rows_cons; [|done|done].
      by apply (list_keys RA_ID allocation_key), shelf_allocations.
    + constructor; [|done]. split; [done|]. unfold put_back. rewrite Hred, <- Elot.
      eapply redemption_entry_extends; [apply Hrest|].
      eapply redemption_entry_extends; [apply Hb|exact Ht].
  - intros x l Hx. rewrite Elot, lookup_insert_ne; [apply Hm; by right|].
    intros E. apply Hlot. rewrite E. by apply list_elem_of_In, in_map, list_elem_of_In.
  - done.
  - done.
  - intros x Hx. destruct (Hin x ltac:(by right)) as [Hxin Hxr]. split; [|done].
    rewrite (booked_books _ _ _ Hb), (booked_books _ _ _ Hr). simpl.
    apply replaced_other; [done|]. intros E. apply Hid. rewrite <- E.
    by apply list_elem_of_In, in_map, list_elem_of_In.
  - apply Hb.
Qed.

(** The allocations of a redemption, as [lockAllocations] reads them. *)
Definition allocations_for (b : Books) (redemptionID : Z) : list RedemptionAllocation :=
  List.filter (fun a => RA_RedemptionID a =? redemptionID) (bk_allocations b).

Definition locked_for (b : Books) (redemptionID : Z) : list RedemptionAllocation :=
  sort_by (by_keys [RA_ID]) (allocations_for b redemptionID).

Lemma lockAllocations_ok id w l w' : lockAllocations id w = (Ok l, w') ->
  w_db w' = w_db w /\ l = locked_for (books (w_db w)) id.
Proof. intros H. by apply find_rows_ok in H. Qed.

Lemma locked_for_spec b id a :
  a ∈ locked_for b id <-> a ∈ bk_allocations b /\ RA_RedemptionID a = id.
Proof. unfold locked_for, allocations_for. by rewrite selected_rows, Z.eqb_eq. Qed.

Lemma no_conflict_keys {R} `{Table R} (key : R -> Z) (p : R -> bool) (l : list R) :
  (forall a b : R, p a = true -> p b = true -> key a = key b -> row_conflict a b = true) ->
  no_conflict row_conflict l = true -> NoDup (map key (List.filter p l)).
Proof.
  intros Hk. induction l as [|x l IH]; simpl; [constructor|].
  rewrite andb_true_iff, negb_true_iff. intros [Hx Hl]. destruct (p x) eqn:Px; [|auto].
  simpl. constructor; [|auto]. intros Hin. apply list_elem_of_In, in_map_iff in Hin as (y & E & Hy).
  apply filter_In in Hy as [Hy Py]. apply not_true_iff_false in Hx. apply Hx, existsb_exists.
  exists y. split; [done|]. by apply Hk.
Qed.

Lemma locked_for_keys db id : shelf_ok db ->
  NoDup (map RA_ID (locked_for (books db) id)) /\ NoDup (map RA_LotID (locked_for (books db) id)).
Proof.
  intros Hok. destruct (shelf_allocations _ Hok) as [Hc _]. unfold locked_for.
  rewrite !sort_by_perm. split; apply no_conflict_keys; try done; intros a b Ha Hb E.
  - by apply allocation_key.
  - apply Z.eqb_eq in Ha, Hb. simpl. rewrite Ha, Hb, E, !Z.eqb_refl. apply orb_true_r.
Qed.

Lemma restoreCancellationLots_ok ctx redemption lots now w w' :
  let l := locked_for (books (w_db w)) (Red_ID redemption) in
  restoreCancellationLots ctx redemption l lots now w = (Ok tt, w') -> shelf_ok (w_db w) ->
  booked (on_allocations (settled_rows RedemptionAllocationStatusRestored now (map RA_ID l)))
    (w_db w) (w_db w') /\
  Forall (fun a => RA_Status a = RedemptionAllocationStatusHeld /\
                   put_back (view_db (w_db w')) a) l.
Proof.
  intros l H Hok. destruct (locked_for_keys _ (Red_ID redemption) Hok) as [H1 H2].
  apply restore_lots_ok in H; auto.
  - intros a lot _ Hm. by apply giftLotMap_id in Hm as [? _].
  - intros a. apply locked_for_spec.
Qed.
