(* ===== verification/RedemptionRuns.v ===== *)
(** * What the calls of the redemption service do to the books

    A successful [Create] takes the planned bottles, place and stock and opens
    the redemption; a successful [Cancel] gives back what the redemption took.
    Everything else a call writes is outside the books. *)

From S2P Require Import Prelude GoInt GoString GoTime GoDate Json Problem RequestCtx.
From S2P Require Import CoreModel AssetService GiftModel RedemptionModel RedemptionSlot AssetLaws.
From S2P Require Import AssetLedger Database FulfilmentTables Steps AssetRepository IntegrityScan.
From S2P Require Import Samples AssetTheorems AssetKeeps LedgerEntries Idempotency GiftDto GiftRepository.
From S2P Require Import GiftService GiftSelection GiftInvariant GiftRuns GiftCalls RedemptionDto.
From S2P Require Import RedemptionRepository ScheduledDispatch RedemptionService RedemptionBooks.
From S2P Require Import RedemptionHold.
From Stdlib Require Import String.
#[local] Open Scope string_scope. #[local] Open Scope list_scope. #[local] Open Scope Z_scope.
#[local] Open Scope go_scope.

(** ** Calls that only read, or write outside the books *)

Lemma resolveSlotRelation_reads R `{!PreOrder R} s p : steps_any R (resolveSlotRelation s p).
Proof.
  apply steps_any_exec; [exact _|]. intros db a db' E. destruct (first_some _ _); by simplify_eq.
Qed.

Lemma take_view_reads R `{!PreOrder R} p : steps_any R (take_view p).
Proof.
  apply steps_any_exec; [exact _|]. intros db a db' E. destruct (first_some _ _); by simplify_eq.
Qed.

Lemma allocationViews_reads R `{!PreOrder R} ids : steps_any R (allocationViews ids).
Proof.
  unfold allocationViews. destruct ids; [apply steps_any_ret; exact _|].
  apply steps_any_exec; [exact _|]. intros db a db' E. by simplify_eq.
Qed.
#[export] Hint Resolve resolveSlotRelation_reads take_view_reads allocationViews_reads : steps.

Lemma redemption_response_reads R `{!PreOrder R} row : steps_any R (redemption_response row).
Proof. unfold redemption_response, redemptionDTOs. go_steps. Qed.

Lemma redemptionDTOByID_reads R `{!PreOrder R} c id : steps_any R (redemptionDTOByID c id).
Proof.
  unfold redemptionDTOByID, customerRedemptionByID. go_steps. by apply redemption_response_reads.
Qed.

Lemma requireActive_reads R `{!PreOrder R} c : steps_any R (requireActiveCustomer c).
Proof. unfold requireActiveCustomer, customerAccount. go_steps. Qed.

Lemma requireAdult_reads R `{!PreOrder R} c now : steps R (redemption_requireAdultCustomer c now).
Proof.
  unfold redemption_requireAdultCustomer, customerRealname, pendingIdentityVerification. go_steps.
  apply steps_any_steps, requireActive_reads; exact _.
Qed.

Lemma Replay_reads {A} `{JsonCodec A} R `{!PreOrder R} ty id path key h :
  steps_any R (ReplayCompleted (A:=A) ty id path key h).
Proof.
  unfold ReplayCompleted. go_steps.
Qed.

Lemma cachedResponse_reads R `{!PreOrder R} c path key : steps_any R (cachedResponse c path key).
Proof. unfold cachedResponse, CachedResponse. go_steps. Qed.
#[export] Hint Resolve redemption_response_reads redemptionDTOByID_reads requireActive_reads
  requireAdult_reads Replay_reads cachedResponse_reads : steps.

Lemma claimIdempotency_quiet c method path key h :
  steps quiet (claimIdempotency c method path key h).
Proof. unfold claimIdempotency, StartAt. go_steps. Qed.

Lemma Succeed_quiet {A} `{JsonCodec A} ty id path key (a : A) :
  steps quiet (Succeed ty id path key a).
Proof. unfold Succeed. go_steps. Qed.

Lemma customer_audit_quiet ctx actor action ty id before after :
  steps quiet (createCustomerAudit ctx actor action ty id before after).
Proof. unfold createCustomerAudit, createAudit. go_steps. Qed.

Lemma event_quiet ctx e ty id payload at_ :
  steps quiet at_ -> steps quiet (wine_ticket_event ctx e ty id payload at_).
Proof. intros Hat. unfold wine_ticket_event, createOutbox. go_steps. Qed.

Lemma outbox_quiet ctx e ty id payload :
  steps quiet (createWineTicketOutbox ctx e ty id payload).
Proof. apply event_quiet. eauto with steps. Qed.
#[export] Hint Resolve claimIdempotency_quiet Succeed_quiet customer_audit_quiet outbox_quiet
  : steps.

(** A run that only reads leaves the database as it is. *)
Ltac reads H E :=
  apply reads_db in H as E; [clear H|solve [eauto with steps | go_steps]].

(** ** The plan of a redemption *)

(** The lots the bottles may come from, first to expire first: the customer's
    active lots of the issuer, city and product that outlive the delivery
    window and are not being renewed. *)
Definition redeemable_lots (db : Database) (customerID merchantID : Z) (cityCode : string)
    (productID : Z) (expiresAfter : time) : list Lot :=
  List.filter (activeRenewalGuardSQL db)
    (sort_by (by_keys [Lot_ExpiresAt; Lot_ID])
       (List.filter (redeemable customerID (Some merchantID) cityCode productID expiresAfter)
          (db_lots db))).

Lemma id_in_spec ids x : id_in ids x = true <-> x ∈ ids.
Proof.
  unfold id_in. rewrite existsb_exists. split.
  - intros (y & Hy & E). apply Z.eqb_eq in E. subst. by apply list_elem_of_In.
  - intros Hx. exists x. rewrite Z.eqb_refl. split; [by apply list_elem_of_In|done].
Qed.

Lemma guarded_lots db lots lot :
  lot ∈ lots ->
  negb (id_in (map RG_LotID (sort_by (by_keys [RG_LotID; RG_ID])
          (List.filter (fun r => id_in (map Lot_ID lots) (RG_LotID r) &&
                                 one_of active_renewal_statuses (RG_Status r)) (db_renewals db))))
          (Lot_ID lot)) = activeRenewalGuardSQL db lot.
Proof.
  intros Hl. unfold activeRenewalGuardSQL. f_equal. apply eq_true_iff_eq.
  rewrite id_in_spec, existsb_exists. split.
  - intros Hin. apply list_elem_of_In, in_map_iff in Hin as (r & E & Hr).
    apply list_elem_of_In, selected_rows in Hr as [Hr Hp]. rewrite andb_true_iff in Hp.
    exists r. rewrite E, Z.eqb_refl. split; [by apply list_elem_of_In|]. apply Hp.
  - intros (r & Hr & Hp). rewrite andb_true_iff, Z.eqb_eq in Hp. destruct Hp as [E Ha].
    apply list_elem_of_In, in_map_iff. exists r. split; [done|].
    apply list_elem_of_In, selected_rows. split; [by apply list_elem_of_In|].
    rewrite Ha, andb_true_r. apply id_in_spec. rewrite E.
    by apply list_elem_of_In, in_map, list_elem_of_In.
Qed.

Lemma lock_lots_ok customerID merchantID city productID q endAt w lots w' :
  lock_lots customerID merchantID city productID q endAt w = (Ok lots, w') ->
  w_db w' = w_db w /\ lots = redeemable_lots (w_db w) customerID merchantID city productID endAt.
Proof.
  unfold lock_lots. intros H. run_step H. apply find_rows_ok in R as [E1 ->].
  set (all := sort_by _ _) in *. run_step H. rename a into guarded.
  run_step H. run_step H. apply ret_ok_inv in H as [-> ->].
  unfold redeemable_lots. change (db_lots (w_db w)) with (rows (R:=Lot) (w_db w)). fold all.
  unfold lockActiveRenewalsForLots in R. destruct all as [|x rest] eqn:Eall.
  { apply ret_ok_inv in R as [-> ->]. done. }
  rewrite <- Eall in *. run_step R. apply find_rows_ok in R0 as [E2 ->].
  apply ret_ok_inv in R as [-> ->]. split; [congruence|].
  assert (Hf : forall g, g = map RG_LotID (sort_by (by_keys [RG_LotID; RG_ID])
     (List.filter (fun r => id_in (map Lot_ID all) (RG_LotID r) &&
        one_of active_renewal_statuses (RG_Status r)) (rows (w_db w0)))) ->
     List.filter (fun lot => negb (id_in g (Lot_ID lot))) all =
     List.filter (activeRenewalGuardSQL (w_db w)) all).
  { intros g ->. apply filter_ext_in. intros lot Hl. rewrite E1.
    apply (guarded_lots (w_db w)). by apply list_elem_of_In. }
  rewrite <- (Hf _ eq_refl). unfold redemptionLotsWithoutGuards.
  destruct (map RG_LotID _); [|done]. by rewrite filter_all by by apply Forall_forall.
Qed.

(** What a plan says of the database it was made from. *)
Record planned (db : Database) (customerID : Z) (key : string)
    (normalized : normalizedRedemptionCreate) (p : RedemptionPlan) : Prop := {
  planned_request : Plan_CustomerID p = customerID /\ Plan_Key p = key /\
    Plan_Request p = normalized;
  planned_address : Plan_Address p ∈ ful_addresses (db_fulfilment db) /\
    address_matches customerID (Norm_AddressID normalized)
      (RReq_AddressVersion (Norm_Request normalized)) (Plan_Address p) = true;
  planned_lots : Plan_Lots p = redeemable_lots db customerID (Rel_MerchantID (Plan_Live p))
      (redemptionAddressCityCode (Plan_Address p)) (Norm_ProductID normalized) (Plan_End p);
  planned_slot : Plan_Slot p ∈ bk_slots (books db) /\
    Slot_ID (Plan_Slot p) = Norm_SlotID normalized /\
    redemptionSlotWindow (Slot_ServiceDate (Plan_Slot p)) (Slot_StartTime (Plan_Slot p))
      (Slot_EndTime (Plan_Slot p)) = Ok (Plan_Start p, Plan_End p);
  planned_time : Plan_Now p < Plan_Start p < Plan_End p /\
    Plan_Now p < Slot_CutoffAt (Plan_Slot p);
  planned_shop : validateRedemptionRelation (Plan_Live p) = Ok tt /\
    Rel_SlotID (Plan_Live p) = Slot_ID (Plan_Slot p) /\
    Rel_ShopID (Plan_Live p) = Slot_ShopID (Plan_Slot p);
  planned_stock : Plan_Stock p ∈ bk_stocks (books db) /\
    Stock_ShopProductID (Plan_Stock p) = Rel_ShopProductID (Plan_Live p) /\
    Stock_ShopID (Plan_Stock p) = Rel_ShopID (Plan_Live p) /\
    Stock_ProductID (Plan_Stock p) = Norm_ProductID normalized;
}.

Lemma lock_slot_ok slotID productID candidate cStart cEnd now w slot live s e w' :
  lock_slot slotID productID candidate cStart cEnd now w = (Ok (slot, live, s, e), w') ->
  w_db w' = w_db w /\ slot ∈ bk_slots (books (w_db w)) /\ Slot_ID slot = slotID /\
  relation_stable candidate live slot = true /\ validateRedemptionRelation live = Ok tt /\
  redemptionSlotWindow (Slot_ServiceDate slot) (Slot_StartTime slot) (Slot_EndTime slot) =
    Ok (s, e) /\
  sameMillisecond cEnd e = true /\ now < s < e /\ now < Slot_CutoffAt slot.
Proof.
  unfold lock_slot. intros H. run_step H. apply or_missing_ok, take_row_ok in R as (E1 & Hin & Hid).
  run_step H. apply or_missing_ok in R. reads R E2. run_step H. run_step H. cbv zeta in H.
  unfold validateStableRedemptionRelation in E.
  destruct (relation_stable candidate a0 a) eqn:Est; [|done].
  destruct (redemptionSlotWindow _ _ _) as [[s' e']|] eqn:Ew; [|by run H].
  run_step H. run_step H. apply ret_ok_inv in H as [H ->]. simplify_eq.
  rewrite orb_false_iff, !negb_false_iff in G. split; [congruence|].
  split; [done|]. split; [by apply Z.eqb_eq in Hid|]. unfold validateLockedRedemptionSlot in E3.
  match type of E3 with (if ?c then _ else _) = _ => destruct c eqn:Ho; [done|] end. rewrite !orb_false_iff, !negb_false_iff in Ho.
  unfold after, before in Ho. split; [done|]. split; [done|]. split; [done|]. split; [tauto|]. lia.
Qed.

Lemma lock_stock_ok live productID q w stock w' :
  lock_stock live productID q w = (Ok stock, w') ->
  w_db w' = w_db w /\ stock ∈ bk_stocks (books (w_db w)) /\
  Stock_ShopProductID stock = Rel_ShopProductID live /\ Stock_ShopID stock = Rel_ShopID live /\
  Stock_ProductID stock = productID.
Proof.
  unfold lock_stock. intros H. run_step H. apply or_missing_ok, take_row_ok in R as (E1 & Hin & _).
  run_step H. apply ret_ok_inv in H as [-> ->].
  rewrite !orb_false_iff, !negb_false_iff, !Z.eqb_eq in G. tauto.
Qed.

Lemma plan_redemption_ok customerID key normalized candidate cStart cEnd w p w' :
  plan_redemption customerID key normalized candidate cStart cEnd w = (Ok p, w') ->
  truncate_ms cEnd = cEnd ->
  w_db w' = w_db w /\ planned (w_db w) customerID key normalized p.
Proof.
  unfold plan_redemption. intros H Htr. run_step H. reads R E1. rename a into now.
  run_step H. reads R E2. cbv zeta in H. run_step H.
  apply or_missing_ok, take_row_ok in R as (E3 & Haddr & Hmatch). rename a into addr.
  run_step H. run_step H. apply lock_lots_ok in R as [E4 ->].
  run_step H. destruct a as [[[slot live] s] e].
  apply lock_slot_ok in R as (E5 & Hslot & Hsid & Hst & Hrel & Hwin & Hend & Hnow & Hcut).
  run_step H. apply lock_stock_ok in R as (E6 & Hstock & Hsp & Hshop & Hprod).
  apply ret_ok_inv in H as [-> ->]. rewrite E5, E4, E3, E2, E1 in *.
  unfold relation_stable in Hst. rewrite !andb_true_iff, !Z.eqb_eq in Hst.
  destruct Hst as [[[[[[[_ Hs1] _] Hs2] Hs3] _] _] _].
  pose proof (redemptionSlotWindow_ok _ _ _ _ _ Hwin) as (_ & _ & Hte & _).
  unfold sameMillisecond, time_equal in Hend. rewrite Htr, Hte in Hend. apply Z.eqb_eq in Hend.
  split; [done|]. constructor; simpl; auto. by rewrite Hs3, Hend.
Qed.

(** ** Responses *)

(** A response shows the redemption's row. *)
Record answers (d : RedemptionDTO) (r : Redemption) : Prop := {
  answers_no : RDTO_RedemptionNo d = Red_RedemptionNo r;
  answers_quantity : RDTO_Quantity d = Red_Quantity r;
  answers_status : RDTO_Status d = Red_Status r;
  answers_version : RDTO_Version d = Red_Version r;
}.

Lemma first_some_spec {A B} (f : A -> option B) l b :
  first_some f l = Some b -> exists a, a ∈ l /\ f a = Some b.
Proof.
  induction l as [|a l IH]; simpl; [done|]. destruct (f a) eqn:E; intros H.
  - exists a. split; [by left|congruence].
  - destruct (IH H) as (x & Hx & Ex). exists x. split; [by right|done].
Qed.

Lemma redemptionDTOByID_ok c id w d w' :
  redemptionDTOByID c id w = (Ok d, w') ->
  exists r, r ∈ bk_redemptions (books (w_db w)) /\ Red_ID r = id /\ answers d r.
Proof.
  unfold redemptionDTOByID. intros H. run_step H. apply exec_ok in R.
  destruct (first_some _ _) as [row|] eqn:F; [|discriminate]. simplify_eq.
  apply first_some_spec in F as (r & Hr & F). destruct (_ && _) eqn:Hp; [|discriminate].
  apply andb_true_iff in Hp as [_ Hid]. unfold redemption_view in F.
  destruct (find _ (ful_orders _)); simpl in F; [|discriminate]. simplify_eq.
  unfold redemption_response in H. run_step H. destruct a as [|item items]; [by run H|].
  apply ret_ok_inv in H as [-> ->]. unfold redemptionDTOs in R. run_step R.
  apply lift_ok_inv in R as [R ->]. simpl in R.
  destruct (redemptionViewDTO _ _) as [dto|] eqn:E; [|discriminate]. simplify_eq.
  exists r. split; [done|]. split; [lia|]. unfold redemptionViewDTO in E.
  destruct (redemptionProductSummary _); [|discriminate].
  destruct (redemptionSafeAddressSummary _); [|discriminate].
  destruct (_ && _); [discriminate|]. by simplify_eq.
Qed.

(** ** Creating *)

Lemma plan_stocked db customerID merchantID city productID endAt :
  shelf_ok db -> stocked (redeemable_lots db customerID merchantID city productID endAt).
Proof.
  intros Hok. apply Forall_forall. intros l Hl. apply list_elem_of_In, filter_In in Hl as [Hl _].
  apply list_elem_of_In, selected_rows in Hl as [Hl _].
  pose proof (lot_row_values _ (in_ledger_row (view_db db) _ (shelf_ledger _ Hok) Hl)). lia.
Qed.

(** What [Create] does to the books. *)
Definition opened (p : RedemptionPlan) (redemptionID orderID itemID recordID : Z)
    (news : list RedemptionAllocation) (b : Books) : Books :=
  let q := plan_quantity p in
  let stock := Plan_Stock p in {|
  bk_slots := replaced Slot_ID (Plan_Slot p) (slot_reserved (Plan_Now p) (Plan_Slot p)) (bk_slots b);
  bk_redemptions := bk_redemptions b ++ [new_redemption p redemptionID orderID];
  bk_allocations := bk_allocations b ++ news;
  bk_stocks := replaced Stock_ID stock (stock_moved (- q) (Plan_Now p) stock) (bk_stocks b);
  bk_records := bk_records b ++ [stock_record recordID stock "wine_ticket_redeem"
    ("redemption_hold:" +:+ format_uint redemptionID +:+ ":stock:" +:+
     format_uint (Stock_ShopProductID stock))
    (- q) (Stock_AvailableQty stock - q) redemptionID (Plan_Now p)];
  bk_orders := bk_orders b ++ [new_order p orderID];
  bk_items := bk_items b ++ [new_order_item p itemID orderID] |}.

Record redemption_opened (db db' : Database) (p : RedemptionPlan) (redemptionID orderID : Z)
    (news : list RedemptionAllocation) : Prop := {
  opened_books : exists itemID recordID,
    booked (opened p redemptionID orderID itemID recordID news) db db';
  opened_fresh : forall r, r ∈ bk_redemptions (books db) -> Red_ID r <> redemptionID;
  opened_place : Slot_Status (Plan_Slot p) = "open" /\
    Slot_ReservedOrders (Plan_Slot p) < Slot_CapacityOrders (Plan_Slot p);
  opened_stock : 0 < plan_quantity p <= Stock_AvailableQty (Plan_Stock p);
  opened_held : Forall2 (held_from redemptionID (Plan_Now p) (view_db db'))
    (fefo_reference (plan_quantity p) 0 (Plan_Lots p)) news /\
    plan_quantity p <= stock (Plan_Lots p);
}.

Lemma order_booked (r : Order) w u w' :
  createOrder r w = (Ok u, w') -> shelf_ok (w_db w) ->
  booked (on_orders (fun l => l ++ [r]) (fun l => l)) (w_db w) (w_db w').
Proof.
  intros H [H1 H2 H3 H4 H5 H6].
  destruct (create_one_row Order_ID order_key order_conflict_sym _ _ _ _ H H6) as (Hdb & Hl & _).
  rewrite Hdb. apply booked_set; [done..|]. by split.
Qed.

Lemma order_item_booked (r : OrderItem) w u w' :
  createOrderItem r w = (Ok u, w') -> shelf_ok (w_db w) ->
  booked (on_orders (fun l => l) (fun l => l ++ [r])) (w_db w) (w_db w').
Proof.
  intros H [H1 H2 H3 H4 H5 H6]. apply create_row_ok in H as (-> & _).
  apply booked_set; [done..|]. by split.
Qed.

Lemma redemption_booked (r : Redemption) w u w' :
  createRedemption r w = (Ok u, w') -> shelf_ok (w_db w) ->
  booked (on_redemptions (fun l => l ++ [r])) (w_db w) (w_db w') /\
  (forall x, x ∈ bk_redemptions (books (w_db w)) -> Red_ID x <> Red_ID r).
Proof.
  intros H [H1 H2 H3 H4 H5 H6].
  destruct (create_one_row Red_ID redemption_key redemption_conflict_sym _ _ _ _ H H3)
    as (Hdb & Hl & Hno).
  split; [|done]. rewrite Hdb. apply booked_set; [done..|]. by split.
Qed.

Lemma write_order_ok ctx p orderID w u w' :
  write_order ctx p orderID w = (Ok u, w') -> shelf_ok (w_db w) ->
  exists itemID, booked (on_orders (fun l => l ++ [new_order p orderID])
    (fun l => l ++ [new_order_item p itemID orderID])) (w_db w) (w_db w').
Proof.
  unfold write_order. intros H Hok. run_step H. apply order_booked in R as B1; [|done].
  run_step H. apply next_id_db in R0 as E1. rename a into itemID. rewrite <- E1 in B1.
  run_step H. apply order_item_booked in R1 as B2; [|apply B1].
  assert (Hq : quiet (w_db w2) (w_db w')).
  { assert (Hs : steps quiet (logID <- next_id ;; createOrderLog {|
      OLog_ID := logID; OLog_OrderID := orderID; OLog_ActorType := "customer";
      OLog_ActorID := Plan_CustomerID p; OLog_Action := "wine_ticket_redemption_create";
      OLog_FromStatus := None; OLog_ToStatus := Some "paid"; OLog_RequestID := RequestIDPtr ctx |}))
      by (unfold createOrderLog; go_steps).
    exact (Hs _ _ _ H). }
  exists itemID. pose proof (booked_then _ _ _ _ _ B1 B2) as B3.
  exact (booked_then _ _ _ _ _ B3 (booked_quiet _ _ (booked_ok _ _ _ B3) Hq)).
Qed.

Lemma execute_redemption_ok ctx d path key customerID normalized p w dto w' :
  execute_redemption ctx d path key p w = (Ok dto, w') -> Confined d -> shelf_ok (w_db w) ->
  planned (w_db w) customerID key normalized p -> 0 <= plan_quantity p < 2 ^ 32 ->
  exists redemptionID orderID news,
    redemption_opened (w_db w) (w_db w') p redemptionID orderID news /\
    answers dto (new_redemption p redemptionID orderID).
Proof.
  intros H Hd Hok Hp Hq. pose proof (planned_lots _ _ _ _ _ Hp) as Hlots.
  destruct (planned_slot _ _ _ _ _ Hp) as (Hslot & _).
  destruct (planned_stock _ _ _ _ _ Hp) as (Hstock & _).
  unfold execute_redemption in H. run_step H. apply next_id_db in R as E1. rename a into redemptionID.
  run_step H. apply next_id_db in R0 as E2. rename a into orderID. cbv zeta in H.
  rewrite <- E1, <- E2 in Hok, Hslot, Hstock.
  run_step H. rename a into news.
  apply holdRedemptionLots_ok in R1 as (B1 & Hheld & Hle); [|int_range| |done].
  2: { rewrite Hlots, <- E1, <- E2. by apply plan_stocked. }
  run_step H. apply reserveRedemptionSlot_ok in R1 as (B2 & Hopen & Hroom);
    [|apply B1|by rewrite (booked_books _ _ _ B1)].
  pose proof (booked_then _ _ _ _ _ B1 B2) as B12.
  run_step H. apply deductRedemptionStock_ok in R1 as (Havail & recordID & B3);
    [|done|apply B12|by rewrite (booked_books _ _ _ B12)].
  pose proof (booked_then _ _ _ _ _ B12 B3) as B13.
  run_step H. apply write_order_ok in R1 as (itemID & B4); [|apply B13].
  pose proof (booked_then _ _ _ _ _ B13 B4) as B14.
  run_step H. apply redemption_booked in R1 as (B5 & Hfresh); [|apply B14].
  pose proof (booked_then _ _ _ _ _ B14 B5) as B15.
  run_step H. rename R1 into Q1. run_step H. run_step H. rename R1 into Q2.
  run_step H. rename R1 into Hdto. run_step H. rename R1 into Q4. apply ret_ok_inv in H as [-> ->].
  assert (Hquiet1 : quiet (w_db w6) (w_db w8)).
  { transitivity (w_db w7).
    - assert (Hs : steps quiet (open_delivery ctx d p orderID)) by (unfold open_delivery; go_steps).
      exact (Hs _ _ _ Q1).
    - assert (Hs : steps quiet (announce_created ctx p redemptionID orderID a))
        by (unfold announce_created; go_steps).
      exact (Hs _ _ _ Q2). }
  pose proof Hdto as E9. apply (redemptionDTOByID_reads eq) in E9.
  assert (Hquiet : quiet (w_db w6) (w_db w10)).
  { transitivity (w_db w8); [done|]. rewrite E9. by apply Succeed_quiet in Q4. }
  pose proof (booked_then _ _ _ _ _ B15 (booked_quiet _ _ (booked_ok _ _ _ B15) Hquiet)) as B.
  rewrite (booked_books _ _ _ B14) in Hfresh. rewrite E2, E1 in *. simpl in Hfresh.
  exists redemptionID, orderID, news. split; [|].
  2: { apply redemptionDTOByID_ok in Hdto as (r & Hr & Hid & Hans).
       assert (r = new_redemption p redemptionID orderID) as <-; [|done].
       rewrite (quiet_books _ _ Hquiet1) in Hr. pose proof (booked_ok _ _ _ B15) as Hok15.
       apply (NoDup_map_inj Red_ID (bk_redemptions (books (w_db w6)))); auto.
       - by apply (list_keys Red_ID redemption_key), shelf_redemptions.
       - rewrite (booked_books _ _ _ B15). simpl. rewrite elem_of_app, list_elem_of_singleton. by right. }
  constructor; auto.
  - exists itemID, recordID. eapply booked_eq; [exact B|done].
  - split; [|done]. eapply Forall2_impl; [exact Hheld|]. intros i x [Hid Ht]. split; [done|].
    eapply redemption_entry_extends; [|exact Ht].
    eapply extends_trans; [apply B2|]. eapply extends_trans; [apply B3|].
    eapply extends_trans; [apply B4|]. eapply extends_trans; [apply B5|].
    rewrite (quiet_view _ _ Hquiet). apply extends_refl.
Qed.

(** ** Calls: replayed, run once, or failed *)

Lemma mapped_cases {A} (m : G A) w r w' : mapped m w = (r, w') ->
  match r with
  | Ok a => m w = (Ok a, w')
  | Err _ => exists e, m w = (Err e, w')
  end.
Proof.
  unfold mapped, bind, attempt. destruct (m w) as [[a|e] w1] eqn:E; simpl; intros H.
  - unfold ret in H. by simplify_eq.
  - unfold throw in H. simplify_eq. eauto.
Qed.

Lemma claimIdempotency_keys c method path key h :
  steps (keep but_keys) (claimIdempotency c method path key h).
Proof.
  unfold claimIdempotency, StartAt. go_steps; apply steps_any_steps;
    [apply steps_any_create_or_ignore|apply steps_any_update]; eauto with steps; done.
Qed.

Lemma keys_keep {X} (f : Database -> X) db db' :
  keep but_keys db db' -> (forall l d, f (set_rows (R:=IdempotencyRecord) l d) = f d) ->
  f db' = f db.
Proof. unfold keep, but_keys. intros H Hf. rewrite <- (Hf [] db'), <- (Hf [] db). by rewrite H. Qed.

Lemma keys_quiet db db' : keep but_keys db db' -> quiet db db'.
Proof. intros H. apply (keys_keep shelf) in H; done. Qed.

Lemma Replay_completed_ok {A} `{JsonCodec A} c path key h w (d : A) w' :
  ReplayCompleted "customer" c path key h w = (Ok (Some d), w') ->
  replay_of (w_db w) (w_db w') c path key h d.
Proof.
  unfold ReplayCompleted. destruct (String.eqb key ""); intros Hrun; [by run Hrun|].
  run_step Hrun. destruct a as [row|e]; [|by run Hrun].
  apply take_row_ok in R as (E & Hin & Hn). run_step Hrun.
  apply negb_false_iff, String.eqb_eq in G.
  destruct (String.eqb_spec (Idem_Status row) "succeeded") as [Hs|]; simpl in Hrun.
  - apply lift_ok_inv in Hrun as [Hd ->]. split; [unfold keep; by rewrite E| |];
      exists row; [done|by rewrite <- Hd].
  - exfalso. destruct (String.eqb _ "processing"), (Idem_LockedUntil row); run Hrun; discriminate.
Qed.

(** The transaction of a call with a key: it replays, or it runs [body] once
    on a database that differs by the claim only. *)
Lemma keyed_cases c method path key h (k : G RedemptionDTO) w r w' :
  mapped (transaction (
    started <- claimIdempotency c method path key h ;;
    if negb started then cachedResponse c path key else k)) w = (r, w') ->
  match r with
  | Ok d => replay_of (w_db w) (w_db w') c path key h d \/
            exists w1 w2, keep but_keys (w_db w) (w_db w1) /\ k w1 = (Ok d, w2) /\
              w_db w' = w_db w2
  | Err _ => w_db w' = w_db w
  end.
Proof.
  intros H. apply mapped_cases in H. destruct r as [d|e].
  - apply transaction_ok in H as (w1 & w2 & E1 & H & E2). run_step H.
    apply claimIdempotency_keys in R as Hk.
    apply (startIdempotency_rows c method path key h) in R as [Hold Hr].
    rewrite E1 in Hk, Hold, Hr. destruct a; simpl in H.
    + right. exists w0, w2. auto.
    + left. unfold cachedResponse, CachedResponse in H. run_step H.
      destruct a as [x|]; [|by run H]. apply ret_ok_inv in H as [-> ->].
      run_step R. destruct a as [row|e]; [|by run R; discriminate].
      apply take_row_ok in R0 as (E & Hin & Hp). apply lift_ok_inv in R as [Hd ->].
      apply andb_true_iff in Hp as [Hn Hs]. apply String.eqb_eq in Hs. rewrite E2, E.
      constructor; [done|auto|]. exists row. auto.
  - destruct H as [x H]. by apply transaction_err in H.
Qed.

Lemma candidate_window_ok slotID productID w c s e w' :
  candidate_window slotID productID w = (Ok (c, s, e), w') -> truncate_ms e = e.
Proof.
  unfold candidate_window. intros H. run_step H.
  destruct (redemptionSlotWindow _ _ _) as [[s' e']|] eqn:E; [|by run H].
  apply ret_ok_inv in H as [H _]. simplify_eq. by apply redemptionSlotWindow_ok in E as (_ & _ & ? & _).
Qed.

Lemma planned_keys db db' c key n p :
  keep but_keys db db' -> planned db' c key n p -> planned db c key n p.
Proof.
  intros Hk [H1 H2 H3 H4 H5 H6 H7].
  rewrite (keys_keep db_fulfilment _ _ Hk) in H2 by done.
  rewrite (keys_keep books _ _ Hk) in H4, H7 by done.
  assert (E : forall m city pid e, redeemable_lots db' c m city pid e = redeemable_lots db c m city pid e).
  { intros m city pid e. by apply (keys_keep (fun d => redeemable_lots d c m city pid e)). }
  rewrite E in H3. by constructor.
Qed.

Lemma booked_around F db db1 db2 db3 :
  quiet db db1 -> booked F db1 db2 -> quiet db2 db3 -> booked F db db3.
Proof.
  intros Hq H Hq'. destruct (booked_quiet _ _ (booked_ok _ _ _ H) Hq') as [A1 A2 A3 A4 A5].
  destruct H as [B1 B2 B3 B4 B5]. pose proof (quiet_view _ _ Hq) as Hv.
  split; [done| | | |].
  - rewrite <- Hv. by eapply extends_trans.
  - rewrite A3, B3. unfold keep in Hq. exact (f_equal (fun s => s.1.2) Hq).
  - rewrite A4. unfold same_books. rewrite B4. f_equal. by apply quiet_books.
  - transitivity db1; [by apply quiet_spare|]. by transitivity db2.
Qed.

Lemma opened_around db db1 db2 p rid oid news :
  quiet db db1 -> redemption_opened db1 db2 p rid oid news ->
  redemption_opened db db2 p rid oid news.
Proof.
  intros Hq [(itemID & recordID & Hb) Hf Hp Hs Hh]. rewrite (quiet_books _ _ Hq) in Hf.
  constructor; auto. exists itemID, recordID. by eapply booked_around.
Qed.

Lemma normalized_quantity req n : normalizeRedemptionCreate req = Ok n ->
  RReq_Quantity (Norm_Request n) = RReq_Quantity req /\ RReq_Quantity req <> 0 /\
  RReq_Quantity req <= redemptionQuantityMax.
Proof.
  unfold normalizeRedemptionCreate. repeat (destruct (parseExternalID _ _); [|discriminate]).
  destruct (_ || _) eqn:E; [discriminate|]. rewrite orb_false_iff in E.
  destruct (RReq_AddressVersion req =? 0); [discriminate|].
  destruct (normalize_remark _); [|discriminate]. intros H. simplify_eq. simpl. lia.
Qed.

(** What a successful [Create] that was not replayed did. *)
Record created (db db' : Database) (customerID : Z) (key : string)
    (n : normalizedRedemptionCreate) (dto : RedemptionDTO) (p : RedemptionPlan)
    (redemptionID orderID : Z) (news : list RedemptionAllocation) : Prop := {
  created_request : Plan_CustomerID p = customerID /\ Plan_Request p = n;
  created_plan : planned db (Plan_CustomerID p) key (Plan_Request p) p;
  created_opened : redemption_opened db db' p redemptionID orderID news;
  created_answer : answers dto (new_redemption p redemptionID orderID);
}.

Lemma redemption_create_cases dispatch ctx claims method path key req w r w' :
  Create dispatch ctx claims method path key req w = (r, w') ->
  (forall d, dispatch = Some d -> Confined d) -> shelf_ok (w_db w) -> 0 <= RReq_Quantity req ->
  match r with
  | Ok d =>
      exists customerID n,
        customerIDWithPermission claims "wine_ticket_redemption:create" = Ok customerID /\
        normalizeRedemptionCreate req = Ok n /\
        (replay_of (w_db w) (w_db w') customerID path key
           (RequestHash (RedemptionCreateRequest_json (Norm_Request n))) d \/
         exists p rid oid news, created (w_db w) (w_db w') customerID key n d p rid oid news)
  | Err _ => w_db w' = w_db w
  end.
Proof.
  intros H Hd Hok Hq. unfold Create in H.
  apply guard_cases in H as [(customerID & w1 & Hc & E1 & H)|(e & -> & E)]; [|done|eauto with steps].
  apply lift_ok_inv in Hc as [Hc _].
  apply guard_cases in H as [(n & w2 & Hn & E2 & H)|(e & -> & E)]; [|congruence|eauto with steps].
  apply lift_ok_inv in Hn as [Hn _].
  apply guard_cases in H as [(u & w3 & _ & E3 & H)|(e & -> & E)]; [|congruence|eauto with steps].
  cbv zeta in H. unfold replay_or in H. assert (Edb : w_db w3 = w_db w) by congruence.
  apply guard_cases in H as [(o & w4 & Hrep & E4 & H)|(e & -> & E)]; [|congruence|eauto with steps].
  destruct o as [d0|].
  { unfold ret in H. simplify_eq. exists customerID, n. split; [done|]. split; [done|]. left.
    apply Replay_completed_ok in Hrep. by rewrite Edb in Hrep. }
  apply guard_cases in H as [([[c s] e] & w5 & Hw & E5 & H)|(e & -> & E)]; [|congruence|].
  2: { unfold candidate_window. go_steps. }
  apply candidate_window_ok in Hw. assert (Edb5 : w_db w5 = w_db w) by congruence.
  apply keyed_cases in H. rewrite Edb5 in H. destruct r as [d0|e0]; [|done].
  exists customerID, n. split; [done|]. split; [done|].
  destruct H as [H|(w6 & w7 & Hk & H & E7)]; [by left|right]. rewrite E7.
  unfold create_claimed in H. run_step H. destruct dispatch as [d|]; [|by run R].
  apply ret_ok_inv in R as [-> ->]. specialize (Hd _ eq_refl).
  run_step H. apply plan_redemption_ok in R as (E8 & Hp); [|done].
  destruct (planned_request _ _ _ _ _ Hp) as (Hpc & _ & Hpr).
  apply normalized_quantity in Hn as Hqn. destruct Hqn as (Hqn & Hq0 & Hqm).
  pose proof (keys_quiet _ _ Hk) as Hqk. unfold redemptionQuantityMax in Hqm.
  apply (execute_redemption_ok _ _ _ _ customerID n) in H as (rid & oid & news & Ho & Hans);
    [|done|rewrite E8; by eapply shelf_ok_quiet|by rewrite E8|unfold plan_quantity; rewrite Hpr; lia].
  rewrite E8 in Ho. exists a, rid, oid, news. constructor; auto.
  - rewrite Hpc, Hpr. by eapply planned_keys.
  - by eapply opened_around.
Qed.
