(* ===== verification/RedemptionCancel.v ===== *)
(** * What a cancellation and the fulfilment settlement do to the books *)

From S2P Require Import Prelude GoInt GoString GoTime GoDate Json Problem RequestCtx.
From S2P Require Import CoreModel AssetService GiftModel RedemptionModel RedemptionSlot AssetLaws.
From S2P Require Import AssetLedger Database FulfilmentTables Steps AssetRepository IntegrityScan.
From S2P Require Import Samples AssetTheorems AssetKeeps LedgerEntries Idempotency GiftDto GiftRepository.
From S2P Require Import GiftService GiftSelection GiftInvariant GiftRuns GiftCalls RedemptionDto.
From S2P Require Import RedemptionRepository ScheduledDispatch RedemptionService.
From S2P Require Import RedemptionSettlement RedemptionBooks RedemptionHold RedemptionRuns.
From Stdlib Require Import String.
#[local] Open Scope string_scope. #[local] Open Scope list_scope. #[local] Open Scope Z_scope.
#[local] Open Scope go_scope.

Lemma redemption_ids db : shelf_ok db -> NoDup (map Red_ID (bk_redemptions (books db))).
Proof. intros Hok. by apply (list_keys Red_ID redemption_key), shelf_redemptions. Qed.

(** ** Sums that do not saturate *)

Lemma saturating_sum_from l : forall total,
  Forall (fun q => 0 <= q < 2 ^ 32) l -> 0 <= total < u64_mod ->
  fold_left (fun total q => if uint_sub max_uint q <? total then max_uint else uint_add total q)
    l total = Z.min max_uint (total + sum_Z l).
Proof.
  induction l as [|q l IH]; intros total Hl Ht; simpl.
  { unfold sum_Z. simpl. rewrite Z.min_r; int_range. }
  inversion Hl as [|? ? Hq Hrest]; subst.
  assert (Hs : 0 <= sum_Z l) by (apply sum_Z_nonneg; eapply Forall_impl; [exact Hrest|simpl; lia]).
  rewrite uint_sub_small by int_range. change (sum_Z (q :: l)) with (q + sum_Z l).
  destruct (Z.ltb_spec (max_uint - q) total) as [Hlt|Hge].
  - rewrite IH by (done || int_range). rewrite !Z.min_l by int_range. done.
  - rewrite uint_add_small by int_range. rewrite IH by (done || int_range). f_equal. lia.
Qed.

Lemma saturating_sum_exact l s :
  saturating_sum l = s -> Forall (fun q => 0 <= q < 2 ^ 32) l -> s < 2 ^ 32 -> sum_Z l = s.
Proof.
  unfold saturating_sum. intros H Hl Hs. rewrite saturating_sum_from in H by (done || int_range).
  unfold max_uint, u64_mod in H. lia.
Qed.

Definition bottles (l : list RedemptionAllocation) : Z := sum_Z (map RA_Quantity l).

Lemma allocations_in_range db l :
  shelf_ok db -> (forall a, a ∈ l -> a ∈ bk_allocations (books db)) ->
  Forall (fun q => 0 <= q < 2 ^ 32) (map RA_Quantity l).
Proof.
  intros Hok Hl. apply Forall_forall. intros q Hq.
  apply list_elem_of_In, in_map_iff in Hq as (a & <- & Ha). apply list_elem_of_In in Ha.
  pose proof (allocation_numbers _ _ Hok (Hl a Ha)). lia.
Qed.

Lemma redemption_numbers db r : shelf_ok db -> r ∈ bk_redemptions (books db) ->
  0 < Red_Quantity r < 2 ^ 32 /\ 0 <= Red_Version r < 2 ^ 32.
Proof.
  intros Hok Hin. pose proof (list_row _ r (shelf_redemptions _ Hok) Hin) as Hr.
  change (redemption_row_check r = true) in Hr. unfold redemption_row_check, fits_uint32 in Hr.
  rewrite !andb_true_iff in Hr. lia.
Qed.

(** ** Cancelling *)

Definition red_cancelled (now : time) (r : Redemption) : Redemption :=
  redemption_with r RedemptionStatusCancelled (Red_Version r + 1)
    (Red_PickedUpAt r) (Red_CompletedAt r) (Some now) (Some now) now.

Definition ord_cancelled (now : time) (o : Order) : Order :=
  order_cancelled cancelSource cancelReason (Order_Version o + 1) now o.

(** What [Cancel] does to the books. *)
Definition closed (p : CancelPlan) (recordID : Z) (b : Books) : Books :=
  let r := CP_Redemption p in
  let now := CP_Now p in
  let stock := CP_Stock p in
  let q := Red_Quantity r in {|
  bk_slots := replaced Slot_ID (CP_Slot p) (slot_released now (CP_Slot p)) (bk_slots b);
  bk_redemptions := replaced Red_ID r (red_cancelled now r) (bk_redemptions b);
  bk_allocations := settled_rows RedemptionAllocationStatusRestored now
    (map RA_ID (CP_Allocations p)) (bk_allocations b);
  bk_stocks := replaced Stock_ID stock (stock_moved q now stock) (bk_stocks b);
  bk_records := bk_records b ++ [stock_record recordID stock "wine_ticket_redeem_restore"
    ("redemption_restore:" +:+ format_uint (Red_ID r) +:+ ":stock:" +:+
     format_uint (Stock_ShopProductID stock))
    q (Stock_AvailableQty stock + q) (Red_ID r) now];
  bk_orders := replaced Order_ID (CP_Order p) (ord_cancelled now (CP_Order p)) (bk_orders b);
  bk_items := bk_items b |}.

(** What is locked before anything is given back. *)
Record cancellable (db : Database) (p : CancelPlan) : Prop := {
  cancel_redemption : CP_Redemption p ∈ bk_redemptions (books db) /\
    Red_CustomerID (CP_Redemption p) = CP_CustomerID p;
  cancel_order : CP_Order p ∈ bk_orders (books db) /\
    Order_ID (CP_Order p) = Red_OrderID (CP_Redemption p);
  cancel_status : (Red_Status (CP_Redemption p) = RedemptionStatusScheduled \/
    Red_Status (CP_Redemption p) = RedemptionStatusAssigned) /\
    Red_PickedUpAt (CP_Redemption p) = None /\ Red_CompletedAt (CP_Redemption p) = None;
  cancel_allocations : CP_Allocations p = locked_for (books db) (Red_ID (CP_Redemption p)) /\
    bottles (CP_Allocations p) = Red_Quantity (CP_Redemption p);
  cancel_slot : CP_Slot p ∈ bk_slots (books db) /\
    Slot_ID (CP_Slot p) = Red_DeliveryTimeSlotID (CP_Redemption p);
  cancel_stock : CP_Stock p ∈ bk_stocks (books db) /\
    Stock_ShopProductID (CP_Stock p) = Red_ShopProductID (CP_Redemption p);
}.

Lemma validateCancellable_ok r o d c : validateCancellableRedemption r o d c = Ok tt ->
  Red_CustomerID r = c /\ Red_OrderID r = Order_ID o /\
  (Red_Status r = RedemptionStatusScheduled \/ Red_Status r = RedemptionStatusAssigned) /\
  Red_PickedUpAt r = None /\ Red_CompletedAt r = None.
Proof.
  unfold validateCancellableRedemption. destruct (_ || negb (order_settled_in_tickets o)) eqn:E1; [done|].
  rewrite !orb_false_iff, !negb_false_iff, !Z.eqb_eq in E1.
  destruct (negb _ && negb _) eqn:E2; [done|]. rewrite andb_false_iff, !negb_false_iff in E2.
  rewrite !String.eqb_eq in E2. destruct (_ || is_set (DState_CompletedAt d)) eqn:E3; [done|].
  rewrite !orb_false_iff in E3. intros _.
  destruct (Red_PickedUpAt r), (Red_CompletedAt r); simpl in E3; intuition done.
Qed.

Lemma lock_cancellation_ok ctx d customerID anchor w del o r w' :
  lock_cancellation ctx d customerID anchor w = (Ok (del, o, r), w') -> Confined d ->
  quiet (w_db w) (w_db w') /\ o ∈ bk_orders (books (w_db w)) /\
  r ∈ bk_redemptions (books (w_db w)) /\ Red_ID r = Red_ID anchor /\
  Red_CustomerID r = customerID.
Proof.
  unfold lock_cancellation. intros H Hd. run_step H. apply prefix_confined in R as Q1.
  pose proof (quiet_books _ _ Q1) as B1. run_step H.
  run_step H. apply or_error_ok, take_row_ok in R0 as (E2 & Ho & _).
  run_step H. apply reads_db in R0 as E3; [|unfold lockAfterSaleIDs; go_steps].
  run_step H. apply reads_db in R1 as E4; [|unfold lockDeliveryReturnIDs; go_steps].
  run_step H. cbv zeta in H. run_step H.
  apply or_error_ok, take_row_ok in R2 as (E5 & Hr & Hp). run_step H.
  apply ret_ok_inv in H as [H ->]. injection H as <- <- <-. rewrite E5, E4, E3, E2 in *.
  change (r ∈ bk_redemptions (books (w_db w0))) in Hr.
  change (o ∈ bk_orders (books (w_db w0))) in Ho. rewrite B1 in Hr, Ho.
  rewrite andb_true_iff, !Z.eqb_eq in Hp. tauto.
Qed.

Lemma plan_cancellation_ok customerID now del o r w p w' :
  plan_cancellation customerID now del o r w = (Ok p, w') -> shelf_ok (w_db w) ->
  r ∈ bk_redemptions (books (w_db w)) -> o ∈ bk_orders (books (w_db w)) ->
  w_db w' = w_db w /\ CP_CustomerID p = customerID /\ CP_Now p = now /\
  CP_Redemption p = r /\ cancellable (w_db w) p.
Proof.
  unfold plan_cancellation. intros H Hok Hr Ho. run_step H.
  apply validateCancellable_ok in E as (Hc & Hoid & Hst & Hpu & Hco).
  run_step H. apply lockAllocations_ok in R as [E1 ->].
  run_step H. apply reads_db in R as E2; [|unfold lockAllocationLots; go_steps].
  run_step H. unfold validateCancellationAllocations in E.
  destruct (_ || _) eqn:E3 in E; [done|]. clear E. rewrite orb_false_iff, negb_false_iff, Z.eqb_eq in E3.
  destruct E3 as [_ Hsum]. run_step H. apply or_error_ok, take_row_ok in R0 as (E4 & Hs & Hsid).
  run_step H. run_step H. apply or_error_ok, take_row_ok in R0 as (E5 & Hk & Hkid). run_step H.
  apply ret_ok_inv in H as [-> ->]. rewrite E4, E2, E1 in *. split; [congruence|].
  do 3 (split; [done|]). rewrite andb_true_iff in Hkid. apply Z.eqb_eq in Hsid.
  pose proof (redemption_numbers _ _ Hok Hr) as Hn.
  constructor; simpl; auto.
  - split; [done|]. apply saturating_sum_exact; [exact Hsum| |lia].
    apply (allocations_in_range (w_db w)); [done|]. intros x Hx. by apply locked_for_spec in Hx as [? _].
  - split; [done|]. destruct Hkid as [Hkid _]. by apply Z.eqb_eq in Hkid.
Qed.

(** What a cancellation that gave something back did. *)
Record redemption_closed (db db' : Database) (p : CancelPlan) : Prop := {
  closed_plan : cancellable db p;
  closed_books : exists recordID, booked (closed p recordID) db db';
  closed_place : 0 < Slot_ReservedOrders (CP_Slot p);
  closed_bottles : Forall (fun a => RA_Status a = RedemptionAllocationStatusHeld /\
    put_back (view_db db') a) (CP_Allocations p);
}.

Lemma give_back_ok ctx p w w' :
  give_back ctx p w = (Ok tt, w') -> shelf_ok (w_db w) -> cancellable (w_db w) p ->
  0 < Slot_ReservedOrders (CP_Slot p) /\
  Forall (fun a => RA_Status a = RedemptionAllocationStatusHeld /\
    put_back (view_db (w_db w')) a) (CP_Allocations p) /\
  exists recordID, booked (fun b =>
    let c := closed p recordID b in {|
    bk_slots := bk_slots c; bk_redemptions := bk_redemptions b;
    bk_allocations := bk_allocations c; bk_stocks := bk_stocks c; bk_records := bk_records c;
    bk_orders := bk_orders b; bk_items := bk_items b |}) (w_db w) (w_db w').
Proof.
  intros H Hok [[Hr _] _ _ [Hal _] [Hs _] [Hk _]]. unfold give_back in H. cbv zeta in H.
  pose proof (redemption_numbers _ _ Hok Hr) as Hn.
  run_step H. rewrite Hal in R. apply restoreCancellationLots_ok in R as (B1 & Hall); [|done].
  rewrite <- Hal in B1, Hall.
  run_step H. run_step H. destruct a; [|done].
  apply releaseSlot_ok in R as (B2 & Hpos); [|apply B1|by rewrite (booked_books _ _ _ B1)].
  pose proof (booked_then _ _ _ _ _ B1 B2) as B12.
  apply restoreRedemptionStock_ok in H as (recordID & B3);
    [|lia|apply B12|by rewrite (booked_books _ _ _ B12)].
  split; [done|]. split.
  - eapply Forall_impl; [exact Hall|]. intros a [Hst Hp]. split; [done|].
    eapply redemption_entry_extends; [|exact Hp]. eapply extends_trans; [apply B2|apply B3].
  - exists recordID. eapply booked_eq; [exact (booked_then _ _ _ _ _ B12 B3)|done].
Qed.

Lemma redemptions_booked l db : shelf_ok db -> list_ok l ->
  booked (on_redemptions (fun _ => l)) db (set_rows (R:=Redemption) l db).
Proof. intros [H1 H2 H3 H4 H5 H6] Hl. apply booked_set; [done..|]. by split. Qed.

Lemma orders_booked l db : shelf_ok db -> list_ok l ->
  booked (on_orders (fun _ => l) (fun l => l)) db (set_rows (R:=Order) l db).
Proof. intros [H1 H2 H3 H4 H5 H6] Hl. apply booked_set; [done..|]. by split. Qed.

Lemma order_version db o : shelf_ok db -> o ∈ bk_orders (books db) ->
  - 2 ^ 31 <= Order_Version o < 2 ^ 31.
Proof.
  intros Hok Hin. pose proof (list_row _ o (shelf_orders _ Hok) Hin) as Ho.
  change (order_row_check o = true) in Ho. unfold order_row_check, fits_int32 in Ho.
  rewrite !andb_true_iff in Ho. lia.
Qed.

Lemma close_redemption_ok ctx d p w w' :
  close_redemption ctx d p w = (Ok tt, w') -> Confined d -> shelf_ok (w_db w) ->
  CP_Redemption p ∈ bk_redemptions (books (w_db w)) -> CP_Order p ∈ bk_orders (books (w_db w)) ->
  booked (fun b => on_redemptions
      (replaced Red_ID (CP_Redemption p) (red_cancelled (CP_Now p) (CP_Redemption p)))
      (on_orders (replaced Order_ID (CP_Order p) (ord_cancelled (CP_Now p) (CP_Order p)))
         (fun l => l) b)) (w_db w) (w_db w').
Proof.
  intros H Hd Hok Hr Ho. pose proof (redemption_numbers _ _ Hok Hr) as Hn.
  pose proof (order_version _ _ Hok Ho) as Hv. unfold close_redemption in H.
  run_step H. run_step H. destruct a; [|done]. unfold cancelOrder in R.
  apply (changed_one_row Order_ID order_key _ _ (CP_Order p)) in R as (_ & Hdb & Hl);
    [|apply (shelf_orders _ Hok)|done|intros r; rewrite !andb_true_iff; lia].
  rewrite int_add_small in Hdb, Hl by int_range.
  pose proof (orders_booked _ _ Hok Hl) as B1. rewrite <- Hdb in B1.
  run_step H. run_step H. destruct a; [|done]. unfold cancelRedemption in R.
  apply (changed_one_row Red_ID redemption_key _ _ (CP_Redemption p)) in R as (_ & Hdb2 & Hl2);
    [|apply (shelf_redemptions _ (booked_ok _ _ _ B1))
     |by change (CP_Redemption p ∈ bk_redemptions (books (w_db w0)));
        rewrite (booked_books _ _ _ B1)
     |intros r; rewrite !andb_true_iff; lia].
  rewrite uint_add_small in Hdb2, Hl2 by int_range.
  pose proof (redemptions_booked _ _ (booked_ok _ _ _ B1) Hl2) as B2. rewrite <- Hdb2 in B2.
  pose proof (booked_then _ _ _ _ _ B1 B2) as B12.
  apply cancellation_confined in H.
  eapply booked_eq; [exact (booked_then _ _ _ _ _ B12 (booked_quiet _ _ (booked_ok _ _ _ B12) H))|].
  change (rows (w_db w0)) with (bk_redemptions (books (w_db w0))).
  by rewrite (booked_books _ _ _ B1).
Qed.

Lemma respond_quiet customerID path key id : steps quiet (respond customerID path key id).
Proof. unfold respond. go_steps. Qed.

Lemma announce_cancelled_quiet ctx p : steps quiet (announce_cancelled ctx p).
Proof. unfold announce_cancelled, createOrderLog. go_steps. Qed.
#[export] Hint Resolve respond_quiet announce_cancelled_quiet : steps.

Lemma respond_ok customerID path key id w d w' :
  respond customerID path key id w = (Ok d, w') ->
  exists r, r ∈ bk_redemptions (books (w_db w)) /\ Red_ID r = id /\ answers d r.
Proof.
  unfold respond. intros H. run_step H. apply redemptionDTOByID_ok in R. run_step H.
  by apply ret_ok_inv in H as [-> ->].
Qed.

Lemma cancellable_same db db' p : books db' = books db -> cancellable db' p -> cancellable db p.
Proof. intros E []. rewrite E in *. by constructor. Qed.

(** A redemption that is cancelled already is only read. *)
Lemma cancel_claimed_ok dispatch ctx customerID path key anchor version w dto w' :
  cancel_claimed dispatch ctx customerID path key anchor version w = (Ok dto, w') ->
  (forall d, dispatch = Some d -> Confined d) -> shelf_ok (w_db w) ->
  (quiet (w_db w) (w_db w') /\ exists r, r ∈ bk_redemptions (books (w_db w)) /\
     Red_ID r = Red_ID anchor /\ Red_Status r = RedemptionStatusCancelled /\ answers dto r) \/
  exists p, CP_CustomerID p = customerID /\ Red_ID (CP_Redemption p) = Red_ID anchor /\
    Red_Version (CP_Redemption p) = version /\ redemption_closed (w_db w) (w_db w') p /\
    answers dto (red_cancelled (CP_Now p) (CP_Redemption p)).
Proof.
  intros H Hd Hok. unfold cancel_claimed in H. run_step H.
  destruct dispatch as [d|]; [|by run R]. apply ret_ok_inv in R as [-> ->]. specialize (Hd _ eq_refl).
  run_step H. reads R E1. run_step H. apply (requireActive_reads eq) in R. rewrite E1 in R. clear E1.
  run_step H. destruct a0 as [[del o] r]. apply lock_cancellation_ok in R0 as (Q1 & Ho & Hr & Hid & Hc);
    [|done]. rewrite <- R in Q1, Ho, Hr. clear R.
  destruct (String.eqb_spec (Red_Status r) RedemptionStatusCancelled) as [Hst|_].
  { left. pose proof (redemption_ids _ Hok) as Hnd.
    apply respond_ok in H as Hans. destruct Hans as (r' & Hr' & Hid' & Hans).
    apply respond_quiet in H. rewrite (quiet_books _ _ Q1) in Hr'.
    split; [by transitivity (w_db w2)|]. exists r. do 3 (split; [done|]).
    by rewrite <- (NoDup_map_inj Red_ID _ _ _ Hnd Hr' Hr Hid'). }
  run_step H. apply negb_false_iff, Z.eqb_eq in G. pose proof (quiet_books _ _ Q1) as Eb.
  rewrite <- Eb in Ho, Hr. pose proof (shelf_ok_quiet _ _ Hok Q1) as Hok2.
  run_step H. apply plan_cancellation_ok in R as (E3 & Hpc & _ & Hpr & Hplan); [|done..].
  rewrite <- E3 in Q1, Hok2, Hplan. clear E3. subst r.
  destruct (cancel_redemption _ _ Hplan) as [Hin _]. destruct (cancel_order _ _ Hplan) as [Hino _].
  run_step H. apply give_back_ok in R as (Hpos & Hall & recordID & B1); [|done..].
  run_step H. apply close_redemption_ok in R as B2;
    [|done|apply B1|by rewrite (booked_books _ _ _ B1)|by rewrite (booked_books _ _ _ B1)].
  pose proof (booked_then _ _ _ _ _ B1 B2) as B.
  assert (Q2 : quiet (w_db w5) (w_db w')).
  { match type of H with ?m _ = _ => assert (Hs : steps quiet m) end; [|exact (Hs _ _ _ H)].
    go_steps. }
  right. exists a0. split; [done|]. split; [done|]. split; [done|]. split.
  2: { run_step H. apply announce_cancelled_quiet in R0 as Q3.
       apply respond_ok in H as (r' & Hr' & Hid' & Hans). rewrite (quiet_books _ _ Q3) in Hr'.
       assert (r' = red_cancelled (CP_Now a0) (CP_Redemption a0)) as <-; [|done].
       apply (NoDup_map_inj Red_ID (bk_redemptions (books (w_db w5)))); auto.
       - apply redemption_ids, B.
       - rewrite (booked_books _ _ _ B). simpl. by apply replaced_in. }
  constructor; auto.
  - apply (cancellable_same _ (w_db w3)); [|done]. by apply quiet_books.
  - exists recordID. eapply booked_eq; [exact (booked_around _ _ _ _ _ Q1 B Q2)|done].
  - eapply Forall_impl; [exact Hall|]. intros x [Hs Hp]. split; [done|].
    rewrite (quiet_view _ _ Q2). eapply redemption_entry_extends; [apply B2|exact Hp].
Qed.

Lemma closed_around db db1 db2 p :
  quiet db db1 -> redemption_closed db1 db2 p -> redemption_closed db db2 p.
Proof.
  intros Hq [Hp (recordID & Hb) H1 H2].
  constructor; auto.
  - apply (cancellable_same _ db1); [by apply quiet_books|done].
  - exists recordID. apply (booked_around _ _ db1 db2); auto. reflexivity.
Qed.

(** What a successful [Cancel] that gave something back did. *)
Record cancelled (db db' : Database) (customerID : Z) (redemptionNo : string) (version : Z)
    (dto : RedemptionDTO) (p : CancelPlan) : Prop := {
  cancelled_caller : CP_CustomerID p = customerID;
  cancelled_number : Red_RedemptionNo (CP_Redemption p) = redemptionNo;
  cancelled_version : Red_Version (CP_Redemption p) = version;
  cancelled_closed : redemption_closed db db' p;
  cancelled_answer : answers dto (red_cancelled (CP_Now p) (CP_Redemption p));
}.

(** The redemption of the number was cancelled before. *)
Definition cancelled_before (db db' : Database) (redemptionNo : string) (dto : RedemptionDTO)
    : Prop :=
  quiet db db' /\ exists r, r ∈ bk_redemptions (books db) /\ Red_RedemptionNo r = redemptionNo /\
    Red_Status r = RedemptionStatusCancelled /\ answers dto r.

Lemma redemption_cancel_cases dispatch ctx claims method path key no req w r w' :
  Cancel dispatch ctx claims method path key no req w = (r, w') ->
  (forall d, dispatch = Some d -> Confined d) -> shelf_ok (w_db w) ->
  match r with
  | Ok d =>
      exists customerID,
        customerIDWithPermission claims "wine_ticket_redemption:cancel" = Ok customerID /\
        (replay_of (w_db w) (w_db w') customerID path key
           (ResourceRequestHash "wine_ticket.redemption.cancel" (JStr (trim_space no))
              (RedemptionCancelRequest_json req)) d \/
         cancelled_before (w_db w) (w_db w') (trim_space no) d \/
         exists p, cancelled (w_db w) (w_db w') customerID (trim_space no)
           (RCancel_ExpectedVersion req) d p)
  | Err _ => w_db w' = w_db w
  end.
Proof.
  intros H Hd Hok. unfold Cancel in H.
  apply guard_cases in H as [(customerID & w1 & Hc & E1 & H)|(e & -> & E)]; [|done|eauto with steps].
  apply lift_ok_inv in Hc as [Hc _]. cbv zeta in H.
  apply guard_cases in H as [(u & w2 & _ & E2 & H)|(e & -> & E)]; [|congruence|eauto with steps].
  apply guard_cases in H as [(u3 & w3 & _ & E3 & H)|(e & -> & E)]; [|congruence|go_steps].
  apply guard_cases in H as [(u4 & w4 & _ & E4 & H)|(e & -> & E)]; [|congruence|eauto with steps].
  unfold replay_or in H. assert (Edb4 : w_db w4 = w_db w) by congruence.
  apply guard_cases in H as [(o & w5 & Hrep & E5 & H)|(e & -> & E)]; [|congruence|eauto with steps].
  destruct o as [d0|].
  { unfold ret in H. simplify_eq. exists customerID. split; [done|]. left.
    apply Replay_completed_ok in Hrep. by rewrite Edb4 in Hrep. }
  apply guard_cases in H as [(anchor & w6 & Ha & E6 & H)|(e & -> & E)]; [|congruence|].
  2: { unfold cancellationAnchor. go_steps. }
  assert (Edb6 : w_db w6 = w_db w) by congruence. rewrite E6 in Edb6.
  apply or_missing_ok, take_row_ok in Ha as (_ & Hin & Hno). rewrite Edb6 in Hin.
  apply andb_true_iff in Hno as [_ Hno]. apply String.eqb_eq in Hno.
  apply keyed_cases in H. rewrite E6, Edb6 in H. destruct r as [d0|e0]; [|done].
  exists customerID. split; [done|].
  destruct H as [H|(w7 & w8 & Hk & H & E8)]; [by left|right]. rewrite E8.
  pose proof (keys_quiet _ _ Hk) as Hqk. pose proof (redemption_ids _ Hok) as Hnd.
  assert (Hsame : forall r, r ∈ bk_redemptions (books (w_db w)) -> Red_ID r = Red_ID anchor ->
                  Red_RedemptionNo r = trim_space no).
  { intros r Hr Hid. by rewrite (NoDup_map_inj Red_ID _ _ _ Hnd Hr Hin Hid). }
  apply cancel_claimed_ok in H as [(Hq & r & Hr & Hid & Hst & Hans)
                                  |(p & Hpc & Hid & Hv & Hclosed & Hans)];
    [| |done|by eapply shelf_ok_quiet].
  - left. rewrite (quiet_books _ _ Hqk) in Hr.
    split; [by transitivity (w_db w7)|]. exists r. auto.
  - right. exists p. pose proof (closed_around _ _ _ _ Hqk Hclosed) as Hcl.
    constructor; auto. apply Hsame; [|done]. apply (cancel_redemption _ _ (closed_plan _ _ _ Hcl)).
Qed.

(** ** Settlement *)

(** The status a redemption may move to. *)
Inductive settles : string -> string -> Prop :=
| settle_assigned : settles RedemptionStatusScheduled RedemptionStatusAssigned
| settle_picked_up_early : settles RedemptionStatusScheduled RedemptionStatusPickedUp
| settle_picked_up : settles RedemptionStatusAssigned RedemptionStatusPickedUp
| settle_delivered : settles RedemptionStatusPickedUp RedemptionStatusDelivered.

(** The status an action leads to. *)
Definition action_status (action : string) : string :=
  if String.eqb action FulfillmentAssigned then RedemptionStatusAssigned
  else if String.eqb action FulfillmentPickedUp then RedemptionStatusPickedUp
  else RedemptionStatusDelivered.

Definition all_in (status : string) (l : list RedemptionAllocation) : Prop :=
  Forall (fun a => RA_Status a = status) l.

Lemma requireAllocationStatus_ok l status u :
  requireAllocationStatus l status = Ok u -> all_in status l.
Proof.
  unfold requireAllocationStatus. destruct (forallb _ _) eqn:F; [|done]. intros _.
  apply Forall_forall. intros a Ha. rewrite forallb_forall in F.
  apply String.eqb_eq, F. by apply list_elem_of_In.
Qed.

Lemma target_status_ok current action l o : target_status current action l = Ok o ->
  match o with
  | Some target => target = action_status action /\ settles current target /\
      all_in RedemptionAllocationStatusHeld l
  | None => current = action_status action /\
      (current = RedemptionStatusDelivered -> all_in RedemptionAllocationStatusConsumed l)
  end.
Proof.
  unfold target_status, action_status.
  assert (Hheld : forall t, match requireAllocationStatus l RedemptionAllocationStatusHeld with
    | Ok _ => Ok (Some t) | Err e => Err e end = Ok o ->
    o = Some t /\ all_in RedemptionAllocationStatusHeld l).
  { intros t. destruct (requireAllocationStatus l _) eqn:E; [|done].
    apply requireAllocationStatus_ok in E. intros H. by simplify_eq. }
  repeat (match goal with |- context [String.eqb ?a ?b] => destruct (String.eqb_spec a b) end;
          simpl; subst); try done; intros H; simplify_eq;
    try (split; [done|]; intros E; vm_compute in E; done);
    try (apply Hheld in H as [-> H]; split; [done|]; split; [constructor|done]).
  clear Hheld. destruct (requireAllocationStatus _ _) eqn:E; [|done]. simplify_eq.
  apply requireAllocationStatus_ok in E. by split.
Qed.

(** What a settled fact does to the books. *)
Definition advanced (r : Redemption) (target : string) (now : time) (b : Books) : Books :=
  on_redemptions (replaced Red_ID r (redemption_moved target now r))
    (if String.eqb target RedemptionStatusDelivered
     then on_allocations (settled_rows RedemptionAllocationStatusConsumed now
            (map RA_ID (locked_for b (Red_ID r)))) b
     else b).

Lemma consume_ok r now n w w' :
  consumeHeldAllocations (Red_ID r) now w = (Ok n, w') -> shelf_ok (w_db w) -> n <> 0 ->
  all_in RedemptionAllocationStatusHeld (locked_for (books (w_db w)) (Red_ID r)) ->
  booked (on_allocations (settled_rows RedemptionAllocationStatusConsumed now
    (map RA_ID (locked_for (books (w_db w)) (Red_ID r))))) (w_db w) (w_db w').
Proof.
  intros H Hok Hn Hheld. apply update_rows_list in H as (_ & Hdb & Hl);
    [|done|apply (shelf_allocations _ Hok)].
  assert (E : map (fun a => if (RA_RedemptionID a =? Red_ID r) &&
      String.eqb (RA_Status a) RedemptionAllocationStatusHeld
      then redemption_allocation_with RedemptionAllocationStatusConsumed now a else a)
      (bk_allocations (books (w_db w))) =
    settled_rows RedemptionAllocationStatusConsumed now
      (map RA_ID (locked_for (books (w_db w)) (Red_ID r))) (bk_allocations (books (w_db w)))).
  { apply map_ext_in. intros a Ha. apply list_elem_of_In in Ha.
    pose proof (list_keys RA_ID allocation_key _ (shelf_allocations _ Hok)) as Hnd.
    case_bool_decide as Hin.
    - apply list_elem_of_In, in_map_iff in Hin as (x & Ex & Hx). apply list_elem_of_In in Hx.
      pose proof Hx as Hx'. apply locked_for_spec in Hx as [Hx Hid].
      rewrite <- (NoDup_map_inj RA_ID _ _ _ Hnd Hx Ha Ex).
      unfold all_in in Hheld. rewrite Forall_forall in Hheld.
      by rewrite Hid, (Hheld _ Hx'), Z.eqb_refl, String.eqb_refl.
    - destruct (Z.eqb_spec (RA_RedemptionID a) (Red_ID r)) as [Er|]; [|done].
      exfalso. apply Hin, list_elem_of_In, in_map, list_elem_of_In, locked_for_spec. auto. }
  change (bk_allocations (books (w_db w))) with (rows (R:=RedemptionAllocation) (w_db w)) in E.
  rewrite E in Hdb, Hl. rewrite Hdb. eapply booked_eq; [by apply allocations_booked|done].
Qed.

Lemma transition_ok r target now w w' :
  transitionRedemption (Red_ID r) (Red_Status r) target now w = (Ok 1, w') ->
  shelf_ok (w_db w) -> r ∈ bk_redemptions (books (w_db w)) ->
  booked (on_redemptions (replaced Red_ID r (redemption_moved target now r))) (w_db w) (w_db w').
Proof.
  intros H Hok Hr. apply (update_one_row Red_ID redemption_key _ _ r) in H as (_ & Hdb & Hl);
    [|apply (shelf_redemptions _ Hok)|done|intros x; rewrite !andb_true_iff; lia].
  rewrite Hdb. eapply booked_eq; [by apply redemptions_booked|done].
Qed.

Lemma settlement_quiet ctx fact r before after now :
  steps quiet (writeFulfillmentAuditAndOutbox ctx fact r before after now).
Proof.
  unfold writeFulfillmentAuditAndOutbox, createAudit. cbv zeta. go_steps.
  apply event_quiet. go_steps.
Qed.

Lemma advance_ok ctx fact r target now w w' :
  let l := locked_for (books (w_db w)) (Red_ID r) in
  advance ctx fact r l target now w = (Ok tt, w') -> shelf_ok (w_db w) ->
  r ∈ bk_redemptions (books (w_db w)) -> all_in RedemptionAllocationStatusHeld l -> l <> [] ->
  booked (advanced r target now) (w_db w) (w_db w') /\ view_db (w_db w') = view_db (w_db w).
Proof.
  intros l H Hok Hr Hheld Hne. unfold advance in H. run_step H.
  assert (B1 : booked (fun b => if String.eqb target RedemptionStatusDelivered
    then on_allocations (settled_rows RedemptionAllocationStatusConsumed now
      (map RA_ID (locked_for b (Red_ID r)))) b else b) (w_db w) (w_db w0) /\
    view_db (w_db w0) = view_db (w_db w)).
  { destruct (String.eqb target RedemptionStatusDelivered).
    - run_step R. run_step R. apply negb_false_iff, Z.eqb_eq in G. subst a.
      pose proof R0 as Hu. apply consume_ok in R0; [| |destruct l; [done|simpl; lia]|]; [|done..].
      split; [eapply booked_eq; [exact R0|done]|].
      apply update_rows_list in Hu as (_ & -> & _); [done|destruct l; [done|simpl; lia]|].
      apply (shelf_allocations _ Hok).
    - apply ret_ok_inv in R as [_ ->]. split; [|done]. by apply booked_quiet. }
  destruct B1 as [B1 V1]. run_step H. run_step H. apply negb_false_iff, Z.eqb_eq in G. subst a.
  assert (Hr0 : r ∈ bk_redemptions (books (w_db w0))).
  { rewrite (booked_books _ _ _ B1). by destruct (String.eqb _ _). }
  pose proof R0 as Ht. apply transition_ok in R0 as B2; [|apply B1|done].
  apply settlement_quiet in H. pose proof (booked_then _ _ _ _ _ B1 B2) as B12. split.
  - eapply booked_eq; [exact (booked_then _ _ _ _ _ B12 (booked_quiet _ _ (booked_ok _ _ _ B12) H))|].
    done.
  - rewrite (quiet_view _ _ H), <- V1. apply (update_one_row Red_ID redemption_key _ _ r) in Ht
      as (_ & -> & _); [done|apply (shelf_redemptions _ (booked_ok _ _ _ B1))|done|].
    intros x; rewrite !andb_true_iff; lia.
Qed.

(** What a successful settlement found and did. *)
Record settled_fact (db db' : Database) (fact : fulfillmentFact) (r : Redemption) : Prop := {
  sf_linked : fact_linked fact = true;
  sf_redemption : r ∈ bk_redemptions (books db) /\ Red_OrderID r = Fact_OrderID fact;
  sf_total : locked_for (books db) (Red_ID r) <> [];
  sf_outcome :
    (Red_Status r = action_status (Fact_Action fact) /\ db' = db) \/
    exists now, settles (Red_Status r) (action_status (Fact_Action fact)) /\
      all_in RedemptionAllocationStatusHeld (locked_for (books db) (Red_ID r)) /\
      booked (advanced r (action_status (Fact_Action fact)) now) db db' /\
      view_db db' = view_db db;
}.

Lemma apply_ok ctx fact w w' :
  apply ctx fact w = (Ok tt, w') -> shelf_ok (w_db w) ->
  exists r, settled_fact (w_db w) (w_db w') fact r.
Proof.
  intros H Hok. unfold apply in H. run_step H. apply negb_false_iff in G.
  run_step H. unfold lockFulfillmentRedemption in R.
  apply or_missing_ok, take_row_ok in R as (E1 & Hr & Hid). rename a into r.
  run_step H. apply lockAllocations_ok in R as [E2 ->]. rewrite E1 in *.
  run_step H. apply bool_decide_eq_false in G0.
  run_step H. apply reads_db in R as E3; [|unfold lockFulfillmentLots, lockLots; go_steps].
  run_step H. run_step H. cbv zeta in R0. rename a0 into now.
  apply reads_db in R0 as E4; [|go_steps]. run_step H. apply target_status_ok in E0.
  assert (Edb : w_db w3 = w_db w) by congruence. apply Z.eqb_eq in Hid.
  exists r. destruct a0 as [target|].
  - destruct E0 as (-> & Hs & Hheld). rewrite <- Edb in H.
    apply advance_ok in H as [Hb Hv]; rewrite ?Edb in *; [|done..].
    constructor; auto. right. exists now. auto.
  - apply ret_ok_inv in H as [_ ->]. constructor; auto. left. destruct E0. by rewrite Edb.
Qed.
