(* ===== verification/ReturnRuns.v ===== *)
(** * What the return settlement does to the books *)

From S2P Require Import Prelude GoInt GoString GoTime Json Problem RequestCtx.
From S2P Require Import CoreModel AssetService GiftModel RedemptionModel AssetLaws AssetLedger.
From S2P Require Import Database FulfilmentTables Steps AssetRepository IntegrityScan Samples.
From S2P Require Import AssetTheorems AssetKeeps LedgerEntries GiftDto GiftRepository GiftService.
From S2P Require Import GiftSelection GiftInvariant GiftRuns GiftCalls RedemptionDto.
From S2P Require Import RedemptionRepository ScheduledDispatch RedemptionService.
From S2P Require Import RedemptionSettlement AfterSaleReturn ReturnSettlement RedemptionBooks.
From S2P Require Import RedemptionHold RedemptionRuns RedemptionCancel.
From Stdlib Require Import String.
#[local] Open Scope string_scope. #[local] Open Scope list_scope. #[local] Open Scope Z_scope.
#[local] Open Scope go_scope.

(** The bottles of an allocation came back with a return. *)
Definition came_back (v : AssetView) (returnID : Z) (a : RedemptionAllocation) : Prop :=
  ledger_entry v "wine_ticket_redemption_return" TransactionTypeRedemptionReturnRestore
    (return_restore_key returnID (RA_ID a)) returnID (RA_LotID a) (RA_Quantity a).

Lemma came_back_extends v v' id a : extends v v' -> came_back v id a -> came_back v' id a.
Proof. apply ledger_entry_extends. Qed.

(** ** Restoring the lots *)

Definition to_restore (l : list RedemptionAllocation) : list RedemptionAllocation :=
  List.filter (fun a => negb (String.eqb (RA_Status a) RedemptionAllocationStatusRestored)) l.

Lemma to_restore_in l a : a ∈ to_restore l -> a ∈ l.
Proof. unfold to_restore. rewrite !list_elem_of_In, filter_In. tauto. Qed.

Lemma to_restore_all status l : status <> RedemptionAllocationStatusRestored ->
  all_in status l -> to_restore l = l.
Proof.
  intros Hs Hl. apply filter_all. eapply Forall_impl; [exact Hl|]. simpl. intros a ->.
  by apply negb_true_iff, String.eqb_neq.
Qed.

Lemma to_restore_none l : all_in RedemptionAllocationStatusRestored l -> to_restore l = [].
Proof.
  unfold all_in. rewrite Forall_forall. intros Hl. apply filter_none_in. intros a Ha.
  by rewrite (Hl a Ha).
Qed.

Definition returnable_status : list string :=
  [RedemptionAllocationStatusHeld; RedemptionAllocationStatusConsumed;
   RedemptionAllocationStatusRestored].

Lemma markAllocationRestored_ok a now w u w' :
  markAllocationRestored (RA_ID a) (RA_RedemptionID a) now w = (Ok u, w') -> shelf_ok (w_db w) ->
  a ∈ bk_allocations (books (w_db w)) -> one_of returnable_status (RA_Status a) = true ->
  RA_Status a <> RedemptionAllocationStatusRestored ->
  booked (on_allocations (replaced RA_ID a
    (redemption_allocation_with RedemptionAllocationStatusRestored now a))) (w_db w) (w_db w').
Proof.
  intros H Hok Ha Hst Hne. unfold markAllocationRestored in H. run_step H.
  apply ret_ok_inv in H as [_ ->].
  apply (update_this_row RA_ID allocation_key _ _ a) in R as [Hdb Hl];
    [|apply (shelf_allocations _ Hok)|done| |intros r; rewrite !andb_true_iff; lia].
  - rewrite Hdb. eapply booked_eq; [by apply allocations_booked|done].
  - rewrite !Z.eqb_refl. simpl. unfold one_of, returnable_status in Hst. simpl in Hst.
    destruct (String.eqb_spec (RA_Status a) RedemptionAllocationStatusHeld); [done|].
    destruct (String.eqb_spec (RA_Status a) RedemptionAllocationStatusConsumed); [done|].
    destruct (String.eqb_spec (RA_Status a) RedemptionAllocationStatusRestored); done.
Qed.

Lemma settled_rows_app status now ids ids' l :
  settled_rows status now ids' (settled_rows status now ids l) =
  settled_rows status now (ids ++ ids') l.
Proof.
  unfold settled_rows. rewrite map_map. apply map_ext. intros a.
  destruct (decide (RA_ID a ∈ ids)) as [Hi|Hi].
  - rewrite (bool_decide_eq_true_2 (RA_ID a ∈ ids) Hi).
    rewrite (bool_decide_eq_true_2 (RA_ID a ∈ ids ++ ids')) by (apply elem_of_app; auto).
    by case_bool_decide.
  - rewrite (bool_decide_eq_false_2 (RA_ID a ∈ ids) Hi). rewrite (bool_decide_ext _ (RA_ID a ∈ ids ++ ids')); [done|].
    rewrite elem_of_app. tauto.
Qed.

Definition sales (db : Database) : list AfterSale := rows db.

Lemma asset_sales ctx op w m w' :
  asset_op ctx op w = (Ok m, w') -> op_ok op -> shelf_ok (w_db w) ->
  sales (w_db w') = sales (w_db w).
Proof.
  intros H Hop Hok. destruct (asset_op_effect _ _ _ _ _ H Hop (shelf_ledger _ Hok)) as (_ & _ & Hf).
  exact (Hf _ sales (fun _ => eq_refl)).
Qed.

Lemma return_lots_ok ctx returnID rid now m allocations : forall w w',
  return_lots ctx returnID rid now allocations m w = (Ok tt, w') ->
  lots_known allocations m -> NoDup (map RA_ID allocations) ->
  (forall a, a ∈ allocations -> a ∈ bk_allocations (books (w_db w)) /\ RA_RedemptionID a = rid /\
     one_of returnable_status (RA_Status a) = true) ->
  shelf_ok (w_db w) ->
  booked (on_allocations (settled_rows RedemptionAllocationStatusRestored now
            (map RA_ID (to_restore allocations)))) (w_db w) (w_db w') /\
  Forall (came_back (view_db (w_db w')) returnID) allocations /\
  (Forall (came_back (view_db (w_db w)) returnID) allocations ->
   view_db (w_db w') = view_db (w_db w)) /\
  sales (w_db w') = sales (w_db w).
Proof.
  induction allocations as [|a allocations IH]; intros w w' H Hm Hids Hin Hok; simpl in H.
  { run H. split; [|by split]. eapply booked_eq; [by apply booked_quiet|].
    symmetry. apply on_allocations_same, settled_rows_nil. }
  destruct (m !! RA_LotID a) as [lot|] eqn:Em; [|by run H].
  pose proof (Hm a lot ltac:(by left) Em) as Elot.
  run_step H. run_step H. rename R into Hr. run_step H. rename R into Hu.
  destruct (Hin a ltac:(by left)) as (Ha & Hred & Hst).
  pose proof (allocation_numbers _ _ Hok Ha) as Hq.
  simpl in Hids. apply NoDup_cons in Hids as [Hid Hids].
  set (c := return_restore_command returnID rid lot a now) in Hr.
  pose proof (Restore_entry_written ctx c _ _ _ Hr ltac:(simpl; lia) (shelf_ledger _ Hok)) as Ht.
  assert (Hsame : came_back (view_db (w_db w)) returnID a ->
                  view_db (w_db w0) = view_db (w_db w)).
  { intros (t & Hin_t & Hk & _). eapply (Restore_repeated ctx c); eauto; [simpl; lia|].
    apply Hok. }
  simpl in Ht. rewrite Elot in Ht.
  assert (Hop : op_ok (OpRestore c)) by (unfold op_ok, quantity_ok; simpl; lia).
  pose proof (asset_sales ctx (OpRestore c) _ _ _ Hr Hop Hok) as S0.
  apply (asset_booked ctx (OpRestore _)) in Hr; [|done..].
  pose proof (booked_ok _ _ _ Hr) as Hok0.
  assert (Ha0 : a ∈ bk_allocations (books (w_db w0))) by (by rewrite (booked_books _ _ _ Hr)).
  assert (Hb : booked (on_allocations (settled_rows RedemptionAllocationStatusRestored now
      (map RA_ID (to_restore [a])))) (w_db w0) (w_db w1) /\
    view_db (w_db w1) = view_db (w_db w0) /\ sales (w_db w1) = sales (w_db w0)).
  { simpl. destruct (String.eqb_spec (RA_Status a) RedemptionAllocationStatusRestored) as [E|E].
    - apply ret_ok_inv in Hu as [_ ->]. split; [|by split].
      eapply booked_eq; [by apply booked_quiet|]. symmetry.
      apply on_allocations_same, settled_rows_nil.
    - rewrite <- Hred in Hu. pose proof Hu as Hv.
      apply markAllocationRestored_ok in Hu; [|done..]. split.
      + eapply booked_eq; [exact Hu|]. unfold on_allocations. f_equal.
        rewrite <- (settled_rows_nil RedemptionAllocationStatusRestored now (replaced _ _ _ _)).
        apply settled_rows_cons; [|done|apply not_elem_of_nil].
        by apply (list_keys RA_ID allocation_key), shelf_allocations.
      + unfold markAllocationRestored in Hv. run_step Hv. apply ret_ok_inv in Hv as [_ ->].
        apply update_rows_any in R as [[-> _]|[-> _]]; [done|done|apply Hok0]. }
  destruct Hb as (Hb & Hv1 & S1).
  apply IH in H as (Hrest & Hall & Hrep & Srest); [|intros x l Hx; apply Hm; by right|done| |apply Hb].
  - split; [|split; [|split; [|congruence]]].
    + eapply booked_eq; [exact (booked_then _ _ _ _ _ Hr (booked_then _ _ _ _ _ Hb Hrest))|].
      unfold same_books, on_allocations. simpl. f_equal.
      rewrite settled_rows_app. f_equal. by destruct (String.eqb (RA_Status a) _).
    + constructor; [|done]. eapply came_back_extends; [apply Hrest|].
      eapply came_back_extends; [apply Hb|exact Ht].
    + intros Hf. inversion Hf as [|? ? Hfa Hfl]; subst. specialize (Hsame Hfa).
      rewrite Hrep, Hv1; [done|]. by rewrite Hv1, Hsame.
  - intros x Hx. destruct (Hin x ltac:(by right)) as (Hxin & Hxr & Hxs). split; [|done].
    rewrite (booked_books _ _ _ Hb), (booked_books _ _ _ Hr). simpl.
    apply list_elem_of_In, in_map_iff. exists x. split; [|by apply list_elem_of_In].
    rewrite bool_decide_eq_false_2; [done|]. simpl. intros E.
    assert (RA_ID x <> RA_ID a).
    { intros Ex. apply Hid. rewrite <- Ex. by apply list_elem_of_In, in_map, list_elem_of_In. }
    destruct (negb _); simpl in E; [by apply list_elem_of_singleton in E|].
    by apply not_elem_of_nil in E.
Qed.

(** ** Statements that leave the lots alone *)

(** The books become [F] of what they were; lots and ledger stay. *)
Definition booked_only (F : Books -> Books) (db db' : Database) : Prop :=
  booked F db db' /\ view_db db' = view_db db.

Lemma only_quiet db db' : shelf_ok db -> quiet db db' -> booked_only same_books db db'.
Proof. split; [by apply booked_quiet|by apply quiet_view]. Qed.

Lemma only_then F G a b c :
  booked_only F a b -> booked_only G b c -> booked_only (fun x => G (F x)) a c.
Proof. intros [H1 E1] [H2 E2]. split; [by eapply booked_then|congruence]. Qed.

Lemma only_eq F G a b : booked_only F a b -> F (books a) = G (books a) -> booked_only G a b.
Proof. intros [H E] Eq. split; [by eapply booked_eq|done]. Qed.

Lemma only_around F db db1 db2 db3 :
  quiet db db1 -> booked_only F db1 db2 -> quiet db2 db3 -> booked_only F db db3.
Proof.
  intros Q1 [B V] Q2. split; [by apply (booked_around _ _ db1 db2)|].
  by rewrite (quiet_view _ _ Q2), V, (quiet_view _ _ Q1).
Qed.

(** [f] on the rows that [p] selects. *)
Definition where_ {R} (p : R -> bool) (f : R -> R) (l : list R) : list R :=
  map (fun r => if p r then f r else r) l.

Lemma where_none {R} (p : R -> bool) (f : R -> R) l : List.filter p l = [] -> where_ p f l = l.
Proof.
  intros E. unfold where_. rewrite <- (map_id l) at 2. apply map_ext_in. intros r Hr.
  destruct (p r) eqn:P; [|done]. assert (Hin : In r (List.filter p l)) by by apply filter_In.
  by rewrite E in Hin.
Qed.

Lemma orders_updated p f n w w' :
  update_rows (R:=Order) p f w = (Ok n, w') -> shelf_ok (w_db w) ->
  booked_only (on_orders (where_ p f) (fun l => l)) (w_db w) (w_db w').
Proof.
  intros H Hok. apply update_rows_any in H as [[-> Hno]|[-> Hl]]; [| |apply (shelf_orders _ Hok)].
  - split; [|done]. eapply booked_eq; [by apply booked_quiet|].
    unfold same_books, on_orders. rewrite (where_none p f) by done. by destruct (books (w_db w)).
  - split; [|done]. eapply booked_eq; [by apply orders_booked|done].
Qed.

Lemma orders_sales p f n w w' :
  update_rows (R:=Order) p f w = (Ok n, w') -> sales (w_db w') = sales (w_db w).
Proof. apply (steps_any_update (keep sales)). intros; reflexivity. Qed.

Lemma redemption_updated p f r n w w' :
  update_rows p f w = (Ok n, w') -> shelf_ok (w_db w) -> r ∈ bk_redemptions (books (w_db w)) ->
  p r = true -> (forall x, p x = true -> Red_ID x = Red_ID r) ->
  booked_only (on_redemptions (replaced Red_ID r (f r))) (w_db w) (w_db w').
Proof.
  intros H Hok Hr Hp Hid.
  apply (update_this_row Red_ID redemption_key _ _ r) in H as [-> Hl];
    [|apply (shelf_redemptions _ Hok)|done..].
  split; [|done]. eapply booked_eq; [by apply redemptions_booked|done].
Qed.

(** ** Opening the after-sale *)

(** The case of a return: no money is asked for or paid. *)
Record case_of (req : SystemWineTicketReturnRequest) (a : AfterSale) : Prop := {
  case_source : AS_SourceType a = "delivery_return" /\
    AS_SourceID a = Some (SysRet_DeliveryReturnID req);
  case_order : AS_OrderID a = SysRet_OrderID req;
  case_amounts : AS_RequestedAmount a = 0 /\ AS_ApprovedAmount a = 0 /\ AS_RefundedAmount a = 0;
}.

Definition summary_changed (orderID : Z) (status : string) (at_ : time)
    : list Order -> list Order :=
  where_ (fun o => Order_ID o =? orderID)
    (fun o => order_after_sale (Order_Status o) (Order_DeliveryStatus o) status at_ o).

(** The case was open already, or was opened now. *)
Inductive case_opened (req : SystemWineTicketReturnRequest) (a : AfterSale)
    (db db' : Database) : Prop :=
| case_found : a ∈ sales db -> db' = db -> case_opened req a db db'
| case_new at_ :
    sales db' = sales db ++ [a] -> AS_Status a = "return_processing" ->
    (forall x, x ∈ sales db -> AS_SourceType x = "delivery_return" ->
       AS_SourceID x <> AS_SourceID a) ->
    booked_only (on_orders (summary_changed (SysRet_OrderID req) "processing" at_) (fun l => l))
      db db' -> case_opened req a db db'.

Lemma same_id_eq a n : same_id a (Some n) = true -> a = Some n.
Proof. destruct a; simpl; [|done]. intros E%Z.eqb_eq. by subst. Qed.

Lemma system_items_reads l : forall id orderID, steps eq (system_items id orderID l).
Proof. induction l as [|i l IH]; intros id orderID; simpl; [auto with steps|]. go_steps. Qed.
#[export] Hint Resolve system_items_reads : steps.

(** What the after-sale module writes leaves the cases it does not mean alone. *)
#[export] Hint Extern 2 (steps (keep sales) (create_row _)) =>
  apply steps_any_steps, steps_any_create; [exact _|intros; reflexivity] : steps.
#[export] Hint Extern 2 (steps_any (keep sales) (create_row _)) =>
  apply steps_any_create; [exact _|intros; reflexivity] : steps.
#[export] Hint Extern 2 (steps (keep sales) (create_rows _)) =>
  apply steps_any_steps, steps_any_create_rows; [exact _|intros; reflexivity] : steps.
#[export] Hint Extern 2 (steps_any (keep sales) (update_rows _ _)) =>
  apply steps_any_update; [exact _|intros; reflexivity] : steps.

Lemma createAfterSale_ok row items h au o w w' :
  createAfterSale row items h au o w = (Ok tt, w') ->
  quiet (w_db w) (w_db w') /\ sales (w_db w') = sales (w_db w) ++ [row] /\
  (forall x, x ∈ sales (w_db w) -> row_conflict row x = false).
Proof.
  intros H. unfold createAfterSale in H. run_step H. apply create_row_ok in R as (E & _ & Hno).
  match type of H with ?m _ = _ =>
    assert (Hq : steps quiet m) by go_steps; assert (Hs : steps (keep sales) m) by go_steps end.
  pose proof (Hq _ _ _ H) as Q. pose proof (Hs _ _ _ H) as S. unfold keep in S.
  rewrite E in Q, S. split; [|by split; [rewrite S|]].
  etransitivity; [apply (quiet_after_sale (rows (w_db w) ++ [row]))|exact Q].
Qed.

Lemma returnable_order_reads req : steps eq (returnable_order req).
Proof.
  unfold returnable_order, PaymentCountByOrder, ActiveConflicts, AllOrderItems. go_steps.
Qed.

Lemma returnable_order_ok req w o items w' :
  returnable_order req w = (Ok (o, items), w') -> w_db w' = w_db w /\
  o ∈ bk_orders (books (w_db w)) /\ Order_ID o = SysRet_OrderID req.
Proof.
  intros H. apply reads_db in H as E; [|apply returnable_order_reads]. split; [done|].
  unfold returnable_order in H. run_step H. apply or_error_ok, take_row_ok in R as (_ & Ho & Hid).
  repeat run_step H. simplify_eq. rewrite andb_true_iff, Z.eqb_eq in Hid. split; [done|]. tauto.
Qed.

Lemma open_system_return_ok s ctx req o items w r w' :
  open_system_return s ctx req o items w = (Ok r, w') -> shelf_ok (w_db w) ->
  Order_ID o = SysRet_OrderID req ->
  exists a, AS_ID a = SysRet_AfterSaleID r /\ case_of req a /\ case_opened req a (w_db w) (w_db w').
Proof.
  intros H Hok Ho. unfold open_system_return in H. cbv zeta in H.
  run_step H. reads R E1. run_step H. reads R E2. run_step H. reads R E3. run_step H.
  apply reads_db in R as E4; [|unfold history; go_steps]. run_step H.
  apply reads_db in R0 as E5; [|unfold audit; go_steps]. run_step H.
  apply reads_db in R1 as E6; [|unfold outbox; go_steps].
  run_step H. apply createAfterSale_ok in R2 as (Q & Hs & Hno).
  replace (w_db w5) with (w_db w) in * by congruence.
  run_step H. apply ret_ok_inv in H as [-> ->]. unfold UpdateOrderSummary in R2.
  run_step R2. reads R3 E7. run_step R2. apply ret_ok_inv in R2 as [_ ->].
  pose proof (shelf_ok_quiet _ _ Hok Q) as Hok6. rewrite <- E7 in Hok6.
  assert (S : keep sales (w_db w8) (w_db w9)).
  { revert R3. apply (steps_any_update (keep sales)). intros; reflexivity. }
  apply orders_updated in R3; [|done]. rewrite E7 in *. unfold keep in S.
  eexists. split; [|split; [|eapply case_new; [by rewrite S, Hs| | |]]]; simpl; try done.
  - intros x Hx Ht E. specialize (Hno x Hx). simpl in Hno.
    rewrite !orb_false_iff in Hno. destruct Hno as [_ Hno]. rewrite Ht, E in Hno. simpl in Hno.
    by rewrite Z.eqb_refl in Hno.
  - eapply only_eq; [eapply (only_around _ _ _ _ _ Q R3); reflexivity|]. by rewrite Ho.
Qed.

Lemma system_return_ok s ctx req w r w' :
  CreateSystemWineTicketReturnWithTx s ctx req w = (Ok r, w') -> shelf_ok (w_db w) ->
  exists a, AS_ID a = SysRet_AfterSaleID r /\ case_of req a /\ case_opened req a (w_db w) (w_db w').
Proof.
  intros H Hok. unfold CreateSystemWineTicketReturnWithTx in H. do 3 run_step H.
  destruct a as [existing|e].
  - apply take_row_ok in R as (E1 & Hin & Hp). rewrite !andb_true_iff in Hp.
    destruct Hp as [[Hty Hid] _]. apply String.eqb_eq in Hty. apply same_id_eq in Hid.
    unfold replay_system_return in H. run_step H.
    rewrite !orb_false_iff, !negb_false_iff, !Z.eqb_eq in G1.
    run_step H. apply count_rows_ok in R as [E2 _]. run_step H.
    apply ret_ok_inv in H as [-> ->]. exists existing. split; [done|].
    split; [constructor; tauto|]. apply case_found; [done|congruence].
  - apply exec_err in R as [E1 _]. run_step H. run_step H. destruct a as [o items].
    apply returnable_order_ok in R as (E2 & _ & Ho).
    assert (E : w_db w1 = w_db w) by congruence. rewrite <- E in *.
    by apply open_system_return_ok in H.
Qed.

(** ** Approving a return *)

Definition approval_request (row : Return) (actorID : Z) (note : string)
    : SystemWineTicketReturnRequest :=
  {| SysRet_DeliveryReturnID := Ret_ID row; SysRet_OrderID := Ret_OrderID row;
     SysRet_ApprovedBy := actorID; SysRet_ReasonCode := Ret_ReasonCode row;
     SysRet_Description := note |}.

Definition started (r : Redemption) (now : time) (b : Books) : Books :=
  on_redemptions (replaced Red_ID r (redemption_moved RedemptionStatusReturnInProgress now r)) b.

(** What a successful [Approve] found and did. *)
Record return_approved (db db' : Database) (row : Return) (order : OrderRef) (actorID : Z)
    (note : string) (approval : ReturnSettlementApproval) (r : Redemption) : Prop := {
  ra_redemption : r ∈ bk_redemptions (books db);
  ra_linked : Ret_SettlementType row = Some SettlementWineTicketRestore /\
    Ret_SettlementBizID row = Some (Red_ID r) /\ Red_OrderID r = ORef_ID order;
  ra_answer : Approval_SettlementBizID approval = Some (Red_ID r) /\
    Approval_OrderStatus approval = "returning" /\
    Approval_AfterSaleStatus approval = "processing";
  ra_outcome : exists a db1 db2,
    AS_ID a = Approval_AfterSaleID approval /\ case_of (approval_request row actorID note) a /\
    case_opened (approval_request row actorID note) a db db1 /\
    sales db' = sales db1 /\ quiet db2 db' /\
    ((Red_Status r = RedemptionStatusReturnInProgress /\ db2 = db1) \/
     exists now, Red_Status r = RedemptionStatusPickedUp /\ booked_only (started r now) db1 db2);
}.

Lemma validate_link_ok row id : validateWineTicketReturnLink row = Ok id ->
  Ret_SettlementType row = Some SettlementWineTicketRestore /\ Ret_SettlementBizID row = Some id.
Proof.
  unfold validateWineTicketReturnLink. destruct (Ret_SettlementBizID row) as [i|]; [|done].
  destruct (_ || _) eqn:E; [done|]. intros [= ->].
  rewrite orb_false_iff, negb_false_iff in E. destruct E as [E _].
  unfold is_text in E. destruct (Ret_SettlementType row); [|done].
  apply String.eqb_eq in E. by subst.
Qed.

Lemma lock_returned_ok id w r w' : lock_returned id w = (Ok r, w') ->
  w_db w' = w_db w /\ r ∈ bk_redemptions (books (w_db w)) /\ Red_ID r = id.
Proof.
  intros H. apply or_missing_ok, take_row_ok in H as (E & Hr & Hid). by apply Z.eqb_eq in Hid.
Qed.

Lemma returnable_cases s : one_of [RedemptionStatusPickedUp; RedemptionStatusReturnInProgress] s =
  true -> s = RedemptionStatusPickedUp \/ s = RedemptionStatusReturnInProgress.
Proof.
  unfold one_of. simpl. rewrite orb_false_r, orb_true_iff, !String.eqb_eq. intuition.
Qed.

Lemma return_event_quiet ctx actorID e r id status now :
  steps quiet (writeReturnAuditAndOutbox ctx actorID e r id status now).
Proof.
  unfold writeReturnAuditAndOutbox, createAudit. go_steps. apply event_quiet. go_steps.
Qed.

Lemma return_event_sales ctx actorID e r id status now :
  steps (keep sales) (writeReturnAuditAndOutbox ctx actorID e r id status now).
Proof.
  unfold writeReturnAuditAndOutbox, createAudit, wine_ticket_event, createOutbox. go_steps.
Qed.

Lemma case_opened_books req a db db' : case_opened req a db db' -> shelf_ok db ->
  exists f, booked_only (on_orders f (fun l => l)) db db'.
Proof.
  intros [_ ->|at_ _ _ _ H] Hok; [|by eauto]. exists (fun l => l). split; [|done].
  eapply booked_eq; [by apply booked_quiet|]. by destruct (books db).
Qed.

Lemma Approve_ok s ctx row order actorID note w approval w' :
  Approve s ctx row order actorID note w = (Ok approval, w') -> shelf_ok (w_db w) ->
  exists r, return_approved (w_db w) (w_db w') row order actorID note approval r.
Proof.
  intros H Hok. unfold Approve in H. run_step H. apply validate_link_ok in E as [Hty Hbiz].
  run_step H. apply lock_returned_ok in R as (E1 & Hr & Hid). rename a0 into r.
  run_step H. rewrite !orb_false_iff, !negb_false_iff, !Z.eqb_eq in G.
  destruct G as [[Hord _] Hst]. apply returnable_cases in Hst.
  run_step H. apply system_return_ok in R as (c & Hc & Hcase & Hopen); [|by rewrite E1].
  rewrite E1 in Hopen. destruct (case_opened_books _ _ _ _ Hopen Hok) as (f & B1).
  run_step H. reads R E2. run_step H. run_step H. simpl in H.
  apply ret_ok_inv in H as [-> ->]. pose proof (return_event_sales _ _ _ _ _ _ _ _ _ _ R0) as S.
  apply return_event_quiet in R0 as Q.
  assert (Hr2 : r ∈ bk_redemptions (books (w_db w2))).
  { by rewrite E2, (booked_books _ _ _ (proj1 B1)). }
  assert (Hout : sales (w_db w3) = sales (w_db w1) /\
    ((Red_Status r = RedemptionStatusReturnInProgress /\ w_db w3 = w_db w1) \/
     exists now, Red_Status r = RedemptionStatusPickedUp /\
       booked_only (started r now) (w_db w1) (w_db w3))).
  { destruct Hst as [Hs|Hs]; rewrite Hs in R; simpl in R.
    - unfold markReturnInProgress in R. run_step R. apply ret_ok_inv in R as [_ ->]. split.
      + rewrite <- E2. revert R1. apply (steps_any_update (keep sales)). intros; reflexivity.
      + right. eexists. split; [done|]. rewrite <- E2.
        eapply redemption_updated in R1; [exact R1| |done| |].
        * rewrite E2. apply B1.
        * by rewrite Hs, Z.eqb_refl.
        * intros x. rewrite andb_true_iff. lia.
    - apply ret_ok_inv in R as [_ ->]. split; [by rewrite E2|]. by left. }
  destruct Hout as [S3 Hout]. unfold keep in S.
  exists r. constructor; auto. exists c, (w_db w1), (w_db w3).
  do 3 (split; [done|]). split; [by rewrite S|]. by split.
Qed.

(** ** Receiving the bottles *)

(** What [PrepareReceived] locked. *)
Record prepared (db : Database) (p : wineTicketReturnReceivePlan) : Prop := {
  pr_redemption : RP_Redemption p ∈ bk_redemptions (books db);
  pr_allocations : RP_Allocations p = locked_for (books db) (Red_ID (RP_Redemption p));
}.

(** The checks of [validate]. *)
Record settlable (row : Return) (afterSale : ReturnAfterSale) (order : OrderRef) (r : Redemption)
    (allocations : list RedemptionAllocation) : Prop := {
  st_link : Ret_SettlementType row = Some SettlementWineTicketRestore /\
    Ret_SettlementBizID row = Some (Red_ID r) /\ Red_OrderID r = ORef_ID order;
  st_case : after_sale_linked row afterSale = true;
  st_zero_cash : zero_cash order = true;
  st_status : Red_Status r = RedemptionStatusReturnInProgress \/
    Red_Status r = RedemptionStatusRestored;
  st_allocations : allocations <> [] /\
    forall a, a ∈ allocations -> one_of returnable_status (RA_Status a) = true;
}.

Lemma check_allocations_ok rid l : forall previous q total,
  check_allocations rid previous l q = Ok total ->
  forall a, a ∈ l -> one_of returnable_status (RA_Status a) = true.
Proof.
  induction l as [|b l IH]; intros previous q total H a Ha; [by apply not_elem_of_nil in Ha|].
  simpl in H. destruct (_ || _ || _); [done|].
  destruct (negb _) eqn:E in H; [done|]. apply negb_false_iff in E.
  apply elem_of_cons in Ha as [->|Ha]; [exact E|by eapply IH].
Qed.

Lemma validate_facts_ok row afterSale order id :
  validateWineTicketReturnReceiveFacts row afterSale order = Ok id ->
  validateWineTicketReturnLink row = Ok id /\ after_sale_linked row afterSale = true /\
  zero_cash order = true.
Proof.
  unfold validateWineTicketReturnReceiveFacts. destruct (validateWineTicketReturnLink row); [|done].
  destruct (after_sale_linked _ _); [|done]. destruct (zero_cash order); [|done].
  simpl. by intros [= ->].
Qed.

Lemma validate_ok p row afterSale order u : validate p row afterSale order = Ok u ->
  RP_ReturnID p = Ret_ID row /\
  settlable row afterSale order (RP_Redemption p) (RP_Allocations p).
Proof.
  intros H. unfold validate in H. cbv zeta in H.
  destruct (validateWineTicketReturnReceiveFacts row afterSale order) as [id|] eqn:F; [|done].
  apply validate_facts_ok in F as (Hl & Hc & Hz).
  apply validate_link_ok in Hl as [Hty Hbiz].
  destruct (_ || negb (id =? _)) eqn:G in H; [done|].
  rewrite !orb_false_iff, !negb_false_iff, !Z.eqb_eq in G. destruct G as [[[G1 _] _] ->].
  destruct (negb (Red_OrderID _ =? _) || _) eqn:G in H; [done|].
  rewrite orb_false_iff, !negb_false_iff, Z.eqb_eq in G. destruct G as [Ho Hs].
  destruct (bool_decide _) eqn:N in H; [done|]. apply bool_decide_eq_false in N.
  destruct (check_allocations _ _ _ _) as [q|] eqn:K in H; [|done].
  pose proof (check_allocations_ok _ _ _ _ _ K) as Hall.
  split; [done|]. constructor; auto.
  - unfold one_of in Hs. simpl in Hs. rewrite orb_false_r, orb_true_iff, !String.eqb_eq in Hs.
    intuition.
  - split; [|done]. intros E. by rewrite E in N.
Qed.

Lemma PrepareReceived_ok row afterSale order w p w' :
  PrepareReceived row afterSale order w = (Ok p, w') ->
  w_db w' = w_db w /\ prepared (w_db w) p.
Proof.
  intros H. unfold PrepareReceived in H. run_step H.
  run_step H. apply lock_returned_ok in R as (E1 & Hr & _).
  run_step H. apply lockAllocations_ok in R as [E2 ->].
  run_step H. apply reads_db in R as E3; [|unfold lockLots; go_steps].
  run_step H. apply ret_ok_inv in H as [-> ->]. split; [congruence|].
  constructor; simpl; [done|congruence].
Qed.

(** What [ApplyReceived] does to the books. *)
Definition order_closed (orderID : Z) (at_ : time) : list Order -> list Order :=
  where_ (fun o => (Order_ID o =? orderID) &&
                   String.eqb (Order_OrderType o) "wine_ticket_redemption" &&
                   String.eqb (Order_SettlementMode o) "wine_ticket")
    (order_after_sale "cancelled" "returned" "completed" at_).

Definition returned (r : Redemption) (orderID : Z) (now at_ : time) (b : Books) : Books :=
  on_redemptions (if String.eqb (Red_Status r) RedemptionStatusRestored then fun l => l
                  else replaced Red_ID r (redemption_returned now r))
    (on_orders (order_closed orderID at_) (fun l => l)
      (on_allocations (settled_rows RedemptionAllocationStatusRestored now
         (map RA_ID (to_restore (locked_for b (Red_ID r))))) b)).

Definition case_closed (afterSaleID returnID : Z) (now : time) : list AfterSale -> list AfterSale :=
  where_ (fun a => (AS_ID a =? afterSaleID) && String.eqb (AS_SourceType a) "delivery_return" &&
                   same_id (AS_SourceID a) (Some returnID)) (after_sale_closed now).

(** What a successful [ApplyReceived] found and did. *)
Record return_settled (db db' : Database) (row : Return) (afterSale : ReturnAfterSale)
    (order : OrderRef) (r : Redemption) (now : time) : Prop := {
  rs_redemption : r ∈ bk_redemptions (books db);
  rs_settlable : settlable row afterSale order r (locked_for (books db) (Red_ID r));
  rs_books : exists at_, booked (returned r (ORef_ID order) now at_) db db';
  rs_sales : sales db' = case_closed (RAS_ID afterSale) (Ret_ID row) now (sales db);
  rs_back : Forall (came_back (view_db db') (Ret_ID row)) (locked_for (books db) (Red_ID r));
  rs_again : Forall (came_back (view_db db) (Ret_ID row)) (locked_for (books db) (Red_ID r)) ->
    view_db db' = view_db db;
}.

Lemma rows_updated {R} `{Table R} (p : R -> bool) (f : R -> R) n w w' :
  (forall l, rows (set_rows (R:=R) l (w_db w)) = l) ->
  update_rows p f w = (Ok n, w') -> rows (w_db w') = where_ p f (rows (w_db w)).
Proof.
  intros Hset H1. apply exec_ok in H1. cbv zeta in H1. destruct (forallb _ _); [|discriminate].
  simpl in H1. destruct (List.filter p _) as [|r l] eqn:Hf.
  - injection H1 as _ <-. by rewrite where_none.
  - destruct (no_conflict _ _); [|discriminate]. injection H1 as _ <-. by rewrite Hset.
Qed.

Lemma ApplyReceived_ok ctx p row afterSale order w b w' :
  ApplyReceived ctx p row afterSale order w = (Ok b, w') -> shelf_ok (w_db w) ->
  prepared (w_db w) p ->
  b = true /\ exists now, return_settled (w_db w) (w_db w') row afterSale order (RP_Redemption p) now.
Proof.
  intros H Hok [Hr Hal]. unfold ApplyReceived in H. cbv zeta in H.
  run_step H. apply validate_ok in E as [_ Hset].
  run_step H. reads R E1. rename a into now. run_step H.
  destruct (locked_for_keys _ (Red_ID (RP_Redemption p)) Hok) as [Hnd _].
  rewrite Hal in R, Hset. set (r := RP_Redemption p) in *.
  apply return_lots_ok in R as (B1 & Hback & Hagain & S1); rewrite ?E1 in *; [|..|done].
  2: { intros x lot _ Hm. by apply giftLotMap_id in Hm as [? _]. }
  2: done.
  2: { intros x Hx. pose proof Hx as Hin. apply locked_for_spec in Hin as [? ?].
       destruct (st_allocations _ _ _ _ _ Hset) as [_ Hst]. by rewrite (Hst _ Hx). }
  run_step H.
  assert (B2 : booked_only (on_redemptions (if String.eqb (Red_Status r) RedemptionStatusRestored
      then fun l => l else replaced Red_ID r (redemption_returned now r))) (w_db w1) (w_db w2) /\
    sales (w_db w2) = sales (w_db w1)).
  { destruct (String.eqb_spec (Red_Status r) RedemptionStatusRestored) as [Es|Es].
    - apply ret_ok_inv in R as [_ ->]. split; [|done]. split; [|done].
      eapply booked_eq; [apply booked_quiet; [apply B1|done]|]. by destruct (books (w_db w1)).
    - unfold markRedemptionRestored in R. run_step R. apply ret_ok_inv in R as [_ ->]. split.
      + eapply redemption_updated in R0; [exact R0|apply B1| | |].
        * by rewrite (booked_books _ _ _ B1).
        * destruct (st_status _ _ _ _ _ Hset) as [->|]; [|done]. by rewrite Z.eqb_refl.
        * intros x. rewrite andb_true_iff. lia.
      + revert R0. apply (steps_any_update (keep sales)). intros; reflexivity. }
  destruct B2 as [B2 S2]. run_step H. unfold closeAfterSale in R0. run_step R0.
  apply ret_ok_inv in R0 as [_ ->]. pose proof (update_quiet quiet_after_sale _ _ _ _ _ R1) as Q3.
  apply rows_updated in R1 as S3; [|done].
  run_step H. unfold markOrderReturned in R0. run_step R0. reads R2 E4. run_step R0.
  apply ret_ok_inv in R0 as [_ ->].
  pose proof (only_then _ _ _ _ _ B2 (only_quiet _ _ (booked_ok _ _ _ (proj1 B2)) Q3)) as B23.
  rewrite <- E4 in B23.
  apply orders_updated in R2 as B4; [|apply B23]. apply orders_sales in R2 as S4.
  run_step H. apply ret_ok_inv in H as [-> ->].
  pose proof (return_event_sales _ _ _ _ _ _ _ _ _ _ R0) as S5.
  apply return_event_quiet in R0 as Q5. split; [done|]. exists now. unfold keep in S5.
  pose proof (only_then _ _ _ _ _ B23 B4) as B24.
  pose proof (only_then _ _ _ _ _ B24 (only_quiet _ _ (booked_ok _ _ _ (proj1 B4)) Q5)) as [B25 V25].
  constructor; try done.
  - eexists. eapply booked_eq; [exact (booked_then _ _ _ _ _ B1 B25)|]. reflexivity.
  - rewrite S5, S4, E4. change (sales (w_db w4) = case_closed (RAS_ID afterSale) (Ret_ID row) now
      (sales (w_db w))). rewrite <- S1, <- S2. exact S3.
  - by rewrite V25.
  - intros Hf. rewrite V25. by apply Hagain.
Qed.

Lemma SettleReceived_ok ctx row afterSale order w b w' :
  SettleReceived ctx row afterSale order w = (Ok b, w') -> shelf_ok (w_db w) ->
  b = true /\ exists r now, return_settled (w_db w) (w_db w') row afterSale order r now.
Proof.
  intros H Hok. unfold SettleReceived in H. run_step H.
  apply PrepareReceived_ok in R as [E Hp]. rewrite <- E in *.
  apply ApplyReceived_ok in H as (-> & now & Hs); [|done..]. split; [done|]. by eexists _, now.
Qed.
