(* ===== verification/RedemptionState.v ===== *)
(** * The state of a redemption

    What the books hold for a redemption in each of its states
    ([redemption_good]) and for a delivery slot ([places_taken]), and that
    each change of the books a call can make keeps it so. *)

From S2P Require Import Prelude GoInt GoString GoTime Json Problem RequestCtx.
From S2P Require Import CoreModel AssetService GiftModel RedemptionModel AssetLaws AssetLedger.
From S2P Require Import Database FulfilmentTables Steps AssetRepository IntegrityScan Samples.
From S2P Require Import AssetTheorems LedgerEntries Idempotency GiftDto GiftRepository GiftService.
From S2P Require Import GiftSelection GiftInvariant GiftState GiftRuns RedemptionDto.
From S2P Require Import RedemptionRepository ScheduledDispatch RedemptionService.
From S2P Require Import RedemptionSettlement RedemptionBooks RedemptionHold RedemptionRuns.
From S2P Require Import RedemptionCancel AfterSaleReturn ReturnSettlement ReturnRuns.
From Stdlib Require Import String.
#[local] Open Scope string_scope. #[local] Open Scope list_scope. #[local] Open Scope Z_scope.
#[local] Open Scope go_scope.

(** The states of a redemption: its row and its allocations. *)
Inductive redemption_state (v : AssetView) (r : Redemption) (l : list RedemptionAllocation)
    : Prop :=
| state_open :
    Red_Status r = RedemptionStatusScheduled \/ Red_Status r = RedemptionStatusAssigned ->
    Red_PickedUpAt r = None -> Red_CompletedAt r = None -> Red_CancelledAt r = None ->
    all_in RedemptionAllocationStatusHeld l -> redemption_state v r l
| state_picked_up at_ :
    Red_Status r = RedemptionStatusPickedUp -> Red_PickedUpAt r = Some at_ ->
    Red_CompletedAt r = None -> Red_CancelledAt r = None ->
    all_in RedemptionAllocationStatusHeld l -> redemption_state v r l
| state_delivered at_ done_ :
    Red_Status r = RedemptionStatusDelivered -> Red_PickedUpAt r = Some at_ ->
    Red_CompletedAt r = Some done_ -> Red_CancelledAt r = None ->
    all_in RedemptionAllocationStatusConsumed l -> redemption_state v r l
| state_returning at_ :
    Red_Status r = RedemptionStatusReturnInProgress -> Red_PickedUpAt r = Some at_ ->
    Red_CompletedAt r = None -> Red_CancelledAt r = None ->
    all_in RedemptionAllocationStatusHeld l -> redemption_state v r l
| state_returned at_ back returnID :
    Red_Status r = RedemptionStatusRestored -> Red_PickedUpAt r = Some at_ ->
    Red_CompletedAt r = None -> Red_CancelledAt r = None -> Red_RestoredAt r = Some back ->
    all_in RedemptionAllocationStatusRestored l -> Forall (came_back v returnID) l ->
    redemption_state v r l
| state_withdrawn at_ :
    Red_Status r = RedemptionStatusCancelled -> Red_PickedUpAt r = None ->
    Red_CompletedAt r = None -> Red_CancelledAt r = Some at_ -> Red_RestoredAt r = Some at_ ->
    all_in RedemptionAllocationStatusRestored l -> Forall (put_back v) l ->
    redemption_state v r l.

Record redemption_good (db : Database) (r : Redemption) : Prop := {
  good_taken : Forall (taken (view_db db)) (allocations_for (books db) (Red_ID r));
  good_bottles : bottles (allocations_for (books db) (Red_ID r)) = Red_Quantity r;
  good_status : redemption_state (view_db db) r (allocations_for (books db) (Red_ID r));
}.

(** A redemption keeps its place in the slot unless it is cancelled. *)
Definition occupies (slotID : Z) (r : Redemption) : bool :=
  (Red_DeliveryTimeSlotID r =? slotID) && negb (String.eqb (Red_Status r) RedemptionStatusCancelled).

Definition places_taken (b : Books) (slotID : Z) : Z :=
  Z.of_nat (List.length (List.filter (occupies slotID) (bk_redemptions b))).

(** The invariant of the books. *)
Record redemptions_good (db : Database) : Prop := {
  good_shelf : shelf_ok db;
  good_places : Forall (fun s => Slot_ReservedOrders s = places_taken (books db) (Slot_ID s))
                  (bk_slots (books db));
  good_redemptions : Forall (redemption_good db) (bk_redemptions (books db));
  good_owners : forall a, a ∈ bk_allocations (books db) ->
    exists r, r ∈ bk_redemptions (books db) /\ Red_ID r = RA_RedemptionID a;
}.

(** ** What an extension of the ledger keeps *)

Lemma taken_extends v v' a : extends v v' -> taken v a -> taken v' a.
Proof. apply redemption_entry_extends. Qed.

Lemma put_back_extends v v' a : extends v v' -> put_back v a -> put_back v' a.
Proof. apply redemption_entry_extends. Qed.

Lemma redemption_state_extends v v' r l :
  extends v v' -> redemption_state v r l -> redemption_state v' r l.
Proof.
  intros He []; [by apply state_open|by eapply state_picked_up|by eapply state_delivered
    |by eapply state_returning| |].
  - eapply state_returned; eauto. eapply Forall_impl; [eassumption|]. intros a.
    by apply came_back_extends.
  - eapply state_withdrawn; eauto. eapply Forall_impl; [eassumption|]. intros a.
    by apply put_back_extends.
Qed.

Lemma redemption_good_extends db db' r :
  extends (view_db db) (view_db db') ->
  allocations_for (books db') (Red_ID r) = allocations_for (books db) (Red_ID r) ->
  redemption_good db r -> redemption_good db' r.
Proof.
  intros He Ha [H1 H2 H3]. split; rewrite Ha; [|done|by eapply redemption_state_extends].
  eapply Forall_impl; [exact H1|]. intros a. by apply taken_extends.
Qed.

Lemma redemptions_good_quiet db db' : redemptions_good db -> quiet db db' -> redemptions_good db'.
Proof.
  intros [H1 H2 H3 H4] Hq. pose proof (quiet_books _ _ Hq) as Eb. split.
  - by eapply shelf_ok_quiet.
  - by rewrite Eb.
  - rewrite Eb. eapply Forall_impl; [exact H3|]. intros r Hr.
    apply (redemption_good_extends db); [|by rewrite Eb|done].
    rewrite (quiet_view _ _ Hq). apply extends_refl.
  - by rewrite Eb.
Qed.

(** ** Counting the places *)

Lemma count_replaced {R} (key : R -> Z) (p : R -> bool) (x y : R) l :
  NoDup (map key l) -> x ∈ l ->
  Z.of_nat (List.length (List.filter p (replaced key x y l))) =
  Z.of_nat (List.length (List.filter p l)) - Z.b2z (p x) + Z.b2z (p y).
Proof.
  induction l as [|z l IH]; simpl; intros Hnd Hx; [by apply not_elem_of_nil in Hx|].
  apply NoDup_cons in Hnd as [Hz Hnd]. apply elem_of_cons in Hx as [->|Hx].
  - rewrite Z.eqb_refl. assert (Hrest : replaced key z y l = l).
    { unfold replaced. rewrite <- (map_id l) at 2. apply map_ext_in. intros r Hr.
      destruct (Z.eqb_spec (key r) (key z)) as [E|]; [|done]. exfalso. apply Hz.
      rewrite <- E. apply list_elem_of_In, in_map, Hr. }
    fold (replaced key z y l). rewrite Hrest. destruct (p z), (p y); simpl; lia.
  - fold (replaced key x y l). assert (key z <> key x) as Hne.
    { intros E. apply Hz. rewrite E. by apply list_elem_of_In, in_map, list_elem_of_In. }
    rewrite (proj2 (Z.eqb_neq _ _) Hne). specialize (IH Hnd Hx).
    destruct (p z); simpl; lia.
Qed.

(** Putting one slot right, and leaving the others. *)
Lemma places_replaced (b b' : Books) slot slot' n :
  Forall (fun s => Slot_ReservedOrders s = places_taken b (Slot_ID s)) (bk_slots b) ->
  slot ∈ bk_slots b -> bk_slots b' = replaced Slot_ID slot slot' (bk_slots b) ->
  Slot_ID slot' = Slot_ID slot -> Slot_ReservedOrders slot' = Slot_ReservedOrders slot + n ->
  (forall id, places_taken b' id =
     places_taken b id + (if id =? Slot_ID slot then n else 0)) ->
  Forall (fun s => Slot_ReservedOrders s = places_taken b' (Slot_ID s)) (bk_slots b').
Proof.
  intros Hp Hs Eb Eid En Hc. rewrite Forall_forall in Hp. apply Forall_forall.
  intros s Hin. rewrite Eb in Hin. rewrite Hc. apply replaced_elem in Hin as [->|[Hin Hne]].
  - rewrite Eid, Z.eqb_refl, En, (Hp _ Hs). done.
  - rewrite (proj2 (Z.eqb_neq _ _) Hne), (Hp _ Hin). lia.
Qed.

(** ** The allocations of one redemption *)

Lemma allocations_for_own db r : shelf_ok db ->
  forall a, a ∈ allocations_for (books db) r <-> a ∈ bk_allocations (books db) /\ RA_RedemptionID a = r.
Proof.
  intros _ a. unfold allocations_for.
  by rewrite list_elem_of_In, filter_In, <- list_elem_of_In, Z.eqb_eq.
Qed.

Lemma settled_for db rid status now i :
  shelf_ok db ->
  List.filter (fun a => RA_RedemptionID a =? i)
    (settled_rows status now (map RA_ID (locked_for (books db) rid)) (bk_allocations (books db))) =
  if i =? rid then map (redemption_allocation_with status now) (allocations_for (books db) rid)
  else allocations_for (books db) i.
Proof.
  intros Hok. pose proof (list_keys RA_ID allocation_key _ (shelf_allocations _ Hok)) as Hnd.
  assert (Hrow : forall a, a ∈ bk_allocations (books db) ->
    (RA_ID a ∈ map RA_ID (locked_for (books db) rid) <-> RA_RedemptionID a = rid)).
  { intros a Ha. split.
    - intros Hin. apply list_elem_of_In, in_map_iff in Hin as (x & E & Hx).
      apply list_elem_of_In, locked_for_spec in Hx as [Hx <-].
      by rewrite (NoDup_map_inj RA_ID _ _ _ Hnd Hx Ha E).
    - intros E. apply list_elem_of_In, in_map, list_elem_of_In, locked_for_spec. auto. }
  unfold allocations_for, settled_rows. clear Hnd Hok. revert Hrow.
  generalize (map RA_ID (locked_for (books db) rid)) as ids.
  generalize (bk_allocations (books db)) as l. intros l ids.
  induction l as [|a l IH]; intros Hrow; simpl; [by destruct (i =? rid)|].
  rewrite IH by (intros x Hx; apply Hrow; by right). clear IH.
  specialize (Hrow a ltac:(by left)). destruct (Z.eqb_spec i rid) as [->|Hne].
  - case_bool_decide as Hin; simpl.
    + apply Hrow in Hin. by rewrite Hin, Z.eqb_refl.
    + destruct (Z.eqb_spec (RA_RedemptionID a) rid) as [E|]; [|done]. by apply Hrow in E.
  - case_bool_decide as Hin; simpl; [|done]. apply Hrow in Hin. rewrite Hin.
    by rewrite (proj2 (Z.eqb_neq rid i)) by congruence.
Qed.

Lemma settled_bottles status now l :
  bottles (map (redemption_allocation_with status now) l) = bottles l.
Proof. unfold bottles. by rewrite map_map. Qed.

Lemma settled_all_in status now l :
  all_in status (map (redemption_allocation_with status now) l).
Proof. unfold all_in. apply Forall_forall. intros a Ha.
  apply list_elem_of_In, in_map_iff in Ha as (x & <- & _). done.
Qed.

Lemma Forall_settled (P : RedemptionAllocation -> Prop) status now l :
  (forall a, P a -> P (redemption_allocation_with status now a)) ->
  Forall P l -> Forall P (map (redemption_allocation_with status now) l).
Proof. intros HP. induction 1; constructor; auto. Qed.

Lemma settled_owners status now ids l (Q : Z -> Prop) :
  (forall a, a ∈ l -> Q (RA_RedemptionID a)) ->
  forall a, a ∈ settled_rows status now ids l -> Q (RA_RedemptionID a).
Proof.
  intros H a Ha. apply list_elem_of_In, in_map_iff in Ha as (x & <- & Hx).
  apply list_elem_of_In in Hx. case_bool_decide; simpl; auto.
Qed.

Lemma good_row db r : redemptions_good db -> r ∈ bk_redemptions (books db) -> redemption_good db r.
Proof. intros [_ _ H _] Hr. rewrite Forall_forall in H. auto. Qed.

(** A change of one redemption and of its allocations. *)
Lemma good_change F db db' r r1 now status :
  redemptions_good db -> booked F db db' -> r ∈ bk_redemptions (books db) -> Red_ID r1 = Red_ID r ->
  bk_redemptions (books db') = replaced Red_ID r r1 (bk_redemptions (books db)) ->
  bk_allocations (books db') = (match status with
    | Some s => settled_rows s now (map RA_ID (locked_for (books db) (Red_ID r)))
                  (bk_allocations (books db))
    | None => bk_allocations (books db) end) ->
  Forall (fun s => Slot_ReservedOrders s = places_taken (books db') (Slot_ID s))
    (bk_slots (books db')) ->
  Red_Quantity r1 = Red_Quantity r ->
  redemption_state (view_db db') r1 (match status with
    | Some s => map (redemption_allocation_with s now) (allocations_for (books db) (Red_ID r))
    | None => allocations_for (books db) (Red_ID r) end) ->
  redemptions_good db'.
Proof.
  intros Hgood [Hok He Hg Hb] Hr Eid Er Ea Hp Hq Hst.
  assert (Hfor : forall i, allocations_for (books db') i =
    if i =? Red_ID r then (match status with
      | Some s => map (redemption_allocation_with s now) (allocations_for (books db) (Red_ID r))
      | None => allocations_for (books db) (Red_ID r) end) else allocations_for (books db) i).
  { intros i. unfold allocations_for at 1. rewrite Ea. destruct status as [s|].
    - apply settled_for, good_shelf, Hgood.
    - destruct (Z.eqb_spec i (Red_ID r)) as [->|]; done. }
  split; [done|done| |].
  - apply Forall_forall. intros x Hx. rewrite Er in Hx. apply replaced_elem in Hx as [->|[Hx Hne]].
    + pose proof (good_row _ _ Hgood Hr) as [G1 G2 _].
      assert (G1' : Forall (taken (view_db db')) (allocations_for (books db) (Red_ID r))).
      { eapply Forall_impl; [exact G1|]. intros a. by apply taken_extends. }
      split; rewrite Hfor, Eid, Z.eqb_refl; [| |done].
      * destruct status; [|done]. by apply Forall_settled.
      * rewrite Hq, <- G2. destruct status; [apply settled_bottles|done].
    + apply (redemption_good_extends db); [done| |by apply good_row].
      by rewrite Hfor, (proj2 (Z.eqb_neq _ _) Hne).
  - assert (Howner : forall a, a ∈ bk_allocations (books db) ->
      exists x, x ∈ bk_redemptions (books db') /\ Red_ID x = RA_RedemptionID a).
    { intros a Ha. destruct (good_owners _ Hgood a Ha) as (x & Hx & E). rewrite Er.
      destruct (Z.eq_dec (Red_ID x) (Red_ID r)) as [Ex|Ex].
      - exists r1. split; [by apply replaced_in|congruence].
      - exists x. split; [by apply replaced_other|done]. }
    intros a. rewrite Ea. destruct status as [s|]; [|auto].
    apply (settled_owners s now _ _ (fun i => exists x, x ∈ bk_redemptions (books db') /\ Red_ID x = i)).
    auto.
Qed.

(** ** Creating, cancelling and settling keep the redemptions good *)

Lemma held_bottles rid now v sel news : Forall2 (held_from rid now v) sel news ->
  bottles news = selected_total sel.
Proof.
  unfold bottles, sum_Z, selected_total. induction 1 as [|i a l l' [[id ->] _] _ IH]; simpl; lia.
Qed.

Lemma held_rows rid now v sel news : Forall2 (held_from rid now v) sel news ->
  Forall (fun a => RA_RedemptionID a = rid /\ RA_Status a = RedemptionAllocationStatusHeld /\
                   taken v a) news.
Proof. induction 1 as [|i a l l' [[id ->] Ht] _ IH]; constructor; auto. Qed.

Lemma plan_bottles db c key n p :
  shelf_ok db -> planned db c key n p -> 0 < plan_quantity p <= stock (Plan_Lots p) ->
  selected_total (fefo_reference (plan_quantity p) 0 (Plan_Lots p)) = plan_quantity p.
Proof.
  intros Hok Hp Hq. rewrite reference_total; [lia|]. rewrite (planned_lots _ _ _ _ _ Hp).
  by apply plan_stocked.
Qed.

Lemma created_good db db' c key n d p rid oid news :
  redemptions_good db -> created db db' c key n d p rid oid news -> redemptions_good db'.
Proof.
  intros Hgood [_ Hp [(itemID & recordID & [Hok He Hg Hb]) Hfresh [_ Hroom] Hq [Hheld Hst]] _].
  pose proof (good_shelf _ Hgood) as Hok0. destruct (planned_slot _ _ _ _ _ Hp) as (Hslot & _).
  pose proof (plan_bottles _ _ _ _ _ Hok0 Hp ltac:(lia)) as Htot.
  pose proof (held_bottles _ _ _ _ _ Hheld) as Hbot. apply held_rows in Hheld.
  rewrite Forall_forall in Hheld.
  assert (Hfor : forall i, allocations_for (books db') i =
                 allocations_for (books db) i ++ if i =? rid then news else []).
  { intros i. unfold allocations_for. rewrite Hb. simpl. rewrite List.filter_app. f_equal.
    destruct (Z.eqb_spec i rid) as [->|Hne].
    - apply filter_all, Forall_forall. intros a Ha. apply Z.eqb_eq, (Hheld _ Ha).
    - apply filter_none_in. intros a Ha. destruct (Hheld _ Ha) as [-> _]. apply Z.eqb_neq. congruence. }
  assert (Hnone : allocations_for (books db) rid = []).
  { unfold allocations_for. apply filter_none_in. intros a Ha. apply Z.eqb_neq. intros E.
    destruct (good_owners _ Hgood a Ha) as (x & Hx & Ex). apply (Hfresh x Hx). congruence. }
  split; [done| | |].
  - eapply (places_replaced (books db) _ (Plan_Slot p) (slot_reserved (Plan_Now p) (Plan_Slot p)) 1);
      [apply Hgood|done|by rewrite Hb|done|done|].
    intros id. rewrite Hb. unfold places_taken. simpl. rewrite List.filter_app, length_app. simpl.
    unfold occupies at 2. simpl. rewrite andb_true_r, Z.eqb_sym. destruct (id =? _); simpl; lia.
  - rewrite Hb. simpl. apply Forall_app. split.
    + apply Forall_forall. intros r Hr. apply (redemption_good_extends db); [done| |by apply good_row].
      rewrite Hfor, (proj2 (Z.eqb_neq _ _)) by (by apply Hfresh). apply app_nil_r.
    + constructor; [|constructor].
      split; simpl; rewrite Hfor, Hnone, Z.eqb_refl; simpl.
      * apply Forall_forall. intros a Ha. apply (Hheld a Ha).
      * by rewrite Hbot.
      * apply state_open; auto. apply Forall_forall. intros a Ha. apply (Hheld a Ha).
  - intros a. rewrite Hb. simpl. rewrite elem_of_app. intros [Ha|Ha].
    + destruct (good_owners _ Hgood a Ha) as (x & Hx & E). exists x. rewrite elem_of_app. auto.
    + exists (new_redemption p rid oid). rewrite elem_of_app, list_elem_of_singleton.
      split; [by right|]. by destruct (Hheld _ Ha) as [-> _].
Qed.

Lemma open_dates v r l : redemption_state v r l ->
  Red_Status r = RedemptionStatusScheduled \/ Red_Status r = RedemptionStatusAssigned ->
  Red_PickedUpAt r = None /\ Red_CompletedAt r = None /\ Red_CancelledAt r = None /\
  all_in RedemptionAllocationStatusHeld l.
Proof.
  intros [|at_ E|at_ dn E|at_ E|at_ bk ret E|at_ E] Hs; [auto|..]; rewrite E in Hs; by destruct Hs.
Qed.

Lemma closed_good db db' p :
  redemptions_good db -> redemption_closed db db' p -> redemptions_good db'.
Proof.
  intros Hgood [[[Hr _] _ [Hst [Hpu Hco]] [Hal _] [Hs Hsid] _] (recordID & Hb) Hpos Hback].
  pose proof (good_shelf _ Hgood) as Hok. pose proof (booked_books _ _ _ Hb) as Eb.
  eapply (good_change _ db db' (CP_Redemption p) (red_cancelled (CP_Now p) (CP_Redemption p))
            (CP_Now p) (Some RedemptionAllocationStatusRestored)); auto.
  - exact Hb.
  - by rewrite Eb.
  - by rewrite Eb, <- Hal.
  - eapply (places_replaced (books db) _ (CP_Slot p) (slot_released (CP_Now p) (CP_Slot p)) (-1));
      [apply Hgood|done|by rewrite Eb|done|done|].
    intros id. rewrite Eb. unfold places_taken. simpl.
    rewrite (count_replaced Red_ID) by (by apply redemption_ids || done).
    unfold occupies at 2 3. simpl. rewrite andb_false_r, Hsid, (Z.eqb_sym id).
    destruct Hst as [-> | ->]; destruct (_ =? id); simpl; lia.
  - apply (state_withdrawn _ _ _ (CP_Now p)); auto; [apply settled_all_in|].
    apply Forall_settled; [done|]. rewrite Hal in Hback. apply Forall_forall. intros a Ha.
    rewrite Forall_forall in Hback. apply Hback, locked_for_spec. by apply allocations_for_own in Ha.
Qed.

Lemma same_place_kept (b b' : Books) r r1 :
  NoDup (map Red_ID (bk_redemptions b)) -> r ∈ bk_redemptions b ->
  bk_redemptions b' = replaced Red_ID r r1 (bk_redemptions b) ->
  (forall id, occupies id r1 = occupies id r) -> forall id, places_taken b' id = places_taken b id.
Proof.
  intros Hnd Hr E Ho id. unfold places_taken. rewrite E, (count_replaced Red_ID) by done.
  rewrite Ho. lia.
Qed.

Lemma advanced_good db db' r target now :
  redemptions_good db -> r ∈ bk_redemptions (books db) -> settles (Red_Status r) target ->
  booked (advanced r target now) db db' -> redemptions_good db'.
Proof.
  intros Hgood Hr Hs Hb. pose proof (good_shelf _ Hgood) as Hok.
  pose proof (booked_books _ _ _ Hb) as Eb. pose proof (booked_extends _ _ _ Hb) as He.
  pose proof (good_status _ _ (good_row _ _ Hgood Hr)) as Hst.
  apply (redemption_state_extends _ _ _ _ He) in Hst.
  set (status := if String.eqb target RedemptionStatusDelivered
                 then Some RedemptionAllocationStatusConsumed else None).
  assert (Er : bk_redemptions (books db') =
               replaced Red_ID r (redemption_moved target now r) (bk_redemptions (books db))).
  { rewrite Eb. unfold advanced. by destruct (String.eqb _ _). }
  eapply (good_change _ db db' r (redemption_moved target now r) now status); auto.
  - exact Hb.
  - rewrite Eb. unfold advanced, status. by destruct (String.eqb _ _).
  - assert (Es : bk_slots (books db') = bk_slots (books db)).
    { rewrite Eb. unfold advanced. by destruct (String.eqb _ _). }
    rewrite Es. eapply Forall_impl; [exact (good_places _ Hgood)|]. simpl. intros s ->. symmetry.
    apply (same_place_kept _ _ r (redemption_moved target now r)); auto;
      [by apply redemption_ids|].
    intros id. unfold occupies. simpl. f_equal. inversion Hs; subst; done.
  - unfold status.
    inversion Hs as [E|E|E|E]; subst; simpl;
      destruct Hst as [Hs0 H1 H2 H3 Hall|at_ Hs0 H1 H2 H3 Hall|at_ dn Hs0 H1 H2 H3 Hall
                 |at_ Hs0 H1 H2 H3 Hall|at_ bk ret Hs0|at_ Hs0];
      rewrite <- E in Hs0; try (by destruct Hs0); try done.
    + apply state_open; auto.
    + by apply (state_picked_up _ _ _ now).
    + by apply (state_picked_up _ _ _ now).
    + by apply (state_delivered _ _ _ at_ now); auto; apply settled_all_in.
Qed.

(** ** Returning keeps the redemptions good *)

Lemma booked_shelf_good F db db' :
  redemptions_good db -> booked F db db' ->
  bk_redemptions (books db') = bk_redemptions (books db) ->
  bk_allocations (books db') = bk_allocations (books db) ->
  bk_slots (books db') = bk_slots (books db) -> redemptions_good db'.
Proof.
  intros Hgood [Hok He _ _] Er Ea Es. split; [done| | |].
  - rewrite Es. unfold places_taken. rewrite Er. apply Hgood.
  - rewrite Er. apply Forall_forall. intros r Hr.
    apply (redemption_good_extends db); [done| |by apply good_row]. unfold allocations_for.
    by rewrite Ea.
  - rewrite Er, Ea. apply Hgood.
Qed.

Lemma case_opened_good req a db db' :
  redemptions_good db -> case_opened req a db db' -> redemptions_good db'.
Proof.
  intros Hgood [_ ->|at_ _ _ _ [Hb _]]; [done|].
  eapply booked_shelf_good; [exact Hgood|exact Hb|..]; by rewrite (booked_books _ _ _ Hb).
Qed.

Lemma started_good db db' r now :
  redemptions_good db -> r ∈ bk_redemptions (books db) -> Red_Status r = RedemptionStatusPickedUp ->
  booked (started r now) db db' -> redemptions_good db'.
Proof.
  intros Hgood Hr Hs Hb. pose proof (booked_books _ _ _ Hb) as Eb.
  pose proof (good_status _ _ (good_row _ _ Hgood Hr)) as Hst.
  apply (redemption_state_extends _ _ _ _ (booked_extends _ _ _ Hb)) in Hst.
  eapply (good_change _ db db' r (redemption_moved RedemptionStatusReturnInProgress now r) now None);
    auto; try (by rewrite Eb); [exact Hb| |].
  - rewrite Eb. simpl. eapply Forall_impl; [exact (good_places _ Hgood)|]. simpl. intros s ->.
    symmetry. apply (same_place_kept _ _ r (redemption_moved RedemptionStatusReturnInProgress now r));
      auto; [by apply redemption_ids, good_shelf|].
    intros id. unfold occupies. simpl. by rewrite Hs.
  - destruct Hst as [[E|E]|? E|? ? E|? E|? ? ? E|? E]; rewrite Hs in E; try done.
    by eapply state_returning.
Qed.

Lemma approved_good db db' row order actorID note approval r :
  redemptions_good db -> return_approved db db' row order actorID note approval r ->
  redemptions_good db'.
Proof.
  intros Hgood [Hr _ _ (a & db1 & db2 & _ & _ & Hopen & _ & Hq & Hout)].
  pose proof (case_opened_good _ _ _ _ Hgood Hopen) as Hgood1.
  destruct (case_opened_books _ _ _ _ Hopen (good_shelf _ Hgood)) as (f & [B1 _]).
  eapply redemptions_good_quiet; [|exact Hq].
  destruct Hout as [[_ ->]|(now & Hs & [Hb _])]; [done|].
  eapply started_good; [exact Hgood1| |exact Hs|exact Hb]. by rewrite (booked_books _ _ _ B1).
Qed.

Lemma replaced_same {R} (key : R -> Z) (x : R) l :
  NoDup (map key l) -> x ∈ l -> replaced key x x l = l.
Proof.
  intros Hnd Hx. unfold replaced. rewrite <- (map_id l) at 2. apply map_ext_in. intros r Hr.
  destruct (Z.eqb_spec (key r) (key x)) as [E|]; [|done].
  symmetry. apply (NoDup_map_inj key _ _ _ Hnd); [by apply list_elem_of_In|done|done].
Qed.

(** The allocations as [lockAllocations] orders them. *)
Lemma locked_all (P : RedemptionAllocation -> Prop) b id :
  Forall P (locked_for b id) <-> Forall P (allocations_for b id).
Proof. unfold locked_for. by rewrite sort_by_perm. Qed.

Lemma settled_good db db' row afterSale order r now :
  redemptions_good db -> return_settled db db' row afterSale order r now -> redemptions_good db'.
Proof.
  intros Hgood [Hr Hset (at_ & Hb) _ Hback _]. pose proof (booked_books _ _ _ Hb) as Eb.
  pose proof (good_status _ _ (good_row _ _ Hgood Hr)) as Hst.
  destruct Hst as [[E|E] ? ? ? Hall|? E ? ? ? Hall|? ? E ? ? ? Hall|at0 E Hpu Hco Hca Hall
                  |at0 bk ret E ? ? ? ? Hall ?|? E ? ? ? ? Hall];
    try (by destruct (st_status _ _ _ _ _ Hset) as [Es|Es]; rewrite E in Es).
  - eapply (good_change _ db db' r (redemption_returned now r) now
              (Some RedemptionAllocationStatusRestored)); auto; [exact Hb|..].
    + rewrite Eb. simpl. by rewrite E.
    + rewrite Eb. unfold returned. simpl. f_equal. f_equal.
      by apply (to_restore_all RedemptionAllocationStatusHeld), locked_all.
    + rewrite Eb. simpl. eapply Forall_impl; [exact (good_places _ Hgood)|]. simpl. intros s ->.
      symmetry. apply (same_place_kept _ _ r (redemption_returned now r)); auto;
        [by apply redemption_ids, good_shelf| |].
      * simpl. by rewrite E.
      * intros id. unfold occupies. simpl. by rewrite E.
    + apply (state_returned _ _ _ at0 now (Ret_ID row)); auto; [apply settled_all_in|].
      apply Forall_settled; [done|]. by apply locked_all.
  - eapply booked_shelf_good; [exact Hgood|exact Hb|..]; rewrite Eb; unfold returned; simpl.
    + by rewrite E.
    + rewrite to_restore_none by by apply locked_all. apply settled_rows_nil.
    + done.
Qed.
