(* ===== verification/RedemptionTheorems.v ===== *)
(** * The redemption service: its theorems

    Over every history of redemption calls, fulfilment facts and returns, from
    any callers, the books stay consistent; each operation does what its name
    says; and creating and cancelling leave slot and stock as they were. *)

From S2P Require Import Prelude GoInt GoString GoTime GoDate Json Problem RequestCtx Pagination.
From S2P Require Import CoreModel AssetService GiftModel RedemptionModel RedemptionSlot AssetLaws.
From S2P Require Import AssetLedger Database FulfilmentTables Steps AssetRepository IntegrityScan.
From S2P Require Import Samples AssetTheorems LedgerEntries Idempotency GiftDto GiftRepository.
From S2P Require Import GiftService GiftSelection GiftInvariant GiftRuns GiftCalls GiftTheorems.
From S2P Require Import RedemptionDto RedemptionRepository ScheduledDispatch RedemptionService.
From S2P Require Import RedemptionSettlement RedemptionSamples RedemptionBooks RedemptionHold.
From S2P Require Import RedemptionRuns RedemptionCancel AfterSaleReturn ReturnSettlement.
From S2P Require Import ReturnRuns RedemptionState.
From Stdlib Require Import String.
#[local] Open Scope string_scope. #[local] Open Scope list_scope. #[local] Open Scope Z_scope.
#[local] Open Scope go_scope.

(** ** Histories *)

(** The settlement of a fact or of a return runs in the transaction of the
    module that reports it. *)
Inductive RedemptionCall :=
| RedeemCall (ctx : Context) (claims : option Claims) (method path key : string)
    (req : RedemptionCreateRequest)
| WithdrawCall (ctx : Context) (claims : option Claims) (method path key redemptionNo : string)
    (req : RedemptionCancelRequest)
| FulfilCall (ctx : Context) (fact : FulfillmentSettlementFact)
| AssignCall (ctx : Context) (fact : AssignmentSettlementFact)
| ApproveReturnCall (s : AfterSaleService) (ctx : Context) (row : Return) (order : OrderRef)
    (actorID : Z) (note : string)
| ReceiveReturnCall (ctx : Context) (row : Return) (afterSale : ReturnAfterSale)
    (order : OrderRef).

Definition redemption_call (dispatch : option RedemptionDispatchCoordinator) (c : RedemptionCall)
    : G unit :=
  match c with
  | RedeemCall ctx claims method path key req =>
      Create dispatch ctx claims method path key req ;;; ret tt
  | WithdrawCall ctx claims method path key no req =>
      Cancel dispatch ctx claims method path key no req ;;; ret tt
  | FulfilCall ctx fact => transaction (ApplyFulfillment ctx fact)
  | AssignCall ctx fact => transaction (ApplyAssignment ctx fact)
  | ApproveReturnCall s ctx row order actorID note =>
      transaction (Approve s ctx row order actorID note ;;; ret tt)
  | ReceiveReturnCall ctx row afterSale order =>
      transaction (SettleReceived ctx row afterSale order ;;; ret tt)
  end.

(** A quantity has the type [uint16]. *)
Definition redemption_call_ok (c : RedemptionCall) : Prop :=
  match c with
  | RedeemCall _ _ _ _ _ req => 0 <= RReq_Quantity req
  | _ => True
  end.

(** What the rest of the program may do between the calls: anything to stock,
    orders and deliveries, grow a ledger that stays in agreement, and open and
    edit slots without touching the number of places taken. *)
Record elsewhere (db db' : Database) : Prop := {
  else_shelf : shelf_ok db';
  else_ledger : extends (view_db db) (view_db db');
  else_redemptions : bk_redemptions (books db') = bk_redemptions (books db);
  else_allocations : bk_allocations (books db') = bk_allocations (books db);
  else_slots : forall s', s' ∈ bk_slots (books db') ->
    (exists s, s ∈ bk_slots (books db) /\ Slot_ID s = Slot_ID s' /\
               Slot_ReservedOrders s = Slot_ReservedOrders s') \/
    Slot_ReservedOrders s' = 0 /\
    (forall r, r ∈ bk_redemptions (books db) -> Red_DeliveryTimeSlotID r <> Slot_ID s');
}.

Section History.
Context (dispatch : option RedemptionDispatchCoordinator).

Inductive redemption_reachable : World -> Prop :=
| redemption_start w :
    shelf_ok (w_db w) -> bk_redemptions (books (w_db w)) = [] ->
    bk_allocations (books (w_db w)) = [] ->
    Forall (fun s => Slot_ReservedOrders s = 0) (bk_slots (books (w_db w))) ->
    redemption_reachable w
| redemption_env w w' :
    redemption_reachable w -> elsewhere (w_db w) (w_db w') -> redemption_reachable w'
| redemption_step w c r w' :
    redemption_reachable w -> redemption_call_ok c -> redemption_call dispatch c w = (r, w') ->
    redemption_reachable w'.

Context (Hdispatch : forall d, dispatch = Some d -> Confined d).

Lemma transaction_good (m : G unit) w r w' :
  transaction m w = (r, w') -> redemptions_good (w_db w) ->
  (forall w1 w2, w_db w1 = w_db w -> m w1 = (Ok tt, w2) -> redemptions_good (w_db w2)) ->
  redemptions_good (w_db w').
Proof.
  intros H Hgood Hm. destruct r as [[]|e]; [|apply transaction_err in H; by rewrite H].
  apply transaction_ok in H as (w1 & w2 & E1 & H & E2). rewrite E2. by eapply Hm.
Qed.

Lemma settle_good ctx fact w r w' :
  transaction (apply ctx fact) w = (r, w') -> redemptions_good (w_db w) ->
  redemptions_good (w_db w').
Proof.
  intros H Hgood. apply (transaction_good _ _ _ _ H Hgood). intros w1 w2 E1 H1.
  rewrite <- E1 in Hgood.
  apply apply_ok in H1 as (x & [_ [Hx _] _ [[_ ->]|(now & Hs & _ & Hb & _)]]); [done| |by apply good_shelf].
  by eapply advanced_good.
Qed.

Lemma redemption_call_good c w r w' :
  redemption_call dispatch c w = (r, w') -> redemption_call_ok c -> redemptions_good (w_db w) ->
  redemptions_good (w_db w').
Proof.
  intros H Hc Hgood. pose proof (good_shelf _ Hgood) as Hok. destruct c; simpl in H, Hc.
  - apply then_ret in H as (r0 & H & _). apply redemption_create_cases in H; [|done..].
    destruct r0; [|by rewrite H].
    destruct H as (c & n & _ & _ & [H|(p & rid & oid & news & H)]); [|by eapply created_good].
    by eapply redemptions_good_quiet, keys_quiet, replay_keys.
  - apply then_ret in H as (r0 & H & _). apply redemption_cancel_cases in H; [|done..].
    destruct r0; [|by rewrite H].
    destruct H as (c & _ & [H|[[H _]|(p & H)]]).
    + by eapply redemptions_good_quiet, keys_quiet, replay_keys.
    + by eapply redemptions_good_quiet.
    + eapply closed_good; [exact Hgood|apply H].
  - by eapply settle_good in H.
  - by eapply settle_good in H.
  - apply (transaction_good _ _ _ _ H Hgood). intros w1 w2 E1 H1. run_step H1.
    apply ret_ok_inv in H1 as [_ ->]. rewrite <- E1 in Hgood.
    apply Approve_ok in R as (x & Hx); [by eapply approved_good|by apply good_shelf].
  - apply (transaction_good _ _ _ _ H Hgood). intros w1 w2 E1 H1. run_step H1.
    apply ret_ok_inv in H1 as [_ ->]. rewrite <- E1 in Hgood.
    apply SettleReceived_ok in R as (_ & x & now & Hx); [by eapply settled_good|by apply good_shelf].
Qed.

Lemma elsewhere_good db db' : redemptions_good db -> elsewhere db db' -> redemptions_good db'.
Proof.
  intros Hgood [Hs He Er Ea Hslots]. split; [done| | |].
  - apply Forall_forall. intros s' Hin.
    assert (Hp : forall id, places_taken (books db') id = places_taken (books db) id).
    { intros id. unfold places_taken. by rewrite Er. }
    rewrite Hp. destruct (Hslots s' Hin) as [(s & Hs0 & Eid & En)|[E0 Hno]].
    + rewrite <- Eid, <- En. pose proof (good_places _ Hgood) as Hf. rewrite Forall_forall in Hf. auto.
    + rewrite E0. unfold places_taken. rewrite (filter_none_in (occupies (Slot_ID s'))); [done|].
      intros r Hr. unfold occupies. by rewrite (proj2 (Z.eqb_neq _ _) (Hno r Hr)).
  - rewrite Er. apply Forall_forall. intros r Hr.
    apply (redemption_good_extends db); [done| |by apply good_row].
    unfold allocations_for. by rewrite Ea.
  - intros a. rewrite Ea, Er. apply Hgood.
Qed.

Lemma redemption_reachable_good w : redemption_reachable w -> redemptions_good (w_db w).
Proof.
  induction 1 as [w Hs Hr Ha Hp|w w' _ IH He|w c r w' _ IH Hc H].
  - split; [done| | |].
    + eapply Forall_impl; [exact Hp|]. simpl. intros s ->. unfold places_taken. by rewrite Hr.
    + by rewrite Hr.
    + rewrite Ha. by intros a ?%not_elem_of_nil.
  - by eapply elsewhere_good.
  - by eapply redemption_call_good in H.
Qed.
End History.

(** ** Samples *)

Definition list_check {R} `{Table R} (l : list R) : bool :=
  no_conflict row_conflict l && forallb row_check l.

Lemma list_check_ok {R} `{Table R} (l : list R) : list_check l = true -> list_ok l.
Proof.
  unfold list_check. rewrite andb_true_iff, forallb_forall. intros [Hc Hf].
  split; [done|]. apply Forall_forall. intros x Hx. by apply Hf, list_elem_of_In.
Qed.

Definition shelf_check (db : Database) : bool :=
  ledger_check (view_db db) && list_check (bk_slots (books db)) &&
  list_check (bk_redemptions (books db)) && list_check (bk_allocations (books db)) &&
  list_check (bk_stocks (books db)) && list_check (bk_orders (books db)).

Lemma shelf_check_ok db : shelf_check db = true -> shelf_ok db.
Proof.
  unfold shelf_check. rewrite !andb_true_iff. intros [[[[[H1 H2] H3] H4] H5] H6].
  split; auto using list_check_ok. by apply ledger_check_ok.
Qed.

Lemma sample_ensure_quiet ctx input : steps quiet (sample_ensure ctx input).
Proof. unfold sample_ensure. go_steps. Qed.

#[export] Instance sample_dispatch_confined : Confined (FulfillmentDispatch sample_ensure).
Proof. apply fulfillment_dispatch_confined, sample_ensure_quiet. Qed.

Lemma sample_confined d : sample_dispatch = Some d -> Confined d.
Proof. intros [= <-]. exact _. Qed.

Definition sample_redeem : RedemptionCall :=
  RedeemCall Background (Some redeemer_claims) "POST" "/redemptions" "key-0001" redeem_request.

Definition redeemed_world : World := (redemption_call sample_dispatch sample_redeem redemption_world).2.

Definition the_redemption (w : World) : option Redemption := head (bk_redemptions (books (w_db w))).

Definition sample_no : string := default "" (Red_RedemptionNo <$> the_redemption redeemed_world).

Definition sample_withdraw : RedemptionCall :=
  WithdrawCall Background (Some redeemer_claims) "POST" "/cancel" "key-0002" sample_no
    {| RCancel_ExpectedVersion := 1 |}.

Definition withdrawn_world : World :=
  (redemption_call sample_dispatch sample_withdraw redeemed_world).2.

Lemma redemption_world_shelf : shelf_ok (w_db redemption_world).
Proof. apply shelf_check_ok. vm_compute. reflexivity. Qed.

(** A fact about the delivery and the order of the sample. *)
Definition sample_fact (w : World) (action : string) (at_ : time)
    : option FulfillmentSettlementFact :=
  match head (ful_deliveries (db_fulfilment (w_db w))), head (bk_orders (books (w_db w))) with
  | Some delivery, Some order => Some {|
      FS_Action := action; FS_Delivery := delivery; FS_Order := order; FS_OccurredAt := at_;
      FS_ActorType := "rider"; FS_ActorID := 12 |}
  | _, _ => None
  end.

Definition no_delivery : DeliveryOrder := {|
  Del_ID := 0; Del_OrderID := 0; Del_RiderID := None; Del_Status := ""; Del_DispatchStatus := "";
  Del_PickupReadyStatus := ""; Del_ScheduledStartAt := None; Del_ScheduledEndAt := None;
  Del_NotBeforeAt := None; Del_AcceptedAt := None; Del_PickedUpAt := None;
  Del_CompletedAt := None; Del_CancelledAt := None; Del_DeletedAt := None |}.

Definition no_order : Order := {|
  Order_ID := 0; Order_OrderNo := ""; Order_OrderType := ""; Order_SettlementMode := "";
  Order_CustomerID := 0; Order_MerchantID := 0; Order_ShopID := 0; Order_Status := "";
  Order_PayStatus := ""; Order_DeliveryStatus := ""; Order_GoodsAmount := 0;
  Order_DiscountAmount := 0; Order_DeliveryFeeAmount := 0; Order_PayableAmount := 0;
  Order_PaidAmount := 0; Order_Remark := None; Order_AddressSnapshot := JNull;
  Order_DeliveryTimeSlotID := None; Order_DeliveryTimeSlotSnapshot := JNull;
  Order_ComplianceSnapshot := JNull; Order_IdempotencyKey := None; Order_CancelSource := None;
  Order_CancelReasonCode := None; Order_AfterSaleStatus := "none"; Order_Version := 0; Order_CancelledAt := None;
  Order_CreatedAt := 0; Order_UpdatedAt := 0; Order_DeletedAt := None |}.

Definition fact_or_none (w : World) (action : string) (at_ : time) : FulfillmentSettlementFact :=
  default {| FS_Action := action; FS_Delivery := no_delivery; FS_Order := no_order;
             FS_OccurredAt := at_; FS_ActorType := ""; FS_ActorID := 0 |} (sample_fact w action at_).

Definition fulfil (action : string) (at_ : time) (w : World) : RedemptionCall :=
  FulfilCall Background (fact_or_none w action at_).

Definition fulfilled (action : string) (at_ : time) (w : World) : World :=
  (redemption_call sample_dispatch (fulfil action at_ w) w).2.

Definition picked_up_world : World :=
  fulfilled FulfillmentPickedUp (sample_now + 20 * hour) redeemed_world.
Definition delivered_world : World :=
  fulfilled FulfillmentDelivered (sample_now + 21 * hour) picked_up_world.

Lemma redemption_world_reachable : redemption_reachable sample_dispatch redemption_world.
Proof.
  apply redemption_start; [apply redemption_world_shelf|reflexivity|reflexivity|].
  vm_compute. repeat constructor.
Qed.

Lemma redeemed_reachable : redemption_reachable sample_dispatch redeemed_world.
Proof.
  eapply redemption_step; [apply redemption_world_reachable| |apply surjective_pairing]. done.
Qed.

Lemma picked_up_reachable : redemption_reachable sample_dispatch picked_up_world.
Proof.
  eapply redemption_step; [apply redeemed_reachable| |apply surjective_pairing]. exact I.
Qed.

Lemma delivered_reachable : redemption_reachable sample_dispatch delivered_world.
Proof.
  eapply redemption_step; [apply picked_up_reachable| |apply surjective_pairing]. exact I.
Qed.

Lemma redeemed_good : redemptions_good (w_db redeemed_world).
Proof.
  eapply redemption_reachable_good; [apply sample_confined|apply redeemed_reachable].
Qed.

Lemma sample_good : redemptions_good (w_db redemption_world).
Proof.
  eapply redemption_reachable_good; [apply sample_confined|apply redemption_world_reachable].
Qed.

(** ** The properties *)

(** C3: Whatever redemption calls, fulfilment facts and returns ran, successful
    or not, interleaved with what the rest of the program does, the books stay
    consistent: the allocations of every redemption add up to its quantity,
    each was taken out of its lot, and they are held until the delivery,
    consumed after it, and restored with an entry that puts the bottles back
    once the redemption is cancelled or its bottles came back to the shop, with
    the dates set that its status asks for; every slot counts exactly the redemptions that were not cancelled
    and never more than its capacity; and the ledger agrees with the lots. *)
Theorem redemptions_stay_consistent dispatch w :
  (forall d, dispatch = Some d -> Confined d) -> redemption_reachable dispatch w ->
  (forall r, r ∈ bk_redemptions (books (w_db w)) -> redemption_good (w_db w) r) /\
  (forall s, s ∈ bk_slots (books (w_db w)) ->
     Slot_ReservedOrders s = places_taken (books (w_db w)) (Slot_ID s) /\
     places_taken (books (w_db w)) (Slot_ID s) <= Slot_CapacityOrders s) /\
  ledger_ok (asset_view w).
Proof.
  intros Hd Hr. apply redemption_reachable_good in Hr as Hgood; [|done].
  pose proof (good_shelf _ Hgood) as Hok. split; [|split].
  - intros r Hin. by apply good_row.
  - intros s Hs. pose proof (good_places _ Hgood) as Hp. rewrite Forall_forall in Hp.
    rewrite <- (Hp s Hs). split; [done|]. by apply (slot_numbers _ _ Hok).
  - apply (shelf_ledger _ Hok).
Qed.

Lemma redemptions_stay_consistent_witness :
  (forall s, s ∈ bk_slots (books (w_db delivered_world)) ->
     Slot_ReservedOrders s = places_taken (books (w_db delivered_world)) (Slot_ID s)) /\
  map Red_Status (bk_redemptions (books (w_db delivered_world))) = [RedemptionStatusDelivered] /\
  map Slot_ReservedOrders (bk_slots (books (w_db delivered_world))) = [1].
Proof.
  split; [|split; vm_compute; reflexivity]. intros s Hs.
  apply (redemptions_stay_consistent sample_dispatch delivered_world sample_confined
           delivered_reachable). exact Hs.
Defined.




Definition sample_cancel : G RedemptionDTO :=
  Cancel sample_dispatch Background (Some redeemer_claims) "POST" "/cancel" "key-0002" sample_no
    {| RCancel_ExpectedVersion := 1 |}.


(** C12: A fact about a delivery moves its redemption one step along the state
    machine - scheduled, assigned, picked up, delivered, where the assignment
    may be skipped - or finds it there already and changes nothing.  The
    redemption is the one of the order, which was settled in tickets without
    money.  The bottles left the lots when the redemption was created, so
    neither lots nor ledger change; on delivery every held allocation is
    consumed.  Settling the same fact again changes nothing. *)
Theorem settlement_follows_the_delivery ctx fact w w' :
  apply ctx fact w = (Ok tt, w') -> redemptions_good (w_db w) ->
  exists r, r ∈ bk_redemptions (books (w_db w)) /\ Red_OrderID r = Fact_OrderID fact /\
    fact_linked fact = true /\ view_db (w_db w') = view_db (w_db w) /\
    redemptions_good (w_db w') /\
    ((Red_Status r = action_status (Fact_Action fact) /\ w_db w' = w_db w) \/
     exists now, settles (Red_Status r) (action_status (Fact_Action fact)) /\
       books (w_db w') = advanced r (action_status (Fact_Action fact)) now (books (w_db w))) /\
    forall w2 w3, w_db w2 = w_db w' -> apply ctx fact w2 = (Ok tt, w3) -> w_db w3 = w_db w2.
Proof.
  intros H Hgood. pose proof (good_shelf _ Hgood) as Hok.
  apply apply_ok in H as (r & [Hlink [Hr Hid] _ Hout]); [|done]. exists r.
  assert (Hall : redemptions_good (w_db w') /\ view_db (w_db w') = view_db (w_db w) /\
    exists r', r' ∈ bk_redemptions (books (w_db w')) /\ Red_OrderID r' = Fact_OrderID fact /\
      Red_Status r' = action_status (Fact_Action fact)).
  { destruct Hout as [[Hs ->]|(now & Hs & _ & Hb & Hv)];
      [do 2 (split; [done|]); by exists r|].
    split; [exact (advanced_good _ _ _ _ _ Hgood Hr Hs Hb)|]. split; [done|].
    exists (redemption_moved (action_status (Fact_Action fact)) now r).
    split; [|done]. rewrite (booked_books _ _ _ Hb). unfold advanced.
    destruct (String.eqb _ _); by apply replaced_in. }
  destruct Hall as (Hgood' & Hv & r' & Hr' & Hid' & Hst').
  do 5 (split; [done|]). split.
  - destruct Hout as [[Hs E]|(now & Hs & _ & Hb & _)]; [by left|right]. exists now.
    split; [done|apply Hb].
  - intros w2 w3 E H2. apply apply_ok in H2 as (x & [_ [Hx Hidx] _ Hout2]);
      [|by rewrite E; apply good_shelf].
    destruct Hout2 as [[_ E2]|(now & Hs & _)]; [done|]. exfalso. rewrite E in Hx.
    assert (x = r') as ->; [|rewrite Hst' in Hs; inversion Hs; congruence].
    destruct (shelf_redemptions _ (good_shelf _ Hgood')) as [Hc _].
    apply (NoDup_map_inj Red_OrderID (bk_redemptions (books (w_db w')))); auto; [|congruence].
    apply (unique_rows Red_OrderID); [|done]. intros a b Eab. simpl.
    rewrite Eab, Z.eqb_refl. apply orb_true_r.
Qed.

Definition sample_pickup : FulfillmentSettlementFact :=
  fact_or_none redeemed_world FulfillmentPickedUp (sample_now + 20 * hour).

(** The same fact as the settlement reads it. *)
Definition pickup_fact : fulfillmentFact := Eval vm_compute in {|
  Fact_Action := FS_Action sample_pickup; Fact_DeliveryID := Del_ID (FS_Delivery sample_pickup);
  Fact_DeliveryOrderID := Del_OrderID (FS_Delivery sample_pickup);
  Fact_OrderID := Order_ID (FS_Order sample_pickup);
  Fact_OrderType := Order_OrderType (FS_Order sample_pickup);
  Fact_SettlementMode := Order_SettlementMode (FS_Order sample_pickup);
  Fact_PayStatus := Order_PayStatus (FS_Order sample_pickup);
  Fact_PaidAmount := Order_PaidAmount (FS_Order sample_pickup);
  Fact_OccurredAt := FS_OccurredAt sample_pickup;
  Fact_ActorType := FS_ActorType sample_pickup;
  Fact_ActorID := FS_ActorID sample_pickup |}.

Lemma settlement_follows_the_delivery_witness :
  (apply Background pickup_fact redeemed_world).1 = Ok tt /\
  (exists r, r ∈ bk_redemptions (books (w_db redeemed_world)) /\
     Red_OrderID r = Fact_OrderID pickup_fact) /\
  map Red_Status (bk_redemptions (books (w_db picked_up_world))) = [RedemptionStatusPickedUp].
Proof.
  split; [vm_compute; reflexivity|]. split; [|vm_compute; reflexivity].
  edestruct (settlement_follows_the_delivery Background pickup_fact redeemed_world)
    as (r & Hr & Hid & _).
  - apply run_ok. vm_compute. reflexivity.
  - exact redeemed_good.
  - exists r. split; [exact Hr|exact Hid].
Defined.

(** ** Creating and cancelling *)

(** The places of the slots and the bottles of the stocks. *)
Definition places (b : Books) : list (Z * Z) :=
  map (fun s => (Slot_ID s, Slot_ReservedOrders s)) (bk_slots b).
Definition available (b : Books) : list (Z * Z) :=
  map (fun s => (Stock_ID s, Stock_AvailableQty s)) (bk_stocks b).

Lemma replaced_back {R X} (key : R -> Z) (f : R -> X) (x y z : R) l :
  NoDup (map key l) -> x ∈ l -> key y = key x -> f z = f x ->
  map f (replaced key y z (replaced key x y l)) = map f l.
Proof.
  intros Hnd Hx Hk Hf. unfold replaced. rewrite !map_map. apply map_ext_in. intros r Hr.
  apply list_elem_of_In in Hr. destruct (Z.eqb_spec (key r) (key x)) as [E|E].
  - by rewrite Z.eqb_refl, (NoDup_map_inj key _ _ _ Hnd Hr Hx E).
  - rewrite Hk. by rewrite (proj2 (Z.eqb_neq _ _) E).
Qed.

Lemma closed_undoes db db1 db2 c key n d c2 no v d2 p rid oid news p2 :
  redemptions_good db -> created db db1 c key n d p rid oid news ->
  cancelled db1 db2 c2 no v d2 p2 -> no = RDTO_RedemptionNo d ->
  Red_ID (CP_Redemption p2) = rid /\ places (books db2) = places (books db) /\
  available (books db2) = available (books db).
Proof.
  intros Hgood Hcr Hca ->. pose proof (created_good _ _ _ _ _ _ _ _ _ _ Hgood Hcr) as Hgood1.
  pose proof (good_shelf _ Hgood) as Hok. pose proof (good_shelf _ Hgood1) as Hok1.
  destruct Hcr as [_ Hp [(iid & rec & Hb) _ _ Hq _] Hans].
  destruct (planned_slot _ _ _ _ _ Hp) as (Hslot & _).
  destruct (planned_stock _ _ _ _ _ Hp) as (Hstock & Hsp & _).
  destruct Hca as [_ Hno _ [[[Hr _] _ _ _ [Hs Hsid] [Hk Hkid]] (rec2 & Hb2) _ _] _].
  pose proof (booked_books _ _ _ Hb) as E1. pose proof (booked_books _ _ _ Hb2) as E2.
  assert (Hred : CP_Redemption p2 = new_redemption p rid oid).
  { destruct (shelf_redemptions _ Hok1) as [Hc _].
    assert (Hnd : NoDup (map Red_RedemptionNo (bk_redemptions (books db1)))).
    { apply (unique_rows Red_RedemptionNo); [|done]. intros a b E. simpl.
      by rewrite E, String.eqb_refl, orb_true_r. }
    apply (NoDup_map_inj Red_RedemptionNo _ _ _ Hnd Hr); [|by rewrite Hno, (answers_no _ _ Hans)].
    rewrite E1. simpl. rewrite elem_of_app, list_elem_of_singleton. by right. }
  rewrite Hred in *. simpl in Hsid, Hkid.
  assert (Es : CP_Slot p2 = slot_reserved (Plan_Now p) (Plan_Slot p)).
  { apply (NoDup_map_inj Slot_ID (bk_slots (books db1))); auto.
    - by apply (list_keys Slot_ID slot_key), shelf_slots.
    - rewrite E1. simpl. by apply replaced_in. }
  assert (Ek : CP_Stock p2 = stock_moved (- plan_quantity p) (Plan_Now p) (Plan_Stock p)).
  { destruct (shelf_stocks _ Hok1) as [Hc _].
    apply (NoDup_map_inj Stock_ShopProductID (bk_stocks (books db1))); auto.
    - apply (unique_rows Stock_ShopProductID); [|done]. intros a b E. simpl.
      by rewrite E, Z.eqb_refl, orb_true_r.
    - rewrite E1. simpl. by apply replaced_in.
    - simpl. congruence. }
  split; [done|]. unfold places, available. rewrite E2, E1. unfold closed. rewrite Es, Ek. simpl. split.
  - apply (replaced_back Slot_ID); auto; [|simpl; f_equal; lia].
    by apply (list_keys Slot_ID slot_key), shelf_slots.
  - apply (replaced_back Stock_ID); auto; [|rewrite Hred; simpl; f_equal; lia].
    by apply (list_keys Stock_ID stock_key), shelf_stocks.
Qed.



(** A redemption call that fails leaves the database as it was. *)
Theorem failed_redemption_call_changes_nothing dispatch c w e w' :
  redemption_call dispatch c w = (Err e, w') -> (forall d, dispatch = Some d -> Confined d) ->
  redemption_call_ok c -> redemptions_good (w_db w) -> w_db w' = w_db w.
Proof.
  intros H Hd Hc Hgood. pose proof (good_shelf _ Hgood) as Hok.
  destruct c; simpl in H, Hc; try (by apply transaction_err in H).
  - apply then_ret in H as ([d|x] & H & E); [discriminate|]. by apply redemption_create_cases in H.
  - apply then_ret in H as ([d|x] & H & E); [discriminate|]. by apply redemption_cancel_cases in H.
Qed.

(** The redemption was delivered, so it cannot be cancelled any more. *)
Lemma failed_redemption_call_changes_nothing_witness :
  let run := redemption_call sample_dispatch sample_withdraw delivered_world in
  run.1 = Err (notRedemptionCancellable "redemption can only be cancelled before pickup") \/
  w_db run.2 = w_db delivered_world.
Proof.
  intros run. right.
  destruct run.1 as [u|e] eqn:E; [vm_compute in E; discriminate E|].
  apply (failed_redemption_call_changes_nothing sample_dispatch sample_withdraw delivered_world e).
  - unfold run in E |- *. by apply run_err.
  - exact sample_confined.
  - exact I.
  - apply (redemption_reachable_good sample_dispatch); [exact sample_confined|].
    exact delivered_reachable.
Defined.
