(* ===== verification/ReturnTheorems.v ===== *)
(** * Returned bottles: the theorems

    Approving a return opens one after-sale without money and moves the
    redemption; receiving it puts the bottles back, once. *)

From S2P Require Import Prelude GoInt GoString GoTime GoDate Json Problem RequestCtx.
From S2P Require Import CoreModel AssetService GiftModel RedemptionModel AssetLaws AssetLedger.
From S2P Require Import Database FulfilmentTables Steps AssetRepository IntegrityScan Samples.
From S2P Require Import AssetTheorems LedgerEntries GiftDto GiftRepository GiftService GiftInvariant.
From S2P Require Import GiftRuns GiftCalls GiftTheorems.
From S2P Require Import RedemptionDto RedemptionRepository ScheduledDispatch RedemptionService.
From S2P Require Import RedemptionSettlement AfterSaleReturn ReturnSettlement RedemptionSamples.
From S2P Require Import RedemptionBooks RedemptionHold RedemptionRuns RedemptionCancel ReturnRuns.
From S2P Require Import RedemptionState RedemptionTheorems.
From Stdlib Require Import String.
#[local] Open Scope string_scope. #[local] Open Scope list_scope. #[local] Open Scope Z_scope.
#[local] Open Scope go_scope.

Section Settled.
Context (db db' : Database) (row : Return) (afterSale : ReturnAfterSale) (order : OrderRef).
Context (r : Redemption) (now : time).
Context (Hgood : redemptions_good db) (Hset : return_settled db db' row afterSale order r now).

(** The redemption as it is afterwards. *)
Lemma settled_row : exists r', r' ∈ bk_redemptions (books db') /\ Red_ID r' = Red_ID r /\
  Red_Quantity r' = Red_Quantity r /\ Red_Status r' = RedemptionStatusRestored.
Proof.
  destruct Hset as [Hr _ (at_ & Hb) _ _ _]. rewrite (booked_books _ _ _ Hb). unfold returned. simpl.
  destruct (String.eqb_spec (Red_Status r) RedemptionStatusRestored) as [E|E].
  - by exists r.
  - exists (redemption_returned now r). split; [by apply replaced_in|done].
Qed.

Lemma settled_allocations :
  Forall (fun a => RA_Status a = RedemptionAllocationStatusRestored /\
                   came_back (view_db db') (Ret_ID row) a)
    (allocations_for (books db') (Red_ID r)) /\
  bottles (allocations_for (books db') (Red_ID r)) = Red_Quantity r.
Proof.
  destruct settled_row as (r' & Hr' & Eid & Eq & Es).
  pose proof (settled_good _ _ _ _ _ _ _ Hgood Hset) as Hgood'.
  destruct (good_row _ _ Hgood' Hr') as [_ Hbot Hst]. rewrite Eid, Eq in *. split; [|done].
  assert (Hall : all_in RedemptionAllocationStatusRestored (allocations_for (books db') (Red_ID r))).
  { destruct Hst as [[E|E]|? E|? ? E|? E|? ? ? E|? E]; try done; rewrite Es in E; done. }
  apply Forall_and. split; [exact Hall|].
  pose proof (rs_back _ _ _ _ _ _ _ Hset) as Hback. apply locked_all in Hback.
  destruct Hset as [_ _ (at_ & Hb) _ _ _].
  assert (E : allocations_for (books db') (Red_ID r) =
    List.filter (fun a => RA_RedemptionID a =? Red_ID r)
      (settled_rows RedemptionAllocationStatusRestored now
         (map RA_ID (to_restore (locked_for (books db) (Red_ID r)))) (bk_allocations (books db)))).
  { unfold allocations_for. by rewrite (booked_books _ _ _ Hb). }
  rewrite E. rewrite Forall_forall in Hback. apply Forall_forall. intros a Ha.
  apply list_elem_of_In, filter_In in Ha as [Ha Hid].
  apply list_elem_of_In, list_elem_of_In, in_map_iff in Ha as (x & <- & Hx).
  assert (Hxid : (RA_RedemptionID x =? Red_ID r) = true) by (by case_bool_decide).
  assert (Hb' : came_back (view_db db') (Ret_ID row) x).
  { apply Hback, list_elem_of_In, filter_In. by split. }
  by case_bool_decide.
Qed.
End Settled.

(** ** The state machine of a redemption *)

(** The row before and after a call. *)
Inductive redemption_move (r : Redemption) : Redemption -> Prop :=
| redemption_settles target now :
    settles (Red_Status r) target -> redemption_move r (redemption_moved target now r)
| redemption_cancels now :
    Red_Status r = RedemptionStatusScheduled \/ Red_Status r = RedemptionStatusAssigned ->
    redemption_move r (red_cancelled now r)
| redemption_turns_back now :
    Red_Status r = RedemptionStatusPickedUp ->
    redemption_move r (redemption_moved RedemptionStatusReturnInProgress now r)
| redemption_comes_back now :
    Red_Status r = RedemptionStatusReturnInProgress -> redemption_move r (redemption_returned now r).

(** What one call may do to the redemptions. *)
Record redemptions_moved (l l' : list Redemption) : Prop := {
  rm_old : forall r, r ∈ l ->
    exists r', r' ∈ l' /\ Red_ID r' = Red_ID r /\ (r' = r \/ redemption_move r r');
  rm_new : forall r', r' ∈ l' -> (exists r, r ∈ l /\ Red_ID r' = Red_ID r) \/
    Red_Status r' = RedemptionStatusScheduled /\ Red_Version r' = 1;
}.

Lemma moved_none l : redemptions_moved l l.
Proof. split; intros r Hr; [exists r; auto|left; by exists r]. Qed.

Lemma moved_one l r r1 :
  NoDup (map Red_ID l) -> r ∈ l -> Red_ID r1 = Red_ID r -> redemption_move r r1 ->
  redemptions_moved l (replaced Red_ID r r1 l).
Proof.
  intros Hnd Hr Eid Hm. split.
  - intros x Hx. destruct (Z.eq_dec (Red_ID x) (Red_ID r)) as [E|E].
    + rewrite (NoDup_map_inj Red_ID _ _ _ Hnd Hx Hr E). exists r1.
      split; [by apply replaced_in|]. auto.
    + exists x. split; [by apply replaced_other|auto].
  - intros x Hx. left. apply replaced_elem in Hx as [->|[Hx _]]; eauto.
Qed.

Lemma moved_more l r : Red_Status r = RedemptionStatusScheduled -> Red_Version r = 1 ->
  redemptions_moved l (l ++ [r]).
Proof.
  intros Hs Hv. split; intros x Hx.
  - exists x. rewrite elem_of_app. auto.
  - apply elem_of_app in Hx as [Hx|Hx%list_elem_of_singleton]; [left; by exists x|by subst; right].
Qed.

Lemma moved_quiet db db' : quiet db db' ->
  redemptions_moved (bk_redemptions (books db)) (bk_redemptions (books db')).
Proof. intros Hq. rewrite (quiet_books _ _ Hq). apply moved_none. Qed.

Lemma moved_transaction (m : G unit) w r w' :
  transaction m w = (r, w') ->
  (forall w1 w2, w_db w1 = w_db w -> m w1 = (Ok tt, w2) ->
     redemptions_moved (bk_redemptions (books (w_db w1))) (bk_redemptions (books (w_db w2)))) ->
  redemptions_moved (bk_redemptions (books (w_db w))) (bk_redemptions (books (w_db w'))).
Proof.
  intros H Hm. destruct r as [[]|e]; [|apply transaction_err in H; rewrite H; apply moved_none].
  apply transaction_ok in H as (w1 & w2 & E1 & H & ->). rewrite <- E1. by apply Hm.
Qed.

Lemma moved_apply ctx fact w w' :
  apply ctx fact w = (Ok tt, w') -> shelf_ok (w_db w) ->
  redemptions_moved (bk_redemptions (books (w_db w))) (bk_redemptions (books (w_db w'))).
Proof.
  intros H Hok. apply apply_ok in H as (r & [_ [Hr _] _ [[_ ->]|(now & Hs & _ & Hb & _)]]); [| |done].
  - apply moved_none.
  - rewrite (booked_books _ _ _ Hb). unfold advanced.
    assert (Hm : redemptions_moved (bk_redemptions (books (w_db w))) (replaced Red_ID r
      (redemption_moved (action_status (Fact_Action fact)) now r) (bk_redemptions (books (w_db w))))).
    { apply moved_one; [by apply redemption_ids|done|done|by constructor]. }
    by destruct (String.eqb _ _).
Qed.

Lemma moved_approved db db' row order actorID note approval r :
  shelf_ok db -> return_approved db db' row order actorID note approval r ->
  redemptions_moved (bk_redemptions (books db)) (bk_redemptions (books db')).
Proof.
  intros Hok [Hr _ _ (a & db1 & db2 & _ & _ & Hopen & _ & Hq & Hout)].
  rewrite (quiet_books _ _ Hq). destruct (case_opened_books _ _ _ _ Hopen Hok) as (f & [B1 _]).
  destruct Hout as [[_ ->]|(now & Hs & [Hb _])].
  - rewrite (booked_books _ _ _ B1). apply moved_none.
  - rewrite (booked_books _ _ _ Hb), (booked_books _ _ _ B1).
    apply moved_one; [by apply redemption_ids|done|done|by apply redemption_turns_back].
Qed.

Lemma moved_received db db' row afterSale order r now :
  shelf_ok db -> return_settled db db' row afterSale order r now ->
  redemptions_moved (bk_redemptions (books db)) (bk_redemptions (books db')).
Proof.
  intros Hok [Hr Hset (at_ & Hb) _ _ _]. rewrite (booked_books _ _ _ Hb). unfold returned. simpl.
  destruct (st_status _ _ _ _ _ Hset) as [E|E]; rewrite E; simpl; [|apply moved_none].
  apply moved_one; [by apply redemption_ids|done|done|by apply redemption_comes_back].
Qed.

Lemma redemption_call_moves dispatch c w r w' :
  redemption_call dispatch c w = (r, w') -> (forall d, dispatch = Some d -> Confined d) ->
  redemption_call_ok c -> shelf_ok (w_db w) ->
  redemptions_moved (bk_redemptions (books (w_db w))) (bk_redemptions (books (w_db w'))).
Proof.
  intros H Hd Hc Hok. destruct c; simpl in H, Hc;
    try (apply (moved_transaction _ _ _ _ H); intros w1 w2 E1 H1; rewrite <- E1 in Hok).
  - apply then_ret in H as (r0 & H & _). apply redemption_create_cases in H; [|done..].
    destruct r0; [|rewrite H; apply moved_none].
    destruct H as (c & n & _ & _ & [H|(p & rid & oid & news & [_ _ [(i & k & Hb) _ _ _ _] _])]).
    + by apply moved_quiet, keys_quiet, (replay_keys _ _ _ _ _ _ _ H).
    + rewrite (booked_books _ _ _ Hb). by apply moved_more.
  - apply then_ret in H as (r0 & H & _). apply redemption_cancel_cases in H; [|done..].
    destruct r0; [|rewrite H; apply moved_none].
    destruct H as (c & _ & [H|[[H _]|(p & H)]]).
    + by apply moved_quiet, keys_quiet, (replay_keys _ _ _ _ _ _ _ H).
    + by apply moved_quiet.
    + pose proof (cancelled_closed _ _ _ _ _ _ _ H) as Hcl. destruct (closed_plan _ _ _ Hcl) as [[Hin _] _ [Hst _] _ _ _].
      destruct (closed_books _ _ _ Hcl) as (k & Hb). rewrite (booked_books _ _ _ Hb).
      apply moved_one; [by apply redemption_ids|done|done|].
      by apply redemption_cancels.
  - by eapply moved_apply.
  - by eapply moved_apply.
  - run_step H1. apply ret_ok_inv in H1 as [_ ->].
    apply Approve_ok in R as (x & Hx); [|done]. by eapply moved_approved.
  - run_step H1. apply ret_ok_inv in H1 as [_ ->].
    apply SettleReceived_ok in R as (_ & x & now & Hx); [|done]. by eapply moved_received.
Qed.

(** ** Samples: the picked-up redemption comes back *)

Definition sample_after_sales : AfterSaleService :=
  {| Cfg_AfterSaleEnabled := true; Cfg_SystemAfterSaleEnabled := true;
     Cfg_FormatLocal := fun _ => "2026-07-01T09:00:00+08:00" |}.

Definition picked_up_order : Z * Z := Eval vm_compute in
  match the_redemption picked_up_world with
  | Some r => (Red_ID r, Red_OrderID r)
  | None => (0, 0)
  end.

Definition approved_return : Return := {|
  Ret_ID := 801; Ret_OrderID := picked_up_order.2; Ret_AfterSaleID := None;
  Ret_SettlementType := Some SettlementWineTicketRestore;
  Ret_SettlementBizID := Some picked_up_order.1; Ret_ReasonCode := "customer_absent" |}.

Definition returned_order : OrderRef := {|
  ORef_ID := picked_up_order.2; ORef_OrderType := "wine_ticket_redemption";
  ORef_SettlementMode := "wine_ticket"; ORef_PayStatus := "not_required"; ORef_PaidAmount := 0;
  ORef_Version := 1 |}.

Definition sample_approve : G ReturnSettlementApproval :=
  Approve sample_after_sales Background approved_return returned_order 9 "nobody home".

(** The same in the transaction of the delivery-return module. *)
Definition sample_approve_call : RedemptionCall :=
  ApproveReturnCall sample_after_sales Background approved_return returned_order 9 "nobody home".

Definition returning_world : World :=
  (redemption_call sample_dispatch sample_approve_call picked_up_world).2.

Definition sample_approval : ReturnSettlementApproval := Eval vm_compute in
  match (sample_approve picked_up_world).1 with
  | Ok approval => approval
  | Err _ => {| Approval_AfterSaleID := 0; Approval_SettlementBizID := None;
                Approval_OrderStatus := ""; Approval_AfterSaleStatus := "" |}
  end.

Definition opened_case : Z := Eval vm_compute in Approval_AfterSaleID sample_approval.

Definition received_return : Return := {|
  Ret_ID := 801; Ret_OrderID := picked_up_order.2; Ret_AfterSaleID := Some opened_case;
  Ret_SettlementType := Some SettlementWineTicketRestore;
  Ret_SettlementBizID := Some picked_up_order.1; Ret_ReasonCode := "customer_absent" |}.

Definition received_case : ReturnAfterSale := {|
  RAS_ID := opened_case; RAS_OrderID := picked_up_order.2; RAS_ShopID := 31;
  RAS_SourceType := "delivery_return"; RAS_SourceID := Some 801;
  RAS_Status := "return_processing"; RAS_ApprovedAmount := 0; RAS_RefundedAmount := 0;
  RAS_Version := 1 |}.

Definition sample_receive : G bool :=
  SettleReceived Background received_return received_case returned_order.

Definition received_world : World := (sample_receive returning_world).2.

Example sample_return_runs :
  (sample_approve picked_up_world).1 <> Err (EMessage "") /\
  (sample_receive returning_world).1 = Ok true /\
  map Red_Status (bk_redemptions (books (w_db received_world))) = [RedemptionStatusRestored] /\
  map AS_Status (sales (w_db received_world)) = ["closed"] /\
  map Order_Status (bk_orders (books (w_db received_world))) = ["cancelled"].
Proof. split; [vm_compute; discriminate|]. repeat split; vm_compute; reflexivity. Qed.

(** ** The properties *)

(** C13: A successful SettleReceived of a return puts every bottle of its
    redemption back: each allocation is restored, together the redemption's
    quantity, with a ledger entry of the return that adds its bottles to the
    lot they came from; redemption and order are closed and so is the
    after-sale of the return, which never had money in it.  Only a redemption
    under return, or one restored before, passes, and settling the same return
    again changes neither lots nor ledger. *)
Theorem returned_bottles_come_back ctx row afterSale order w b w' :
  SettleReceived ctx row afterSale order w = (Ok b, w') -> redemptions_good (w_db w) ->
  b = true /\ exists r now, return_settled (w_db w) (w_db w') row afterSale order r now /\
    (exists r', r' ∈ bk_redemptions (books (w_db w')) /\ Red_ID r' = Red_ID r /\
       Red_Quantity r' = Red_Quantity r /\ Red_Status r' = RedemptionStatusRestored) /\
    Forall (fun a => RA_Status a = RedemptionAllocationStatusRestored /\
                     came_back (view_db (w_db w')) (Ret_ID row) a)
      (allocations_for (books (w_db w')) (Red_ID r)) /\
    bottles (allocations_for (books (w_db w')) (Red_ID r)) = Red_Quantity r /\
    redemptions_good (w_db w') /\
    forall ctx2 w2 b2 w3, w_db w2 = w_db w' ->
      SettleReceived ctx2 row afterSale order w2 = (Ok b2, w3) ->
      view_db (w_db w3) = view_db (w_db w2).
Proof.
  intros H Hgood. apply SettleReceived_ok in H as (-> & r & now & Hs); [|by apply good_shelf].
  split; [done|]. exists r, now. split; [exact Hs|].
  split; [by eapply settled_row|]. destruct (settled_allocations _ _ _ _ _ _ _ Hgood Hs) as [Ha Hb].
  split; [exact Ha|]. split; [exact Hb|].
  pose proof (settled_good _ _ _ _ _ _ _ Hgood Hs) as Hgood'. split; [done|].
  intros ctx2 w2 b2 w3 E H2.
  apply SettleReceived_ok in H2 as (_ & r2 & now2 & Hs2); [|by rewrite E; apply good_shelf].
  apply (rs_again _ _ _ _ _ _ _ Hs2). apply locked_all. rewrite E.
  destruct (st_link _ _ _ _ _ (rs_settlable _ _ _ _ _ _ _ Hs)) as (_ & L1 & _).
  destruct (st_link _ _ _ _ _ (rs_settlable _ _ _ _ _ _ _ Hs2)) as (_ & L2 & _).
  assert (Red_ID r2 = Red_ID r) as -> by congruence.
  eapply Forall_impl; [exact Ha|]. by intros a [_ ?].
Qed.

Lemma returning_reachable : redemption_reachable sample_dispatch returning_world.
Proof.
  eapply redemption_step; [apply picked_up_reachable| |apply surjective_pairing]. exact I.
Qed.

Lemma picked_up_good : redemptions_good (w_db picked_up_world).
Proof. eapply redemption_reachable_good; [apply sample_confined|apply picked_up_reachable]. Qed.

Lemma returning_good : redemptions_good (w_db returning_world).
Proof. eapply redemption_reachable_good; [apply sample_confined|apply returning_reachable]. Qed.

Definition lots_now (w : World) : list (Z * Z) :=
  map (fun l => (Lot_ID l, Lot_AvailableQuantity l)) (v_lots (asset_view w)).

Lemma returned_bottles_come_back_witness :
  (exists r, Ret_SettlementBizID received_return = Some (Red_ID r) /\
     bottles (allocations_for (books (w_db received_world)) (Red_ID r)) = Red_Quantity r) /\
  lots_now received_world = lots_now redemption_world /\
  lots_now returning_world <> lots_now redemption_world.
Proof.
  split; [|split; [vm_compute; reflexivity|vm_compute; discriminate]].
  edestruct (returned_bottles_come_back Background received_return received_case returned_order
    returning_world true received_world) as (_ & r & now & Hs & _ & _ & Hb & _).
  - unfold received_world, sample_receive. apply run_ok. vm_compute. reflexivity.
  - exact returning_good.
  - exists r. split; [|exact Hb].
    exact (proj1 (proj2 (st_link _ _ _ _ _ (rs_settlable _ _ _ _ _ _ _ Hs)))).
Defined.

(** C14: A successful Approve of a return finds the redemption of its order
    picked up or under return already, puts it under return, and leaves lots
    and ledger as they are.  It answers with the after-sale of this return, an
    order's case that asks for, grants and refunds nothing: the one opened
    before, or a new one when the return had none; approving the same return
    again opens no other. *)
Theorem approved_return_opens_one_case s ctx row order actorID note w approval w' :
  Approve s ctx row order actorID note w = (Ok approval, w') -> redemptions_good (w_db w) ->
  exists r, return_approved (w_db w) (w_db w') row order actorID note approval r /\
    (exists r', r' ∈ bk_redemptions (books (w_db w')) /\ Red_ID r' = Red_ID r /\
       Red_Status r' = RedemptionStatusReturnInProgress) /\
    (exists a, a ∈ sales (w_db w') /\ AS_ID a = Approval_AfterSaleID approval /\
       case_of (approval_request row actorID note) a) /\
    view_db (w_db w') = view_db (w_db w) /\ redemptions_good (w_db w') /\
    forall s2 ctx2 order2 actor2 note2 w2 approval2 w3, w_db w2 = w_db w' ->
      Approve s2 ctx2 row order2 actor2 note2 w2 = (Ok approval2, w3) ->
      sales (w_db w3) = sales (w_db w').
Proof.
  intros H Hgood. apply Approve_ok in H as (r & Hr); [|by apply good_shelf].
  exists r. split; [exact Hr|]. pose proof (approved_good _ _ _ _ _ _ _ _ Hgood Hr) as Hgood'.
  destruct Hr as [Hin _ _ (a & db1 & db2 & Hid & Hcase & Hopen & Hsales & Hq & Hout)].
  assert (Ha : a ∈ sales (w_db w')).
  { rewrite Hsales. destruct Hopen as [Ha ->|at_ -> _ _ _]; [done|].
    rewrite elem_of_app, list_elem_of_singleton. by right. }
  destruct (case_opened_books _ _ _ _ Hopen (good_shelf _ Hgood)) as (f & [B1 V1]).
  split; [|split; [by exists a|split; [|split; [done|]]]].
  - rewrite (quiet_books _ _ Hq). destruct Hout as [[Hs ->]|(now & Hs & [Hb _])].
    + exists r. by rewrite (booked_books _ _ _ B1).
    + rewrite (booked_books _ _ _ Hb), (booked_books _ _ _ B1). simpl. eexists.
      split; [by apply replaced_in|]. done.
  - rewrite (quiet_view _ _ Hq), <- V1. by destruct Hout as [[_ ->]|(now & _ & [_ V])].
  - intros s2 ctx2 order2 actor2 note2 w2 approval2 w3 E H2.
    apply Approve_ok in H2 as (r2 & [_ _ _ (a2 & d1 & d2 & _ & Hc2 & Ho2 & Hs2 & _)]);
      [|by rewrite E; apply good_shelf].
    rewrite Hs2. destruct Ho2 as [_ ->|at_ _ _ Hno _]; [by rewrite E|]. exfalso.
    rewrite E in Hno. destruct (case_source _ _ Hcase) as [Ht Hsrc].
    destruct (case_source _ _ Hc2) as [_ Hsrc2]. apply (Hno a Ha Ht). by rewrite Hsrc, Hsrc2.
Qed.

Lemma approved_return_opens_one_case_witness :
  let w' := (sample_approve picked_up_world).2 in
  (sample_approve picked_up_world).1 = Ok sample_approval /\
  view_db (w_db w') = view_db (w_db picked_up_world) /\
  map AS_RequestedAmount (sales (w_db w')) = [0].
Proof.
  intros w'. subst w'. split; [vm_compute; reflexivity|]. split; [|vm_compute; reflexivity].
  unfold sample_approve.
  edestruct (approved_return_opens_one_case sample_after_sales Background approved_return
    returned_order 9 "nobody home" picked_up_world sample_approval
    (Approve sample_after_sales Background approved_return returned_order 9 "nobody home"
       picked_up_world).2) as (r & _ & _ & _ & V & _).
  - apply run_ok. vm_compute. reflexivity.
  - exact picked_up_good.
  - exact V.
Defined.

(** C6: One call moves a redemption at most one step along its state machine:
    a scheduled or assigned one may be assigned, picked up or cancelled, a
    picked-up one delivered or turned back, and one that is turned back comes
    back to the shop.  A redemption that was delivered, cancelled or restored
    never changes again, none disappears, and new ones start scheduled. *)
Theorem redemption_follows_its_state_machine dispatch c w r w' :
  redemption_call dispatch c w = (r, w') -> (forall d, dispatch = Some d -> Confined d) ->
  redemption_call_ok c -> redemptions_good (w_db w) ->
  let before := bk_redemptions (books (w_db w)) in
  let after := bk_redemptions (books (w_db w')) in
  (forall r, r ∈ before ->
     exists r', r' ∈ after /\ Red_ID r' = Red_ID r /\ (r' = r \/ redemption_move r r')) /\
  (forall r, r ∈ before ->
     one_of [RedemptionStatusDelivered; RedemptionStatusCancelled; RedemptionStatusRestored]
       (Red_Status r) = true -> r ∈ after) /\
  (forall r', r' ∈ after -> (exists r, r ∈ before /\ Red_ID r' = Red_ID r) \/
     Red_Status r' = RedemptionStatusScheduled /\ Red_Version r' = 1).
Proof.
  intros H Hd Hc Hgood before after.
  destruct (redemption_call_moves _ _ _ _ _ H Hd Hc (good_shelf _ Hgood)) as [Hold Hnew].
  split; [exact Hold|]. split; [|exact Hnew]. intros x Hx Hend.
  destruct (Hold x Hx) as (x' & Hx' & _ & [->|Hm]); [done|]. exfalso.
  inversion Hm as [? ? Hs E|? [Hs|Hs] E|? Hs E|? Hs E]; subst; try (by rewrite Hs in Hend).
  inversion Hs as [Es|Es|Es|Es]; by rewrite <- Es in Hend.
Qed.

(** Withdrawing a delivered redemption fails and leaves it as it is. *)
Lemma redemption_follows_its_state_machine_witness :
  let w' := (redemption_call sample_dispatch sample_withdraw delivered_world).2 in
  map Red_Status (bk_redemptions (books (w_db delivered_world))) = [RedemptionStatusDelivered] /\
  forall r, r ∈ bk_redemptions (books (w_db delivered_world)) ->
    one_of [RedemptionStatusDelivered; RedemptionStatusCancelled; RedemptionStatusRestored]
      (Red_Status r) = true -> r ∈ bk_redemptions (books (w_db w')).
Proof.
  intros w'. split; [vm_compute; reflexivity|].
  refine (proj1 (proj2 (redemption_follows_its_state_machine sample_dispatch sample_withdraw
    delivered_world (redemption_call sample_dispatch sample_withdraw delivered_world).1 w'
    _ sample_confined I _))).
  - apply surjective_pairing.
  - apply (redemption_reachable_good sample_dispatch); [exact sample_confined|].
    exact delivered_reachable.
Defined.
