(* ===== verification/AssetFrame.v ===== *)
(** * What the wine tickets leave alone

    The gifts and the expiry worker share one database with the redemptions
    and the purchases.  What the gift service writes is listed once
    ([GiftWrites]), and every preorder on databases that allows those writes
    holds of every gift call, whether it succeeds or not; so the gift service
    keeps the books of the redemptions and spares the purchases, and so does
    the worker, which keeps the gifts too. *)

From S2P Require Import Prelude GoInt GoString GoTime Json Base64 Problem RequestCtx.
From S2P Require Import CoreModel AssetService GiftModel RedemptionModel AssetLaws.
From S2P Require Import Database FulfilmentTables Steps AssetRepository IntegrityScan.
From S2P Require Import AssetTheorems AssetKeeps LedgerEntries Samples ExpiryWorker Idempotency GiftDto GiftRepository GiftService.
From S2P Require Import GiftInvariant GiftRuns GiftCalls GiftTheorems RedemptionBooks.
From Stdlib Require Import String.
#[local] Open Scope string_scope. #[local] Open Scope list_scope. #[local] Open Scope Z_scope.
#[local] Open Scope go_scope.

(** ** What the gift service writes *)

(** [R] allows what a gift call writes: bottles leave and enter lots, and the
    gift's own tables, the logs and the keys change. *)
Class GiftWrites (R : Database -> Database -> Prop) : Prop := {
  gw_assets :: AssetWrites R (fun l => Lot_SourceType l <> LotSourcePurchase);
  gw_gifts :: Clear R Gift;
  gw_allocations :: Clear R GiftAllocation;
  gw_tokens :: Clear R GiftClaimToken;
  gw_audit :: Clear R AuditLog;
  gw_outbox :: Clear R OutboxEvent;
  gw_keys :: Clear R IdempotencyRecord;
}.

Section Gifts.
Context (R : Database -> Database -> Prop) `{!PreOrder R} `{!GiftWrites R}.

Lemma clear_update_one {Row} `{!Table Row} `{!Clear R Row} (p : Row -> bool) (f : Row -> Row) : steps R (update_one p f).
Proof.
  unfold update_one. apply steps_bind; [exact _|apply steps_any_steps, clear_update; exact _|].
  intros. go_steps.
Qed.

Lemma update_gift_keeps id v f : steps R (updateGift id v f).
Proof. by apply clear_update_one; exact _. Qed.
Lemma update_allocation_keeps id f : steps R (updateGiftAllocation id f).
Proof. by apply clear_update_one; exact _. Qed.
Lemma update_token_keeps id f : steps R (updateGiftToken id f).
Proof. by apply clear_update_one; exact _. Qed.
#[local] Hint Resolve update_gift_keeps update_allocation_keeps update_token_keeps : steps.

Lemma gift_audit_keeps ctx ty id action gift b a md :
  steps R (writeGiftAudit ctx ty id action gift b a md).
Proof. unfold writeGiftAudit, createAudit. go_steps. Qed.

Lemma gift_outbox_keeps ctx ty gift md : steps R (writeGiftOutbox ctx ty gift md).
Proof. unfold writeGiftOutbox, createOutbox. go_steps. Qed.

Lemma succeed_keeps {A} `{JsonCodec A} ty id path key (d : A) :
  steps R (Succeed ty id path key d).
Proof. unfold Succeed. go_steps. Qed.

Lemma fail_quietly_keeps id path key : steps R (fail_quietly id path key).
Proof. unfold fail_quietly, Fail. go_steps. Qed.

Lemma start_keeps id method path key h :
  steps R (startIdempotency id method path key h).
Proof. unfold startIdempotency, StartAt. go_steps. Qed.
#[local] Hint Resolve gift_audit_keeps gift_outbox_keeps succeed_keeps fail_quietly_keeps
  start_keeps : steps.

Lemma restore_allocation_keeps ctx gift m now a :
  steps R (restore_allocation ctx gift m now a).
Proof.
  unfold restore_allocation. go_steps. eapply restore_keeps; exact _.
Qed.

Lemma revoke_keeps now t : steps R (revoke_open_token now t).
Proof. unfold revoke_open_token. go_steps. Qed.

Lemma restore_gift_keeps ctx gift tokens l lots status now :
  steps R (restoreGiftLocked ctx gift tokens l lots status now).
Proof.
  unfold restoreGiftLocked. go_steps; try (apply steps_for_each; [exact _|]).
  - intros. apply restore_allocation_keeps.
  - intros. apply revoke_keeps.
Qed.
#[local] Hint Resolve restore_gift_keeps : steps.

Lemma restore_timeout_keeps ctx ty id trigger gift tokens l lots now :
  steps R (restore_timeout ctx ty id trigger gift tokens l lots now).
Proof. unfold restore_timeout. go_steps. Qed.
#[local] Hint Resolve restore_timeout_keeps : steps.

Lemma hold_keeps ctx customerID giftID now item :
  steps R (hold_selection ctx customerID giftID now item).
Proof. unfold hold_selection, createGiftAllocation. go_steps. eapply debit_keeps; exact _. Qed.

Lemma create_started_keeps ctx customerID path key request :
  steps R (create_started ctx customerID path key request).
Proof.
  unfold create_started, lock_group, createGift. go_steps. apply steps_for_each; [exact _|].
  intros. apply hold_keeps.
Qed.

Lemma issue_token_keeps pepper ctx customerID gift tokens v now :
  steps R (issue_token pepper ctx customerID gift tokens v now).
Proof. unfold issue_token, newGiftShareToken, createGiftToken. go_steps. Qed.

Lemma claim_allocation_keeps ctx customerID gift m now a :
  steps R (claim_allocation ctx customerID gift m now a).
Proof.
  unfold claim_allocation. go_steps. eapply transfer_keeps; [exact _..|]. cbv beta. intros lot E. by rewrite E.
Qed.

Lemma settle_token_keeps t now x : steps R (settle_token t now x).
Proof. unfold settle_token. go_steps. apply revoke_keeps. Qed.

Lemma claim_gift_keeps ctx customerID path key gift tokens t l lots now :
  steps R (claim_gift ctx customerID path key gift tokens t l lots now).
Proof.
  unfold claim_gift. go_steps; apply steps_for_each; try exact _; intros.
  - apply claim_allocation_keeps.
  - apply settle_token_keeps.
Qed.
#[local] Hint Resolve create_started_keeps issue_token_keeps claim_gift_keeps : steps.

Lemma commit_then_keeps {A} (m : G (res A)) :
  steps R m -> steps_any R (commit_then m).
Proof.
  intros Hm. unfold commit_then. apply steps_any_bind; [exact _| |auto with steps].
  by apply steps_transaction; [exact _|].
Qed.

Lemma expire_gifts_keeps ctx now ids : forall n, steps_any R (expire_gifts ctx now ids n).
Proof.
  induction ids as [|id ids IH]; intros n; simpl; [auto with steps|].
  apply steps_any_bind; [exact _| |intros; apply IH].
  apply steps_transaction; [exact _|]. unfold lockGiftAllocationsAndLots, lockGiftLots. go_steps.
Qed.

Lemma steps_any_now : steps_any R nowShanghai.
Proof. unfold nowShanghai. go_steps. Qed.

Lemma steps_any_eq {A} (m : G A) : steps_any eq m -> steps_any R m.
Proof. intros Hm w r w' H. apply Hm in H. unfold keep. by rewrite H. Qed.

Lemma gift_call_keeps pepper c : steps_any R (gift_call pepper c).
Proof.
  destruct c; simpl; apply steps_any_bind; try exact _; try (intros; auto with steps).
  - unfold GiftService.Create. go_steps. apply steps_transaction; [exact _|]. go_steps.
  - unfold CreateShareToken, lock_own_gift, lockGiftAllocationsAndLots, lockGiftLots. go_steps.
    apply commit_then_keeps. go_steps.
  - unfold Claim, giftIDByTokenDigest, lockGiftAllocationsAndLots, lockGiftLots. go_steps.
    apply commit_then_keeps. go_steps.
  - unfold Cancel, lock_own_gift, lockGiftAllocationsAndLots, lockGiftLots. go_steps.
    apply commit_then_keeps. go_steps.
  - unfold ExpireDue, dueGiftIDs. go_steps; [apply steps_any_now|apply expire_gifts_keeps].
  - apply (steps_any_eq _ (Detail_reads claims giftNo)).
  - apply (steps_any_eq _ (Preview_reads pepper rawToken)).
Qed.
End Gifts.

(** The books of the redemptions, and the sales. *)
#[export] Instance books_gift_writes : GiftWrites (keep books).
Proof. by repeat split. Qed.

#[export] Instance spare_gift_writes : GiftWrites spare.
Proof. split; [exact _|..]; intros l db; by apply spare_same. Qed.

(** ** The expiry worker keeps gifts and redemptions *)

(** The ledger stays in agreement and only grows; nothing but lots and ledger
    changes. *)
Definition grows (db db' : Database) : Prop :=
  ledger_ok (view_db db) ->
  ledger_ok (view_db db') /\ extends (view_db db) (view_db db') /\
  blank_assets db' = blank_assets db.

#[export] Instance grows_preorder : PreOrder grows.
Proof.
  split.
  - intros db Hok. split; [done|]. split; [apply extends_refl|done].
  - intros a b c H1 H2 Hok. destruct (H1 Hok) as (Hb & E1 & F1), (H2 Hb) as (Hc & E2 & F2).
    split; [done|]. split; [by eapply extends_trans|congruence].
Qed.

Lemma asset_grows ctx op : op_ok op -> steps grows (asset_op ctx op).
Proof.
  intros Hop w m w' H Hok. destruct (asset_op_effect _ _ _ _ _ H Hop Hok) as (H1 & H2 & Hf).
  split; [done|]. split; [done|]. by apply (Hf _ blank_assets).
Qed.

Section Worker.
Context (R : Database -> Database -> Prop) `{!PreOrder R}.
Context (Hexpire : forall ctx command, steps R (asset_op ctx (OpExpire command))).
Context (wk : ExpiryWorker) (Hassets : worker_assets wk = asset_service).

Lemma expire_available_steps ctx lot now key : steps R (expireAvailable wk ctx lot now key).
Proof.
  unfold expireAvailable. rewrite Hassets.
  apply steps_bind; [exact _| |intros; apply steps_ret; exact _]. apply Hexpire.
Qed.

Lemma expire_lots_steps ctx now lots : forall n, steps R (expire_lots wk ctx now lots n).
Proof.
  induction lots as [|lot lots IH]; intros n; simpl; [auto with steps|].
  apply steps_bind; [exact _|unfold expiryGuarded; go_steps|]. intros [|]; [apply IH|].
  apply steps_bind; [exact _|apply expire_available_steps|]. intros out. apply IH.
Qed.

Lemma worker_steps ctx : worker_now wk = time_now -> steps_any R (ExpireLotsOnce wk ctx).
Proof.
  intros Hn. unfold ExpireLotsOnce, dueLots. rewrite Hn.
  apply steps_any_bind; [exact _|auto with steps|]. intros t. cbv zeta.
  apply steps_transaction; [exact _|]. apply (steps_bind R); [|intros; apply expire_lots_steps].
  apply steps_any_steps, steps_any_exec; [exact _|]. intros db a db' [= <- <-]. reflexivity.
Qed.
End Worker.
