(* ===== verification/PurchaseBooks.v ===== *)
(** * The books of the purchases

    What a purchase changes: quotas, purchases, payments, the refund of a
    purchase that came too late, and the lots and ledger of the assets.  The
    abstract steps [sale_step] say what may happen to them; [sales_ok] is the
    invariant, and every step keeps it. *)

From S2P Require Import Prelude GoInt GoString GoTime Json Problem.
From S2P Require Import CoreModel AssetService GiftModel RedemptionModel PurchaseModel AssetLaws.
From S2P Require Import AssetLedger Database FulfilmentTables PurchaseTables Steps AssetRepository.
From S2P Require Import AssetTheorems LedgerEntries GiftDto GiftInvariant PurchaseDto.
From S2P Require Import PurchaseRepository BusinessPayment RedemptionBooks PurchaseSettlement.
From Stdlib Require Import String.
#[local] Open Scope string_scope. #[local] Open Scope list_scope. #[local] Open Scope Z_scope.

Record Counter := {
  ct_assets : AssetView;
  ct_packages : list Package;
  ct_quotas : list PurchaseQuota;
  ct_purchases : list Purchase;
  ct_refunds : list issuanceCompensationRefund;
  ct_payments : list Payment;
}.

Definition counter (db : Database) : Counter := {|
  ct_assets := view_db db; ct_packages := sales_packages (db_sales db);
  ct_quotas := sales_quotas (db_sales db); ct_purchases := sales_purchases (db_sales db);
  ct_refunds := sales_ticket_refunds (db_sales db);
  ct_payments := sales_payments (db_sales db) |}.

(** A change of one of the books. *)
Definition on_assets (v : AssetView) (c : Counter) : Counter := {|
  ct_assets := v; ct_packages := ct_packages c; ct_quotas := ct_quotas c;
  ct_purchases := ct_purchases c; ct_refunds := ct_refunds c; ct_payments := ct_payments c |}.
Definition on_quotas l (c : Counter) : Counter := {|
  ct_assets := ct_assets c; ct_packages := ct_packages c; ct_quotas := l;
  ct_purchases := ct_purchases c; ct_refunds := ct_refunds c; ct_payments := ct_payments c |}.
Definition on_purchases l (c : Counter) : Counter := {|
  ct_assets := ct_assets c; ct_packages := ct_packages c; ct_quotas := ct_quotas c;
  ct_purchases := l; ct_refunds := ct_refunds c; ct_payments := ct_payments c |}.
Definition on_refunds l (c : Counter) : Counter := {|
  ct_assets := ct_assets c; ct_packages := ct_packages c; ct_quotas := ct_quotas c;
  ct_purchases := ct_purchases c; ct_refunds := l; ct_payments := ct_payments c |}.
Definition on_payments l (c : Counter) : Counter := {|
  ct_assets := ct_assets c; ct_packages := ct_packages c; ct_quotas := ct_quotas c;
  ct_purchases := ct_purchases c; ct_refunds := ct_refunds c; ct_payments := l |}.

(** ** What a purchase may look like *)

Definition is_open (p : Purchase) : bool := one_of open_purchase_statuses (Pur_Status p).
Definition is_settled (p : Purchase) : bool :=
  one_of [PurchaseStatusIssued; PurchaseStatusRefundHolding] (Pur_Status p).

Definition purchase_code (p : Purchase) : option string :=
  match parsePurchaseSnapshot (Pur_PackageSnapshot p) with
  | Ok s => Some (Snap_PackageCode s)
  | Err _ => None
  end.

(** A lot issued for the purchase, and not a gift from it. *)
Definition issued_for (id : Z) (l : Lot) : bool :=
  (Lot_PurchaseID l =? id) && String.eqb (Lot_SourceType l) LotSourcePurchase.

Definition no_lot (c : Counter) (p : Purchase) : Prop :=
  forall l, l ∈ v_lots (ct_assets c) -> issued_for (Pur_ID p) l = false.
Definition no_refund (c : Counter) (p : Purchase) : Prop :=
  forall r, r ∈ ct_refunds c -> WTR_PurchaseID r <> Pur_ID p.

(** The entry of an issue for the identifier 0, which the generator does not
    hand out. *)
Definition zero_key (p : Purchase) (t : Transaction) : Prop :=
  Tx_ActionKey t = purchaseIssueActionKey (Pur_ID p) 0.

(** The one lot of an issued purchase, with the entry that proves it. *)
Record lot_issued (c : Counter) (p : Purchase) (lot : Lot) (t : Transaction) : Prop := {
  li_lot : lot ∈ v_lots (ct_assets c);
  li_only : forall l, l ∈ v_lots (ct_assets c) -> issued_for (Pur_ID p) l = true ->
    Lot_ID l = Lot_ID lot;
  li_entry : t ∈ v_ledger (ct_assets c);
  li_evidence : exists s paidAt, parsePurchaseSnapshot (Pur_PackageSnapshot p) = Ok s /\
    Pur_PaidAt p = Some paidAt /\
    (zero_key p t \/
     validPurchaseIssueEvidence p lot t
       (add_days (truncate_ms paidAt) (Snap_ValidityDays s)) = true);
}.

(** The one refund of a purchase that came too late. *)
Record refund_opened (c : Counter) (p : Purchase) (r : issuanceCompensationRefund) : Prop := {
  ro_refund : r ∈ ct_refunds c;
  ro_only : forall r', r' ∈ ct_refunds c -> WTR_PurchaseID r' = Pur_ID p -> WTR_ID r' = WTR_ID r;
  ro_row : WTR_PurchaseID r = Pur_ID p /\ WTR_CustomerID r = Pur_CustomerID p /\
    WTR_RefundKind r = RefundKindIssueCompensation /\ WTR_Status r = RefundStatusHolding /\
    WTR_Amount r = Pur_PaidAmount p;
}.

Definition unpaid (p : Purchase) : Prop := Pur_PaidAmount p = 0 /\ Pur_PaidAt p = None.
Definition paid_in_full (p : Purchase) : Prop :=
  Pur_PaidAmount p = Pur_PayableAmount p /\ exists t, Pur_PaidAt p = Some t.

Inductive purchase_good (c : Counter) (p : Purchase) : Prop :=
| good_unpaid :
    is_open p = true \/ Pur_Status p = PurchaseStatusClosed ->
    unpaid p -> no_lot c p -> no_refund c p -> purchase_good c p
| good_issued lot t :
    Pur_Status p = PurchaseStatusIssued -> paid_in_full p -> lot_issued c p lot t ->
    no_refund c p -> purchase_good c p
| good_refunding r :
    Pur_Status p = PurchaseStatusRefundHolding -> paid_in_full p -> no_lot c p ->
    refund_opened c p r -> purchase_good c p.

(** ** Quotas count purchases *)

Definition counts_in (q : PurchaseQuota) (p : Purchase) : bool :=
  (Pur_CustomerID p =? Quota_CustomerID q) &&
  match purchase_code p with Some code => String.eqb code (Quota_PackageCode q) | None => false end.

Definition packages_in (state : Purchase -> bool) (q : PurchaseQuota) (ps : list Purchase) : Z :=
  sum_quantity (fun p => counts_in q p && state p) Pur_PackageQuantity ps.

Record quota_good (ps : list Purchase) (q : PurchaseQuota) : Prop := {
  qg_reserved : Quota_ReservedQuantity q = packages_in is_open q ps;
  qg_consumed : Quota_ConsumedQuantity q = packages_in is_settled q ps;
}.

(** ** Payments and the purchases they are for *)

(** A purchase whose payment succeeded is settled: issued, or on its way back. *)
Definition payment_good (ps : list Purchase) (x : Payment) : Prop :=
  Pay_Status x = "succeeded" -> (paymentBusiness x).1 = PurchasePaymentBusiness ->
  exists p, p ∈ ps /\ Pur_ID p = (paymentBusiness x).2 /\ is_settled p = true /\
    Pur_PaymentID p = Pay_ID x /\ Pur_PaidAmount p = Pay_Amount x.

(** ** The invariant *)

Record sales_ok (c : Counter) : Prop := {
  so_ledger : ledger_ok (ct_assets c);
  so_packages : Forall (fun p => package_row_check p = true) (ct_packages c);
  so_quotas : list_ok (ct_quotas c);
  so_purchases : list_ok (ct_purchases c);
  so_refunds : list_ok (ct_refunds c);
  so_payments : list_ok (ct_payments c);
  so_good : forall p, p ∈ ct_purchases c -> purchase_good c p;
  so_counted : forall p, p ∈ ct_purchases c -> exists q, q ∈ ct_quotas c /\ counts_in q p = true;
  so_quota : forall q, q ∈ ct_quotas c -> quota_good (ct_purchases c) q;
  so_paid : forall x, x ∈ ct_payments c -> payment_good (ct_purchases c) x;
  so_lots : forall l, l ∈ v_lots (ct_assets c) -> Lot_SourceType l = LotSourcePurchase ->
    Lot_PurchaseID l ∈ map Pur_ID (ct_purchases c);
  so_refunded : forall r, r ∈ ct_refunds c -> WTR_PurchaseID r ∈ map Pur_ID (ct_purchases c);
}.

(** ** The steps *)

(** What the rest of the program may do: it moves the assets on without issuing
    a lot for a purchase, edits the catalogue, and keeps its own payments. *)
Record apart (c c' : Counter) : Prop := {
  ap_ledger : ledger_ok (ct_assets c');
  ap_extends : extends (ct_assets c) (ct_assets c');
  ap_lots : forall l', l' ∈ v_lots (ct_assets c') -> Lot_SourceType l' = LotSourcePurchase ->
    exists l, l ∈ v_lots (ct_assets c) /\ same_lot l l';
  ap_packages : Forall (fun p => package_row_check p = true) (ct_packages c');
  ap_quotas : ct_quotas c' = ct_quotas c;
  ap_purchases : ct_purchases c' = ct_purchases c;
  ap_refunds : ct_refunds c' = ct_refunds c;
  ap_payments : list_ok (ct_payments c') /\
    forall x, x ∈ ct_payments c' -> Pay_Status x = "succeeded" ->
      (paymentBusiness x).1 = PurchasePaymentBusiness -> x ∈ ct_payments c;
}.

(** A payment after an update: the same but for its state. *)
Definition same_payment (x y : Payment) : Prop :=
  Pay_ID y = Pay_ID x /\ Pay_PaymentNo y = Pay_PaymentNo x /\ Pay_BizType y = Pay_BizType x /\
  Pay_BizID y = Pay_BizID x /\ Pay_OrderID y = Pay_OrderID x /\
  Pay_CustomerID y = Pay_CustomerID x /\ Pay_Amount y = Pay_Amount x /\
  Pay_Currency y = Pay_Currency x.

Definition with_purchase (p p' : Purchase) (c : Counter) : Counter :=
  on_purchases (replaced Pur_ID p p' (ct_purchases c)) c.
Definition with_quota (q q' : PurchaseQuota) (c : Counter) : Counter :=
  on_quotas (replaced Quota_ID q q' (ct_quotas c)) c.

(** The quota after the packages of [p] were used up, or given back. *)
Definition quota_consumed (p : Purchase) (now : time) (q : PurchaseQuota) : PurchaseQuota :=
  quota_with (Quota_ReservedQuantity q - Pur_PackageQuantity p)
    (Quota_ConsumedQuantity q + Pur_PackageQuantity p) now q.
Definition quota_released (p : Purchase) (now : time) (q : PurchaseQuota) : PurchaseQuota :=
  quota_reserved (Quota_ReservedQuantity q - Pur_PackageQuantity p) now q.

Definition row_of (c : Counter) (p : Purchase) (q : PurchaseQuota) : Prop :=
  p ∈ ct_purchases c /\ q ∈ ct_quotas c /\ counts_in q p = true.

(** The rows after an update are rows of their tables. *)
Definition tables_ok (c : Counter) : Prop :=
  list_ok (ct_quotas c) /\ list_ok (ct_purchases c) /\ list_ok (ct_refunds c) /\
  list_ok (ct_payments c).

(** An open purchase whose payment is not clear: of unknown result, or paid for
    and not yet settled. *)
Inductive in_doubt : string -> string -> Prop :=
| doubt_unknown : in_doubt PurchaseStatusPendingPayment PurchaseStatusPaymentUnknown
| doubt_pending : in_doubt PurchaseStatusPendingPayment PurchaseStatusSettlementException
| doubt_again : in_doubt PurchaseStatusPaymentUnknown PurchaseStatusSettlementException.

Inductive sale_step (c : Counter) : Counter -> Prop :=
| step_quota q :
    Quota_ReservedQuantity q = 0 -> Quota_ConsumedQuantity q = 0 ->
    list_ok (ct_quotas c ++ [q]) -> sale_step c (on_quotas (ct_quotas c ++ [q]) c)
| step_open p q x now c' :
    q ∈ ct_quotas c -> counts_in q p = true -> Pur_Status p = PurchaseStatusPendingPayment ->
    unpaid p -> Pay_Status x <> "succeeded" ->
    c' = on_payments (ct_payments c ++ [x])
           (on_purchases (ct_purchases c ++ [p])
              (with_quota q (quota_reserved (Quota_ReservedQuantity q + Pur_PackageQuantity p) now q)
                 c)) ->
    tables_ok c' -> sale_step c c'
| step_issue p q lot t paidAt now v c' :
    row_of c p q -> is_open p = true -> Pur_PackageQuantity p <= Quota_ReservedQuantity q ->
    ledger_ok v -> extends (ct_assets c) v ->
    (forall l, l ∈ v_lots v -> l = lot \/ l ∈ v_lots (ct_assets c)) ->
    c' = with_purchase p (purchase_issued (Pur_PayableAmount p) paidAt now p)
           (with_quota q (quota_consumed p now q) (on_assets v c)) ->
    lot_issued c' (purchase_issued (Pur_PayableAmount p) paidAt now p) lot t ->
    issued_for (Pur_ID p) lot = true -> tables_ok c' -> sale_step c c'
| step_refund p q r paidAt now c' :
    row_of c p q -> is_open p = true -> Pur_PackageQuantity p <= Quota_ReservedQuantity q ->
    WTR_PurchaseID r = Pur_ID p -> WTR_CustomerID r = Pur_CustomerID p ->
    WTR_RefundKind r = RefundKindIssueCompensation -> WTR_Status r = RefundStatusHolding ->
    WTR_Amount r = Pur_PayableAmount p ->
    c' = with_purchase p (purchase_refunding (Pur_PayableAmount p) paidAt now p)
           (with_quota q (quota_consumed p now q) (on_refunds (ct_refunds c ++ [r]) c)) ->
    tables_ok c' -> sale_step c c'
| step_close p q now c' :
    row_of c p q -> is_open p = true -> Pur_PackageQuantity p <= Quota_ReservedQuantity q ->
    c' = with_purchase p (purchase_moved PurchaseStatusClosed now p)
           (with_quota q (quota_released p now q) c) ->
    tables_ok c' -> sale_step c c'
| step_mark p status now c' :
    p ∈ ct_purchases c -> in_doubt (Pur_Status p) status ->
    c' = with_purchase p (purchase_moved status now p) c -> tables_ok c' -> sale_step c c'
| step_payment x y c' :
    x ∈ ct_payments c -> same_payment x y -> payment_good (ct_purchases c) y ->
    c' = on_payments (replaced Pay_ID x y (ct_payments c)) c -> tables_ok c' -> sale_step c c'
| step_apart c' : apart c c' -> sale_step c c'.

(** ** Keys and rows *)

Lemma quota_key (a b : PurchaseQuota) : Quota_ID a = Quota_ID b -> row_conflict a b = true.
Proof. simpl. intros ->. by rewrite Z.eqb_refl. Qed.
Lemma purchase_key (a b : Purchase) : Pur_ID a = Pur_ID b -> row_conflict a b = true.
Proof. simpl. intros ->. by rewrite Z.eqb_refl. Qed.
Lemma ticket_refund_key (a b : issuanceCompensationRefund) :
  WTR_ID a = WTR_ID b -> row_conflict a b = true.
Proof. simpl. intros ->. by rewrite Z.eqb_refl. Qed.
Lemma payment_key (a b : Payment) : Pay_ID a = Pay_ID b -> row_conflict a b = true.
Proof. simpl. intros ->. by rewrite Z.eqb_refl. Qed.

Lemma same_id_sym a b : same_id a b = same_id b a.
Proof. unfold same_id. destruct a, b; try done. apply Z.eqb_sym. Qed.
Lemma same_text_sym a b : same_text a b = same_text b a.
Proof. unfold same_text. destruct a, b; try done. apply String.eqb_sym. Qed.

Lemma quota_conflict_sym (a b : PurchaseQuota) : row_conflict a b = row_conflict b a.
Proof. revert a b. symmetric_keys. Qed.
Lemma purchase_conflict_sym (a b : Purchase) : row_conflict a b = row_conflict b a.
Proof. revert a b. symmetric_keys. Qed.
Lemma ticket_refund_conflict_sym (a b : issuanceCompensationRefund) :
  row_conflict a b = row_conflict b a.
Proof.
  simpl. by rewrite (Z.eqb_sym (WTR_ID a)), (String.eqb_sym (WTR_WineTicketRefundNo a)),
    (same_id_sym (ActivePurchaseID a)).
Qed.
Lemma payment_conflict_sym (a b : Payment) : row_conflict a b = row_conflict b a.
Proof.
  simpl. by rewrite (Z.eqb_sym (Pay_ID a)), (String.eqb_sym (Pay_PaymentNo a)),
    (same_id_sym (Pay_OrderID a)), (String.eqb_sym (Pay_Channel a)),
    (same_text_sym (Pay_BizType a)), (same_id_sym (Pay_BizID a)),
    (String.eqb_sym (Pay_Provider a)), (same_text_sym (Pay_ProviderTradeNo a)).
Qed.

(** One customer has one quota for a package. *)
Lemma quota_unique qs a b :
  list_ok qs -> a ∈ qs -> b ∈ qs -> Quota_CustomerID a = Quota_CustomerID b ->
  Quota_PackageCode a = Quota_PackageCode b -> a = b.
Proof.
  intros [Hc _] Ha Hb Ec Ep.
  refine (NoDup_map_inj (fun q => (Quota_CustomerID q, Quota_PackageCode q)) qs _ _ _ Ha Hb _);
    [|congruence].
  apply (unique_rows (fun q => (Quota_CustomerID q, Quota_PackageCode q))); [|done].
  intros x y [= E1 E2]. simpl. rewrite E1, E2, Z.eqb_refl, String.eqb_refl. apply orb_true_r.
Qed.

Lemma counts_quota qs a b p :
  list_ok qs -> a ∈ qs -> b ∈ qs -> counts_in a p = true -> counts_in b p = true -> a = b.
Proof.
  intros Hok Ha Hb. unfold counts_in. rewrite !andb_true_iff. destruct (purchase_code p); [|easy].
  rewrite !Z.eqb_eq, !String.eqb_eq. intros [E1 E2] [E3 E4].
  apply (quota_unique _ _ _ Hok Ha Hb); congruence.
Qed.

(** ** Sums over purchases *)

Lemma sum_quantity_app {A} (f : A -> bool) g l1 l2 :
  sum_quantity f g (l1 ++ l2) = sum_quantity f g l1 + sum_quantity f g l2.
Proof. unfold sum_quantity. by rewrite List.filter_app, map_app, sum_Z_app. Qed.

Lemma sum_quantity_one {A} (f : A -> bool) g x : sum_quantity f g [x] = if f x then g x else 0.
Proof. unfold sum_quantity. simpl. destruct (f x); simpl; lia. Qed.

Lemma replaced_absent {A} (key : A -> Z) x y l :
  key x ∉ map key l -> replaced key x y l = l.
Proof.
  intros Hx. unfold replaced. rewrite <- (map_id l) at 2. apply map_ext_in. intros a Ha.
  rewrite (proj2 (Z.eqb_neq _ _)); [done|]. intros E. apply Hx. rewrite <- E.
  by apply list_elem_of_In, in_map.
Qed.

(** The effect of one row on a sum. *)
Lemma sum_quantity_replaced {A} (key : A -> Z) (f : A -> bool) g x y l :
  NoDup (map key l) -> x ∈ l ->
  sum_quantity f g (replaced key x y l) =
  sum_quantity f g l - (if f x then g x else 0) + (if f y then g y else 0).
Proof.
  induction l as [|z l IH]; intros Hnd Hx; [by apply not_elem_of_nil in Hx|].
  apply NoDup_cons in Hnd as [Hz Hnd]. fold (map key l) in Hz, Hnd.
  change (replaced key x y (z :: l))
    with ((if key z =? key x then y else z) :: replaced key x y l).
  change (z :: l) with ([z] ++ l). rewrite sum_quantity_app, sum_quantity_one.
  match goal with |- sum_quantity _ _ (?a :: ?r) = _ => change (a :: r) with ([a] ++ r) end.
  rewrite sum_quantity_app, sum_quantity_one. apply elem_of_cons in Hx as [<-|Hx].
  - rewrite Z.eqb_refl, replaced_absent by done. lia.
  - rewrite (proj2 (Z.eqb_neq _ _)).
    + rewrite IH by done. lia.
    + intros E. apply Hz. rewrite E. by apply list_elem_of_In, in_map, list_elem_of_In.
Qed.

(** A purchase after an update: the same terms. *)
Definition same_terms (p p' : Purchase) : Prop :=
  Pur_ID p' = Pur_ID p /\ Pur_PurchaseNo p' = Pur_PurchaseNo p /\
  Pur_CustomerID p' = Pur_CustomerID p /\ Pur_PackageID p' = Pur_PackageID p /\
  Pur_PaymentID p' = Pur_PaymentID p /\ Pur_PackageQuantity p' = Pur_PackageQuantity p /\
  Pur_TotalBottleQuantity p' = Pur_TotalBottleQuantity p /\
  Pur_PayableAmount p' = Pur_PayableAmount p /\ Pur_Currency p' = Pur_Currency p /\
  Pur_PackageSnapshot p' = Pur_PackageSnapshot p.

Lemma same_terms_with p s a pa ia now : same_terms p (purchase_with p s a pa ia now).
Proof. by repeat split. Qed.

Lemma same_terms_refl p : same_terms p p.
Proof. by repeat split. Qed.

Lemma same_terms_trans a b c : same_terms a b -> same_terms b c -> same_terms a c.
Proof. unfold same_terms. intuition congruence. Qed.

Lemma counts_in_terms q p p' : same_terms p p' -> counts_in q p' = counts_in q p.
Proof.
  intros (_ & _ & Hc & _ & _ & _ & _ & _ & _ & Hs). unfold counts_in, purchase_code.
  by rewrite Hc, Hs.
Qed.

(** What a change of the state of [p] does to the sums of every quota. *)
Lemma packages_in_moved st q p p' ps :
  NoDup (map Pur_ID ps) -> p ∈ ps -> same_terms p p' ->
  packages_in st q (replaced Pur_ID p p' ps) =
  packages_in st q ps +
  (if counts_in q p then
     (if st p' then Pur_PackageQuantity p else 0) - (if st p then Pur_PackageQuantity p else 0)
   else 0).
Proof.
  intros Hnd Hp Ht. unfold packages_in. rewrite (sum_quantity_replaced _ _ _ _ _ _ Hnd Hp).
  rewrite (counts_in_terms q p p' Ht). destruct Ht as (_ & _ & _ & _ & _ & -> & _).
  destruct (counts_in q p); simpl; [|lia]. destruct (st p), (st p'); lia.
Qed.

(** ** What the rest of the books has to do with a purchase *)

Lemma evidence_same_lot p l l' t e :
  same_lot l l' -> validPurchaseIssueEvidence p l' t e = validPurchaseIssueEvidence p l t e.
Proof.
  intros (E1 & E2 & E3 & E4 & E5 & E6 & E7 & E8 & E9 & E10 & E11 & E12 & _).
  unfold validPurchaseIssueEvidence.
  by rewrite E1, E3, E4, E5, E6, E7, E8, E9, E10, E11, E12.
Qed.

Lemma issued_for_same_lot id l l' : same_lot l l' -> issued_for id l' = issued_for id l.
Proof. intros (_ & _ & _ & E4 & E5 & _). unfold issued_for. by rewrite E4, E5. Qed.

(** Assets and refunds of [c'] that are nothing new for the purchase [id]. *)
Record nothing_new (c c' : Counter) (id : Z) : Prop := {
  nn_lots : forall l', l' ∈ v_lots (ct_assets c') -> issued_for id l' = true ->
    exists l, l ∈ v_lots (ct_assets c) /\ same_lot l l';
  nn_extends : extends (ct_assets c) (ct_assets c');
  nn_refunds : forall r', r' ∈ ct_refunds c' -> WTR_PurchaseID r' = id -> r' ∈ ct_refunds c;
  nn_keeps : forall r, r ∈ ct_refunds c -> r ∈ ct_refunds c';
}.

Lemma no_lot_frame c c' p : nothing_new c c' (Pur_ID p) -> no_lot c p -> no_lot c' p.
Proof.
  intros [H1 _ _ _] Hno l' Hl'. destruct (issued_for (Pur_ID p) l') eqn:E; [|done].
  destruct (H1 _ Hl' E) as (l & Hl & Hs). rewrite (issued_for_same_lot _ _ _ Hs) in E.
  by rewrite (Hno _ Hl) in E.
Qed.

Lemma no_refund_frame c c' p : nothing_new c c' (Pur_ID p) -> no_refund c p -> no_refund c' p.
Proof. intros [_ _ H3 _] Hno r Hr E. by apply (Hno r); [apply H3|]. Qed.

Lemma purchase_good_frame c c' p :
  nothing_new c c' (Pur_ID p) -> purchase_good c p -> purchase_good c' p.
Proof.
  intros Hn [Hs Hu Hl Hr|lot t Hs Hp [L1 L2 L3 L4] Hr|r Hs Hp Hl [R1 R2 R3]].
  - apply good_unpaid; [done..| |]; eauto using no_lot_frame, no_refund_frame.
  - destruct (proj2 (nn_extends _ _ _ Hn) _ L1) as (lot' & Hlot' & Hsame).
    apply (good_issued _ _ lot' t); [done..| |by eapply no_refund_frame]. split.
    + done.
    + intros l' Hl' E. destruct (nn_lots _ _ _ Hn _ Hl' E) as (l & Hl & Hs').
      rewrite (issued_for_same_lot _ _ _ Hs') in E. specialize (L2 _ Hl E).
      destruct Hs' as (-> & _), Hsame as (-> & _). done.
    + by apply (nn_extends _ _ _ Hn).
    + destruct L4 as (s & paidAt & Es & Ep & Ev). exists s, paidAt.
      by rewrite (evidence_same_lot _ _ _ _ _ Hsame).
  - apply (good_refunding _ _ r); [done..|by eapply no_lot_frame|]. split; [| |done].
    + by apply (nn_keeps _ _ _ Hn).
    + intros r' Hr' E. apply R2; [by apply (nn_refunds _ _ _ Hn)|done].
Qed.

Lemma nothing_new_same c c' id :
  ct_assets c' = ct_assets c -> ct_refunds c' = ct_refunds c -> nothing_new c c' id.
Proof.
  intros Ea Er. split; rewrite ?Ea, ?Er; auto using extends_refl.
  intros l Hl _. exists l. auto using same_lot_refl.
Qed.

(** ** The steps keep the invariant *)

Lemma settled_open p : is_open p = true -> is_settled p = false.
Proof.
  unfold is_open, is_settled, one_of. simpl. rewrite !orb_true_iff, !String.eqb_eq.
  intros [E|[E|[E|E]]]; [..|done]; rewrite E; reflexivity.
Qed.

Lemma good_of_open c p : purchase_good c p -> is_open p = true ->
  unpaid p /\ no_lot c p /\ no_refund c p.
Proof.
  intros [Hs Hu Hl Hr|lot t Hs|r Hs] Ho; [done| |];
    unfold is_open in Ho; rewrite Hs in Ho; discriminate.
Qed.

Section Step.
Context (c : Counter) (Hok : sales_ok c).

Lemma purchase_ids : NoDup (map Pur_ID (ct_purchases c)).
Proof. apply (list_keys Pur_ID purchase_key), Hok. Qed.

Lemma quota_ids : NoDup (map Quota_ID (ct_quotas c)).
Proof. apply (list_keys Quota_ID quota_key), Hok. Qed.

Lemma known_id p : p ∈ ct_purchases c -> Pur_ID p ∈ map Pur_ID (ct_purchases c).
Proof. intros Hp. by apply list_elem_of_In, in_map, list_elem_of_In. Qed.

(** The purchases after [p] became [p'] with the same terms. *)
Lemma replaced_ids p p' : same_terms p p' ->
  map Pur_ID (replaced Pur_ID p p' (ct_purchases c)) = map Pur_ID (ct_purchases c).
Proof.
  intros [E _]. unfold replaced. rewrite map_map. apply map_ext. intros a.
  destruct (Z.eqb_spec (Pur_ID a) (Pur_ID p)); congruence.
Qed.

(** Payments stay good as long as what is settled stays settled. *)
Lemma payment_good_moved p p' x :
  p ∈ ct_purchases c -> same_terms p p' -> is_settled p = false ->
  payment_good (ct_purchases c) x -> payment_good (replaced Pur_ID p p' (ct_purchases c)) x.
Proof.
  intros Hp Ht Hns Hx H1 H2. destruct (Hx H1 H2) as (z & Hz & E1 & E2 & E3).
  exists z. split; [|done]. apply replaced_other; [done|]. intros E.
  rewrite (NoDup_map_inj Pur_ID _ _ _ purchase_ids Hz Hp E) in E2. congruence.
Qed.

Lemma counted_moved p p' q q' z :
  p ∈ ct_purchases c -> same_terms p p' -> q ∈ ct_quotas c ->
  Quota_ID q' = Quota_ID q -> Quota_CustomerID q' = Quota_CustomerID q ->
  Quota_PackageCode q' = Quota_PackageCode q ->
  z ∈ replaced Pur_ID p p' (ct_purchases c) ->
  exists k, k ∈ replaced Quota_ID q q' (ct_quotas c) /\ counts_in k z = true.
Proof.
  intros Hp Ht Hq E1 E2 E3 Hz.
  assert (exists k, k ∈ ct_quotas c /\ counts_in k z = true) as (k & Hk & Hc).
  { apply replaced_elem in Hz as [->|[Hz _]]; [|by apply (so_counted _ Hok)].
    destruct (so_counted _ Hok _ Hp) as (k & Hk & Hc). exists k.
    by rewrite (counts_in_terms _ _ _ Ht). }
  destruct (decide (Quota_ID k = Quota_ID q)) as [Ek|Ek].
  - rewrite (NoDup_map_inj Quota_ID _ _ _ quota_ids Hk Hq Ek) in Hc. exists q'.
    split; [by apply replaced_in|]. unfold counts_in in *. by rewrite E2, E3.
  - exists k. split; [by apply replaced_other|done].
Qed.

(** The sums, when only the quota of [p] moved with it. *)
Lemma quotas_moved p p' q q' :
  row_of c p q -> same_terms p p' -> is_open p = true ->
  Quota_ID q' = Quota_ID q -> Quota_CustomerID q' = Quota_CustomerID q ->
  Quota_PackageCode q' = Quota_PackageCode q ->
  Quota_ReservedQuantity q' = Quota_ReservedQuantity q +
    ((if is_open p' then Pur_PackageQuantity p else 0) - Pur_PackageQuantity p) ->
  Quota_ConsumedQuantity q' = Quota_ConsumedQuantity q +
    (if is_settled p' then Pur_PackageQuantity p else 0) ->
  forall k, k ∈ replaced Quota_ID q q' (ct_quotas c) ->
  quota_good (replaced Pur_ID p p' (ct_purchases c)) k.
Proof.
  intros (Hp & Hq & Hc) Ht Ho E1 E2 E3 Hr Hs k Hk.
  pose proof (settled_open _ Ho) as Hns.
  apply replaced_elem in Hk as [->|[Hk Hne]].
  - assert (Hsame : forall st ps, packages_in st q' ps = packages_in st q ps).
    { intros. unfold packages_in, counts_in. by rewrite E2, E3. }
    destruct (so_quota _ Hok _ Hq) as [Q1 Q2].
    split; rewrite Hsame, (packages_in_moved _ _ _ _ _ purchase_ids Hp Ht), Hc.
    + rewrite Ho. lia.
    + rewrite Hns. lia.
  - assert (counts_in k p = false) as Hk0.
    { destruct (counts_in k p) eqn:E; [|done]. exfalso. apply Hne.
      by rewrite (counts_quota _ _ _ _ (so_quotas _ Hok) Hk Hq E Hc). }
    destruct (so_quota _ Hok _ Hk) as [Q1 Q2].
    split; rewrite (packages_in_moved _ _ _ _ _ purchase_ids Hp Ht), Hk0; lia.
Qed.

(** A purchase that was open moved, with its quota. *)
Lemma moved_ok p p' q q' c' :
  row_of c p q -> same_terms p p' -> is_open p = true ->
  Quota_ID q' = Quota_ID q -> Quota_CustomerID q' = Quota_CustomerID q ->
  Quota_PackageCode q' = Quota_PackageCode q ->
  Quota_ReservedQuantity q' = Quota_ReservedQuantity q +
    ((if is_open p' then Pur_PackageQuantity p else 0) - Pur_PackageQuantity p) ->
  Quota_ConsumedQuantity q' = Quota_ConsumedQuantity q +
    (if is_settled p' then Pur_PackageQuantity p else 0) ->
  ct_purchases c' = replaced Pur_ID p p' (ct_purchases c) ->
  ct_quotas c' = replaced Quota_ID q q' (ct_quotas c) ->
  ct_payments c' = ct_payments c -> ct_packages c' = ct_packages c ->
  ledger_ok (ct_assets c') -> tables_ok c' -> purchase_good c' p' ->
  (forall z, z ∈ ct_purchases c -> Pur_ID z <> Pur_ID p -> nothing_new c c' (Pur_ID z)) ->
  (forall l, l ∈ v_lots (ct_assets c') -> Lot_SourceType l = LotSourcePurchase ->
     Lot_PurchaseID l ∈ map Pur_ID (ct_purchases c)) ->
  (forall r, r ∈ ct_refunds c' -> WTR_PurchaseID r ∈ map Pur_ID (ct_purchases c)) ->
  sales_ok c'.
Proof.
  intros Hrow Ht Ho E1 E2 E3 Hr Hs Ep Eq Ex Ek Hl (T1 & T2 & T3 & T4) Hg Hn Hlots Hrefs.
  pose proof Hrow as (Hp & Hq & Hc).
  split; try done; rewrite ?Ep, ?Eq, ?Ex, ?Ek.
  - apply Hok.
  - intros z Hz. apply replaced_elem in Hz as [->|[Hz Hne]]; [done|].
    eapply purchase_good_frame; [by apply Hn|]. by apply Hok.
  - intros z Hz. by eapply (counted_moved p p' q q').
  - by apply (quotas_moved p p' q q').
  - intros x Hx. apply payment_good_moved; [done..|by apply settled_open|by apply Hok].
  - rewrite (replaced_ids _ _ Ht). done.
  - rewrite (replaced_ids _ _ Ht). done.
Qed.

Lemma replaced_self {R} (key : R -> Z) (x : R) l :
  NoDup (map key l) -> x ∈ l -> replaced key x x l = l.
Proof.
  intros Hnd Hx. unfold replaced. rewrite <- (map_id l) at 2. apply map_ext_in. intros a Ha.
  apply list_elem_of_In in Ha. destruct (Z.eqb_spec (key a) (key x)) as [E|E]; [|done].
  symmetry. by apply (NoDup_map_inj key _ _ _ Hnd).
Qed.

Lemma open_ok p q x now c' :
  q ∈ ct_quotas c -> counts_in q p = true -> Pur_Status p = PurchaseStatusPendingPayment ->
  unpaid p -> Pay_Status x <> "succeeded" ->
  c' = on_payments (ct_payments c ++ [x])
         (on_purchases (ct_purchases c ++ [p])
            (with_quota q (quota_reserved (Quota_ReservedQuantity q + Pur_PackageQuantity p) now q)
               c)) ->
  tables_ok c' -> sales_ok c'.
Proof.
  intros Hq Hc Hs Hu Hx -> (T1 & T2 & T3 & T4). simpl in T1, T2, T3, T4.
  assert (Hnew : Pur_ID p ∉ map Pur_ID (ct_purchases c)).
  { pose proof (list_keys Pur_ID purchase_key _ T2) as Hnd. rewrite map_app in Hnd.
    apply NoDup_app in Hnd as (_ & Hnd & _). intros Hin. by apply (Hnd _ Hin); left. }
  assert (Hopen : is_open p = true) by (unfold is_open; by rewrite Hs).
  split; simpl; try done; try apply Hok.
  - intros z Hz. apply elem_of_app in Hz as [Hz|Hz].
    + eapply purchase_good_frame; [by apply (nothing_new_same c)|]. by apply Hok.
    + apply list_elem_of_singleton in Hz as ->. apply good_unpaid; [by left|done| |].
      * intros l Hl. destruct (issued_for (Pur_ID p) l) eqn:E; [|done]. exfalso. apply Hnew.
        unfold issued_for in E. rewrite andb_true_iff, Z.eqb_eq, String.eqb_eq in E.
        destruct E as [<- E]. by apply (so_lots _ Hok).
      * intros r Hr E. apply Hnew. rewrite <- E. by apply (so_refunded _ Hok).
  - intros z Hz. apply elem_of_app in Hz as [Hz|Hz].
    + destruct (so_counted _ Hok _ Hz) as (k & Hk & Ek).
      destruct (decide (Quota_ID k = Quota_ID q)) as [Ei|Ei].
      * rewrite (NoDup_map_inj Quota_ID _ _ _ quota_ids Hk Hq Ei) in Ek.
        eexists. split; [by apply replaced_in|done].
      * exists k. split; [by apply replaced_other|done].
    + apply list_elem_of_singleton in Hz as ->. eexists. split; [by apply replaced_in|done].
  - intros k Hk. apply replaced_elem in Hk as [->|[Hk Hne]].
    + destruct (so_quota _ Hok _ Hq) as [Q1 Q2].
      assert (Hsame : forall st ps n, packages_in st (quota_reserved n now q) ps =
                                      packages_in st q ps) by done.
      split; rewrite Hsame; unfold packages_in in *; rewrite sum_quantity_app, sum_quantity_one, Hc.
      * rewrite Hopen. simpl. lia.
      * rewrite (settled_open _ Hopen). simpl. lia.
    + assert (counts_in k p = false) as Hk0.
      { destruct (counts_in k p) eqn:E; [|done]. exfalso. apply Hne.
        by rewrite (counts_quota _ _ _ _ (so_quotas _ Hok) Hk Hq E Hc). }
      destruct (so_quota _ Hok _ Hk) as [Q1 Q2].
      split; unfold packages_in in *; rewrite sum_quantity_app, sum_quantity_one, Hk0; simpl; lia.
  - intros y Hy. apply elem_of_app in Hy as [Hy|Hy].
    + intros H1 H2. destruct (so_paid _ Hok _ Hy H1 H2) as (z & Hz & E).
      exists z. split; [|done]. apply elem_of_app. by left.
    + apply list_elem_of_singleton in Hy as ->. intros H1. by destruct Hx.
  - intros l Hl E. rewrite map_app. apply elem_of_app. left. by apply (so_lots _ Hok).
  - intros r Hr. rewrite map_app. apply elem_of_app. left. by apply (so_refunded _ Hok).
Qed.

Lemma apart_ok c' : apart c c' -> sales_ok c'.
Proof.
  intros [A1 A2 A3 A4 A5 A6 A7 [A8 A9]].
  assert (Hn : forall id, nothing_new c c' id).
  { intros id. split; rewrite ?A7; try done. intros l' Hl' E. apply A3; [done|].
    unfold issued_for in E. rewrite andb_true_iff, String.eqb_eq in E. apply E. }
  split; rewrite ?A5, ?A6, ?A7; try done; try apply Hok.
  - intros p Hp. eapply purchase_good_frame; [apply Hn|]. by apply Hok.
  - intros x Hx H1 H2. by apply (so_paid _ Hok x (A9 _ Hx H1 H2)).
  - intros l' Hl' E. destruct (A3 _ Hl' E) as (l & Hl & Hs).
    destruct Hs as (_ & _ & _ & E4 & E5 & _). rewrite E4. apply (so_lots _ Hok); congruence.
Qed.
End Step.

Lemma one_of_In l s : one_of l s = true <-> In s l.
Proof.
  unfold one_of. rewrite existsb_exists. split.
  - intros (x & Hx & E). by apply String.eqb_eq in E as ->.
  - intros H. exists s. by rewrite String.eqb_refl.
Qed.

Lemma paid_after p s paidAt issuedAt now :
  paid_in_full (purchase_with p s (Pur_PayableAmount p) (Some paidAt) issuedAt now).
Proof. split; [done|by eexists]. Qed.

Lemma seed_ok c q :
  sales_ok c -> Quota_ReservedQuantity q = 0 -> Quota_ConsumedQuantity q = 0 ->
  list_ok (ct_quotas c ++ [q]) -> sales_ok (on_quotas (ct_quotas c ++ [q]) c).
Proof.
  intros Hok H1 H2 Hl.
  assert (Hnone : forall st, packages_in st q (ct_purchases c) = 0).
  { intros st. unfold packages_in, sum_quantity. rewrite filter_none; [done|].
    apply Forall_forall. intros p Hp. destruct (counts_in q p) eqn:E; [|done]. exfalso.
    destruct (so_counted _ Hok _ Hp) as (k & Hk & Ek).
    assert (k = q) as -> by (apply (counts_quota _ _ _ p Hl); auto; apply elem_of_app;
      [by left|right; by left]).
    pose proof (list_keys Quota_ID quota_key _ Hl) as Hnd. rewrite map_app in Hnd.
    apply NoDup_app in Hnd as (_ & Hnd & _). apply (Hnd (Quota_ID q)); [|by left].
    by apply list_elem_of_In, in_map, list_elem_of_In. }
  split; simpl; try done; try apply Hok.
  - intros p Hp. eapply purchase_good_frame; [by apply (nothing_new_same c)|]. by apply Hok.
  - intros p Hp. destruct (so_counted _ Hok _ Hp) as (k & Hk & Ek). exists k.
    split; [apply elem_of_app; by left|done].
  - intros k Hk. apply elem_of_app in Hk as [Hk|Hk]; [by apply Hok|].
    apply list_elem_of_singleton in Hk as ->. split; by rewrite Hnone.
Qed.

Lemma payment_step_ok c x y c' :
  sales_ok c -> payment_good (ct_purchases c) y ->
  c' = on_payments (replaced Pay_ID x y (ct_payments c)) c -> tables_ok c' -> sales_ok c'.
Proof.
  intros Hok Hy -> (T1 & T2 & T3 & T4). split; simpl; try done; try apply Hok.
  - intros p Hp. eapply purchase_good_frame; [by apply (nothing_new_same c)|]. by apply Hok.
  - intros z Hz. apply replaced_elem in Hz as [->|[Hz _]]; [done|]. by apply Hok.
Qed.

Lemma issued_for_id id l : issued_for id l = true -> Lot_PurchaseID l = id.
Proof. unfold issued_for. rewrite andb_true_iff, Z.eqb_eq. tauto. Qed.

(** The invariant is kept by every step. *)
Lemma sale_step_ok c c' : sale_step c c' -> sales_ok c -> sales_ok c'.
Proof.
  intros H Hok. destruct H as
    [q H1 H2 H3|p q x now c' H1 H2 H3 H4 H5 H6 H7
    |p q lot t paidAt now v c' Hrow Ho Hle Hv Hext Hnew -> Hli Hfor Ht
    |p q r paidAt now c' Hrow Ho Hle R1 R2 R3 R4 R5 -> Ht
    |p q now c' Hrow Ho Hle -> Ht|p status now c' Hp Hst -> Ht
    |x y c' H1 H2 H3 H4 H5|c' H1].
  - by apply seed_ok.
  - by apply (open_ok c Hok p q x now).
  - pose proof (known_id c _ (proj1 Hrow)) as Hid.
    destruct (good_of_open _ _ (so_good _ Hok _ (proj1 Hrow)) Ho) as (_ & _ & Hnr).
    apply (moved_ok c Hok p (purchase_issued (Pur_PayableAmount p) paidAt now p) q
             (quota_consumed p now q)); try done; simpl; try lia.
    + by apply (good_issued _ _ lot t); [|apply paid_after| |].
    + intros z Hz Hne. split; simpl; try done. intros l Hl E.
      destruct (Hnew _ Hl) as [->|Hl']; [|eauto using same_lot_refl]. exfalso. apply Hne.
      apply issued_for_id in E, Hfor. congruence.
    + intros l Hl E. destruct (Hnew _ Hl) as [->|Hl']; [|by apply (so_lots _ Hok)].
      by rewrite (issued_for_id _ _ Hfor).
    + apply Hok.
  - pose proof (known_id c _ (proj1 Hrow)) as Hid.
    destruct (good_of_open _ _ (so_good _ Hok _ (proj1 Hrow)) Ho) as (_ & Hnl & Hnr).
    apply (moved_ok c Hok p (purchase_refunding (Pur_PayableAmount p) paidAt now p) q
             (quota_consumed p now q)); try done; simpl; try lia.
    + apply Hok.
    + apply (good_refunding _ _ r); [done|apply paid_after|exact Hnl|]. split; simpl.
      * apply elem_of_app. right. by left.
      * intros r' Hr' E. apply elem_of_app in Hr' as [Hr'|Hr'].
        -- by apply Hnr in Hr'.
        -- by apply list_elem_of_singleton in Hr' as ->.
      * done.
    + intros z Hz Hne. split; simpl; eauto using extends_refl, same_lot_refl.
      * intros r' Hr' E. apply elem_of_app in Hr' as [Hr'|Hr']; [done|].
        apply list_elem_of_singleton in Hr' as ->. congruence.
      * intros r' Hr'. apply elem_of_app. by left.
    + apply Hok.
    + intros r' Hr'. apply elem_of_app in Hr' as [Hr'|Hr']; [by apply (so_refunded _ Hok)|].
      apply list_elem_of_singleton in Hr' as ->. by rewrite R1.
  - destruct (good_of_open _ _ (so_good _ Hok _ (proj1 Hrow)) Ho) as (Hu & Hnl & Hnr).
    apply (moved_ok c Hok p (purchase_moved PurchaseStatusClosed now p) q
             (quota_released p now q)); try done; simpl; try lia.
    + apply Hok.
    + apply good_unpaid; [by right|done..].
    + intros z Hz Hne. by apply nothing_new_same.
    + apply Hok.
    + apply Hok.
  - assert (Ho : is_open p = true) by (unfold is_open; by inversion Hst).
    destruct (good_of_open _ _ (so_good _ Hok _ Hp) Ho) as (Hu & Hnl & Hnr).
    destruct (so_counted _ Hok _ Hp) as (q & Hq & Hc).
    assert (Hopen : is_open (purchase_moved status now p) = true).
    { unfold is_open. simpl. by inversion Hst. }
    apply (moved_ok c Hok p (purchase_moved status now p) q q); try done; simpl.
    + rewrite Hopen. lia.
    + rewrite (settled_open _ Hopen). lia.
    + by rewrite replaced_self; [|apply quota_ids|].
    + apply Hok.
    + apply good_unpaid; [by left|done..].
    + intros z Hz Hne. by apply nothing_new_same.
    + apply Hok.
    + apply Hok.
  - by apply (payment_step_ok c x y).
  - by apply (apart_ok c).
Qed.
