(* ===== verification/PurchaseRuns.v ===== *)
(** * What the purchase operations do to the books

    Each settlement of a payment is one abstract step of [PurchaseBooks], or
    none; so is each transaction of a purchase. *)

From S2P Require Import Prelude GoInt GoString GoTime Json Problem RequestCtx.
From S2P Require Import CoreModel AssetService GiftModel RedemptionModel PurchaseModel AssetLaws.
From S2P Require Import AssetLedger Database FulfilmentTables PurchaseTables Steps AssetRepository.
From S2P Require Import IntegrityScan AssetTheorems LedgerEntries Samples Idempotency GiftDto.
From S2P Require Import GiftInvariant GiftRepository GiftService RedemptionDto PurchaseDto.
From S2P Require Import PurchaseRepository BusinessPayment RedemptionService RedemptionBooks.
From S2P Require Import AssetFrame PurchaseSettlement PurchaseService PurchaseBooks.
From Stdlib Require Import String.
#[local] Open Scope string_scope. #[local] Open Scope list_scope. #[local] Open Scope Z_scope.
#[local] Open Scope go_scope.

(** ** Statements beside the books *)

Abbreviation aside := (keep counter).

#[export] Hint Extern 2 (steps_any (keep counter) (create_row _)) =>
  apply steps_any_create; [exact _|intros; reflexivity] : steps.
#[export] Hint Extern 2 (steps_any (keep counter) (create_or_ignore _)) =>
  apply steps_any_create_or_ignore; [exact _|intros; reflexivity] : steps.
#[export] Hint Extern 2 (steps_any (keep counter) (update_rows _ _)) =>
  apply steps_any_update; [exact _|intros; reflexivity] : steps.

Lemma aside_now : steps_any aside nowShanghai.
Proof. unfold nowShanghai. go_steps. Qed.

Lemma aside_take_from {A} (q : Database -> option A) : steps_any aside (take_from q).
Proof.
  apply steps_any_exec; [exact _|]. intros db a db' E. destruct (q db); [|done]. by simplify_eq.
Qed.

Lemma aside_or_missing {A} e (m : G A) : steps_any aside m -> steps_any aside (or_missing e m).
Proof.
  intros Hm w r w' H. unfold or_missing, attempt, bind in H.
  destruct (m w) as [[a|e'] w1] eqn:E; apply Hm in E; unfold ret, throw in H; by simplify_eq.
Qed.

Lemma aside_or_error {A} e (m : G A) : steps_any aside m -> steps_any aside (or_error e m).
Proof.
  intros Hm w r w' H. unfold or_error, attempt, bind in H.
  destruct (m w) as [[a|e'] w1] eqn:E; apply Hm in E; unfold ret, throw in H; by simplify_eq.
Qed.

#[export] Hint Resolve aside_now aside_take_from : steps.

Lemma settlement_audit_aside ctx a id f t d :
  steps aside (createSettlementAudit ctx a id f t d).
Proof. unfold createSettlementAudit, createAudit. go_steps. Qed.

Lemma wine_outbox_aside ctx ty agg id d : steps aside (createWineTicketOutbox ctx ty agg id d).
Proof. unfold createWineTicketOutbox, wine_ticket_event, createOutbox. go_steps. Qed.

Lemma customer_audit_aside ctx id a ty rid b d :
  steps aside (createCustomerAudit ctx id a ty rid b d).
Proof. unfold createCustomerAudit, createAudit. go_steps. Qed.

Lemma payment_event_aside ctx ty agg id d : steps aside (payment_event ctx ty agg id d).
Proof. unfold payment_event, createOutbox. go_steps. Qed.

#[export] Hint Resolve settlement_audit_aside wine_outbox_aside customer_audit_aside
  payment_event_aside : steps.

(** The books of a database that only wrote beside them. *)
Lemma steps_run {A} (m : G A) w a w' c :
  steps aside m -> m w = (Ok a, w') -> counter (w_db w) = c -> counter (w_db w') = c.
Proof. intros Hm H <-. exact (Hm _ _ _ H). Qed.

Lemma steps_any_run {A} (m : G A) w r w' c :
  steps_any aside m -> m w = (r, w') -> counter (w_db w) = c -> counter (w_db w') = c.
Proof. intros Hm H <-. exact (Hm _ _ _ H). Qed.

(** [beside R E]: the run [R] wrote beside the books, which [E] names. *)
Ltac beside R E :=
  first [ eapply steps_run in R; [|solve [eauto 3 with steps]|exact E]
        | eapply steps_any_run in R; [|solve [eauto 3 with steps]|exact E] ];
  clear E; rename R into E.

(** ** Statements on the books *)

Section Statements.
Context (c : Counter).

Lemma update_quota_ok id f q w u w' :
  UpdatePurchaseQuota id f w = (Ok u, w') -> counter (w_db w) = c -> tables_ok c ->
  q ∈ ct_quotas c -> Quota_ID q = id ->
  counter (w_db w') = with_quota q (f q) c /\ tables_ok (with_quota q (f q) c).
Proof.
  intros H <- (T1 & T2 & T3 & T4) Hq <-. unfold UpdatePurchaseQuota in H. run_step H.
  apply ret_ok_inv in H as [_ ->].
  eapply (update_this_row Quota_ID quota_key _ f q) in R as [Hdb Hl]; [|exact T1|exact Hq| |].
  - rewrite Hdb. split; [reflexivity|exact (conj Hl (conj T2 (conj T3 T4)))].
  - apply Z.eqb_refl.
  - intros r E. by apply Z.eqb_eq in E.
Qed.

Lemma update_purchase_ok id f p w u w' :
  UpdatePurchase id f w = (Ok u, w') -> counter (w_db w) = c -> tables_ok c ->
  p ∈ ct_purchases c -> Pur_ID p = id ->
  counter (w_db w') = with_purchase p (f p) c /\ tables_ok (with_purchase p (f p) c).
Proof.
  intros H <- (T1 & T2 & T3 & T4) Hp <-. unfold UpdatePurchase in H. run_step H.
  apply ret_ok_inv in H as [_ ->].
  eapply (update_this_row Pur_ID purchase_key _ f p) in R as [Hdb Hl]; [|exact T2|exact Hp| |].
  - rewrite Hdb. split; [reflexivity|exact (conj T1 (conj Hl (conj T3 T4)))].
  - apply Z.eqb_refl.
  - intros r E. by apply Z.eqb_eq in E.
Qed.

Lemma update_payment_ok id f x w u w' :
  UpdatePayment id f w = (Ok u, w') -> counter (w_db w) = c -> tables_ok c ->
  x ∈ ct_payments c -> Pay_ID x = id ->
  exists now,
    let y := payment_stamped (Pay_CreatedAt x) now (f x) in
    let c' := on_payments (replaced Pay_ID x y (ct_payments c)) c in
    counter (w_db w') = c' /\ tables_ok c'.
Proof.
  intros H <- (T1 & T2 & T3 & T4) Hx <-. unfold UpdatePayment in H. run_step H.
  apply time_now_db in R. run_step H. apply ret_ok_inv in H as [_ ->]. exists a.
  rewrite <- R in *.
  eapply (update_this_row Pay_ID payment_key _
            (fun p => payment_stamped (Pay_CreatedAt p) a (f p)) x) in R0 as [Hdb Hl];
    [|exact T4|exact Hx| |].
  - rewrite Hdb. split; [reflexivity|exact (conj T1 (conj T2 (conj T3 Hl)))].
  - apply Z.eqb_refl.
  - intros r E. by apply Z.eqb_eq in E.
Qed.

Lemma create_quota_ok q w u w' :
  EnsurePurchaseQuota q w = (Ok u, w') -> counter (w_db w) = c -> tables_ok c ->
  counter (w_db w') = c \/
  counter (w_db w') = on_quotas (ct_quotas c ++ [q]) c /\ list_ok (ct_quotas c ++ [q]).
Proof.
  intros H <- (T1 & _). apply create_or_ignore_ok in H as [Hc [[Hdb Hno]|[Hdb _]]]; rewrite Hdb;
    [right|by left].
  split; [done|]. by apply (table_create_rows (ct_quotas (counter (w_db w))) q quota_conflict_sym);
    [apply T1..| |].
Qed.

Lemma create_purchase_ok p w u w' :
  createPurchase p w = (Ok u, w') -> counter (w_db w) = c -> tables_ok c ->
  counter (w_db w') = on_purchases (ct_purchases c ++ [p]) c /\
  tables_ok (on_purchases (ct_purchases c ++ [p]) c).
Proof.
  intros H <- (T1 & T2 & T3 & T4).
  apply (create_one_row Pur_ID purchase_key purchase_conflict_sym) in H as (Hdb & Hl & _); [|done].
  rewrite Hdb. split; [reflexivity|exact (conj T1 (conj Hl (conj T3 T4)))].
Qed.

Lemma create_refund_ok r common w u w' :
  createIssuanceCompensationRefund r common w = (Ok u, w') -> counter (w_db w) = c ->
  tables_ok c ->
  counter (w_db w') = on_refunds (ct_refunds c ++ [r]) c /\
  tables_ok (on_refunds (ct_refunds c ++ [r]) c).
Proof.
  unfold createIssuanceCompensationRefund. intros H <- (T1 & T2 & T3 & T4). run_step H.
  apply (create_one_row WTR_ID ticket_refund_key ticket_refund_conflict_sym) in R as (Hdb & Hl & _);
    [|done].
  eapply steps_any_run in H; [|solve [eauto 3 with steps]|reflexivity].
  rewrite H, Hdb. split; [reflexivity|exact (conj T1 (conj T2 (conj Hl T4)))].
Qed.
End Statements.

Lemma sales_tables c : sales_ok c -> tables_ok c.
Proof. intros Hok. split; [apply Hok|]. split; [apply Hok|]. split; apply Hok. Qed.

(** ** [lockedSettlementRows] *)

Record locked_rows (c : Counter) (fact : PaymentSettlementFact) (p : Purchase)
    (q : PurchaseQuota) (s : purchasePackageSnapshot) : Prop := {
  lr_purchase : p ∈ ct_purchases c;
  lr_quota : q ∈ ct_quotas c;
  lr_counts : counts_in q p = true;
  lr_id : Pur_ID p = PFact_BizID fact;
  lr_payment : Pur_PaymentID p = PFact_PaymentID fact;
  lr_customer : Pur_CustomerID p = PFact_CustomerID fact;
  lr_amount : Pur_PayableAmount p = PFact_Amount fact;
  lr_snapshot : parsePurchaseSnapshot (Pur_PackageSnapshot p) = Ok s;
}.

Lemma take_from_ok {A} (f : Database -> option A) w a w' :
  take_from f w = (Ok a, w') -> w_db w' = w_db w /\ f (w_db w) = Some a.
Proof.
  intros H. apply exec_ok in H. destruct (f (w_db w)); [|discriminate]. by injection H as -> ->.
Qed.

Lemma locked_counter fact w p q s w' c :
  lockedSettlementRows fact w = (Ok (p, q, s), w') -> counter (w_db w) = c ->
  counter (w_db w') = c /\ locked_rows c fact p q s.
Proof.
  unfold lockedSettlementRows. intros H <-. run_step H. run_step H. run_step H. run_step H.
  run_step H. apply ret_ok_inv in H as [[= -> -> ->] ->].
  apply take_row_ok in R as (D1 & Hp & Ep). apply take_row_ok in R0 as (D2 & Hq & Eq).
  rewrite !orb_false_iff, !negb_false_iff in G0. destruct G0 as [[[P1 P2] P3] P4].
  rewrite andb_true_iff in Eq. destruct Eq as [Q1 Q2].
  split; [congruence|]. rewrite D1 in Hq. split; try lia; try done.
  unfold counts_in, purchase_code. rewrite E, String.eqb_sym.
  apply andb_true_iff. split; [lia|done].
Qed.

(** ** [ApplyException] *)

(** A payment whose state cannot be settled marks an open purchase. *)
Inductive exception_effect (c : Counter) (p : Purchase) : Counter -> Prop :=
| exception_known :
    is_open p = false \/ Pur_Status p = PurchaseStatusSettlementException ->
    exception_effect c p c
| exception_marked now c' :
    in_doubt (Pur_Status p) PurchaseStatusSettlementException ->
    c' = with_purchase p (purchase_moved PurchaseStatusSettlementException now p) c ->
    tables_ok c' -> exception_effect c p c'.

Lemma ApplyException_ok ctx fact reason w w' c :
  purchase_ApplyException ctx fact reason w = (Ok tt, w') -> counter (w_db w) = c -> sales_ok c ->
  exists p q s, locked_rows c fact p q s /\ exception_effect c p (counter (w_db w')).
Proof.
  unfold purchase_ApplyException. intros H Ec Hok. run_step H. destruct a as [[p q] s].
  eapply locked_counter in R as [E1 Hl]; [|exact Ec]. exists p, q, s. split; [done|].
  run_case H; run_step H.
  - rewrite E1. apply exception_known. apply one_of_In in B. simpl in B. unfold is_open.
    destruct B as [B|[B|[B|[B|[B|[B|[]]]]]]]; rewrite <- B; auto.
  - rewrite negb_false_iff in G. run_step H. beside R E1. run_step H.
    eapply update_purchase_ok in R as [E2 Ht];
      [|exact E1|by apply sales_tables|apply Hl|done].
    beside H E2. apply (exception_marked _ p a); [|exact E2|by rewrite E2].
    apply one_of_In in G. simpl in G. destruct G as [<-|[<-|[]]]; constructor.
Qed.

(** ** [ApplyTerminal] *)

Lemma quota_bounds c q : sales_ok c -> q ∈ ct_quotas c ->
  0 <= Quota_ReservedQuantity q < 2 ^ 32 /\ 0 <= Quota_ConsumedQuantity q < 2 ^ 32.
Proof.
  intros Hok Hq. destruct (so_quotas _ Hok) as [_ Hr]. rewrite Forall_forall in Hr.
  specialize (Hr _ Hq). simpl in Hr. rewrite !andb_true_iff, !fits_uint32_spec in Hr. tauto.
Qed.

Lemma purchase_bounds c p : sales_ok c -> p ∈ ct_purchases c ->
  0 < Pur_PackageQuantity p < 2 ^ 32 /\ 0 <= Pur_TotalBottleQuantity p < 2 ^ 32.
Proof.
  intros Hok Hp. destruct (so_purchases _ Hok) as [_ Hr]. rewrite Forall_forall in Hr.
  specialize (Hr _ Hp). simpl in Hr. unfold purchase_row_check in Hr.
  rewrite !andb_true_iff, !fits_uint32_spec in Hr. lia.
Qed.

(** The arithmetic of a reservation does not wrap. *)
Lemma reservation_exact c p q : sales_ok c -> row_of c p q ->
  Pur_PackageQuantity p <= Quota_ReservedQuantity q ->
  uint_sub (Quota_ReservedQuantity q) (Pur_PackageQuantity p) =
    Quota_ReservedQuantity q - Pur_PackageQuantity p /\
  uint_add (Quota_ConsumedQuantity q) (Pur_PackageQuantity p) =
    Quota_ConsumedQuantity q + Pur_PackageQuantity p.
Proof.
  intros Hok (Hp & Hq & _) Hle. destruct (quota_bounds _ _ Hok Hq) as [B1 B2].
  destruct (purchase_bounds _ _ Hok Hp) as [B3 _].
  split; [apply uint_sub_small|apply uint_add_small]; unfold in_u64, u64_mod; lia.
Qed.

Lemma locked_row_of c fact p q s : locked_rows c fact p q s -> row_of c p q.
Proof. intros []. by repeat split. Qed.

Lemma release_ok c p q now w u w' :
  release_reservation p q now w = (Ok u, w') -> counter (w_db w) = c -> sales_ok c ->
  row_of c p q -> Pur_PackageQuantity p <= Quota_ReservedQuantity q ->
  counter (w_db w') = with_quota q (quota_released p now q) c /\
  tables_ok (with_quota q (quota_released p now q) c).
Proof.
  intros H Ec Hok Hr Hle. unfold release_reservation in H.
  destruct (reservation_exact _ _ _ Hok Hr Hle) as [E _]. rewrite E in H.
  by eapply (update_quota_ok c _ _ q) in H; [|exact Ec|apply sales_tables|apply Hr|].
Qed.

Lemma consume_reservation_ok c c0 p q now w u w' :
  consume_reservation p q now w = (Ok u, w') -> counter (w_db w) = c -> tables_ok c ->
  ct_quotas c = ct_quotas c0 -> sales_ok c0 -> row_of c0 p q ->
  Pur_PackageQuantity p <= Quota_ReservedQuantity q ->
  counter (w_db w') = with_quota q (quota_consumed p now q) c /\
  tables_ok (with_quota q (quota_consumed p now q) c).
Proof.
  intros H Ec Ht Eq Hok Hr Hle. unfold consume_reservation in H.
  destruct (reservation_exact _ _ _ Hok Hr Hle) as [E1 E2]. rewrite E1, E2 in H.
  eapply (update_quota_ok c _ _ q) in H; [exact H|exact Ec|done|rewrite Eq; apply Hr|done].
Qed.

(** A payment that ended frees what an open purchase reserved. *)
Inductive terminal_effect (c : Counter) (p : Purchase) (q : PurchaseQuota) : Counter -> Prop :=
| terminal_known : is_open p = false -> terminal_effect c p q c
| terminal_closed now c' :
    is_open p = true -> Pur_PackageQuantity p <= Quota_ReservedQuantity q ->
    c' = with_purchase p (purchase_moved PurchaseStatusClosed now p)
           (with_quota q (quota_released p now q) c) ->
    tables_ok c' -> terminal_effect c p q c'.

Lemma ApplyTerminal_ok ctx fact w w' c :
  purchase_ApplyTerminal ctx fact w = (Ok tt, w') -> counter (w_db w) = c -> sales_ok c ->
  exists p q s, locked_rows c fact p q s /\ terminal_effect c p q (counter (w_db w')).
Proof.
  unfold purchase_ApplyTerminal. intros H Ec Hok. run_step H. destruct a as [[p q] s].
  eapply locked_counter in R as [E1 Hl]; [|exact Ec]. exists p, q, s. split; [done|].
  pose proof (locked_row_of _ _ _ _ _ Hl) as Hrow.
  run_case H; run_step H.
  - rewrite E1. apply terminal_known. by rewrite negb_true_iff in B.
  - rewrite negb_false_iff in B. run_step H. beside R E1. run_step H. run_step H.
    eapply release_ok in R as [E2 T2]; [|exact E1|done|exact Hrow|lia].
    eapply update_purchase_ok in R0 as [E3 T3]; [|exact E2|done|apply Hrow|done].
    beside H E3. apply (terminal_closed _ p q a); [exact B|lia|exact E3|by rewrite E3].
Qed.

(** ** [ApplySuccess] *)

Lemma verify_aside p : steps aside (verifyIssuedPurchase p).
Proof.
  unfold verifyIssuedPurchase, PurchaseLot, transactionByActionKey.
  apply steps_bind; [exact _|apply steps_any_steps, aside_or_error; auto with steps|]. intros lot.
  apply steps_bind; [exact _|apply steps_any_steps, aside_or_error; auto with steps|]. intros t.
  go_steps.
Qed.
#[export] Hint Resolve verify_aside : steps.

(** The lot a purchase was issued, when there is one. *)
Lemma purchase_lot_found id w lot w' :
  PurchaseLot id w = (Ok lot, w') ->
  w_db w' = w_db w /\ lot ∈ db_lots (w_db w) /\ issued_for id lot = true.
Proof.
  unfold PurchaseLot. intros H. apply take_from_ok in H as [Hdb H]. split; [done|].
  apply (selected_rows (by_keys [Lot_ID])).
  unfold issued_for. destruct (sort_by _ _); [done|]. injection H as ->. by left.
Qed.

Lemma find_lot_aside id : steps_any aside (PurchaseLot id).
Proof. unfold PurchaseLot. auto with steps. Qed.
#[export] Hint Resolve find_lot_aside : steps.

Lemma add_days_ms t d : truncate_ms (add_days (truncate_ms t) d) = add_days (truncate_ms t) d.
Proof.
  unfold add_days, truncate_ms at 1. rewrite Z.add_mod by done.
  assert (truncate_ms t mod millisecond = 0) as ->.
  { pose proof (truncate_ms_idemp t) as E. unfold truncate_ms at 1 in E. lia. }
  replace (i64 d * (24 * hour)) with (i64 d * (24 * hour / millisecond) * millisecond).
  - rewrite Z.mod_mul by done. change (0 + 0) with 0. rewrite Z.mod_0_l by done. lia.
  - rewrite <- Z.mul_assoc. done.
Qed.

(** What the issue of the lot of an open purchase does to the assets. *)
Record lot_written (c : Counter) (p : Purchase) (expiresAt now : time) (v : AssetView) (lot : Lot) (t : Transaction) : Prop := {
  lw_id : exists lotID newID now', lot = issued_lot (purchase_lot p lotID expiresAt now) newID now' /\
            Tx_ActionKey t = purchaseIssueActionKey (Pur_ID p) lotID /\
            (Lot_ID lot = lotID \/ lotID = 0);
  lw_full : Lot_TotalQuantity lot = Pur_TotalBottleQuantity p /\
            Lot_AvailableQuantity lot = Pur_TotalBottleQuantity p /\ Lot_Status lot = LotStatusActive;
  lw_entry : Tx_LotID t = Lot_ID lot /\ Tx_OwnerCustomerID t = Pur_CustomerID p /\
             Tx_TransactionType t = TransactionTypePurchaseIssue /\
             Tx_QuantityDelta t = Pur_TotalBottleQuantity p /\ Tx_BeforeAvailableQuantity t = 0 /\
             Tx_AfterAvailableQuantity t = Pur_TotalBottleQuantity p /\
             Tx_BizType t = "purchase" /\ Tx_BizID t = Pur_ID p;
  lw_new : forall l, l ∈ v_lots (ct_assets c) -> Lot_ID l <> Lot_ID lot;
  lw_view : v = {| v_lots := v_lots (ct_assets c) ++ [lot];
                   v_ledger := v_ledger (ct_assets c) ++ [t] |};
  lw_ok : ledger_ok v;
}.

Lemma counter_frame db db' :
  blank_assets db' = blank_assets db -> counter db' = on_assets (view_db db') (counter db).
Proof.
  intros E. pose proof (f_equal counter E) as Ec. unfold counter, on_assets in *. simpl in *.
  congruence.
Qed.

Lemma issue_lot_ok ctx p s paidAt expiresAt now w lot w' c :
  issue_purchase_lot ctx p s paidAt expiresAt now w = (Ok lot, w') ->
  counter (w_db w) = c -> sales_ok c -> p ∈ ct_purchases c -> is_open p = true ->
  exists v t, counter (w_db w') = on_assets v c /\ lot_written c p expiresAt now v lot t.
Proof.
  unfold issue_purchase_lot. intros H <- Hok Hp Ho.
  assert (Ec : counter (w_db w) = counter (w_db w)) by done.
  destruct (good_of_open _ _ (so_good _ Hok _ Hp) Ho) as (_ & Hnl & _).
  run_step H. destruct a as [l|e].
  { exfalso. apply purchase_lot_found in R as (_ & Hl & Hf). rewrite Hnl in Hf; [done|].
    exact Hl. }
  beside R Ec. run_step H. run_step H. rename a into lotID. beside R Ec. run_step H.
  apply ret_ok_inv in H as [-> <-]. pose proof (purchase_bounds _ _ Hok Hp) as [_ Hb].
  set (cmd := issue_command p s (purchase_lot p lotID expiresAt now) paidAt now) in *.
  assert (Hreq : issue_request_ok (Issue_Lot cmd)) by (split; [simpl; lia|by right]).
  pose proof (Issue_refines asset_view asset_frame NewTransactionAssetRepository next_id time_now
                _ _ _ _ _ R Hreq) as [Hstep _].
  destruct (Issue_ok asset_view asset_frame NewTransactionAssetRepository next_id time_now
              _ _ _ _ _ R Hreq) as [Hf [(Hv & Hr & Hs)|(lot & t & Hd)]].
  - exfalso. destruct Hr as [_ Hin _ _]. unfold sameLotLineage in Hs. simpl in Hs.
    assert (issued_for (Pur_ID p) (Mutation_Lot a) = true) as E.
    { unfold issued_for. rewrite !andb_true_iff in Hs. apply andb_true_iff. tauto. }
    rewrite Hnl in E; [done|]. by rewrite <- Ec.
  - destruct Hd as [(newID & now' & Hlot) [Hfull _] Hact Hnew _ _ _ He Hm Hview].
    rewrite Hm in *. simpl.
    exists (asset_view w'), t. split.
    + rewrite <- Ec. by apply counter_frame.
    + destruct He as [He1 He2 He3 He4 He5 He6 [He7 He8] He9 _ _].
      assert (Hq : Lot_TotalQuantity lot = Pur_TotalBottleQuantity p) by by rewrite Hlot.
      split.
      * exists lotID, newID, now'. split; [done|]. split; [done|]. rewrite Hlot. simpl.
        destruct (Z.eqb_spec lotID 0); [by right|by left].
      * split; [done|]. split; [congruence|].
        exact Hact.
      * rewrite Hq in He4, He6. split; [done|]. split; [by rewrite He2, Hlot|done].
      * intros l Hl. apply Hnew. rewrite <- Ec in Hl. exact Hl.
      * rewrite Hview, <- Ec. reflexivity.
      * eapply ledger_step_ok; [exact Hstep|]. pose proof (so_ledger _ Hok) as Hl.
        rewrite <- Ec in Hl. exact Hl.
Qed.

(** The evidence of the lot that was just written. *)
Lemma lot_written_issued c p s paidAt0 now v lot t c' :
  let paidAt := truncate_ms paidAt0 in
  let p' := purchase_issued (Pur_PayableAmount p) paidAt now p in
  sales_ok c -> p ∈ ct_purchases c -> is_open p = true ->
  parsePurchaseSnapshot (Pur_PackageSnapshot p) = Ok s ->
  lot_written c p (add_days paidAt (Snap_ValidityDays s)) now v lot t ->
  ct_assets c' = v -> lot_issued c' p' lot t /\ issued_for (Pur_ID p) lot = true.
Proof.
  intros paidAt p' Hok Hp Ho Es [(lotID & newID & now' & Hlot & Hkey & Hid) (Hq & _) He Hnew Hv _] Ea.
  destruct (good_of_open _ _ (so_good _ Hok _ Hp) Ho) as (_ & Hnl & _).
  pose proof (purchase_bounds _ _ Hok Hp) as [_ Hb].
  assert (Hfor : issued_for (Pur_ID p) lot = true).
  { rewrite Hlot. unfold issued_for. simpl. by rewrite Z.eqb_refl. }
  split; [|done]. split; rewrite ?Ea, ?Hv; simpl.
  - apply elem_of_app. right. by left.
  - intros l Hl E. apply elem_of_app in Hl as [Hl|Hl]; [by rewrite (Hnl _ Hl) in E|].
    by apply list_elem_of_singleton in Hl as ->.
  - apply elem_of_app. right. by left.
  - exists s, paidAt. split; [done|]. split; [done|].
    destruct Hid as [Hid| ->]; [right|left; exact Hkey].
    destruct He as (He1 & He2 & He3 & He4 & He5 & He6 & He7 & He8).
    unfold validPurchaseIssueEvidence, p', purchase_issued, purchase_with. cbn -[add_days i64].
    rewrite He1, He2, He3, He4, He5, He6, He7, He8, Hkey, Hid, Hq.
    rewrite Hlot. cbn -[add_days i64].
    unfold paidAt. rewrite truncate_ms_idemp, i64_small by int_range.
    unfold time_equal. rewrite !Z.eqb_refl, !String.eqb_refl. reflexivity.
Qed.

(** What a payment that succeeded did to the books. *)
Inductive success_effect (c : Counter) (fact : PaymentSettlementFact) (p : Purchase)
    (q : PurchaseQuota) (s : purchasePackageSnapshot) : Counter -> Prop :=
| success_again : Pur_Status p = PurchaseStatusIssued -> success_effect c fact p q s c
| success_issued v lot t providerPaidAt now c' :
    is_open p = true -> Pur_PackageQuantity p <= Quota_ReservedQuantity q ->
    PFact_PaidAt fact = Some providerPaidAt ->
    let paidAt := truncate_ms providerPaidAt in
    let expiresAt := add_days paidAt (Snap_ValidityDays s) in
    now < expiresAt -> lot_written c p expiresAt now v lot t ->
    c' = with_purchase p (purchase_issued (Pur_PayableAmount p) paidAt now p)
           (with_quota q (quota_consumed p now q) (on_assets v c)) ->
    tables_ok c' -> success_effect c fact p q s c'
| success_late r providerPaidAt now c' :
    is_open p = true -> Pur_PackageQuantity p <= Quota_ReservedQuantity q ->
    PFact_PaidAt fact = Some providerPaidAt ->
    let paidAt := truncate_ms providerPaidAt in
    add_days paidAt (Snap_ValidityDays s) <= now ->
    WTR_PurchaseID r = Pur_ID p -> WTR_CustomerID r = Pur_CustomerID p ->
    WTR_RefundKind r = RefundKindIssueCompensation -> WTR_Status r = RefundStatusHolding ->
    WTR_Amount r = Pur_PayableAmount p ->
    c' = with_purchase p (purchase_refunding (Pur_PayableAmount p) paidAt now p)
           (with_quota q (quota_consumed p now q) (on_refunds (ct_refunds c ++ [r]) c)) ->
    tables_ok c' -> success_effect c fact p q s c'.

Lemma check_reservation_ok p q : check_reservation p q = Ok tt ->
  Pur_PackageQuantity p <= Quota_ReservedQuantity q.
Proof. unfold check_reservation. destruct (_ <? _) eqn:E; [done|]. lia. Qed.

Lemma fact_counts_aside id : steps_any aside (issuanceCompensationFactCounts id).
Proof.
  unfold issuanceCompensationFactCounts. go_steps.
  apply steps_any_exec; [exact _|]. intros db0 x db1 E. by simplify_eq.
Qed.
#[export] Hint Resolve fact_counts_aside : steps.

Lemma issue_purchase_ok ctx p q s fact providerPaidAt now w w' c :
  let paidAt := truncate_ms providerPaidAt in
  let expiresAt := add_days paidAt (Snap_ValidityDays s) in
  issue_purchase ctx p q s fact paidAt expiresAt now w = (Ok tt, w') ->
  counter (w_db w) = c -> sales_ok c -> locked_rows c fact p q s -> is_open p = true ->
  PFact_PaidAt fact = Some providerPaidAt -> now < expiresAt ->
  success_effect c fact p q s (counter (w_db w')).
Proof.
  intros paidAt expiresAt H <- Hok Hl Ho Hpaid Hlate. pose proof (locked_row_of _ _ _ _ _ Hl) as Hrow.
  unfold issue_purchase in H. run_step H. rename E into Hc.
  assert (E1 : counter (w_db w) = counter (w_db w)) by done.
  apply check_reservation_ok in Hc. do 2 run_step H. rename a into lot.
  eapply issue_lot_ok in R as (v & t & E2 & Hw); [|exact E1|done|apply Hl|done].
  eapply (consume_reservation_ok _ (counter (w_db w))) in R0 as [E3 T3];
    [|exact E2|exact (sales_tables _ Hok)|done|done|exact Hrow|exact Hc].
  run_step H. eapply update_purchase_ok in R as [E4 T4]; [|exact E3|exact T3|apply Hrow|done].
  run_step H. beside R E4. beside H E4.
  rewrite <- (lr_amount _ _ _ _ _ Hl) in E4, T4. rewrite E4.
  by apply (success_issued _ fact p q s v lot t providerPaidAt now).
Qed.

Lemma compensation_ok ctx p q s fact providerPaidAt now reason w w' c :
  let paidAt := truncate_ms providerPaidAt in
  createIssuanceCompensationTx ctx p q fact paidAt now reason w = (Ok tt, w') ->
  counter (w_db w) = c -> sales_ok c -> locked_rows c fact p q s -> is_open p = true ->
  PFact_PaidAt fact = Some providerPaidAt -> add_days paidAt (Snap_ValidityDays s) <= now ->
  success_effect c fact p q s (counter (w_db w')).
Proof.
  intros paidAt H <- Hok Hl Ho Hpaid Hlate. pose proof (locked_row_of _ _ _ _ _ Hl) as Hrow.
  unfold createIssuanceCompensationTx in H. run_step H. rename E into Hc.
  assert (E1 : counter (w_db w) = counter (w_db w)) by done.
  apply check_reservation_ok in Hc. run_step H. beside R E1. destruct a as [[[n1 n2] n3] n4].
  run_step H. run_step H. run_step H. beside R E1. run_step H. beside R E1. run_step H.
  eapply create_refund_ok in R as [E2 T2]; [|exact E1|by apply sales_tables].
  run_step H. eapply (consume_reservation_ok _ (counter (w_db w))) in R as [E3 T3]; [|exact E2|exact T2|done|done|exact Hrow|exact Hc].
  run_step H. eapply update_purchase_ok in R as [E4 T4]; [|exact E3|exact T3|apply Hrow|done].
  run_step H. beside R E4. beside H E4.
  rewrite <- (lr_amount _ _ _ _ _ Hl) in E4, T4. rewrite E4.
  eapply (success_late _ fact p q s _ providerPaidAt now);
    [exact Ho|exact Hc|exact Hpaid|exact Hlate|..|reflexivity|exact T4]; try reflexivity.
  simpl. symmetry. by eapply lr_amount.
Qed.

Lemma ApplySuccess_ok ctx fact w w' c :
  purchase_ApplySuccess ctx fact w = (Ok tt, w') -> counter (w_db w) = c -> sales_ok c ->
  exists p q s, locked_rows c fact p q s /\ success_effect c fact p q s (counter (w_db w')).
Proof.
  unfold purchase_ApplySuccess. intros H Ec Hok. run_step H. destruct a as [[p q] s].
  eapply locked_counter in R as [E1 Hl]; [|exact Ec]. exists p, q, s. split; [done|].
  run_case H.
  { apply String.eqb_eq in B. beside H E1. rewrite E1. by apply success_again. }
  run_step H. rewrite negb_false_iff in G.
  destruct (PFact_PaidAt fact) as [providerPaidAt|] eqn:Hpaid; [|by run_step H].
  run_step H. beside R E1. rewrite add_days_ms in H. unfold after in H. run_case H.
  - eapply compensation_ok; [exact H|exact E1|done..|]. lia.
  - eapply issue_purchase_ok; [exact H|exact E1|done..|]. lia.
Qed.
