(* ===== verification/PurchaseCalls.v ===== *)
(** * The calls of the purchase component, as steps of its books

    [sells] relates the databases before and after a run whose books moved by
    abstract steps of [PurchaseBooks].  Every operation of the payment service
    on a payment of a purchase, and every call of the purchase service, is
    such a run, whatever the provider answers. *)

From S2P Require Import Prelude GoInt GoString GoTime Json Problem RequestCtx.
From S2P Require Import CoreModel AssetService GiftModel RedemptionModel PurchaseModel AssetLaws.
From S2P Require Import AssetLedger Database FulfilmentTables PurchaseTables Steps AssetRepository.
From S2P Require Import IntegrityScan AssetTheorems LedgerEntries Samples Idempotency GiftDto.
From S2P Require Import GiftInvariant GiftRepository GiftService RedemptionDto PurchaseDto.
From S2P Require Import PurchaseRepository BusinessPayment RedemptionService RedemptionBooks.
From S2P Require Import AssetFrame PurchaseSettlement PurchaseService PurchaseBooks PurchaseRuns.
From Stdlib Require Import String.
#[local] Open Scope string_scope. #[local] Open Scope list_scope. #[local] Open Scope Z_scope.
#[local] Open Scope go_scope.

Definition sells (db db' : Database) : Prop :=
  sales_ok (counter db) -> rtc sale_step (counter db) (counter db').

Lemma sale_steps_ok c c' : rtc sale_step c c' -> sales_ok c -> sales_ok c'.
Proof. induction 1; eauto using sale_step_ok. Qed.

#[export] Instance sells_preorder : PreOrder sells.
Proof.
  split; [intros db _; reflexivity|]. intros a b c H1 H2 Hok. transitivity (counter b); [auto|].
  apply H2. by eapply sale_steps_ok; [apply H1|].
Qed.

Lemma aside_sells {A} (m : G A) : steps aside m -> steps sells m.
Proof. intros Hm w a w' H _. by rewrite (Hm _ _ _ H). Qed.

Lemma aside_sells_any {A} (m : G A) : steps_any aside m -> steps_any sells m.
Proof. intros Hm w a w' H _. by rewrite (Hm _ _ _ H). Qed.

Lemma sells_once db c' : counter db = c' -> forall c, (sales_ok c -> sale_step c c') ->
  sales_ok c -> rtc sale_step c (counter db).
Proof. intros -> c H Hok. by apply rtc_once, H. Qed.

Lemma sells_or_missing {A} e (m : G A) : steps_any sells m -> steps_any sells (or_missing e m).
Proof.
  intros Hm w r w' H. unfold or_missing, attempt, bind in H.
  destruct (m w) as [[a|e'] w1] eqn:E; apply Hm in E; unfold ret, throw in H; by simplify_eq.
Qed.

Lemma sells_or_error {A} e (m : G A) : steps_any sells m -> steps_any sells (or_error e m).
Proof.
  intros Hm w r w' H. unfold or_error, attempt, bind in H.
  destruct (m w) as [[a|e'] w1] eqn:E; apply Hm in E; unfold ret, throw in H; by simplify_eq.
Qed.

Lemma sells_attempt {A} (m : G A) : steps_any sells m -> steps_any sells (attempt m).
Proof. intros Hm w r w' H. unfold attempt in H. destruct (m w) eqn:E. apply Hm in E. by simplify_eq. Qed.

Lemma sells_fail_if c e : steps_any sells (fail_if c e).
Proof. intros w r w' H. unfold fail_if in H. destruct c; unfold throw, ret in H; by simplify_eq. Qed.

#[export] Hint Resolve sells_or_missing sells_or_error sells_attempt sells_fail_if : steps.
#[export] Hint Extern 4 (steps sells _) => apply aside_sells; solve [eauto 3 with steps] : steps.
#[export] Hint Extern 4 (steps_any sells _) =>
  apply aside_sells_any; solve [eauto 3 with steps] : steps.

(** ** Payments *)

Section Payments.
Context (c : Counter).

(** A payment after an update that neither made it succeed nor changed what it
    is for. *)
Definition payment_kept (x y : Payment) : Prop :=
  same_payment x y /\ (Pay_Status y = "succeeded" -> Pay_Status x = "succeeded").

Lemma same_business x y : same_payment x y -> paymentBusiness y = paymentBusiness x.
Proof. intros (_ & _ & E1 & E2 & E3 & _). unfold paymentBusiness. by rewrite E1, E2, E3. Qed.

Lemma payment_kept_good ps x y : payment_kept x y -> payment_good ps x -> payment_good ps y.
Proof.
  intros [Hs Hst] Hg H1 H2. rewrite (same_business _ _ Hs) in *.
  destruct Hs as (-> & _ & _ & _ & _ & _ & -> & _). by apply Hg; [apply Hst|].
Qed.

(** An update of the payment with an identifier: one step, or none. *)
Lemma payments_updated p f id n w w' :
  update_rows p f w = (Ok n, w') -> counter (w_db w) = c -> sales_ok c ->
  (forall x, p x = true -> Pay_ID x = id) ->
  (forall x, x ∈ ct_payments c -> p x = true ->
     same_payment x (f x) /\ payment_good (ct_purchases c) (f x)) ->
  rtc sale_step c (counter (w_db w')).
Proof.
  intros H Ec Hok Hp Hf. subst c. pose proof (sales_tables _ Hok) as (T1 & T2 & T3 & T4).
  destruct (update_rows_any _ _ _ _ _ H T4) as [[-> _]|[Hdb Hl]]; [done|].
  destruct (List.filter p (ct_payments (counter (w_db w)))) as [|x l] eqn:Hnone.
  - rewrite Hdb. replace (map _ _) with (ct_payments (counter (w_db w))); [done|].
    symmetry. rewrite <- (map_id (ct_payments _)). apply map_ext_in. intros a Ha.
    destruct (p a) eqn:Pa; [|done]. exfalso.
    assert (Hin : In a (List.filter p (ct_payments (counter (w_db w))))) by by apply filter_In.
    by rewrite Hnone in Hin.
  - assert (Hx : In x (List.filter p (ct_payments (counter (w_db w))))) by (rewrite Hnone; by left).
    apply filter_In in Hx as [Hx Px]. apply list_elem_of_In in Hx.
    assert (Hu : forall r, p r = true -> Pay_ID r = Pay_ID x) by (intros r Pr; by rewrite !Hp).
    destruct (update_this_row Pay_ID payment_key _ _ x _ _ _ H T4 Hx Px Hu) as [E Hl'].
    rewrite E. destruct (Hf x Hx Px) as [H1 H2]. apply rtc_once.
    eapply (step_payment _ x (f x)); [done|done|done|reflexivity|].
    exact (conj T1 (conj T2 (conj T3 Hl'))).
Qed.
End Payments.

Lemma stamped_same x y a b : same_payment x y -> same_payment x (payment_stamped a b y).
Proof. done. Qed.

(** An update of a payment that keeps it. *)
Lemma UpdatePayment_sells id f :
  (forall x, payment_kept x (f x)) -> steps sells (UpdatePayment id f).
Proof.
  intros Hf w u w' H Hok. unfold UpdatePayment in H. run_step H. apply time_now_db in R.
  run_step H. apply ret_ok_inv in H as [_ ->]. rewrite <- R in *.
  eapply payments_updated; [exact R0|done|done|intros x E; by apply Z.eqb_eq in E|].
  intros x Hx _. destruct (Hf x) as [Hs Hst]. split; [done|].
  apply (payment_kept_good _ x); [by split|]. by apply Hok.
Qed.

Lemma CreatePayment_steps p w u w' c :
  CreatePayment p w = (Ok u, w') -> counter (w_db w) = c -> tables_ok c ->
  exists now, let c' := on_payments (ct_payments c ++ [payment_stamped now now p]) c in
    counter (w_db w') = c' /\ tables_ok c'.
Proof.
  intros H <- (T1 & T2 & T3 & T4). unfold CreatePayment in H. run_step H.
  apply time_now_db in R. rewrite <- R in *. exists a.
  apply (create_one_row Pay_ID payment_key payment_conflict_sym) in H as (Hdb & Hl & _); [|done].
  rewrite Hdb. split; [reflexivity|exact (conj T1 (conj T2 (conj T3 Hl)))].
Qed.

(** ** What a settlement handler promises the payment service *)

Definition settles (db db' : Database) : Prop :=
  sales_ok (counter db) -> rtc sale_step (counter db) (counter db') /\
  ct_payments (counter db') = ct_payments (counter db).

#[export] Instance settles_preorder : PreOrder settles.
Proof.
  split; [done|]. intros a b c H1 H2 Hok. destruct (H1 Hok) as [S1 E1].
  destruct H2 as [S2 E2]; [by eapply sale_steps_ok|].
  split; [by transitivity (counter b)|congruence].
Qed.

(** The purchase a payment succeeded for: settled, with this payment. *)
Definition settled_for (c : Counter) (fact : PaymentSettlementFact) : Prop :=
  exists p, p ∈ ct_purchases c /\ Pur_ID p = PFact_BizID fact /\ is_settled p = true /\
    Pur_PaymentID p = PFact_PaymentID fact /\ Pur_PaidAmount p = PFact_Amount fact.

(** Its operations move the books on by their steps and leave the payments to
    the payment service; after a success of a payment of a purchase, the
    purchase is settled. *)
Class Orderly (bizType : string) (h : PaymentSettlementHandler) : Prop := {
  lock_settles ctx id : steps settles (LockBusiness h ctx id);
  success_settles ctx fact : steps settles (ApplySuccess h ctx fact);
  terminal_settles ctx fact : steps settles (ApplyTerminal h ctx fact);
  exception_settles ctx fact reason : steps settles (ApplyException h ctx fact reason);
  success_pays ctx fact w w' :
    bizType = PurchasePaymentBusiness -> PFact_BizType fact = bizType ->
    ApplySuccess h ctx fact w = (Ok tt, w') -> sales_ok (counter (w_db w)) ->
    settled_for (counter (w_db w')) fact;
}.

(** ** The handler of purchases *)

Lemma success_effect_step c fact p q s c' :
  sales_ok c -> locked_rows c fact p q s -> success_effect c fact p q s c' ->
  rtc sale_step c c' /\ ct_payments c' = ct_payments c.
Proof.
  intros Hok Hl [Hs|v lot t pa now c1 Ho Hle Hpa paidAt expiresAt Hlate Hw -> Ht
                |r pa now c1 Ho Hle Hpa paidAt Hlate R1 R2 R3 R4 R5 -> Ht].
  - done.
  - split; [|done]. apply rtc_once.
    destruct (lot_written_issued c p s pa now v lot t
      (with_purchase p (purchase_issued (Pur_PayableAmount p) paidAt now p)
         (with_quota q (quota_consumed p now q) (on_assets v c)))) as [Hi Hf];
      [done|apply Hl|done|apply Hl|done|done|].
    eapply (step_issue c p q lot t paidAt now v); try done.
    + by eapply locked_row_of.
    + by destruct Hw.
    + destruct Hw as [_ _ _ _ -> _]. split; simpl.
      * intros x Hx. apply elem_of_app. by left.
      * intros l Hx. exists l. split; [apply elem_of_app; by left|apply same_lot_refl].
    + destruct Hw as [_ _ _ _ -> _]. simpl. intros l Hx.
      apply elem_of_app in Hx as [Hx|Hx]; [by right|left]. by apply list_elem_of_singleton in Hx.
  - split; [|done]. apply rtc_once. eapply (step_refund c p q r paidAt now); try done.
    by eapply locked_row_of.
Qed.

(** The purchase after a payment succeeded. *)
Lemma success_effect_paid c fact p q s c' :
  sales_ok c -> locked_rows c fact p q s -> success_effect c fact p q s c' -> settled_for c' fact.
Proof.
  intros Hok Hl H. pose proof (lr_purchase _ _ _ _ _ Hl) as Hp.
  destruct H as [Hs|v lot t pa now c1 Ho Hle Hpa paidAt expiresAt Hlate Hw -> Ht
                |r pa now c1 Ho Hle Hpa paidAt Hlate R1 R2 R3 R4 R5 -> Ht].
  - exists p. split; [done|]. split; [apply Hl|]. unfold is_settled. rewrite Hs.
    split; [done|]. split; [apply Hl|]. rewrite <- (lr_amount _ _ _ _ _ Hl).
    destruct (so_good _ Hok _ Hp) as [[E|E] _ _ _|? ? _ [E _] _ _|? E]; [..|done|].
    + unfold is_open in E. by rewrite Hs in E.
    + by rewrite Hs in E.
    + by rewrite Hs in E.
  - exists (purchase_issued (Pur_PayableAmount p) paidAt now p). split; [by apply replaced_in|].
    split; [apply Hl|]. split; [done|]. split; apply Hl.
  - exists (purchase_refunding (Pur_PayableAmount p) paidAt now p).
    split; [by apply replaced_in|]. split; [apply Hl|]. split; [done|]. split; apply Hl.
Qed.

Lemma lock_business_aside id : steps aside (purchase_LockBusiness id).
Proof.
  unfold purchase_LockBusiness, LockPurchaseByID, LockPurchaseQuota.
  go_step; [apply steps_any_steps, aside_or_missing; auto with steps|].
  intros p. go_step; [go_steps|]. intros s. go_step; [|go_steps].
  apply steps_any_steps, aside_or_missing; auto with steps.
Qed.

Lemma aside_settles {A} (m : G A) : steps aside m -> steps settles m.
Proof. intros Hm w a w' H _. by rewrite (Hm _ _ _ H). Qed.

Lemma settles_sells {A} (m : G A) : steps settles m -> steps sells m.
Proof. intros Hm w a w' H Hok. by apply (Hm _ _ _ H). Qed.

#[export] Instance purchase_handler_orderly bizType : Orderly bizType purchase_handler.
Proof.
  split; simpl.
  - intros ctx id. apply aside_settles, lock_business_aside.
  - intros ctx fact w [] w' H Hok.
    destruct (ApplySuccess_ok _ _ _ _ _ H eq_refl Hok) as (p & q & s & Hl & He).
    by eapply success_effect_step in He.
  - intros ctx fact w [] w' H Hok.
    destruct (ApplyTerminal_ok _ _ _ _ _ H eq_refl Hok) as (p & q & s & Hl & He).
    destruct He as [_|now c' Ho Hle -> T]; [done|].
    split; [|done]. apply rtc_once. eapply (step_close _ p q now); try done.
    by eapply locked_row_of.
  - intros ctx fact reason w [] w' H Hok.
    destruct (ApplyException_ok _ _ _ _ _ _ H eq_refl Hok) as (p & q & s & Hl & He).
    destruct He as [_|now c' Ho -> T]; [done|].
    split; [|done]. apply rtc_once. refine (step_mark _ p _ now _ _ Ho eq_refl T). apply Hl.
  - intros ctx fact w w' _ _ H Hok.
    destruct (ApplySuccess_ok _ _ _ _ _ H eq_refl Hok) as (p & q & s & Hl & He).
    by eapply success_effect_paid in He.
Qed.

(** ** A verified state of the provider, applied *)

Lemma update_kept payment f :
  (forall x, payment_kept x (f x)) -> steps sells (update_payment payment f).
Proof.
  intros Hf. unfold update_payment. apply steps_bind; [exact _| |intros; apply steps_ret; exact _].
  apply UpdatePayment_sells. intros x. apply Hf.
Qed.

(** The payment that succeeded, once its business is settled. *)
Lemma update_succeeded payment state status w a w' :
  update_payment payment (payment_succeeded state status) w = (Ok a, w') ->
  sales_ok (counter (w_db w)) -> payment ∈ ct_payments (counter (w_db w)) ->
  ((paymentBusiness payment).1 = PurchasePaymentBusiness ->
   settled_for (counter (w_db w)) (settlement_fact payment state status None)) ->
  rtc sale_step (counter (w_db w)) (counter (w_db w')).
Proof.
  intros H Hok Hin Hset. unfold update_payment in H. run_step H.
  apply ret_ok_inv in H as [_ ->]. unfold UpdatePayment in R. run_step R.
  apply time_now_db in R0. run_step R. apply ret_ok_inv in R as [_ ->]. rewrite <- R0 in *.
  eapply payments_updated; [exact R1|done|done|intros x E; by apply Z.eqb_eq in E|].
  intros x Hx Ex. apply Z.eqb_eq in Ex.
  assert (x = payment) as ->.
  { refine (NoDup_map_inj Pay_ID _ _ _ _ Hx Hin Ex). apply (list_keys Pay_ID payment_key), Hok. }
  split; [done|]. intros _ Hb. exact (Hset Hb).
Qed.

Lemma sells_run {A} (m : G A) w a w' :
  m w = (Ok a, w') -> sales_ok (counter (w_db w)) -> steps sells m ->
  rtc sale_step (counter (w_db w)) (counter (w_db w')).
Proof. intros H Hok Hm. exact (Hm _ _ _ H Hok). Qed.

Lemma apply_external_sells s ctx h payment state w a w' :
  applyExternalPaymentStateTx s ctx h payment state w = (Ok a, w') ->
  Orderly (paymentBusiness payment).1 h -> sales_ok (counter (w_db w)) ->
  payment ∈ ct_payments (counter (w_db w)) ->
  rtc sale_step (counter (w_db w)) (counter (w_db w')).
Proof.
  unfold applyExternalPaymentStateTx. intros H Ho Hok Hin. set (status := to_upper _) in *.
  run_case H; [by run_step H|]. run_case H.
  { apply (sells_run _ _ _ _ H Hok). apply steps_bind; [exact _|apply settles_sells, exception_settles|intros _].
    apply steps_bind; [exact _|by apply update_kept|go_steps]. }
  run_case H.
  { run_case H; [by run_step H|]. run_step H. run_step H. run_step H.
    destruct (success_settles _ _ _ _ _ R Hok) as [S E].
    transitivity (counter (w_db w0)); [done|].
    eapply update_succeeded; [exact R0|by eapply sale_steps_ok|by rewrite E|].
    intros Hb. eapply success_pays; [exact Hb|reflexivity|exact R|exact Hok]. }
  run_case H; [|run_case H; [|by run_step H]]; apply (sells_run _ _ _ _ H Hok).
  - apply steps_bind; [exact _|go_steps|intros now].
    apply steps_bind; [exact _|by apply update_kept|go_steps].
  - apply steps_bind; [exact _|go_steps|intros now].
    apply steps_bind; [exact _|apply settles_sells, terminal_settles|intros _].
    apply steps_bind; [exact _| |go_steps]. apply update_kept.
    intros x. split; [done|]. cbn. destruct (String.eqb status "PAYERROR"); intros E; discriminate E.
Qed.

(** ** The payment service *)

(** A provider is elsewhere: while it answers, the program may go on. *)
Class Beside (p : PaymentProvider) : Prop := {
  create_beside input : steps_any sells (remote (Provider_Create p input));
  query_beside no : steps_any sells (remote (Provider_Query p no));
  close_beside no : steps_any sells (remote (Provider_Close p no));
}.

(** A service whose provider and handlers keep their promises; the handler of
    purchases is [purchase_handler]. *)
Record Configured (s : PaymentService) : Prop := {
  conf_provider p : Svc_payment s = Some p -> Beside p;
  conf_handlers r bizType h : Svc_paymentSettlements s = Some r ->
    resolve r bizType = Some h -> Orderly bizType h;
}.

Lemma enabled_beside s p : Configured s -> enabled_provider s = Some p -> Beside p.
Proof. unfold enabled_provider. intros Hs. destruct (Svc_PayEnabled s); [apply Hs|done]. Qed.

Lemma external_orderly s payment h : Configured s ->
  externalSettlementHandler s payment = Ok (Some h) -> Orderly (paymentBusiness payment).1 h.
Proof.
  intros Hs. unfold externalSettlementHandler. destruct (paymentBusiness payment) as [bt id]. simpl.
  destruct (String.eqb _ _); [done|]. destruct (_ =? 0); [done|].
  destruct (Svc_paymentSettlements s) eqn:Er; [|done]. destruct (resolve _ _) eqn:Eh; [|done].
  intros [= <-]. by eapply conf_handlers.
Qed.

#[export] Hint Resolve create_beside query_beside close_beside : steps.

Lemma remote_sells {A} (call : M World gateway_error A) :
  steps_any sells (remote call) -> steps sells (remote call).
Proof. apply steps_any_steps. Qed.

Lemma sells_transaction {A} (m : G A) : steps sells m -> steps_any sells (transaction m).
Proof. apply steps_transaction. exact _. Qed.

Lemma UpdatePayment_moved id f :
  (forall x, payment_kept x (f x)) -> steps sells (UpdatePayment id f).
Proof. apply UpdatePayment_sells. Qed.

Lemma record_failure_sells id err next :
  steps_any sells (record_submission_failure id err next).
Proof.
  apply sells_transaction. unfold LockPaymentByID. go_step; [go_steps|]. intros p. go_step; [go_steps|].
  apply UpdatePayment_sells. intros x. unfold submission_failed, next_version, payment_moved.
  destruct (gateway_Retryable err); by split.
Qed.

Lemma accept_sells ctx payment r next : steps sells (accept_submission ctx payment r next).
Proof.
  unfold accept_submission, LockPaymentByID. go_step; [go_steps|]. intros p.
  go_step; [go_steps|]. intros _. go_step; [go_steps|].
  go_step; [go_steps|]. intros _.
  go_step; [apply UpdatePayment_sells; intros x; split; [done|intros E; discriminate E]|].
  intros _. go_steps.
Qed.

Section Calls.
Context (s : PaymentService) (Hs : Configured s).

Lemma submit_payment_sells ctx provider payment expiresAt openID description :
  Beside provider ->
  steps_any sells (submit_payment s ctx provider payment expiresAt openID description).
Proof.
  intros Hp. unfold submit_payment. go_step; [auto with steps|]. intros [result|err].
  - go_step; [auto with steps|]. intros now.
    go_step; [apply sells_attempt, sells_transaction, accept_sells|]. intros [p|e]; [auto with steps|].
    go_step; auto with steps.
  - go_step; [auto with steps|]. intros now.
    go_step; [apply sells_attempt, record_failure_sells|]. auto with steps.
Qed.

Lemma SubmitBusinessPayment_sells ctx id openID description :
  steps_any sells (SubmitBusinessPayment s ctx id openID description).
Proof.
  unfold SubmitBusinessPayment, GetPaymentByID.
  destruct (enabled_provider s) as [provider|] eqn:E; [|auto with steps].
  apply enabled_beside in E; [|done]. go_steps. by apply submit_payment_sells.
Qed.

Lemma BusinessPayment_sells customerID bizType bizID :
  steps_any sells (BusinessPayment s customerID bizType bizID).
Proof.
  unfold BusinessPayment, GetBusinessPayment. go_steps.
Qed.

(** The branch of the code for retail orders, whatever it does to their side. *)
Context (retail : Context -> Payment -> ProviderPaymentState -> string -> Z -> string ->
  G (Payment * option error)).
Context (Hretail : forall ctx p state ty id key, steps sells (retail ctx p state ty id key)).

Lemma locate_ok no provider w lookup h w' :
  locate_payment s no provider w = (Ok (lookup, h), w') ->
  w_db w' = w_db w /\ externalSettlementHandler s lookup = Ok h.
Proof.
  unfold locate_payment. intros H. run_step H. unfold GetPaymentByNo in R.
  apply take_row_ok in R as (Hdb & _). run_step H.
  apply ret_ok_inv in H as [[= -> ->] ->]. split; [congruence|done].
Qed.

Lemma lock_payment_ok ctx h lookup no provider changed w p w' :
  lock_payment ctx h lookup no provider changed w = (Ok p, w') ->
  Orderly (paymentBusiness lookup).1 h -> sales_ok (counter (w_db w)) ->
  rtc sale_step (counter (w_db w)) (counter (w_db w')) /\
  p ∈ ct_payments (counter (w_db w')) /\ paymentBusiness p = paymentBusiness lookup /\
  payment_no no provider p = true.
Proof.
  unfold lock_payment. intros H Ho Hok. run_step H. run_step H. run_step H.
  apply ret_ok_inv in H as [-> ->]. destruct (lock_settles _ _ _ _ _ R Hok) as [S _].
  unfold LockPaymentByNo in R0. apply take_row_ok in R0 as (Hdb & Hin & Hp). rewrite Hdb.
  split; [done|]. split; [done|]. split; [|done].
  unfold samePaymentBusiness in G. rewrite negb_false_iff, andb_true_iff, String.eqb_eq, Z.eqb_eq in G.
  destruct G. by apply injective_projections.
Qed.

Lemma apply_located_sells ctx no provider state ty id key located w a w' :
  apply_located s retail ctx no provider state ty id key located w = (Ok a, w') ->
  externalSettlementHandler s located.1 = Ok located.2 -> sales_ok (counter (w_db w)) ->
  rtc sale_step (counter (w_db w)) (counter (w_db w')).
Proof.
  unfold apply_located. intros H He Hok. destruct located as [lookup [h|]]; simpl in *.
  - apply external_orderly in He; [|done]. run_step H. rename a0 into payment.
    eapply lock_payment_ok in R as (S & Hin & Eb & _); [|exact He|done].
    transitivity (counter (w_db w0)); [done|].
    eapply apply_external_sells; [exact H|by rewrite Eb|by eapply sale_steps_ok|done].
  - exact (Hretail _ _ _ _ _ _ _ _ _ H Hok).
Qed.

Lemma capturing_ok {X A} (first : G X) (rest : X -> G A) w r found w' :
  transaction_capturing first rest w = (Ok (r, found), w') ->
  transaction (bind first rest) w = (r, w').
Proof. unfold transaction_capturing. destruct (transaction _ w) as [r0 w0]. intros H. by simplify_eq. Qed.

Lemma persist_sells ctx no provider state reason :
  steps_any sells (persistExternalPaymentSettlementFailure s ctx no provider state reason).
Proof.
  apply sells_transaction. intros w u w' H Hok. run_step H. destruct a as [lookup h].
  apply locate_ok in R as [Hdb He]. simpl in H. rewrite <- Hdb in *.
  destruct h as [h|]; [|by run_step H]. apply external_orderly in He; [|done].
  run_step H. rename a into payment. eapply lock_payment_ok in R as (S & _); [|exact He|done].
  transitivity (counter (w_db w1)); [done|]. apply (sale_steps_ok _ _ S) in Hok.
  apply (sells_run _ _ _ _ H Hok). go_step; [go_steps|].
  apply steps_bind; [exact _|apply settles_sells, exception_settles|intros _].
  go_step; [go_steps|]. intros now. apply UpdatePayment_sells.
  intros x. split; [done|intros E; discriminate E].
Qed.

Lemma ApplyProviderPaymentState_sells ctx no provider state ty id key :
  steps_any sells (ApplyProviderPaymentState s retail ctx no provider state ty id key).
Proof.
  unfold ApplyProviderPaymentState. apply steps_any_bind; [exact _| |].
  - intros w r w' H. destruct r as [[r found]|e].
    + apply capturing_ok in H. revert w r w' H. apply sells_transaction.
      intros w a w' H Hok. run_step H. destruct a0 as [lookup h].
      apply locate_ok in R as [Hdb He]. rewrite <- Hdb in *.
      by eapply apply_located_sells.
    + exfalso. unfold transaction_capturing in H. by destruct (transaction _ w).
  - intros [[[p [reject|]]|e] [[lookup [h|]]|]]; simpl; auto with steps.
    go_step; [|auto with steps]. go_step; [apply sells_attempt, persist_sells|].
    intros [u|e']; auto with steps.
Qed.

Lemma confirm_sells ctx customerID payment :
  steps_any sells (confirmCustomerPayment s retail ctx customerID payment).
Proof.
  unfold confirmCustomerPayment. destruct (enabled_provider s) as [p|] eqn:E; [|auto with steps].
  apply enabled_beside in E; [|done]. go_steps. apply ApplyProviderPaymentState_sells.
Qed.

Lemma ConfirmBusinessPayment_sells ctx customerID bizType bizID :
  steps_any sells (ConfirmBusinessPayment s retail ctx customerID bizType bizID).
Proof.
  unfold ConfirmBusinessPayment. go_step; [apply BusinessPayment_sells|]. intros payment.
  destruct (paymentBusiness payment). go_step; [go_steps|]. intros _. apply confirm_sells.
Qed.

(** ** Reconciliation *)

Lemma MarkError_sells payment cause : steps_any sells (MarkPaymentReconcileError payment cause).
Proof.
  apply sells_transaction. unfold LockPaymentByNo. go_steps. by apply UpdatePayment_sells.
Qed.

Lemma Claim_sells provider now stale :
  steps_any sells (ClaimNextReconcilablePayment provider now stale).
Proof.
  apply sells_transaction. go_step; [go_steps|]. intros payment. cbv zeta.
  go_step; [go_steps|]. intros updated. go_step; [|intros n; go_steps]. intros w n w' H Hok.
  eapply (payments_updated _ _ _ (Pay_ID payment)); [exact H|done|done| |].
  - intros x. rewrite andb_true_iff. intros [E _]. by apply Z.eqb_eq in E.
  - intros x Hx _. split; [done|]. apply (payment_kept_good _ x); [by split|]. by apply Hok.
Qed.

Lemma reconcile_apply_sells ctx prefix payment state :
  steps_any sells (reconcile_apply s retail ctx prefix payment state).
Proof. unfold reconcile_apply. go_step; [apply ApplyProviderPaymentState_sells|]. auto with steps. Qed.

Lemma UpdatePayment_any id f :
  (forall x, payment_kept x (f x)) -> steps_any sells (UpdatePayment id f).
Proof.
  intros Hf w r w' H. destruct r as [u|e]; [by apply UpdatePayment_sells in H|]. intros _.
  replace (w_db w') with (w_db w); [done|]. unfold UpdatePayment, bind in H.
  destruct (time_now w) as [[now|e1] w1] eqn:E; apply time_now_db in E; [|congruence].
  unfold update_rows in H. destruct (exec _ w1) as [[n|e2] w2] eqn:E2; [discriminate H|].
  apply exec_err in E2 as [E2 _]. congruence.
Qed.

Lemma reconcile_payment_sells ctx provider now payment :
  Beside provider -> steps_any sells (reconcile_payment s retail ctx provider now payment).
Proof.
  intros Hp. unfold reconcile_payment. cbv zeta. go_step; [auto with steps|]. intros [state|err].
  - go_step; [apply reconcile_apply_sells|]. go_step.
    + go_step; [apply reconcile_apply_sells|]. intros _. by apply UpdatePayment_any.
    + go_step; [auto with steps|]. intros [closed|err]; [apply reconcile_apply_sells|].
      go_step; [apply MarkError_sells|]. auto with steps.
  - go_step; [apply reconcile_apply_sells|apply MarkError_sells].
Qed.

Lemma reconcile_batch_sells ctx provider now stale limit :
  Beside provider -> steps_any sells (reconcile_batch s retail ctx provider now stale limit).
Proof.
  intros Hp. induction limit as [|limit IH]; simpl; [auto with steps|].
  go_step; [apply sells_attempt, Claim_sells|]. intros [payment|e]; [|go_steps].
  go_step; [by apply reconcile_payment_sells|]. intros _. go_step; [exact IH|]. auto with steps.
Qed.

Lemma ReconcileCreatingBatch_sells ctx age now limit :
  steps_any sells (ReconcileCreatingBatch s retail ctx age now limit).
Proof.
  unfold ReconcileCreatingBatch. destruct (Svc_payment s) eqn:E; [|auto with steps].
  apply reconcile_batch_sells. by apply Hs.
Qed.
End Calls.
