(* ===== verification/PurchaseFlow.v ===== *)
(** * Creating a purchase, as steps of the books

    A new purchase is one step: its row, its payment and the reservation of its
    packages.  [CreatePurchase] and [ConfirmPurchasePayment] are runs whose
    books move by steps, however far they get. *)

From S2P Require Import Prelude GoInt GoString GoTime Json Problem RequestCtx Pagination.
From S2P Require Import CoreModel AssetService GiftModel RedemptionModel PurchaseModel AssetLaws.
From S2P Require Import AssetLedger Database FulfilmentTables PurchaseTables Steps AssetRepository.
From S2P Require Import IntegrityScan AssetTheorems LedgerEntries Samples Idempotency GiftDto.
From S2P Require Import GiftInvariant GiftRepository GiftService RedemptionDto PurchaseDto.
From S2P Require Import RedemptionRepository PurchaseRepository BusinessPayment RedemptionService.
From S2P Require Import RedemptionBooks.
From S2P Require Import AssetFrame PurchaseSettlement PurchaseService PurchaseBooks PurchaseRuns.
From S2P Require Import PurchaseCalls.
From Stdlib Require Import String.
#[local] Open Scope string_scope. #[local] Open Scope list_scope. #[local] Open Scope Z_scope.
#[local] Open Scope go_scope.

(** ** The snapshot of a package *)

Record snapshot_bounds (s : purchasePackageSnapshot) : Prop := {
  sb_version : in_u64 (Snap_PackageVersion s);
  sb_days : in_u64 (Snap_ValidityDays s);
  sb_bottles : in_u64 (Snap_BottleQuantity s);
  sb_schema : in_i64 (Snap_SchemaVersion s);
  sb_price : in_i64 (Snap_UnitPriceAmount s);
}.

Lemma as_int_num z : in_i64 z -> as_int (Some (JNum z)) = Some z.
Proof. intros H. simpl. unfold in_i64 in H. by replace ((- i64_half <=? z) && (z <? i64_half)) with true by lia. Qed.

#[local] Arguments as_string_ptr : simpl never.
#[local] Arguments as_uint : simpl never.
#[local] Arguments as_int : simpl never.

Lemma snapshot_round_trip s :
  snapshot_bounds s -> snapshot_of_json (purchasePackageSnapshot_json s) = Some s.
Proof.
  intros [H1 H2 H3 H4 H5].
  destruct s as [sc no code name ty v d b price i sh sp city [pid pn brand spec image]]; simpl in *.
  unfold snapshot_of_json, ProductSummaryDTO_of_json. simpl.
  by rewrite !as_string_ptr_opt_str, !as_uint_num, !as_int_num.
Qed.

Lemma package_snapshot_parses pkg product :
  package_row_check pkg = true -> Pkg_PackageCode pkg <> "" -> Pkg_PackageNo pkg <> "" ->
  parsePurchaseSnapshot (purchasePackageSnapshot_json (package_snapshot pkg product)) =
  Ok (package_snapshot pkg product).
Proof.
  intros Hc H1 H2. unfold package_row_check in Hc. rewrite !andb_true_iff, fits_uint32_spec in Hc.
  unfold parsePurchaseSnapshot. rewrite snapshot_round_trip.
  - simpl. apply String.eqb_neq in H1, H2. rewrite H1, H2.
    by replace (Pkg_ValidityDays pkg =? 0) with false by lia.
  - split; simpl; unfold in_u64, in_i64, u64_mod, i64_half; try lia.
Qed.

(** ** The writes of a new purchase *)

Lemma take_in {Row} `{Table Row} (p : Row -> bool) w r w' :
  take_row p w = (Ok r, w') -> w_db w' = w_db w /\ r ∈ rows (w_db w) /\ p r = true.
Proof. apply take_row_ok. Qed.

(** The quota of the customer for the package, with [quantity] more reserved. *)
Record quota_taken (c : Counter) (customerID : Z) (pkg : Package) (quantity : Z) (now : time)
    (q : PurchaseQuota) (c1 c' : Counter) : Prop := {
  qt_seed : c1 = c \/ exists id,
    let seed := quota_seed id customerID (Pkg_PackageCode pkg) now in
    c1 = on_quotas (ct_quotas c ++ [seed]) c /\ list_ok (ct_quotas c ++ [seed]);
  qt_in : q ∈ ct_quotas c1;
  qt_owner : Quota_CustomerID q = customerID /\ Quota_PackageCode q = Pkg_PackageCode pkg;
  qt_allowed : validatePurchaseQuota q (Pkg_PerCustomerLimit pkg) quantity = Ok tt;
  qt_books : c' = with_quota q (quota_reserved (Quota_ReservedQuantity q + quantity) now q) c1;
  qt_tables : tables_ok c';
}.

Lemma quota_seeded c c1 : sales_ok c ->
  (c1 = c \/ exists id customerID code now,
     let seed := quota_seed id customerID code now in
     c1 = on_quotas (ct_quotas c ++ [seed]) c /\ list_ok (ct_quotas c ++ [seed])) ->
  rtc sale_step c c1 /\ sales_ok c1.
Proof.
  intros Hok [->|(id & cid & code & now & -> & Hl)]; [done|].
  assert (Hs : sale_step c (on_quotas (ct_quotas c ++ [quota_seed id cid code now]) c))
    by by apply step_quota.
  split; [by apply rtc_once|by eapply sale_step_ok].
Qed.

Lemma reserve_quota_ok customerID pkg quantity now w w' :
  reserve_quota customerID pkg quantity now w = (Ok tt, w') -> sales_ok (counter (w_db w)) ->
  0 <= quantity <= 10000 ->
  exists q c1, quota_taken (counter (w_db w)) customerID pkg quantity now q c1 (counter (w_db w')).
Proof.
  unfold reserve_quota. intros H Hok Hn. assert (Ec : counter (w_db w) = counter (w_db w)) by done.
  run_step H. rename a into id. beside R Ec. run_step H. run_step H. rename a into q. run_step H.
  set (seed := quota_seed id customerID (Pkg_PackageCode pkg) now) in *.
  apply take_in in R0 as (Hdb & Hq & Eq).
  apply andb_true_iff in Eq as [Q1 Q2]. apply Z.eqb_eq in Q1. apply String.eqb_eq in Q2.
  eapply create_quota_ok in R; [|exact Ec|by apply sales_tables].
  destruct (quota_seeded (counter (w_db w)) (counter (w_db w1)) Hok) as [_ Hok1].
  { destruct R as [?|[? ?]]; [by left|right]. by exists id, customerID, (Pkg_PackageCode pkg), now. }
  exists q, (counter (w_db w1)). assert (E2 : counter (w_db w2) = counter (w_db w1)) by congruence.
  destruct (quota_bounds _ _ Hok1 Hq) as [B1 B2].
  rewrite uint_add_small in H by (unfold in_u64, u64_mod; lia).
  eapply (update_quota_ok _ _ _ q) in H as [E3 T3]; [|exact E2|by apply sales_tables|exact Hq|done].
  split; try done; [|by rewrite E3]. destruct R as [?|?]; [by left|right; by exists id].
Qed.

Lemma product_summary_aside id : steps aside (packageProductSummary id).
Proof. unfold packageProductSummary, PackageProduct. go_steps. Qed.

Lemma create_payment_ok s input w x w' c :
  CreateBusinessPaymentTx s input w = (Ok x, w') -> counter (w_db w) = c -> tables_ok c ->
  exists now, x = new_payment (normalize_payment_input input) /\
    let c' := on_payments (ct_payments c ++ [payment_stamped now now x]) c in
    counter (w_db w') = c' /\ tables_ok c'.
Proof.
  unfold CreateBusinessPaymentTx. intros H <- Ht. cbv zeta in H.
  assert (Ec : counter (w_db w) = counter (w_db w)) by done. run_step H. run_step H.
  run_step H. beside R Ec. run_step H. destruct (Svc_paymentSettlements s); [|by run_step H].
  run_step H. run_step H. apply ret_ok_inv in H as [-> ->].
  destruct (CreatePayment_steps _ _ _ _ _ R Ec Ht) as (now & E & T). by exists now.
Qed.

(** The books after a purchase was written. *)
Record purchase_written (c : Counter) (customerID : Z) (key : string) (pkg : Package)
    (quantity payableAmount totalBottles : Z) (now : time) (p : Purchase) (x : Payment)
    (q : PurchaseQuota) (c' : Counter) : Prop := {
  pw_taken : exists c1 c2,
    quota_taken c customerID pkg quantity now q c1 c2 /\
    c' = on_payments (ct_payments c2 ++ [x]) (on_purchases (ct_purchases c2 ++ [p]) c2);
  pw_purchase : exists purchaseID paymentID product,
    p = new_purchase purchaseID paymentID customerID pkg product quantity payableAmount
          totalBottles now;
  pw_payment : exists created,
    x = payment_stamped created created
          (new_payment (normalize_payment_input (purchase_payment_input p key now)));
  pw_tables : tables_ok c';
}.

Lemma write_purchase_ok ctx s customerID key pkg quantity amount bottles now w id w' :
  write_purchase ctx s customerID key pkg quantity amount bottles now w = (Ok id, w') ->
  sales_ok (counter (w_db w)) -> 0 <= quantity <= 10000 ->
  exists p x q, Pur_ID p = id /\
    purchase_written (counter (w_db w)) customerID key pkg quantity amount bottles now p x q
      (counter (w_db w')).
Proof.
  unfold write_purchase. intros H Hok Hn. run_step H.
  destruct (reserve_quota_ok _ _ _ _ _ _ R Hok Hn) as (q & c1 & Hq). clear R.
  assert (E : counter (w_db w0) = counter (w_db w0)) by done.
  run_step H. rename a into product.
  eapply steps_run in R; [|apply product_summary_aside|exact E]. clear E; rename R into E.
  run_step H. rename a into purchaseID. beside R E. run_step H. rename a into paymentID.
  beside R E. cbv zeta in H. run_step H.
  eapply create_purchase_ok in R as [E1 T1]; [|exact E|apply Hq].
  run_step H. destruct (create_payment_ok _ _ _ _ _ _ R E1 T1) as (created & -> & E2 & T2).
  run_step H. beside R0 E2. run_step H. beside R0 E2. apply ret_ok_inv in H as [<- ->].
  eexists _, _, q. split; [|split; [|by do 3 eexists|by eexists|rewrite E2; exact T2]]; [done|].
  exists c1, (counter (w_db w0)). split; [done|exact E2].
Qed.

(** The purchase counts against the quota it was reserved from. *)
Lemma new_purchase_counts q customerID pkg product pid xid n amount bottles now :
  package_row_check pkg = true -> Pkg_PackageCode pkg <> "" -> Pkg_PackageNo pkg <> "" ->
  Quota_CustomerID q = customerID -> Quota_PackageCode q = Pkg_PackageCode pkg ->
  counts_in q (new_purchase pid xid customerID pkg product n amount bottles now) = true.
Proof.
  intros Hc H1 H2 <- E. unfold counts_in, purchase_code. simpl Pur_PackageSnapshot.
  rewrite (package_snapshot_parses _ _ Hc H1 H2). simpl. by rewrite E, Z.eqb_refl, String.eqb_refl.
Qed.

Lemma purchase_written_steps c customerID key pkg n amount bottles now p x q c' :
  purchase_written c customerID key pkg n amount bottles now p x q c' -> sales_ok c ->
  pkg ∈ ct_packages c -> Pkg_PackageCode pkg <> "" -> Pkg_PackageNo pkg <> "" ->
  rtc sale_step c c'.
Proof.
  intros [(c1 & c2 & [Hs Hq [Q1 Q2] Hv E2 T2] & E') (pid & xid & product & Ep) (created & Ex) T'].
  intros Hok Hpkg H1 H2. destruct (quota_seeded c c1 Hok) as [S1 Hok1].
  { destruct Hs as [?|(id & ?)]; [by left|right]. by exists id, customerID, (Pkg_PackageCode pkg), now. }
  transitivity c1; [done|]. apply rtc_once.
  assert (Hc : package_row_check pkg = true).
  { pose proof (so_packages _ Hok) as Hf. rewrite Forall_forall in Hf. by apply Hf. }
  apply (step_open c1 p q x now); try done.
  - rewrite Ep. by apply new_purchase_counts.
  - by rewrite Ep.
  - by rewrite Ep.
  - by rewrite Ex.
  - rewrite E', E2, Ep. reflexivity.
Qed.

(** ** The checks before *)

Record package_checked (c : Counter) (parse : UrlParser) (req : PurchaseCreateRequest) (now : time)
    (pkg : Package) (amount bottles : Z) : Prop := {
  pc_in : pkg ∈ ct_packages c;
  pc_no : Pkg_PackageNo pkg = PReq_PackageNo req;
  pc_sale : on_sale pkg now = true;
  pc_range : in_range (Pkg_MinPurchaseQuantity pkg) (Pkg_MaxPurchaseQuantity pkg) (PReq_Quantity req) = true;
  pc_row : validatePackageRow parse pkg = Ok tt;
  pc_totals : checkedPurchaseTotals (Pkg_SalePriceAmount pkg) (Pkg_BottleQuantity pkg)
                (PReq_Quantity req) = Ok (amount, bottles);
}.

Lemma settlement_aside pkg : steps aside (validateSettlementForPublish pkg).
Proof.
  unfold validateSettlementForPublish, SettlementRelationOf.
  go_step; [apply steps_any_steps, aside_or_missing; auto with steps|]. go_steps.
Qed.

Lemma check_customer_aside appID id now : steps aside (check_customer appID id now).
Proof.
  unfold check_customer, CustomerPurchaseEligibility.
  go_step; [apply steps_any_steps, aside_or_missing; go_steps|]. go_steps.
Qed.

Lemma check_package_ok parse req now w pkg amount bottles w' :
  check_package parse req now w = (Ok (pkg, amount, bottles), w') ->
  counter (w_db w') = counter (w_db w) /\
  package_checked (counter (w_db w)) parse req now pkg amount bottles.
Proof.
  unfold check_package. intros H. run_step H. rename a into row.
  assert (R1 : take_row (fun p => String.eqb (Pkg_PackageNo p) (PReq_PackageNo req) &&
                 not_deleted (Pkg_DeletedAt p)) w = (Ok row, w0)).
  { unfold or_missing in R. run_step R. destruct a; run R. exact R0. }
  apply take_in in R1 as (Hdb & Hin & Hno). apply andb_true_iff in Hno as [Hno _].
  apply String.eqb_eq in Hno. run_step H. run_step H. apply settlement_aside in R0.
  run_step H. destruct a as [a b]. apply ret_ok_inv in H as [[= -> -> ->] ->].
  split; [unfold keep in R0; congruence|]. unfold validatePurchasablePackage in E.
  destruct (on_sale row now) eqn:Es; [simpl in E|discriminate E].
  destruct ((_ <? _) || _) eqn:Er; [discriminate E|].
  destruct (validatePackageRow parse row) as [[]|] eqn:Ev; [|discriminate E].
  split; try done. apply orb_false_iff in Er. unfold in_range. lia.
Qed.

Lemma package_fields parse pkg : validatePackageRow parse pkg = Ok tt ->
  Pkg_PackageCode pkg <> "" /\
  1 <= Pkg_MinPurchaseQuantity pkg /\ Pkg_MaxPurchaseQuantity pkg <= MaxPurchaseQuantity.
Proof.
  unfold validatePackageRow. destruct (valid_package_fields parse pkg) eqn:E; [|done]. intros _.
  unfold valid_package_fields, in_range in E. rewrite !andb_true_iff in E.
  split; [|unfold MaxPurchaseQuantity in *; lia].
  intros Hno. rewrite Hno in E. change (str_len "") with 0 in E. lia.
Qed.

(** ** The transactions *)

Lemma claim_aside cid ty aid m p k h : steps aside (claimIdempotencyWithID cid ty aid m p k h).
Proof.
  unfold claimIdempotencyWithID, StartAt. go_steps; apply steps_any_steps;
    (apply steps_any_create_or_ignore || apply steps_any_update); try exact _; by intros.
Qed.

Lemma cached_aside ty aid p k : steps aside (purchase_cachedResponse ty aid p k).
Proof. unfold purchase_cachedResponse, CachedResponse. go_steps. Qed.

Lemma fail_owned_aside ty aid p k cid : steps aside (FailOwned ty aid p k cid).
Proof. unfold FailOwned. go_steps. Qed.

Lemma succeed_owned_aside ty aid p k cid (d : PurchaseDTO) :
  steps aside (SucceedOwned ty aid p k cid d).
Proof. unfold SucceedOwned. go_steps. Qed.

Lemma resume_aside appID id d : steps aside (resume_purchase appID id d).
Proof. unfold resume_purchase, CustomerPurchaseEligibility. go_steps. Qed.

#[export] Hint Resolve claim_aside cached_aside fail_owned_aside succeed_owned_aside
  resume_aside : steps.

(** A successful creation: what it wrote. *)
Record purchase_opened (c : Counter) (parse : UrlParser) (customerID : Z) (key : string)
    (req : PurchaseCreateRequest) (id : Z) (c' : Counter) : Prop := {
  po_written : exists now pkg amount bottles p x q,
    package_checked c parse req now pkg amount bottles /\ Pur_ID p = id /\
    purchase_written c customerID key pkg (PReq_Quantity req) amount bottles now p x q c';
}.

Lemma open_purchase_ok parse appID ctx s customerID key req w d w' :
  open_purchase parse appID ctx s customerID key req w = (Ok d, w') -> sales_ok (counter (w_db w)) ->
  purchase_opened (counter (w_db w)) parse customerID key req (Draft_PurchaseID d)
    (counter (w_db w')).
Proof.
  unfold open_purchase. intros H Hok. assert (Ec : counter (w_db w) = counter (w_db w)) by done.
  run_step H. rename a into now. beside R Ec. run_step H. destruct a as [[pkg amount] bottles].
  apply check_package_ok in R as [E1 Hc]. rewrite Ec in *. run_step H.
  apply check_customer_aside in R. assert (E2 : counter (w_db w2) = counter (w_db w)).
  { transitivity (counter (w_db w1)); [exact R|exact E1]. }
  run_step H. rename a0 into id. apply ret_ok_inv in H as [-> ->].
  pose proof Hc as [_ _ _ Hr Hrow _]. apply package_fields in Hrow as (_ & Hmin & Hmax).
  apply write_purchase_ok in R0 as (p & x & q & Hid & Hw).
  - rewrite E2 in Hw. split. by exists now, pkg, amount, bottles, p, x, q.
  - by rewrite E2.
  - unfold in_range, MaxPurchaseQuantity in *. lia.
Qed.

Lemma purchase_opened_steps c parse customerID key req id c' :
  purchase_opened c parse customerID key req id c' -> sales_ok c -> PReq_PackageNo req <> "" ->
  rtc sale_step c c'.
Proof.
  intros [(now & pkg & a & b & p & x & q & Hc & _ & Hw)] Hok Hno.
  pose proof Hc as [Hin Hn _ _ Hrow _]. apply package_fields in Hrow as (Hcode & _).
  eapply purchase_written_steps; [exact Hw|done|done|done|by rewrite Hn].
Qed.

Lemma start_purchase_ok parse appID ctx s ty customerID cid m p k h req w r w' :
  start_purchase parse appID ctx s ty customerID cid m p k h req w = (Ok r, w') ->
  sales_ok (counter (w_db w)) ->
  counter (w_db w') = counter (w_db w) \/
  exists d, r = inr d /\
    purchase_opened (counter (w_db w)) parse customerID k req (Draft_PurchaseID d)
      (counter (w_db w')).
Proof.
  unfold start_purchase. intros H Hok. assert (Ec : counter (w_db w) = counter (w_db w)) by done.
  run_step H. beside R Ec. run_case H.
  { run_step H. beside R Ec. apply ret_ok_inv in H as [-> ->]. by left. }
  run_step H. unfold CustomerPurchaseByPaymentKey in R. beside R Ec.
  destruct a0 as [existing|e].
  - run_step H. beside R Ec. apply ret_ok_inv in H as [-> ->]. by left.
  - run_step H. run_step H. rename a0 into d. apply ret_ok_inv in H as [-> ->].
    right. exists d. split; [done|]. rewrite <- Ec in *. by eapply open_purchase_ok.
Qed.

(** What a submission that failed leaves: the purchase closed, or in doubt. *)
Lemma reflect_ok id status w u w' :
  reflectPaymentSubmissionState id status w = (Ok u, w') -> sales_ok (counter (w_db w)) ->
  exists p, p ∈ ct_purchases (counter (w_db w)) /\ Pur_ID p = id /\
   (Pur_Status p <> PurchaseStatusPendingPayment /\ counter (w_db w') = counter (w_db w) \/
    Pur_Status p = PurchaseStatusPendingPayment /\ exists now,
      if one_of ["failed"; "closed"] status
      then exists q, row_of (counter (w_db w)) p q /\
        Pur_PackageQuantity p <= Quota_ReservedQuantity q /\
        let c' := with_purchase p (purchase_moved PurchaseStatusClosed now p)
                    (with_quota q (quota_released p now q) (counter (w_db w))) in
        counter (w_db w') = c' /\ tables_ok c'
      else let c' := with_purchase p (purchase_moved PurchaseStatusPaymentUnknown now p)
                       (counter (w_db w)) in
        counter (w_db w') = c' /\ tables_ok c').
Proof.
  unfold reflectPaymentSubmissionState. intros H Hok.
  apply transaction_ok in H as (w1 & w2 & E1 & H & E2). rewrite E2, <- E1 in *. clear E1 E2.
  run_step H. rename a into p. apply take_in in R as (D1 & Hp & Eid). apply Z.eqb_eq in Eid.
  exists p. split; [done|]. split; [done|]. run_case H.
  { apply ret_ok_inv in H as [_ ->]. left. split; [|by rewrite D1].
    apply negb_true_iff, String.eqb_neq in B. done. }
  right. apply negb_false_iff, String.eqb_eq in B. split; [done|].
  run_step H. rename a into snap. run_step H. rename a into q. apply take_in in R as (D2 & Hq & Eq).
  apply andb_true_iff in Eq as [Q1 Q2].
  assert (Ec : counter (w_db w3) = counter (w_db w1)) by congruence.
  run_step H. beside R Ec. rename a into now. exists now.
  assert (Hrow : row_of (counter (w_db w1)) p q).
  { split; [done|]. split; [rewrite D1 in Hq; exact Hq|]. unfold counts_in, purchase_code.
    rewrite E, String.eqb_sym, Q2, Z.eqb_sym, Q1. done. }
  run_case H.
  - run_step H. run_step H. exists q. split; [done|]. split; [lia|].
    eapply release_ok in R as [E2 T2]; [|exact Ec|done|exact Hrow|lia].
    by eapply update_purchase_ok in H as [E3 T3]; [|exact E2|exact T2|apply Hrow|done].
  - by eapply update_purchase_ok in H as [E3 T3]; [|exact Ec|by apply sales_tables|apply Hrow|done].
Qed.

Lemma pending_open p : Pur_Status p = PurchaseStatusPendingPayment -> is_open p = true.
Proof. intros E. unfold is_open. by rewrite E. Qed.

Lemma reflect_sells id status : steps_any sells (reflectPaymentSubmissionState id status).
Proof.
  intros w [u|e] w' H Hok; [|apply transaction_err in H; by rewrite H].
  destruct (reflect_ok _ _ _ _ _ H Hok) as (p & Hp & _ & [[_ ->]|(Hs & now & Hc)]); [done|].
  apply rtc_once. destruct (one_of _ status).
  - apply pending_open in Hs. destruct Hc as (q & Hrow & Hle & -> & T). by apply (step_close _ p q now).
  - destruct Hc as (-> & T). apply (step_mark _ p PurchaseStatusPaymentUnknown now); try done.
    rewrite Hs. constructor.
Qed.

Lemma dto_by_id_aside cid id : steps_any aside (customerPurchaseDTOByID cid id).
Proof.
  assert (Hdtos : forall rows, steps_any aside (purchaseDTOs rows)).
  { intros rows. unfold purchaseDTOs, PurchaseLotFacts. go_steps.
    apply steps_any_exec; [exact _|]. intros db0 x db1 E. by simplify_eq. }
  unfold customerPurchaseDTOByID, CustomerPurchaseByID, one_purchase. go_steps.
Qed.
#[export] Hint Resolve dto_by_id_aside : steps.

Section Calls.
Context (parse : UrlParser) (appID : string) (payments : option PaymentService).
Context (Hsvc : forall s, payments = Some s -> Configured s).
Context (retail : Context -> Payment -> ProviderPaymentState -> string -> Z -> string ->
  G (Payment * option error)).
Context (Hretail : forall ctx p state ty id key, steps sells (retail ctx p state ty id key)).

Lemma submit_purchase_sells ctx s cid draft :
  Configured s -> steps_any sells (submit_purchase ctx s cid draft).
Proof.
  intros Hs. unfold submit_purchase. cbv zeta. go_step; [apply BusinessPayment_sells|].
  intros payment. go_step; [|auto with steps].
  go_step; [by apply sells_attempt, SubmitBusinessPayment_sells|].
  intros [p|e]; [auto with steps|].
  go_step; [apply sells_or_error, BusinessPayment_sells|auto with steps].
Qed.

Lemma finish_purchase_sells ctx s ty cid claimID p k draft :
  Configured s -> steps_any sells (finish_purchase ctx s ty cid claimID p k draft).
Proof.
  intros Hs. unfold finish_purchase. go_step; [by apply submit_purchase_sells|].
  intros submitted. go_step; [go_step; [apply reflect_sells|auto with steps]|].
  intros _. go_step; [auto with steps|]. intros response.
  go_step; [apply sells_transaction; auto with steps|auto with steps].
Qed.

Lemma or_release_sells {A} claimID ty cid p k (m : G A) :
  steps_any sells m -> steps_any sells (or_release claimID ty cid p k m).
Proof.
  intros Hm. unfold or_release, releaseCustomerIdempotencyOwned.
  go_step; [by apply sells_attempt|]. intros [a|e]; [auto with steps|].
  go_step; [|auto with steps]. go_step; [|auto with steps].
  apply sells_attempt, sells_transaction. auto with steps.
Qed.

Lemma CreatePurchase_sells ctx claims m p k req :
  steps_any sells (CreatePurchase parse appID payments ctx claims m p k req).
Proof.
  unfold CreatePurchase. destruct payments as [s|] eqn:Es; [|auto with steps].
  go_step; [auto with steps|]. intros cid. unfold bind at 1.
  intros w r w' H. destruct (validatePurchaseCreate req) as [[]|e] eqn:Ev;
    [|unfold lift in H; simplify_eq; reflexivity].
  assert (Hno : PReq_PackageNo req <> "").
  { intros E. unfold validatePurchaseCreate in Ev. rewrite E in Ev. discriminate. }
  revert w r w' H. change (steps_any sells (claimID <- next_id ;;
    started <- transaction (start_purchase parse appID ctx s (default "" (Claims_AccountType <$> claims))
      cid claimID m p k (RequestHash (PurchaseCreateRequest_json req)) req) ;;
    match started with
    | inl response => ret response
    | inr draft => or_release claimID (default "" (Claims_AccountType <$> claims)) cid p k
        (finish_purchase ctx s (default "" (Claims_AccountType <$> claims)) cid claimID p k draft)
    end)).
  go_step; [auto with steps|]. intros claimID. go_step.
  - apply sells_transaction. intros w a w' H Hok.
    destruct (start_purchase_ok _ _ _ _ _ _ _ _ _ _ _ _ _ _ _ H Hok) as [->|(d & _ & Hd)]; [done|].
    by eapply purchase_opened_steps.
  - intros [response|draft]; [auto with steps|]. apply or_release_sells, finish_purchase_sells.
    by apply Hsvc.
Qed.

Lemma ConfirmPurchasePayment_sells ctx claims m p k no :
  steps_any sells (ConfirmPurchasePayment payments retail ctx claims m p k no).
Proof.
  unfold ConfirmPurchasePayment. destruct payments as [s|] eqn:Es; [|auto with steps].
  go_step; [auto with steps|]. intros cid. go_step; [auto with steps|]. intros _.
  go_step; [apply sells_or_missing; unfold CustomerPurchaseByNo; auto with steps|]. intros row.
  cbv zeta. go_step; [auto with steps|]. intros claimID.
  go_step; [apply sells_transaction; unfold claim_or_cached; go_steps|].
  intros [response|]; [auto with steps|]. apply or_release_sells.
  go_step; [apply ConfirmBusinessPayment_sells; [by apply Hsvc|done]|]. intros _.
  go_step; [auto with steps|]. intros response.
  go_step; [apply sells_transaction; auto with steps|auto with steps].
Qed.
End Calls.
