(* ===== verification/PurchaseSamples.v ===== *)
(** * Sample data of the purchase theorems

    A package of six bottles on sale at the sample shop, a customer with an
    identity of the mini program, and a provider that accepts every payment. *)

From S2P Require Import Prelude GoInt GoString GoTime Json Problem RequestCtx.
From S2P Require Import CoreModel GiftModel RedemptionModel PurchaseModel AssetLaws Database.
From S2P Require Import FulfilmentTables PurchaseTables Samples GiftDto GiftService PurchaseDto.
From S2P Require Import PurchaseRepository BusinessPayment PurchaseSettlement PurchaseService.
From S2P Require Import RedemptionSamples.
From Stdlib Require Import String.
#[local] Open Scope string_scope. #[local] Open Scope list_scope. #[local] Open Scope Z_scope.
#[local] Open Scope go_scope.

Definition sample_refund_policy : json :=
  JObj [("schema_version", JNum 1); ("enabled", JBool true); ("window_hours", JNum 168);
        ("require_never_used", JBool true); ("fee_amount", JNum 0)].

Definition sample_renewal_policy : json :=
  JObj [("schema_version", JNum 1); ("enabled", JBool true); ("extension_days", JNum 90);
        ("max_count", JNum 2); ("grace_days", JNum 0); ("fee_amount", JNum 5000)].

Definition sample_delivery_policy : json :=
  JObj [("schema_version", JNum 1); ("delivery_fee_included", JBool true);
        ("dispatch_lead_minutes", JNum 60)].

Definition sample_package : Package := {|
  Pkg_ID := 91; Pkg_PackageNo := "WTPK91"; Pkg_PackageCode := "MT6"; Pkg_PackageVersion := 1;
  Pkg_IssuerMerchantID := 3; Pkg_SettlementShopID := 31; Pkg_SettlementShopProductID := 71;
  Pkg_ProductID := 5; Pkg_RedeemCityCode := "310100"; Pkg_PackageType := PackageTypeStockpile;
  Pkg_Name := "Six bottles"; Pkg_Subtitle := None; Pkg_CoverImageURL := None;
  Pkg_BottleQuantity := 6; Pkg_SalePriceAmount := 899400; Pkg_MinPurchaseQuantity := 1;
  Pkg_MaxPurchaseQuantity := 5; Pkg_ValidityDays := 365; Pkg_PerCustomerLimit := Some 5;
  Pkg_RefundPolicy := sample_refund_policy; Pkg_RenewalPolicy := sample_renewal_policy;
  Pkg_DeliveryPolicy := sample_delivery_policy; Pkg_Status := PackageStatusPublished;
  Pkg_SaleStartAt := None; Pkg_SaleEndAt := None; Pkg_DeletedAt := None |}.

Definition sample_sales : Sales := {|
  sales_packages := [sample_package]; sales_quotas := []; sales_purchases := [];
  sales_payments := []; sales_refunds := []; sales_ticket_refunds := [];
  sales_identities := [{| Ident_ID := 95; Ident_CustomerID := 7;
    Ident_Provider := "wechat_miniapp"; Ident_AppID := "wx1"; Ident_ProviderSubject := "openid-7";
    Ident_Status := "active"; Ident_DeletedAt := None |}] |}.

Definition purchase_database : Database := {|
  db_lots := []; db_transactions := []; db_gifts := []; db_gift_allocations := [];
  db_gift_tokens := []; db_renewals := []; db_redemption_allocations := [];
  db_refund_allocations := []; db_customers := [sample_customer 7 "buyer"];
  db_realnames := [sample_adult 7]; db_identity_requests := []; db_products := [sample_product];
  db_audit_logs := []; db_outbox := []; db_idempotency := [];
  db_fulfilment := sample_fulfilment; db_sales := sample_sales |}.

Definition purchase_world : World := sample_world_on purchase_database.

(** A provider that answers at once. *)
Definition sample_provider : PaymentProvider := {|
  Provider_Code := "wechat";
  Provider_Create input := ret {|
    PPR_ProviderTradeNo := ""; PPR_ProviderPrepayID := "prepay-1"; PPR_Status := "NOTPAY";
    PPR_RequestID := "req-1"; PPR_ClientPayload := JObj [("package", JStr "prepay_id=prepay-1")] |};
  Provider_Query no := ret {|
    PPS_ProviderTradeNo := "T1"; PPS_PaymentNo := no; PPS_Status := "USERPAYING"; PPS_AppID := "wx1";
    PPS_MchID := "mch1"; PPS_Amount := 1798800; PPS_Currency := "CNY"; PPS_AmountPresent := true;
    PPS_RequestID := "req-2"; PPS_PaidAt := None |};
  Provider_Close no := ret "closed" |}.

Definition sample_service : PaymentService := {|
  Svc_payment := Some sample_provider; Svc_PayEnabled := true; Svc_PayMockEnabled := false;
  Svc_MiniAppID := "wx1"; Svc_PayMchID := "mch1"; Svc_PayDescription := "wine";
  Svc_paymentSettlements := Some [(PurchasePaymentBusiness, purchase_handler)] |}.

(** No retail order is paid in the samples. *)
Definition no_retail (ctx : Context) (payment : Payment) (state : ProviderPaymentState)
    (actorType : string) (actorID : Z) (key : string) : G (Payment * option error) :=
  throw ERecordNotFound.

Definition no_urls : UrlParser := fun _ => None.

Definition buyer_claims : Claims := {|
  Claims_AccountType := "customer"; Claims_CustomerID := "7";
  Claims_Permissions := ["wine_ticket_purchase:create"; "wine_ticket_payment:confirm";
                         "wine_ticket_purchase:view"; "wine_ticket_purchase:list"] |}.

Definition buy_request : PurchaseCreateRequest := {| PReq_PackageNo := "WTPK91"; PReq_Quantity := 2 |}.

Abbreviation sample_buy :=
  (CreatePurchase no_urls "wx1" (Some sample_service) Background (Some buyer_claims) "POST"
     "/purchases" "purchase-key-1" buy_request).

(** The notification that the purchase of [sample_buy] was paid. *)
Definition paid_state (paymentNo : string) (paidAt : time) : ProviderPaymentState := {|
  PPS_ProviderTradeNo := "T1"; PPS_PaymentNo := paymentNo; PPS_Status := "SUCCESS";
  PPS_AppID := "wx1"; PPS_MchID := "mch1"; PPS_Amount := 1798800; PPS_Currency := "CNY";
  PPS_AmountPresent := true; PPS_RequestID := "req-3"; PPS_PaidAt := Some paidAt |}.
