(* ===== verification/PurchaseTheorems.v ===== *)
(** * The purchases: their theorems

    Over every history of purchases, confirmations, notifications of the
    provider and reconciliations, each purchase is unpaid, issued once in full,
    or on its way back; quotas count what is reserved and used; a payment that
    succeeded has a settled purchase. *)

From S2P Require Import Prelude GoInt GoString GoTime Json Problem RequestCtx.
From S2P Require Import CoreModel AssetService GiftModel RedemptionModel PurchaseModel AssetLaws.
From S2P Require Import AssetLedger Database FulfilmentTables PurchaseTables Steps AssetRepository.
From S2P Require Import IntegrityScan AssetTheorems LedgerEntries Samples Idempotency GiftDto.
From S2P Require Import GiftInvariant GiftRepository GiftService RedemptionDto PurchaseDto.
From S2P Require Import RedemptionRepository PurchaseRepository BusinessPayment RedemptionService.
From S2P Require Import RedemptionBooks RedemptionTheorems AssetFrame PurchaseSettlement.
From S2P Require Import PurchaseService PurchaseBooks PurchaseRuns PurchaseCalls PurchaseFlow.
From S2P Require Import PurchaseSamples.
From Stdlib Require Import String.
#[local] Open Scope string_scope. #[local] Open Scope list_scope. #[local] Open Scope Z_scope.
#[local] Open Scope go_scope.

(** ** Histories *)

(** A call of a customer, a verified notification of the provider, a run of the
    reconciliation worker. *)
Inductive PurchaseCall :=
| BuyCall (ctx : Context) (claims : option Claims) (method path key : string)
    (req : PurchaseCreateRequest)
| ConfirmCall (ctx : Context) (claims : option Claims) (method path key purchaseNo : string)
| NotifyCall (ctx : Context) (paymentNo provider : string) (state : ProviderPaymentState)
    (actorType : string) (actorID : Z) (key : string)
| ReconcileCall (ctx : Context) (creatingAge : Z) (now : time) (limit : Z).

(** The program around the calls: the parser of URLs, the id of the mini
    program, the payment service, the branch for retail orders. *)
Record SalesProgram := {
  prog_urls : UrlParser;
  prog_app : string;
  prog_payments : PaymentService;
  prog_retail : Context -> Payment -> ProviderPaymentState -> string -> Z -> string ->
    G (Payment * option error);
}.

Definition purchase_call (m : SalesProgram) (c : PurchaseCall) : G unit :=
  match c with
  | BuyCall ctx claims method path key req =>
      CreatePurchase (prog_urls m) (prog_app m) (Some (prog_payments m)) ctx claims method path key
        req ;;; ret tt
  | ConfirmCall ctx claims method path key no =>
      ConfirmPurchasePayment (Some (prog_payments m)) (prog_retail m) ctx claims method path key no ;;;
      ret tt
  | NotifyCall ctx no provider state ty id key =>
      ApplyProviderPaymentState (prog_payments m) (prog_retail m) ctx no provider state ty id key ;;;
      ret tt
  | ReconcileCall ctx age now limit =>
      ReconcileCreatingBatch (prog_payments m) (prog_retail m) ctx age now limit ;;; ret tt
  end.

(** What the rest of the program promises: the provider and the retail branch
    move the books by their steps only, and so do the settlement handlers. *)
Record ProgramOk (m : SalesProgram) : Prop := {
  prog_configured : Configured (prog_payments m);
  prog_retail_steps ctx p state ty id key : steps sells (prog_retail m ctx p state ty id key);
}.

(** Books before the first purchase. *)
Record sales_start (c : Counter) : Prop := {
  st_ledger : ledger_ok (ct_assets c);
  st_packages : Forall (fun p => package_row_check p = true) (ct_packages c);
  st_none : ct_quotas c = [] /\ ct_purchases c = [] /\ ct_refunds c = [];
  st_payments : list_ok (ct_payments c);
  st_unpaid x : x ∈ ct_payments c -> (paymentBusiness x).1 <> PurchasePaymentBusiness;
  st_lots l : l ∈ v_lots (ct_assets c) -> Lot_SourceType l <> LotSourcePurchase;
}.

Inductive purchase_reachable (m : SalesProgram) : World -> Prop :=
| purchase_start w : sales_start (counter (w_db w)) -> purchase_reachable m w
| purchase_env w w' :
    purchase_reachable m w -> apart (counter (w_db w)) (counter (w_db w')) ->
    purchase_reachable m w'
| purchase_step w c r w' :
    purchase_reachable m w -> purchase_call m c w = (r, w') -> purchase_reachable m w'.

Lemma sales_start_ok c : sales_start c -> sales_ok c.
Proof.
  intros [H1 H2 (E1 & E2 & E3) H3 H4 H5].
  assert (Hnil : forall R (H : Table R), list_ok ([] : list R)) by (split; [done|constructor]).
  split; rewrite ?E1, ?E2, ?E3; try done; try by intros ? ?%not_elem_of_nil.
  - intros x Hx _ Hb. by apply H4 in Hx.
  - intros l Hl E. by apply H5 in Hl.
Qed.

Lemma purchase_call_steps m c : ProgramOk m -> steps_any sells (purchase_call m c).
Proof.
  intros [Hc Hr]. destruct c; cbn [purchase_call]; (go_step; [|auto with steps]).
  - apply CreatePurchase_sells. by intros ? [= <-].
  - apply ConfirmPurchasePayment_sells; [by intros ? [= <-]|done].
  - by apply ApplyProviderPaymentState_sells.
  - by apply ReconcileCreatingBatch_sells.
Qed.

Lemma purchase_reachable_ok m w : ProgramOk m -> purchase_reachable m w -> sales_ok (counter (w_db w)).
Proof.
  intros Hm. induction 1 as [w Hs|w w' _ IH Ha|w c r w' _ IH H].
  - by apply sales_start_ok.
  - by eapply apart_ok.
  - eapply sale_steps_ok; [|exact IH]. by apply (purchase_call_steps m c Hm _ _ _ H).
Qed.

(** ** The state machine of a purchase *)

(** One move of a purchase: its state and what was paid, nothing else. *)
Inductive purchase_move (p p' : Purchase) : Prop :=
| move_doubt : in_doubt (Pur_Status p) (Pur_Status p') -> unpaid p' -> purchase_move p p'
| move_issue : is_open p = true -> Pur_Status p' = PurchaseStatusIssued -> paid_in_full p' ->
    purchase_move p p'
| move_refund : is_open p = true -> Pur_Status p' = PurchaseStatusRefundHolding ->
    paid_in_full p' -> purchase_move p p'
| move_close : is_open p = true -> Pur_Status p' = PurchaseStatusClosed -> unpaid p' ->
    purchase_move p p'.

Definition purchase_moves (p p' : Purchase) : Prop := same_terms p p' /\ rtc purchase_move p p'.

Lemma move_open p p' : purchase_move p p' -> is_open p = true.
Proof. intros [H|H|H|H]; try done. unfold is_open. by inversion H. Qed.

Lemma moves_final p p' : rtc purchase_move p p' -> is_open p = false -> p' = p.
Proof. intros [->|(y & H & _)]%rtc_inv Ho; [done|]. apply move_open in H. congruence. Qed.

(** A row of the purchases after [p] became [p']. *)
Lemma replaced_moves c p p' z :
  sales_ok c -> p ∈ ct_purchases c -> same_terms p p' -> purchase_move p p' ->
  z ∈ ct_purchases c ->
  exists z', z' ∈ replaced Pur_ID p p' (ct_purchases c) /\ purchase_moves z z'.
Proof.
  intros Hok Hp Ht Hm Hz. destruct (decide (Pur_ID z = Pur_ID p)) as [E|E].
  - rewrite (NoDup_map_inj Pur_ID _ _ _ (purchase_ids c Hok) Hz Hp E).
    exists p'. split; [by apply replaced_in|]. split; [done|by apply rtc_once].
  - exists z. split; [by apply replaced_other|]. split; [apply same_terms_refl|done].
Qed.

Lemma sale_step_moves c c' z :
  sale_step c c' -> sales_ok c -> z ∈ ct_purchases c ->
  exists z', z' ∈ ct_purchases c' /\ purchase_moves z z'.
Proof.
  intros H Hok Hz.
  assert (Hsame : exists z', z' ∈ ct_purchases c /\ purchase_moves z z').
  { exists z. split; [done|]. split; [apply same_terms_refl|done]. }
  assert (Hopen : forall p, p ∈ ct_purchases c -> is_open p = true -> unpaid p).
  { intros p Hp Ho. by apply (good_of_open c p (so_good _ Hok _ Hp)). }
  destruct H as
    [q H1 H2 H3|p q x now c' H1 H2 H3 H4 H5 -> H7
    |p q lot t paidAt now v c' (Hp & _) Ho Hle Hv Hext Hnew -> Hli Hfor Ht
    |p q r paidAt now c' (Hp & _) Ho Hle R1 R2 R3 R4 R5 -> Ht
    |p q now c' (Hp & _) Ho Hle -> Ht|p status now c' Hp Hst -> Ht
    |x y c' H1 H2 H3 -> H5|c' [_ _ _ _ _ E _ _]]; simpl; try done.
  - destruct Hsame as (z' & Hz' & Hm). exists z'. split; [|done]. apply elem_of_app. by left.
  - eapply replaced_moves; try done. apply move_issue; [done|done|apply paid_after].
  - eapply replaced_moves; try done. apply move_refund; [done|done|apply paid_after].
  - eapply replaced_moves; try done. apply move_close; [done|done|]. by apply (Hopen p).
  - eapply replaced_moves; try done. apply move_doubt; [done|]. apply (Hopen p Hp).
    unfold is_open. by inversion Hst.
  - by rewrite E.
Qed.

Lemma sale_steps_moves c c' : rtc sale_step c c' -> sales_ok c -> forall z, z ∈ ct_purchases c ->
  exists z', z' ∈ ct_purchases c' /\ purchase_moves z z'.
Proof.
  induction 1 as [c|c c1 c' H _ IH]; intros Hok z Hz.
  - exists z. split; [done|]. split; [apply same_terms_refl|done].
  - destruct (sale_step_moves _ _ _ H Hok Hz) as (z1 & Hz1 & T1 & M1).
    destruct (IH (sale_step_ok _ _ H Hok) _ Hz1) as (z2 & Hz2 & T2 & M2).
    exists z2. split; [done|]. split; [by eapply same_terms_trans|by transitivity z1].
Qed.

(** ** Samples *)

Definition sample_program : SalesProgram := {|
  prog_urls := no_urls; prog_app := "wx1"; prog_payments := sample_service;
  prog_retail := no_retail |}.

#[export] Instance sample_provider_beside : Beside sample_provider.
Proof.
  assert (Hret : forall A (a : A), steps_any sells (remote (ret a))).
  { intros A a w r w' H. unfold remote, ret in H. by simplify_eq. }
  split; intros; apply Hret.
Qed.

Lemma sample_program_ok : ProgramOk sample_program.
Proof.
  split; simpl.
  - split; simpl; [intros p [= <-]; exact _|].
    intros r bt h [= <-]. unfold resolve, find. cbn [fst].
    destruct (String.eqb PurchasePaymentBusiness bt); [|done]. intros [= <-]. exact _.
  - intros. unfold no_retail. auto with steps.
Qed.

Definition sample_buy_call : PurchaseCall :=
  BuyCall Background (Some buyer_claims) "POST" "/purchases" "purchase-key-1" buy_request.

Definition bought_world : World := (purchase_call sample_program sample_buy_call purchase_world).2.

Definition sample_payment_no : string :=
  default "" (Pay_PaymentNo <$> head (ct_payments (counter (w_db bought_world)))).

Definition sample_paid_call : PurchaseCall :=
  NotifyCall Background sample_payment_no "wechat" (paid_state sample_payment_no sample_now)
    "provider" 0 "notify-1".

Definition paid_world : World := (purchase_call sample_program sample_paid_call bought_world).2.

Lemma purchase_world_starts : sales_start (counter (w_db purchase_world)).
Proof.
  split; simpl; try done; try by intros ? ?%not_elem_of_nil.
  - by apply ledger_check_ok.
  - by repeat constructor.
Qed.

Lemma bought_reachable : purchase_reachable sample_program bought_world.
Proof.
  eapply (purchase_step _ purchase_world sample_buy_call); [|apply surjective_pairing].
  apply purchase_start, purchase_world_starts.
Qed.

Lemma paid_reachable : purchase_reachable sample_program paid_world.
Proof.
  eapply (purchase_step _ bought_world sample_paid_call); [|apply surjective_pairing].
  apply bought_reachable.
Qed.

(** ** The theorems *)

(** C5: Whatever purchases, confirmations, notifications of the provider and
    reconciliations ran, with the rest of the program in between, the books are
    in order: every purchase is unpaid without a lot or refund, or issued and
    paid in full with exactly one lot that its ledger entry proves, or paid and
    on its way back with exactly one refund and no lot; every quota counts the
    packages of the open and of the settled purchases; a purchase whose payment
    succeeded is settled with that payment and amount. *)
Theorem purchases_stay_consistent m w :
  ProgramOk m -> purchase_reachable m w -> sales_ok (counter (w_db w)).
Proof. exact (purchase_reachable_ok m w). Qed.

Lemma purchases_stay_consistent_witness :
  map (fun p => Pur_Status p) (ct_purchases (counter (w_db paid_world))) = [PurchaseStatusIssued] /\
  map (fun l => Lot_AvailableQuantity l) (v_lots (ct_assets (counter (w_db paid_world)))) = [12] /\
  map (fun q => (Quota_ReservedQuantity q, Quota_ConsumedQuantity q))
    (ct_quotas (counter (w_db paid_world))) = [(0, 2)] /\
  sales_ok (counter (w_db paid_world)).
Proof.
  split; [vm_compute; reflexivity|]. split; [vm_compute; reflexivity|].
  split; [vm_compute; reflexivity|].
  exact (purchases_stay_consistent sample_program paid_world sample_program_ok paid_reachable).
Defined.

(** C7: A call moves each purchase along its state machine: an open purchase
    may come into doubt, be issued, be sent back or be closed, with the money
    each state stands for; an issued, closed or refunded purchase never changes,
    and nothing changes what was bought, by whom and at what price. *)
Theorem purchase_follows_its_state_machine m c w r w' p :
  ProgramOk m -> purchase_reachable m w -> purchase_call m c w = (r, w') ->
  p ∈ ct_purchases (counter (w_db w)) ->
  exists p', p' ∈ ct_purchases (counter (w_db w')) /\ same_terms p p' /\ rtc purchase_move p p' /\
    (is_open p = false -> p' = p).
Proof.
  intros Hm Hr H Hp. pose proof (purchase_reachable_ok _ _ Hm Hr) as Hok.
  destruct (sale_steps_moves _ _ (purchase_call_steps m c Hm _ _ _ H Hok) Hok _ Hp)
    as (p' & Hp' & Ht & Hmv).
  exists p'. repeat split; try done; try apply Ht. by apply moves_final.
Qed.

Lemma purchase_follows_its_state_machine_witness :
  exists p p', p ∈ ct_purchases (counter (w_db bought_world)) /\
    p' ∈ ct_purchases (counter (w_db paid_world)) /\
    Pur_Status p = PurchaseStatusPendingPayment /\ same_terms p p'.
Proof.
  assert (Hp : exists p, head (ct_purchases (counter (w_db bought_world))) = Some p /\
                 Pur_Status p = PurchaseStatusPendingPayment).
  { eexists. vm_compute. split; reflexivity. }
  destruct Hp as (p & Hh & Hs). assert (Hp : p ∈ ct_purchases (counter (w_db bought_world))).
  { by apply head_Some_elem_of. }
  destruct (purchase_follows_its_state_machine sample_program sample_paid_call bought_world
              (purchase_call sample_program sample_paid_call bought_world).1 paid_world p
              sample_program_ok bought_reachable (surjective_pairing _) Hp)
    as (p' & Hp' & Ht & _).
  exists p, p'. auto.
Defined.
