(* ===== verification/PaymentTheorems.v ===== *)
(** * What a state of the provider does to a purchase

    [ApplyProviderPaymentState] on the payment of a purchase, branch by branch:
    what the payment, the purchase, its quota, the lots and the refunds are
    afterwards, also when the state is refused or the settlement fails. *)

From S2P Require Import Prelude GoInt GoString GoTime Json Problem RequestCtx.
From S2P Require Import CoreModel AssetService GiftModel RedemptionModel PurchaseModel AssetLaws.
From S2P Require Import AssetLedger Database FulfilmentTables PurchaseTables Steps AssetRepository.
From S2P Require Import IntegrityScan AssetTheorems LedgerEntries Samples Idempotency GiftDto.
From S2P Require Import GiftInvariant GiftRepository GiftService RedemptionDto PurchaseDto.
From S2P Require Import RedemptionRepository PurchaseRepository BusinessPayment RedemptionService.
From S2P Require Import RedemptionBooks RedemptionTheorems AssetFrame PurchaseSettlement.
From S2P Require Import PurchaseService PurchaseBooks PurchaseRuns PurchaseCalls PurchaseFlow.
From S2P Require Import PurchaseSamples PurchaseTheorems.
From Stdlib Require Import String.
#[local] Open Scope string_scope. #[local] Open Scope list_scope. #[local] Open Scope Z_scope.
#[local] Open Scope go_scope.

(** The payment [x] is updated to [y]. *)
Definition payment_as (x y : Payment) (c c' : Counter) : Prop :=
  exists now,
    c' = on_payments (replaced Pay_ID x (payment_stamped (Pay_CreatedAt x) now y) (ct_payments c)) c /\
    tables_ok c'.

Definition status_of (state : ProviderPaymentState) : string := to_upper (trim_space (PPS_Status state)).

(** What applying a state of the provider leaves: the books, the payment
    returned, and why the state was refused. *)
Inductive state_applied (s : PaymentService) (c : Counter) (x : Payment)
    (state : ProviderPaymentState) : Counter -> Payment -> option error -> Prop :=
| applied_known :
    Pay_Status x = "succeeded" \/ provider_success (Pay_ProviderStatus x) = true ->
    status_of state <> "SUCCESS" -> state_applied s c x state c x None
| applied_again :
    Pay_Status x = "succeeded" -> status_of state = "SUCCESS" ->
    paymentProviderMismatch s x state "SUCCESS" = "" -> state_applied s c x state c x None
| applied_refused code p q snap c1 c' :
    paymentProviderMismatch s x state (status_of state) = code -> code <> "" ->
    locked_rows c (settlement_fact x state (status_of state) (Some code)) p q snap ->
    exception_effect c p c1 ->
    payment_as x (next_version (payment_mismatched state code x)) c1 c' ->
    state_applied s c x state c' (payment_mismatched state code x) (Some dataMismatch)
| applied_success p q snap c1 c' :
    paymentProviderMismatch s x state "SUCCESS" = "" -> status_of state = "SUCCESS" ->
    Pay_Status x <> "succeeded" ->
    locked_rows c (settlement_fact x state "SUCCESS" None) p q snap ->
    success_effect c (settlement_fact x state "SUCCESS" None) p q snap c1 ->
    payment_as x (next_version (payment_succeeded state "SUCCESS" x)) c1 c' ->
    state_applied s c x state c' (payment_succeeded state "SUCCESS" x) None
| applied_waiting now c' :
    paymentProviderMismatch s x state (status_of state) = "" ->
    one_of ["NOTPAY"; "USERPAYING"] (status_of state) = true ->
    let y := payment_waiting (status_of state) (nextPaymentReconcileAt x now) x in
    payment_as x (next_version y) c c' -> state_applied s c x state c' y None
| applied_ended now p q snap c1 c' :
    paymentProviderMismatch s x state (status_of state) = "" ->
    one_of ["CLOSED"; "REVOKED"; "PAYERROR"] (status_of state) = true ->
    locked_rows c (settlement_fact x state (status_of state) (Some (status_of state))) p q snap ->
    terminal_effect c p q c1 ->
    let y := payment_ended (if String.eqb (status_of state) "PAYERROR" then "failed" else "closed")
               (status_of state) now x in
    payment_as x (next_version y) c1 c' -> state_applied s c x state c' y None.

Lemma update_payment_exact x f w y w' c :
  update_payment x f w = (Ok y, w') -> counter (w_db w) = c -> tables_ok c -> x ∈ ct_payments c ->
  y = f x /\ payment_as x (next_version (f x)) c (counter (w_db w')).
Proof.
  unfold update_payment. intros H <- Ht Hx. run_step H. apply ret_ok_inv in H as [-> ->].
  split; [done|]. eapply update_payment_ok in R as (now & E & T); [|done|done|exact Hx|done].
  exists now. cbv zeta in *. split; [exact E|by rewrite E].
Qed.

Lemma exception_tables c p c' : tables_ok c -> exception_effect c p c' ->
  tables_ok c' /\ ct_payments c' = ct_payments c.
Proof. intros Ht [|now c1 _ -> T]; done. Qed.

Lemma terminal_tables c p q c' : tables_ok c -> terminal_effect c p q c' ->
  tables_ok c' /\ ct_payments c' = ct_payments c.
Proof. intros Ht [|now c1 _ _ -> T]; done. Qed.

Lemma success_tables c fact p q s c' : tables_ok c -> success_effect c fact p q s c' ->
  tables_ok c' /\ ct_payments c' = ct_payments c.
Proof. intros Ht [_|? ? ? ? ? ? _ _ _ ? ? _ _ -> T|? ? ? ? _ _ _ ? _ _ _ _ _ _ -> T]; done. Qed.

Lemma apply_external_ok s ctx x state w y e w' :
  applyExternalPaymentStateTx s ctx purchase_handler x state w = (Ok (y, e), w') ->
  sales_ok (counter (w_db w)) -> x ∈ ct_payments (counter (w_db w)) ->
  state_applied s (counter (w_db w)) x state (counter (w_db w')) y e.
Proof.
  unfold applyExternalPaymentStateTx. fold (status_of state). intros H Hok Hx.
  pose proof (sales_tables _ Hok) as Ht. run_case H.
  { apply ret_ok_inv in H as [[= -> ->] ->]. rewrite andb_true_iff, orb_true_iff, String.eqb_eq,
      negb_true_iff, String.eqb_neq in B. destruct B. by apply applied_known. }
  run_case H.
  { apply negb_true_iff, String.eqb_neq in B0. run_step H. run_step H.
    apply ret_ok_inv in H as [[= -> ->] ->].
    destruct (ApplyException_ok _ _ _ _ _ _ R eq_refl Hok) as (p & q & snap & Hl & He).
    destruct (exception_tables _ _ _ Ht He) as [T1 E1].
    eapply update_payment_exact in R0 as [-> Hp]; [|reflexivity|done|by rewrite E1].
    by eapply applied_refused. }
  apply negb_false_iff, String.eqb_eq in B0. run_case H.
  { apply String.eqb_eq in B1. rewrite B1 in *. run_case H.
    { apply ret_ok_inv in H as [[= -> ->] ->]. apply String.eqb_eq in B2. by apply applied_again. }
    apply String.eqb_neq in B2. run_step H. run_step H. apply ret_ok_inv in H as [[= -> ->] ->].
    destruct (ApplySuccess_ok _ _ _ _ _ R eq_refl Hok) as (p & q & snap & Hl & He).
    destruct (success_tables _ _ _ _ _ _ Ht He) as [T1 E1].
    eapply update_payment_exact in R0 as [-> Hp]; [|reflexivity|done|by rewrite E1].
    by eapply applied_success. }
  run_case H.
  { run_step H. rename a into now. apply time_now_db in R. run_step H.
    apply ret_ok_inv in H as [[= -> ->] ->]. rewrite <- R in *.
    eapply update_payment_exact in R0 as [-> Hp]; [|reflexivity|done|done].
    by eapply applied_waiting. }
  run_case H; [|by run_step H]. run_step H. rename a into now. apply time_now_db in R.
  run_step H. run_step H. apply ret_ok_inv in H as [[= -> ->] ->]. rewrite <- R in *.
  destruct (ApplyTerminal_ok _ _ _ _ _ R0 eq_refl Hok) as (p & q & snap & Hl & He).
  destruct (terminal_tables _ _ _ _ Ht He) as [T1 E1].
  eapply update_payment_exact in R1 as [-> Hp]; [|reflexivity|done|by rewrite E1].
  by eapply applied_ended.
Qed.

(** ** The payment is found and locked *)

(** [purchase_handler] settles the purchases. *)
Definition registered (s : PaymentService) : Prop :=
  exists r, Svc_paymentSettlements s = Some r /\
    resolve r PurchasePaymentBusiness = Some purchase_handler.

(** The payment of a purchase that a number and a provider name. *)
Definition payment_for (c : Counter) (no provider : string) (x : Payment) : Prop :=
  x ∈ ct_payments c /\ payment_no no provider x = true /\
  (paymentBusiness x).1 = PurchasePaymentBusiness.

Lemma payment_unique c no provider x y :
  tables_ok c -> payment_for c no provider x -> y ∈ ct_payments c ->
  payment_no no provider y = true -> y = x.
Proof.
  intros (_ & _ & _ & T) (Hx & Px & _) Hy Py. unfold payment_no in *.
  rewrite !andb_true_iff, !String.eqb_eq in Px, Py. destruct Px as [[E1 _] _], Py as [[E2 _] _].
  refine (NoDup_map_inj Pay_PaymentNo _ _ _ _ Hy Hx _); [|congruence].
  apply (unique_rows Pay_PaymentNo); [|apply T].
  intros a b E. simpl. rewrite E, String.eqb_refl. by rewrite orb_true_r.
Qed.

Lemma reads_or_missing {A} e (m : G A) :
  steps_any (keep (fun db : Database => db)) m -> steps (keep (fun db => db)) (or_missing e m).
Proof. intros Hm w a w' H. unfold or_missing in H. run H; exact (Hm _ _ _ R). Qed.

Lemma lock_business_reads id : steps (keep (fun db : Database => db)) (purchase_LockBusiness id).
Proof.
  unfold purchase_LockBusiness, LockPurchaseByID, LockPurchaseQuota.
  go_step; [apply reads_or_missing; auto with steps|]. intros p. go_step; [go_steps|]. intros snap.
  go_step; [apply reads_or_missing; auto with steps|go_steps].
Qed.

Section Found.
Context (s : PaymentService) (Hs : registered s).
Context (c : Counter) (Hok : sales_ok c) (x : Payment) (no provider : string).
Context (Hx : payment_for c no provider x).

Lemma locate_found w lookup h w' :
  locate_payment s no provider w = (Ok (lookup, h), w') -> counter (w_db w) = c ->
  w_db w' = w_db w /\ lookup = x /\ h = Some purchase_handler.
Proof.
  unfold locate_payment. intros H Ec. run_step H. unfold GetPaymentByNo in R.
  apply take_row_ok in R as (Hdb & Hin & Hp).
  assert (a = x) as ->.
  { eapply payment_unique; [by apply sales_tables|exact Hx| |exact Hp]. by rewrite <- Ec. }
  apply bind_ok_inv in H as (h' & w1 & H1 & H2). apply lift_ok_inv in H1 as [H1 ->].
  apply ret_ok_inv in H2 as [[= -> ->] ->]. split; [done|]. split; [done|].
  destruct Hs as (r & Er & Eh), Hx as (_ & _ & Eb). unfold externalSettlementHandler in H1.
  destruct (paymentBusiness x) as [bt id]. simpl in Eb. subst bt. rewrite Er, Eh in H1. simpl in H1.
  destruct (id =? 0); congruence.
Qed.

Lemma lock_found ctx changed w y w' :
  lock_payment ctx purchase_handler x no provider changed w = (Ok y, w') -> counter (w_db w) = c ->
  w_db w' = w_db w /\ y = x.
Proof.
  unfold lock_payment. intros H Ec. run_step H. run_step H.
  apply bind_ok_inv in H as (u & w2 & H1 & H2). apply fail_if_ok_inv in H1 as [_ ->].
  apply ret_ok_inv in H2 as [-> ->].
  pose proof (lock_business_reads _ _ _ _ R) as Hdb. unfold keep in Hdb.
  unfold LockPaymentByNo in R0. apply take_row_ok in R0 as (E & Hin & Hp).
  split; [congruence|]. eapply payment_unique; [by apply sales_tables|exact Hx| |exact Hp].
  rewrite <- Ec, <- Hdb. exact Hin.
Qed.

Context (retail : Context -> Payment -> ProviderPaymentState -> string -> Z -> string ->
  G (Payment * option error)).

Lemma apply_body_ok ctx state ty id key w y e w' :
  (bind (locate_payment s no provider)
     (apply_located s retail ctx no provider state ty id key)) w = (Ok (y, e), w') ->
  counter (w_db w) = c -> state_applied s c x state (counter (w_db w')) y e.
Proof.
  intros H Ec. apply bind_ok_inv in H as ([lookup h] & w1 & H1 & H).
  destruct (locate_found _ _ _ _ H1 Ec) as (E1 & -> & ->). unfold apply_located in H. simpl in H.
  apply bind_ok_inv in H as (y0 & w2 & H2 & H).
  destruct (lock_found _ _ _ _ _ H2) as [E2 ->]; [by rewrite E1|].
  assert (Ec2 : counter (w_db w2) = c) by (rewrite E2, E1; exact Ec).
  rewrite <- Ec2 in *. eapply apply_external_ok; [exact H|exact Hok|apply Hx].
Qed.

(** What the settlement of a verified success leaves when it fails. *)
Inductive unsettled (state : ProviderPaymentState) (reason : string) : Counter -> Prop :=
| unsettled_known : unsettled state reason c
| unsettled_marked p q snap c1 c' next :
    Pay_Status x <> "succeeded" ->
    locked_rows c (settlement_fact x state "SUCCESS" None) p q snap -> exception_effect c p c1 ->
    payment_as x (payment_unsettled state reason next x) c1 c' -> unsettled state reason c'.

Lemma persist_ok ctx state reason w u w' :
  persistExternalPaymentSettlementFailure s ctx no provider state reason w = (Ok u, w') ->
  counter (w_db w) = c -> unsettled state reason (counter (w_db w')).
Proof.
  unfold persistExternalPaymentSettlementFailure. intros H Ec.
  apply transaction_ok in H as (w1 & w2 & E1 & H & E2). rewrite E2. rewrite <- E1 in Ec.
  apply bind_ok_inv in H as ([lookup h] & w3 & H1 & H).
  destruct (locate_found _ _ _ _ H1 Ec) as (E3 & -> & ->). simpl in H.
  apply bind_ok_inv in H as (y & w4 & H2 & H).
  destruct (lock_found _ _ _ _ _ H2) as [E4 ->]; [by rewrite E3|].
  assert (Ec4 : counter (w_db w4) = c) by (rewrite E4, E3; exact Ec). run_case H.
  { apply ret_ok_inv in H as [_ ->]. rewrite Ec4. apply unsettled_known. }
  apply String.eqb_neq in B. apply bind_ok_inv in H as ([] & w5 & H3 & H).
  destruct (ApplyException_ok _ _ _ _ _ _ H3 Ec4 Hok) as (p & q & snap & Hl & He).
  destruct (exception_tables _ _ _ (sales_tables _ Hok) He) as [T5 E5].
  apply bind_ok_inv in H as (now & w6 & H4 & H). apply time_now_db in H4. rewrite <- H4 in *.
  eapply (update_payment_ok _ _ _ x) in H as (now' & E & T);
    [|reflexivity|exact T5|rewrite E5; apply Hx|done].
  eapply unsettled_marked; [exact B|exact Hl|exact He|]. exists now'. split; [exact E|by rewrite E].
Qed.

Lemma apply_state_ok ctx state ty id key w r w' :
  ApplyProviderPaymentState s retail ctx no provider state ty id key w = (r, w') ->
  counter (w_db w) = c ->
  match r with
  | Ok y => state_applied s c x state (counter (w_db w')) y None
  | Err e =>
      counter (w_db w') = c \/
      (exists y, state_applied s c x state (counter (w_db w')) y (Some e)) \/
      equal_fold (trim_space (PPS_Status state)) "SUCCESS" = true /\
      exists reason, unsettled state reason (counter (w_db w'))
  end.
Proof.
  unfold ApplyProviderPaymentState, bind at 1. intros H Ec.
  destruct (transaction_capturing _ _ w) as [[[r0 found]|e0] w1] eqn:E;
    [|unfold transaction_capturing in E; by destruct (transaction _ w)].
  apply capturing_ok in E. destruct r0 as [[y reject]|err].
  - apply transaction_ok in E as (w2 & w3 & E2 & E & E3). rewrite <- E2 in Ec.
    apply apply_body_ok in E; [|exact Ec]. rewrite <- E3 in E.
    destruct reject as [e|]; simpl in H; unfold ret, throw in H; simplify_eq; [|done].
    right. left. by exists y.
  - apply transaction_err in E. simpl in H.
    assert (Ec1 : counter (w_db w1) = c) by (rewrite E; exact Ec).
    destruct found as [[lookup [h|]]|]; [|unfold throw in H; simplify_eq; by left..].
    destruct (equal_fold _ _) eqn:Ef; [|unfold throw in H; simplify_eq; by left].
    unfold bind, attempt in H.
    destruct (persistExternalPaymentSettlementFailure _ _ _ _ _ _ w1) as [[u|e1] w2] eqn:Ep;
      unfold throw in H; simplify_eq.
    + right. right. split; [done|]. eexists. by eapply persist_ok.
    + left. unfold persistExternalPaymentSettlementFailure in Ep. apply transaction_err in Ep.
      by rewrite Ep.
Qed.
End Found.

(** A payment that succeeded: a state that says otherwise, or the same again,
    leaves the whole database alone. *)
Section Final.
Context (s : PaymentService) (Hs : registered s) (no provider : string) (x : Payment).
Context (state : ProviderPaymentState) (Hdone : Pay_Status x = "succeeded").
Context (Hstate : status_of state <> "SUCCESS" \/ paymentProviderMismatch s x state "SUCCESS" = "").

Lemma external_final ctx h w y e w' :
  applyExternalPaymentStateTx s ctx h x state w = (Ok (y, e), w') ->
  w_db w' = w_db w /\ y = x /\ e = None.
Proof.
  unfold applyExternalPaymentStateTx. fold (status_of state). rewrite Hdone. simpl.
  destruct (String.eqb_spec (status_of state) "SUCCESS") as [E|E]; simpl.
  - rewrite E. destruct Hstate as [Hne| ->]; [done|]. intros H. apply ret_ok_inv in H as [[= -> ->] ->]. done.
  - intros H. apply ret_ok_inv in H as [[= -> ->] ->]. done.
Qed.

Lemma apply_final retail ctx ty id key w r w' :
  ApplyProviderPaymentState s retail ctx no provider state ty id key w = (r, w') ->
  sales_ok (counter (w_db w)) -> payment_for (counter (w_db w)) no provider x ->
  w_db w' = w_db w /\ (r = Ok x \/ exists e, r = Err e).
Proof.
  unfold ApplyProviderPaymentState, bind at 1. intros H Hok Hx.
  destruct (transaction_capturing _ _ w) as [[[r0 found]|e0] w1] eqn:E;
    [|unfold transaction_capturing in E; by destruct (transaction _ w)].
  apply capturing_ok in E. destruct r0 as [[y reject]|err].
  - apply transaction_ok in E as (w2 & w3 & E2 & E & E3). rewrite <- E2 in *.
    apply bind_ok_inv in E as ([lookup h] & w4 & H1 & E).
    destruct (locate_found s Hs _ Hok _ _ _ Hx _ _ _ _ H1 eq_refl) as (E4 & -> & ->).
    unfold apply_located in E. simpl in E. apply bind_ok_inv in E as (y0 & w5 & H2 & E).
    rewrite <- E4 in *.
    destruct (lock_found _ Hok _ _ _ Hx _ _ _ _ _ H2 eq_refl) as [E5 ->].
    apply external_final in E as (E6 & -> & ->). simpl in H.
    unfold ret in H. simplify_eq. split; [congruence|by left].
  - apply transaction_err in E. simpl in H.
    destruct found as [[lookup [h|]]|]; [|unfold throw in H; simplify_eq; eauto..].
    destruct (equal_fold _ _); [|unfold throw in H; simplify_eq; eauto].
    unfold bind, attempt in H. rewrite <- E in Hok, Hx.
    destruct (persistExternalPaymentSettlementFailure _ _ _ _ _ _ w1) as [[u|e1] w2] eqn:Ep;
      unfold throw in H; simplify_eq; (split; [|by eauto]); rewrite <- E.
    + apply transaction_ok in Ep as (w3 & w4 & E3 & Ep & E4). rewrite E4. rewrite <- E3 in *.
      apply bind_ok_inv in Ep as ([lookup0 h0] & w5 & H1 & Ep).
      destruct (locate_found s Hs _ Hok _ _ _ Hx _ _ _ _ H1 eq_refl) as (E5 & -> & ->).
      simpl in Ep. apply bind_ok_inv in Ep as (y0 & w6 & H2 & Ep). rewrite <- E5 in *.
      destruct (lock_found _ Hok _ _ _ Hx _ _ _ _ _ H2 eq_refl) as [E6 ->].
      rewrite Hdone in Ep. simpl in Ep. apply ret_ok_inv in Ep as [_ ->]. done.
    + by apply transaction_err in Ep.
Qed.
End Final.

(** ** The theorems *)

Lemma sample_registered : registered sample_service.
Proof. by eexists. Qed.

Lemma bought_ok : sales_ok (counter (w_db bought_world)).
Proof. apply (purchase_reachable_ok sample_program); [apply sample_program_ok|apply bought_reachable]. Qed.

Lemma paid_ok : sales_ok (counter (w_db paid_world)).
Proof. apply (purchase_reachable_ok sample_program); [apply sample_program_ok|apply paid_reachable]. Qed.

Lemma first_payment w x :
  head (ct_payments (counter (w_db w))) = Some x -> payment_no sample_payment_no "wechat" x = true ->
  (paymentBusiness x).1 = PurchasePaymentBusiness ->
  payment_for (counter (w_db w)) sample_payment_no "wechat" x.
Proof. intros Hh Hp Hb. split; [by apply head_Some_elem_of|done]. Qed.

(** The payment of the sample purchase, before and after it succeeded. *)
Lemma bought_payment : exists x,
  payment_for (counter (w_db bought_world)) sample_payment_no "wechat" x.
Proof. eexists. apply first_payment; vm_compute; reflexivity. Qed.

Lemma paid_payment : exists x, Pay_Status x = "succeeded" /\
  payment_for (counter (w_db paid_world)) sample_payment_no "wechat" x.
Proof.
  assert (Hx : exists x, head (ct_payments (counter (w_db paid_world))) = Some x /\
    (payment_no sample_payment_no "wechat" x = true /\
     (paymentBusiness x).1 = PurchasePaymentBusiness) /\ Pay_Status x = "succeeded").
  { eexists. split; [vm_compute; reflexivity|]. by vm_compute. }
  destruct Hx as (x & Hh & [Hp Hb] & Hs). exists x. split; [done|]. by apply first_payment.
Qed.

(** The notifications of the samples: paid, and, too late, closed. *)
Abbreviation sample_settle :=
  (ApplyProviderPaymentState sample_service no_retail Background sample_payment_no "wechat"
     (paid_state sample_payment_no sample_now) "provider" 0 "notify-1").

Definition closing_state (paymentNo : string) : ProviderPaymentState :=
  with_status (paid_state paymentNo sample_now) "CLOSED".

Abbreviation sample_closing :=
  (ApplyProviderPaymentState sample_service no_retail Background sample_payment_no "wechat"
     (closing_state sample_payment_no) "provider" 0 "notify-2").

Lemma settle_run : exists y,
  (sample_settle bought_world).1 = Ok y /\ Pay_Status y = "succeeded".
Proof. eexists. split; vm_compute; reflexivity. Qed.

(** C8: Every state the provider reports for the payment of a purchase does
    exactly this.  A success that matches the payment settles the purchase in
    the same transaction: one full lot with its entry, quota used, purchase
    issued, payment succeeded; or, when the bottles would have expired already,
    one refund and no lot.  A closing state closes an open purchase and frees
    its quota; a waiting one only schedules the next look.  Data that do not
    match mark the purchase and refuse the state.  When the settlement of a
    success fails it is rolled back, and at most the evidence of the provider
    and the exception are kept. *)
Theorem provider_state_settles_the_purchase s retail ctx no provider state ty id key w r w' x :
  registered s -> sales_ok (counter (w_db w)) -> payment_for (counter (w_db w)) no provider x ->
  ApplyProviderPaymentState s retail ctx no provider state ty id key w = (r, w') ->
  match r with
  | Ok y => state_applied s (counter (w_db w)) x state (counter (w_db w')) y None
  | Err e =>
      counter (w_db w') = counter (w_db w) \/
      (exists y, state_applied s (counter (w_db w)) x state (counter (w_db w')) y (Some e)) \/
      equal_fold (trim_space (PPS_Status state)) "SUCCESS" = true /\
      exists reason, unsettled (counter (w_db w)) x state reason (counter (w_db w'))
  end.
Proof. intros Hs Hok Hx H. by eapply apply_state_ok. Qed.

Lemma provider_state_settles_the_purchase_witness :
  exists x y c', payment_for (counter (w_db bought_world)) sample_payment_no "wechat" x /\
    state_applied sample_service (counter (w_db bought_world)) x
      (paid_state sample_payment_no sample_now) c' y None /\
    Pay_Status y = "succeeded" /\ map Lot_AvailableQuantity (v_lots (ct_assets c')) = [12].
Proof.
  destruct bought_payment as (x & Hx), settle_run as (y & Hr & Hy).
  exists x, y, (counter (w_db (sample_settle bought_world).2)).
  split; [done|]. split; [|split; [done|vm_compute; reflexivity]].
  exact (provider_state_settles_the_purchase sample_service no_retail Background sample_payment_no
    "wechat" (paid_state sample_payment_no sample_now) "provider" 0 "notify-1" bought_world (Ok y)
    _ x sample_registered bought_ok Hx
    (eq_trans (surjective_pairing _) (f_equal (fun r => (r, _)) Hr))).
Defined.

(** C20: Once a payment succeeded, notifications may come again or out of order:
    a repeated success with the same data, and any state that is not a success,
    change nothing in the database. *)
Theorem succeeded_payment_is_final s retail ctx no provider state ty id key w r w' x :
  registered s -> sales_ok (counter (w_db w)) -> payment_for (counter (w_db w)) no provider x ->
  Pay_Status x = "succeeded" ->
  status_of state <> "SUCCESS" \/ paymentProviderMismatch s x state "SUCCESS" = "" ->
  ApplyProviderPaymentState s retail ctx no provider state ty id key w = (r, w') ->
  w_db w' = w_db w /\ (r = Ok x \/ exists e, r = Err e).
Proof. intros Hs Hok Hx Hdone Hstate H. by eapply apply_final. Qed.

Lemma succeeded_payment_is_final_witness :
  w_db (sample_closing paid_world).2 = w_db paid_world.
Proof.
  destruct paid_payment as (x & Hs & Hx).
  assert (Hne : status_of (closing_state sample_payment_no) <> "SUCCESS") by (intros E; discriminate E).
  exact (proj1 (succeeded_payment_is_final sample_service no_retail Background sample_payment_no
    "wechat" (closing_state sample_payment_no) "provider" 0 "notify-2" paid_world
    _ _ x sample_registered paid_ok Hx Hs
    (or_introl Hne) (surjective_pairing _))).
Defined.
