(* ===== verification/CheckoutTheorems.v ===== *)
(** * Buying: amounts, rows and limits

    The totals of a purchase are computed without overflow, its row is one the
    table accepts, and [CreatePurchase] opens at most one purchase, within the
    limit of the customer. *)

From S2P Require Import Prelude GoInt GoString GoTime Json Problem RequestCtx.
From S2P Require Import CoreModel AssetService GiftModel RedemptionModel PurchaseModel AssetLaws.
From S2P Require Import AssetLedger Database FulfilmentTables PurchaseTables Steps AssetRepository.
From S2P Require Import IntegrityScan AssetTheorems LedgerEntries Samples Idempotency GiftDto.
From S2P Require Import GiftInvariant GiftRepository GiftService RedemptionDto PurchaseDto.
From S2P Require Import RedemptionRepository PurchaseRepository BusinessPayment RedemptionService.
From S2P Require Import RedemptionBooks RedemptionTheorems AssetFrame PurchaseSettlement.
From S2P Require Import PurchaseService PurchaseBooks PurchaseRuns PurchaseCalls PurchaseFlow.
From S2P Require Import PurchaseSamples PurchaseTheorems.
From Stdlib Require Import String.
#[local] Open Scope string_scope. #[local] Open Scope list_scope. #[local] Open Scope Z_scope.
#[local] Open Scope go_scope.

(** ** Totals *)

(** The totals in exact arithmetic. *)
Definition purchase_totals (unitPrice bottlesPerPackage quantity : Z) : res (Z * Z) :=
  let limit detail := Err (unprocessable "WT_AMOUNT_LIMIT_EXCEEDED" detail) in
  if (unitPrice <=? 0) || (MaxWineTicketAmount <? unitPrice) || (quantity =? 0) ||
     (bottlesPerPackage =? 0)
  then Err (invalid_argument "invalid purchase amount inputs")
  else if max_int64 <? unitPrice * quantity
  then limit "purchase amount exceeds the supported limit"
  else if MaxWineTicketAmount <? unitPrice * quantity
  then limit "purchase amount exceeds 100000000 cents"
  else if max_uint <? quantity * bottlesPerPackage
  then Err (invalid_argument "total bottle quantity overflow")
  else Ok (unitPrice * quantity, quantity * bottlesPerPackage).

Lemma div_ltb a b n : 0 < b -> (a / b <? n) = (a <? b * n).
Proof.
  intros Hb. destruct (Z.ltb_spec (a / b) n) as [H|H], (Z.ltb_spec a (b * n)) as [H'|H']; try done.
  - exfalso. apply (Z.div_le_mono (b * n) a b) in H'; [|lia].
    rewrite Z.mul_comm, Z.div_mul in H' by lia. lia.
  - exfalso. apply (Z.mul_le_mono_nonneg_l _ _ b) in H; [|lia].
    pose proof (Z.mul_div_le a b Hb). lia.
Qed.

Lemma totals_exact price bottles n :
  0 <= bottles -> 0 <= n < i64_half -> checkedPurchaseTotals price bottles n = purchase_totals price bottles n.
Proof.
  intros Hb Hn. unfold checkedPurchaseTotals, purchase_totals. cbv zeta.
  destruct (_ || _) eqn:E0; [done|]. rewrite !orb_false_iff in E0.
  assert (Hp : 0 < price) by lia.
  rewrite (i64_small n) by (unfold in_i64; lia). rewrite div_ltb by done.
  destruct (max_int64 <? price * n) eqn:E1; [done|].
  assert (Hm : 0 <= price * n) by nia.
  assert (Hi : int_mul price n = price * n).
  { unfold int_mul. apply i64_small. unfold in_i64, max_int64 in *. lia. }
  rewrite Hi. destruct (MaxWineTicketAmount <? price * n) eqn:E2; [done|].
  rewrite div_ltb, (Z.mul_comm bottles n) by lia.
  destruct (max_uint <? n * bottles) eqn:E3; [done|].
  assert (Hq : 0 <= n * bottles) by nia.
  do 2 f_equal. unfold uint_mul, u64. apply Z.mod_small.
  unfold max_uint, u64_mod in *. lia.
Qed.

Lemma totals_ok price bottles n a b :
  0 <= bottles -> 0 <= n < i64_half -> checkedPurchaseTotals price bottles n = Ok (a, b) ->
  a = price * n /\ b = n * bottles /\ 0 < price /\ 0 < n /\ 0 < bottles /\ a <= MaxWineTicketAmount.
Proof.
  intros Hb Hn. rewrite totals_exact by done. unfold purchase_totals. cbv zeta.
  destruct (_ || _) eqn:E0; [done|]. rewrite !orb_false_iff in E0.
  destruct (max_int64 <? price * n); [discriminate|].
  destruct (MaxWineTicketAmount <? price * n) eqn:E2; [discriminate|].
  destruct (max_uint <? n * bottles); [discriminate|].
  intros [= <- <-]. repeat split; lia.
Qed.

(** ** The row of a new purchase *)

(** What the row promises: its amounts, and a snapshot that reads back. *)
Record purchase_row_good (p : Purchase) (pkg : Package) (product : ProductSummaryDTO) (n : Z)
    : Prop := {
  pr_accepted : purchase_row_check p = true;
  pr_amount : Pur_PayableAmount p = Pkg_SalePriceAmount pkg * n;
  pr_bottles : Pur_TotalBottleQuantity p = n * Pkg_BottleQuantity pkg;
  pr_bounds : 0 < Pur_PayableAmount p <= MaxWineTicketAmount /\
              0 < Pur_TotalBottleQuantity p <= 100000000;
  pr_snapshot : parsePurchaseSnapshot (Pur_PackageSnapshot p) = Ok (package_snapshot pkg product);
}.

Lemma new_row_good pid xid customerID pkg product n a b now :
  package_row_check pkg = true -> Pkg_PackageCode pkg <> "" -> Pkg_PackageNo pkg <> "" ->
  0 <= n <= 10000 ->
  checkedPurchaseTotals (Pkg_SalePriceAmount pkg) (Pkg_BottleQuantity pkg) n = Ok (a, b) ->
  purchase_row_good (new_purchase pid xid customerID pkg product n a b now) pkg product n.
Proof.
  intros Hc H1 H2 Hn Ht. pose proof (package_snapshot_parses pkg product Hc H1 H2) as Hs.
  unfold package_row_check in Hc. rewrite !andb_true_iff, fits_uint32_spec in Hc.
  apply totals_ok in Ht as (Ha & Hb & H3 & H4 & H5 & H6); [|lia|unfold i64_half; lia].
  assert (Hbb : b <= 10000 * 10000) by nia. assert (Hb0 : 0 < b) by nia.
  assert (Ha0 : 0 < a) by nia. unfold MaxWineTicketAmount in *.
  split; cbn -[Z.mul purchase_row_check purchasePackageSnapshot_json]; try done; try lia.
  unfold purchase_row_check. cbn -[Z.mul Z.pow]. rewrite !andb_true_iff, !fits_uint32_spec. lia.
Qed.

(** ** Creating a purchase *)

(** What a successful creation added to the books [c]. *)
Record purchase_begun (c : Counter) (customerID : Z) (key : string) (req : PurchaseCreateRequest)
    (pkg : Package) (p : Purchase) (x : Payment) (c' : Counter) : Prop := {
  pb_package : pkg ∈ ct_packages c /\ Pkg_PackageNo pkg = PReq_PackageNo req /\
    Pkg_Status pkg = PackageStatusPublished /\
    Pkg_MinPurchaseQuantity pkg <= PReq_Quantity req <= Pkg_MaxPurchaseQuantity pkg;
  pb_purchase : Pur_CustomerID p = customerID /\ Pur_Status p = PurchaseStatusPendingPayment /\
    Pur_PackageQuantity p = PReq_Quantity req /\ unpaid p;
  pb_row : exists product, purchase_row_good p pkg product (PReq_Quantity req);
  pb_payment : paymentBusiness x = (PurchasePaymentBusiness, Pur_ID p) /\
    Pay_ID x = Pur_PaymentID p /\ Pay_Status x = "creating" /\ Pay_CustomerID x = customerID /\
    Pay_Amount x = Pur_PayableAmount p /\ Pay_Currency x = "CNY" /\
    Pay_IdempotencyKey x = optional_string key;
  pb_added : ct_purchases c' = ct_purchases c ++ [p] /\ ct_payments c' = ct_payments c ++ [x] /\
    ct_assets c' = ct_assets c /\ ct_refunds c' = ct_refunds c;
  (* The limit of the customer holds, over what is open and what is settled. *)
  pb_limit : exists q, q ∈ ct_quotas c' /\ counts_in q p = true /\
    forall limit, Pkg_PerCustomerLimit pkg = Some limit ->
      packages_in is_open q (ct_purchases c') + packages_in is_settled q (ct_purchases c') <= limit;
}.

Lemma quota_within q limit n :
  0 <= Quota_ReservedQuantity q < 2 ^ 32 -> 0 <= Quota_ConsumedQuantity q < 2 ^ 32 ->
  0 <= n <= 10000 -> validatePurchaseQuota q (Some limit) n = Ok tt ->
  Quota_ReservedQuantity q + Quota_ConsumedQuantity q + n <= limit.
Proof.
  intros Hr Hc Hn. unfold validatePurchaseQuota. destruct (_ || _); [discriminate|].
  rewrite (uint_add_small (Quota_ReservedQuantity q)) by (unfold in_u64, u64_mod; lia).
  rewrite uint_add_small by (unfold in_u64, u64_mod; lia).
  destruct (limit <? _) eqn:E; [discriminate|]. lia.
Qed.

Lemma purchase_opened_begun c parse customerID key req id c' :
  purchase_opened c parse customerID key req id c' -> sales_ok c -> PReq_PackageNo req <> "" ->
  exists pkg p x, Pur_ID p = id /\ purchase_begun c customerID key req pkg p x c'.
Proof.
  intros Hop Hok Hno. pose proof (purchase_opened_steps _ _ _ _ _ _ _ Hop Hok Hno) as Hsteps.
  destruct Hop as [(now & pkg & a & b & p & x & q & Hc & Hid & Hw)].
  destruct Hc as [Hin Hn Hsale Hr Hrow Htot]. apply package_fields in Hrow as (Hcode & Hmin & Hmax).
  destruct Hw as [(c1 & c2 & Hq & Ec') (pid & xid & product & Ep) (created & Ex) Ht].
  assert (Hpc : package_row_check pkg = true).
  { pose proof (so_packages _ Hok) as Hf. rewrite Forall_forall in Hf. by apply Hf. }
  unfold in_range, MaxPurchaseQuantity in *.
  assert (Hgood : purchase_row_good p pkg product (PReq_Quantity req)).
  { rewrite Ep. apply new_row_good; try done; [by rewrite Hn|lia]. }
  destruct Hq as [Hseed Hqin [Q1 Q2] Hv E2 T2].
  destruct (quota_seeded c c1 Hok) as [_ Hok1].
  { destruct Hseed as [?|(i & ?)]; [by left|right].
    by exists i, customerID, (Pkg_PackageCode pkg), now. }
  destruct (quota_bounds _ _ Hok1 Hqin) as [B1 B2].
  assert (Hsame : ct_purchases c1 = ct_purchases c /\ ct_payments c1 = ct_payments c /\
                  ct_assets c1 = ct_assets c /\ ct_refunds c1 = ct_refunds c).
  { destruct Hseed as [->|(i & -> & _)]; done. }
  destruct Hsame as (S1 & S2 & S3 & S4).
  exists pkg, p, x. split; [done|]. split.
  - split; [done|]. split; [done|]. unfold on_sale in Hsale.
    rewrite !andb_true_iff, String.eqb_eq in Hsale. split; [apply Hsale|lia].
  - by rewrite Ep.
  - by exists product.
  - rewrite Ex, Ep. repeat split.
  - rewrite Ec', E2. simpl. by rewrite S1, S2, S3, S4.
  - set (q' := quota_reserved (Quota_ReservedQuantity q + PReq_Quantity req) now q) in *.
    assert (Hq' : q' ∈ ct_quotas c') by (rewrite Ec', E2; simpl; by apply replaced_in).
    exists q'. split; [done|]. split.
    + rewrite Ep. apply new_purchase_counts; try done. by rewrite Hn.
    + intros limit El. rewrite El in Hv.
      destruct (so_quota _ (sale_steps_ok _ _ Hsteps Hok) _ Hq') as [<- <-]. simpl.
      apply quota_within in Hv; [lia|done|done|lia].
Qed.

Lemma create_purchase_cases parse appID s ctx claims m p k req w dto w' :
  CreatePurchase parse appID (Some s) ctx claims m p k req w = (Ok dto, w') ->
  Configured s -> sales_ok (counter (w_db w)) ->
  exists customerID c1,
    customerIDWithPermission claims "wine_ticket_purchase:create" = Ok customerID /\
    validatePurchaseCreate req = Ok tt /\
    (c1 = counter (w_db w) \/
     exists pkg x row, purchase_begun (counter (w_db w)) customerID k req pkg x row c1) /\
    rtc sale_step c1 (counter (w_db w')).
Proof.
  unfold CreatePurchase. intros H Hs Hok.
  apply bind_ok_inv in H as (cid & w1 & H1 & H). apply lift_ok_inv in H1 as [Ecid ->].
  apply bind_ok_inv in H as ([] & w2 & H2 & H). apply lift_ok_inv in H2 as [Ev ->]. cbv zeta in H.
  assert (Hno : PReq_PackageNo req <> "").
  { intros E. unfold validatePurchaseCreate in Ev. rewrite E in Ev. discriminate. }
  apply bind_ok_inv in H as (claimID & w3 & H3 & H). apply next_id_db in H3.
  apply bind_ok_inv in H as (started & w4 & H4 & H).
  apply transaction_ok in H4 as (w5 & w6 & E5 & H4 & E6).
  rewrite <- H3 in Hok. rewrite <- E5 in Hok.
  assert (Hw : w_db w5 = w_db w) by congruence.
  destruct (start_purchase_ok _ _ _ _ _ _ _ _ _ _ _ _ _ _ _ H4 Hok) as [E|(d & -> & Hd)];
    exists cid, (counter (w_db w4)); rewrite E6, <- Hw.
  - split; [done|]. split; [done|]. split; [by left|]. rewrite <- E6.
    destruct started as [response|draft]; [by apply ret_ok_inv in H as [-> ->]|].
    apply (or_release_sells _ _ _ _ _ _ (finish_purchase_sells _ _ _ _ _ _ _ _ Hs) _ _ _ H).
    by rewrite E6, E.
  - split; [done|]. split; [done|].
    destruct (purchase_opened_begun _ _ _ _ _ _ _ Hd Hok Hno) as (pkg & row & x & _ & Hb).
    split; [right; by exists pkg, row, x|]. rewrite <- E6.
    apply (or_release_sells _ _ _ _ _ _ (finish_purchase_sells _ _ _ _ _ _ _ _ Hs) _ _ _ H).
    rewrite E6. eapply sale_steps_ok; [|exact Hok]. by eapply purchase_opened_steps.
Qed.

(** ** The theorems *)

(** C21: The totals of a purchase are the exact products of price, packages and
    bottles for every count below 2^63: whatever the inputs, the checks refuse
    what would exceed 100 million cents or the machine integers, and the
    wrap-around arithmetic after them never wraps. *)
Theorem checkedPurchaseTotals_is_exact unitPrice bottlesPerPackage quantity :
  0 <= bottlesPerPackage -> 0 <= quantity < i64_half ->
  checkedPurchaseTotals unitPrice bottlesPerPackage quantity =
  purchase_totals unitPrice bottlesPerPackage quantity.
Proof. exact (totals_exact unitPrice bottlesPerPackage quantity). Qed.

Lemma checkedPurchaseTotals_is_exact_witness :
  checkedPurchaseTotals 899400 6 2 = Ok (1798800, 12) /\
  checkedPurchaseTotals 899400 6 200 = purchase_totals 899400 6 200.
Proof.
  split; [vm_compute; reflexivity|]. apply (checkedPurchaseTotals_is_exact 899400 6 200).
  - lia.
  - unfold i64_half. lia.
Defined.

(** C22: The row written for a purchase is one its table accepts, whatever
    package in the table it is for: the amounts are the exact products within
    the constraints, and the package snapshot kept in it reads back as it was
    written. *)
Theorem new_purchase_is_well_formed purchaseID paymentID customerID pkg product n amount bottles now :
  package_row_check pkg = true -> Pkg_PackageCode pkg <> "" -> Pkg_PackageNo pkg <> "" ->
  0 <= n <= 10000 ->
  checkedPurchaseTotals (Pkg_SalePriceAmount pkg) (Pkg_BottleQuantity pkg) n = Ok (amount, bottles) ->
  purchase_row_good (new_purchase purchaseID paymentID customerID pkg product n amount bottles now)
    pkg product n.
Proof. exact (new_row_good purchaseID paymentID customerID pkg product n amount bottles now). Qed.

Definition sample_summary : ProductSummaryDTO := {|
  PS_ProductID := "5"; PS_Name := "Maotai"; PS_BrandName := Some "Maotai"; PS_Spec := None;
  PS_ImageURL := None |}.

Lemma new_purchase_is_well_formed_witness :
  purchase_row_good (new_purchase 1 2 7 sample_package sample_summary 2 1798800 12 sample_now)
    sample_package sample_summary 2.
Proof.
  apply (new_purchase_is_well_formed 1 2 7 sample_package sample_summary 2 1798800 12 sample_now).
  - reflexivity.
  - discriminate.
  - discriminate.
  - lia.
  - vm_compute. reflexivity.
Defined.


Lemma buy_run : exists dto, (sample_buy purchase_world).1 = Ok dto /\ PDTO_PayableAmount dto = 1798800.
Proof. eexists. split; vm_compute; reflexivity. Qed.

