(* ===== verification/SalesFrame.v ===== *)
(** * What the purchases leave alone

    The purchase service, the payment service and the settlement of purchases
    write the tables of sales, the logs, the keys, and the one lot they issue
    ([SalesWrites]).  Every preorder on databases that allows those writes
    holds of every purchase call, when it also holds while the provider answers
    and while an order is settled ([Discreet]). *)

From S2P Require Import Prelude GoInt GoString GoTime Json Problem RequestCtx.
From S2P Require Import CoreModel AssetService GiftModel RedemptionModel PurchaseModel AssetLaws.
From S2P Require Import AssetLedger Database FulfilmentTables PurchaseTables Steps AssetRepository.
From S2P Require Import IntegrityScan AssetTheorems AssetKeeps LedgerEntries Samples Idempotency.
From S2P Require Import GiftDto GiftRepository GiftService GiftInvariant RedemptionDto.
From S2P Require Import RedemptionRepository RedemptionService PurchaseDto PurchaseRepository.
From S2P Require Import BusinessPayment PurchaseSettlement PurchaseService PurchaseTheorems.
From Stdlib Require Import String.
#[local] Open Scope string_scope. #[local] Open Scope list_scope. #[local] Open Scope Z_scope.
#[local] Open Scope go_scope.

Class SalesWrites (R : Database -> Database -> Prop) : Prop := {
  sw_assets :: AssetWrites R (fun _ => True);
  sw_quotas :: Clear R PurchaseQuota;
  sw_purchases :: Clear R Purchase;
  sw_payments :: Clear R Payment;
  sw_refunds :: Clear R commonRefundRow;
  sw_ticket_refunds :: Clear R issuanceCompensationRefund;
  sw_audit :: Clear R AuditLog;
  sw_outbox :: Clear R OutboxEvent;
  sw_keys :: Clear R IdempotencyRecord;
}.

(** A service whose provider and handlers write no more than [R] allows. *)
Record Discreet (R : Database -> Database -> Prop) (s : PaymentService) : Prop := {
  disc_create p input : Svc_payment s = Some p -> steps_any R (remote (Provider_Create p input));
  disc_query p no : Svc_payment s = Some p -> steps_any R (remote (Provider_Query p no));
  disc_close p no : Svc_payment s = Some p -> steps_any R (remote (Provider_Close p no));
  disc_lock r ty h ctx id : Svc_paymentSettlements s = Some r -> resolve r ty = Some h ->
    steps R (LockBusiness h ctx id);
  disc_success r ty h ctx fact : Svc_paymentSettlements s = Some r -> resolve r ty = Some h ->
    steps R (ApplySuccess h ctx fact);
  disc_terminal r ty h ctx fact : Svc_paymentSettlements s = Some r -> resolve r ty = Some h ->
    steps R (ApplyTerminal h ctx fact);
  disc_exception r ty h ctx fact reason : Svc_paymentSettlements s = Some r ->
    resolve r ty = Some h -> steps R (ApplyException h ctx fact reason);
}.

Section Frame.
Context (R : Database -> Database -> Prop) `{!PreOrder R} `{!SalesWrites R}.

Lemma any_take_from {A} (q : Database -> option A) : steps_any R (take_from q).
Proof.
  apply steps_any_exec; [exact _|]. intros db a db' E. destruct (q db); [|done]. by simplify_eq.
Qed.

Lemma any_now : steps_any R nowShanghai.
Proof. unfold nowShanghai. go_steps. Qed.

#[local] Hint Resolve any_take_from any_now : steps.

(** ** The settlement of purchases *)

Lemma sale_audit_frame ctx a id f t d : steps_any R (createSettlementAudit ctx a id f t d).
Proof. unfold createSettlementAudit, createAudit. go_steps. Qed.
Lemma customer_audit_frame ctx id a ty rid b d :
  steps_any R (createCustomerAudit ctx id a ty rid b d).
Proof. unfold createCustomerAudit, createAudit. go_steps. Qed.
Lemma sale_outbox_frame ctx ty agg id d : steps_any R (createWineTicketOutbox ctx ty agg id d).
Proof. unfold createWineTicketOutbox, wine_ticket_event, createOutbox. go_steps. Qed.
Lemma payment_event_frame ctx ty agg id d : steps_any R (payment_event ctx ty agg id d).
Proof. unfold payment_event, createOutbox. go_steps. Qed.
Lemma update_purchase_frame id f : steps_any R (UpdatePurchase id f).
Proof. unfold UpdatePurchase. go_steps. Qed.
Lemma update_quota_frame id f : steps_any R (UpdatePurchaseQuota id f).
Proof. unfold UpdatePurchaseQuota. go_steps. Qed.
Lemma update_payment_frame id f : steps_any R (UpdatePayment id f).
Proof. unfold UpdatePayment. go_steps. Qed.

#[local] Hint Resolve sale_audit_frame customer_audit_frame sale_outbox_frame payment_event_frame
  update_purchase_frame update_quota_frame update_payment_frame : steps.

Lemma locked_rows_frame fact : steps R (lockedSettlementRows fact).
Proof. unfold lockedSettlementRows, LockPurchaseByID, LockPurchaseQuota. go_steps. Qed.
#[local] Hint Resolve locked_rows_frame : steps.

Lemma issue_lot_frame ctx p snap paidAt expiresAt now :
  steps R (issue_purchase_lot ctx p snap paidAt expiresAt now).
Proof.
  unfold issue_purchase_lot, PurchaseLot, transactionByActionKey. go_steps.
  eapply issue_keeps; [exact _..|]. done.
Qed.

Lemma compensation_frame ctx p q fact paidAt now reason :
  steps R (createIssuanceCompensationTx ctx p q fact paidAt now reason).
Proof.
  unfold createIssuanceCompensationTx, issuanceCompensationFactCounts,
    createIssuanceCompensationRefund, consume_reservation.
  go_steps. apply steps_any_steps, steps_any_exec; [exact _|]. intros db0 x db1 E. by simplify_eq.
Qed.
#[local] Hint Resolve issue_lot_frame compensation_frame : steps.

Lemma lock_business_frame id : steps R (purchase_LockBusiness id).
Proof. unfold purchase_LockBusiness, LockPurchaseByID, LockPurchaseQuota. go_steps. Qed.

Lemma apply_success_frame ctx fact : steps R (purchase_ApplySuccess ctx fact).
Proof.
  unfold purchase_ApplySuccess, verifyIssuedPurchase, PurchaseLot, transactionByActionKey,
    issue_purchase, consume_reservation. go_steps.
Qed.

Lemma apply_terminal_frame ctx fact : steps R (purchase_ApplyTerminal ctx fact).
Proof. unfold purchase_ApplyTerminal, release_reservation. go_steps. Qed.

Lemma apply_exception_frame ctx fact reason : steps R (purchase_ApplyException ctx fact reason).
Proof. unfold purchase_ApplyException. go_steps. Qed.

(** ** The payment service *)

Section Service.
Context (s : PaymentService) (Hs : Discreet R s).
Context (retail : Context -> Payment -> ProviderPaymentState -> string -> Z -> string ->
  G (Payment * option error)).
Context (Hretail : forall ctx p state ty id key, steps R (retail ctx p state ty id key)).

Lemma handler_registered payment h : externalSettlementHandler s payment = Ok (Some h) ->
  exists r, Svc_paymentSettlements s = Some r /\ resolve r (paymentBusiness payment).1 = Some h.
Proof.
  unfold externalSettlementHandler. destruct (paymentBusiness payment) as [bt id]. simpl.
  destruct (String.eqb _ _); [done|]. destruct (_ =? 0); [done|].
  destruct (Svc_paymentSettlements s) as [r|]; [|done]. destruct (resolve r bt) eqn:E; [|done].
  intros [= <-]. by exists r.
Qed.

Lemma provider_enabled p : enabled_provider s = Some p -> Svc_payment s = Some p.
Proof. unfold enabled_provider. by destruct (Svc_PayEnabled s). Qed.

Lemma apply_external_frame ctx h payment state :
  (exists r ty, Svc_paymentSettlements s = Some r /\ resolve r ty = Some h) ->
  steps R (applyExternalPaymentStateTx s ctx h payment state).
Proof.
  intros (r & ty & Er & Eh). unfold applyExternalPaymentStateTx, update_payment. go_steps.
  - by eapply disc_exception.
  - by eapply disc_success.
  - by eapply disc_terminal.
Qed.

Lemma lock_payment_frame ctx h lookup no provider changed :
  (exists r ty, Svc_paymentSettlements s = Some r /\ resolve r ty = Some h) ->
  steps R (lock_payment ctx h lookup no provider changed).
Proof.
  intros (r & ty & Er & Eh). unfold lock_payment, LockPaymentByNo. go_steps. by eapply disc_lock.
Qed.

Lemma locate_frame no provider : steps R (locate_payment s no provider).
Proof. unfold locate_payment, GetPaymentByNo. go_steps. Qed.

(** What was located has the handler of its business. *)
Lemma steps_located {A} no provider (k : Payment * option PaymentSettlementHandler -> G A) :
  (forall located,
     (forall h, located.2 = Some h ->
        exists r ty, Svc_paymentSettlements s = Some r /\ resolve r ty = Some h) ->
     steps R (k located)) ->
  steps R (bind (locate_payment s no provider) k).
Proof.
  intros Hk w a w' H. apply bind_ok_inv in H as (located & w1 & H1 & H2).
  transitivity (w_db w1); [by eapply locate_frame|].
  refine (Hk located _ _ _ _ H2). unfold locate_payment in H1. run_step H1.
  apply bind_ok_inv in H1 as (handler & w2 & Eh & H1). apply lift_ok_inv in Eh as [Eh ->].
  apply ret_ok_inv in H1 as [-> _]. simpl. intros h Hh. rewrite Hh in Eh.
  apply handler_registered in Eh as (reg & Er & Eh). by eauto.
Qed.

Lemma persist_frame ctx no provider state reason :
  steps_any R (persistExternalPaymentSettlementFailure s ctx no provider state reason).
Proof.
  apply steps_transaction; [exact _|]. apply steps_located. intros located Hl.
  destruct located.2 as [h|]; [|go_steps]. specialize (Hl h eq_refl).
  apply steps_bind; [exact _|by apply lock_payment_frame|]. intros payment.
  destruct Hl as (r & ty & Er & Eh). go_steps. by eapply disc_exception.
Qed.

Lemma apply_state_frame ctx no provider state ty id key :
  steps_any R (ApplyProviderPaymentState s retail ctx no provider state ty id key).
Proof.
  apply steps_any_bind; [exact _| |].
  - intros w r w' H. unfold transaction_capturing in H.
    destruct (transaction _ w) as [r1 w1] eqn:E. simplify_eq.
    eapply (steps_transaction R); [|exact E]. apply steps_located. intros located Hl.
    unfold apply_located. destruct located.2 as [h|]; [|apply Hretail].
    specialize (Hl h eq_refl). apply steps_bind; [exact _|by apply lock_payment_frame|].
    intros payment. by apply apply_external_frame.
  - intros [[[payment [reject|]]|err] [[lookup [h|]]|]]; go_steps; apply persist_frame.
Qed.

Lemma submit_frame ctx id openID description :
  steps_any R (SubmitBusinessPayment s ctx id openID description).
Proof.
  unfold SubmitBusinessPayment, GetPaymentByID.
  destruct (enabled_provider s) as [p|] eqn:Ep; [|go_steps]. apply provider_enabled in Ep.
  unfold submit_payment, record_submission_failure, accept_submission, LockPaymentByID. go_steps.
  - by eapply disc_create.
  - apply steps_transaction; [exact _|]. go_steps.
  - by eapply disc_close.
  - apply steps_transaction; [exact _|]. go_steps.
Qed.

Lemma business_payment_frame id ty biz : steps_any R (BusinessPayment s id ty biz).
Proof. unfold BusinessPayment, GetBusinessPayment. go_steps. Qed.

Lemma confirm_frame ctx id ty biz : steps_any R (ConfirmBusinessPayment s retail ctx id ty biz).
Proof.
  unfold ConfirmBusinessPayment, confirmCustomerPayment.
  apply steps_any_bind; [exact _|apply business_payment_frame|]. intros payment.
  destruct (paymentBusiness payment) as [rt rid].
  destruct (enabled_provider s) as [p|] eqn:Ep; [|go_steps]. apply provider_enabled in Ep.
  go_steps; [by eapply disc_query|]. apply apply_state_frame.
Qed.

Lemma mark_error_frame payment cause : steps_any R (MarkPaymentReconcileError payment cause).
Proof.
  apply steps_transaction; [exact _|]. unfold LockPaymentByNo. go_steps.
Qed.

Lemma reconcile_apply_frame ctx prefix payment state :
  steps_any R (reconcile_apply s retail ctx prefix payment state).
Proof. unfold reconcile_apply. go_steps. apply apply_state_frame. Qed.

Lemma reconcile_payment_frame ctx p now payment : Svc_payment s = Some p ->
  steps_any R (reconcile_payment s retail ctx p now payment).
Proof.
  intros Ep. unfold reconcile_payment.
  go_steps; try (by eapply disc_query); try (by eapply disc_close);
    try apply reconcile_apply_frame; apply mark_error_frame.
Qed.

Lemma reconcile_batch_frame ctx p now stale n : Svc_payment s = Some p ->
  steps_any R (reconcile_batch s retail ctx p now stale n).
Proof.
  intros Ep. induction n as [|n IH]; simpl; [go_steps|].
  apply steps_any_bind; [exact _| |].
  { apply steps_any_attempt; [exact _|]. apply steps_transaction; [exact _|]. go_steps. }
  intros [payment|e]; [|go_steps].
  apply steps_any_bind; [exact _|by apply reconcile_payment_frame|]. intros _. go_steps.
Qed.

(** ** The purchase service *)

Lemma claim_frame id ty actor m p k h : steps_any R (claimIdempotencyWithID id ty actor m p k h).
Proof. unfold claimIdempotencyWithID, StartAt. go_steps. Qed.

Lemma cached_frame ty actor p k : steps_any R (purchase_cachedResponse ty actor p k).
Proof. unfold purchase_cachedResponse, CachedResponse. go_steps. Qed.

#[local] Hint Resolve claim_frame cached_frame business_payment_frame : steps.

Lemma release_frame {A} id ty actor p k (m : G A) :
  steps_any R m -> steps_any R (or_release id ty actor p k m).
Proof.
  intros Hm. unfold or_release, releaseCustomerIdempotencyOwned, FailOwned. go_steps.
  apply steps_transaction; [exact _|]. go_steps.
Qed.

Lemma succeed_frame {A} `{JsonCodec A} ty actor p k id (d : A) :
  steps_any R (transaction (SucceedOwned ty actor p k id d)).
Proof. apply steps_transaction; [exact _|]. unfold SucceedOwned. go_steps. Qed.

Lemma dto_frame id pid : steps_any R (customerPurchaseDTOByID id pid).
Proof.
  unfold customerPurchaseDTOByID, CustomerPurchaseByID, one_purchase, purchaseDTOs,
    PurchaseLotFacts. go_steps.
  apply steps_any_exec; [exact _|]. intros db0 x db1 E. by simplify_eq.
Qed.
#[local] Hint Resolve succeed_frame dto_frame : steps.

Lemma start_frame parse appID ctx ty cid id m p k h req :
  steps R (start_purchase parse appID ctx s ty cid id m p k h req).
Proof.
  unfold start_purchase, CustomerPurchaseByPaymentKey, resume_purchase, open_purchase,
    check_package, check_customer, CustomerPurchaseEligibility, validateSettlementForPublish,
    LockPackageForPurchase, SettlementRelationOf, write_purchase, reserve_quota,
    EnsurePurchaseQuota, LockPurchaseQuota, packageProductSummary, PackageProduct, createPurchase,
    CreateBusinessPaymentTx, CreatePayment.
  go_steps.
Qed.

Lemma create_purchase_frame parse appID ctx claims m p k req :
  steps_any R (CreatePurchase parse appID (Some s) ctx claims m p k req).
Proof.
  unfold CreatePurchase. go_steps; [apply steps_transaction; [exact _|]; apply start_frame|].
  apply release_frame. unfold finish_purchase, submit_purchase, reflectPaymentSubmissionState.
  go_steps; [apply submit_frame|]. apply steps_transaction; [exact _|].
  unfold LockPurchaseByID, LockPurchaseQuota, release_reservation. go_steps.
Qed.

Lemma confirm_purchase_frame ctx claims m p k no :
  steps_any R (ConfirmPurchasePayment (Some s) retail ctx claims m p k no).
Proof.
  unfold ConfirmPurchasePayment, CustomerPurchaseByNo. go_steps.
  - apply steps_transaction; [exact _|]. unfold claim_or_cached. go_steps.
  - apply release_frame. go_steps. apply confirm_frame.
Qed.
End Service.

Lemma purchase_call_frame m c :
  Discreet R (prog_payments m) ->
  (forall ctx p state ty id key, steps R (prog_retail m ctx p state ty id key)) ->
  steps_any R (purchase_call m c).
Proof.
  intros Hs Hr. destruct c; simpl; (apply steps_any_bind; [exact _| |intros; go_steps]).
  - by apply create_purchase_frame.
  - by apply confirm_purchase_frame.
  - by apply apply_state_frame.
  - unfold ReconcileCreatingBatch. destruct (Svc_payment _) eqn:Ep; [|go_steps].
    by apply reconcile_batch_frame.
Qed.
End Frame.
