(* ===== verification/WineTickets.v ===== *)
(** * The wine tickets together

    Purchases issue the lots that gifts, redemptions, their returns and the
    expiry worker take bottles out of.  What each promises it promises in the
    presence of the others: a call of one part is a step of the environment of
    the other, so every history of the whole is a history of each part. *)

From S2P Require Import Prelude GoInt GoString GoTime GoDate Json Problem RequestCtx.
From S2P Require Import CoreModel AssetService GiftModel RedemptionModel AssetLaws AssetLedger.
From S2P Require Import Database FulfilmentTables Steps AssetRepository IntegrityScan Samples.
From S2P Require Import AssetTheorems AssetKeeps LedgerEntries ExpiryWorker GiftDto GiftService GiftInvariant.
From S2P Require Import GiftState GiftRuns GiftCalls GiftTheorems RedemptionDto ScheduledDispatch.
From S2P Require Import RedemptionService RedemptionSettlement AfterSaleReturn ReturnSettlement.
From S2P Require Import RedemptionSamples RedemptionBooks RedemptionHold RedemptionRuns.
From S2P Require Import RedemptionCancel ReturnRuns RedemptionState RedemptionTheorems AssetFrame.
From S2P Require Import PurchaseModel PurchaseTables BusinessPayment PurchaseSettlement.
From S2P Require Import PurchaseBooks PurchaseCalls PurchaseSamples PurchaseTheorems SalesFrame.
From Stdlib Require Import String.
#[local] Open Scope string_scope. #[local] Open Scope list_scope. #[local] Open Scope Z_scope.
#[local] Open Scope go_scope.

(** ** Histories of the whole *)

Inductive WineCall :=
| GiftOp (c : GiftCall)
| RedemptionOp (c : RedemptionCall)
| ExpiryRun (ctx : Context) (batch : Z)
| SaleOp (c : PurchaseCall).

Definition wine_call_ok (c : WineCall) : Prop :=
  match c with
  | GiftOp c => call_ok c
  | RedemptionOp c => redemption_call_ok c
  | ExpiryRun _ _ | SaleOp _ => True
  end.

Definition wine_call (pepper : string) (dispatch : option RedemptionDispatchCoordinator)
    (m : SalesProgram) (c : WineCall) : G unit :=
  match c with
  | GiftOp c => gift_call pepper c
  | RedemptionOp c => redemption_call dispatch c
  | ExpiryRun ctx batch => ExpireLotsOnce (WithBatchSize NewExpiryWorker batch) ctx ;;; ret tt
  | SaleOp c => purchase_call m c
  end.

Section History.
Context (pepper : string) (dispatch : option RedemptionDispatchCoordinator) (m : SalesProgram).

(** Between the calls the rest of the program may do what it may do between
    redemption calls and between purchases, and leaves the gift tables alone. *)
Inductive wine_reachable : World -> Prop :=
| wine_start w :
    shelf_ok (w_db w) -> gift_tables (w_db w) = ([], [], []) ->
    bk_redemptions (books (w_db w)) = [] -> bk_allocations (books (w_db w)) = [] ->
    Forall (fun s => Slot_ReservedOrders s = 0) (bk_slots (books (w_db w))) ->
    sales_start (counter (w_db w)) -> wine_reachable w
| wine_env w w' :
    wine_reachable w -> elsewhere (w_db w) (w_db w') ->
    gift_tables (w_db w') = gift_tables (w_db w) ->
    apart (counter (w_db w)) (counter (w_db w')) -> wine_reachable w'
| wine_step w c r w' :
    wine_reachable w -> wine_call_ok c -> wine_call pepper dispatch m c w = (r, w') ->
    wine_reachable w'.
End History.

(** ** A call of one part, seen from the other *)

(** Lots and ledger move on, the gifts and the sales stay. *)
Definition beside_gifts (db db' : Database) : Prop :=
  extends (view_db db) (view_db db') /\ gift_tables db' = gift_tables db /\ spare db db'.

Lemma beside_booked F db db' : booked F db db' -> beside_gifts db db'.
Proof. by intros [_ He Hg _ Hs]. Qed.

Lemma beside_quiet db db' : quiet db db' -> beside_gifts db db'.
Proof.
  intros Hq. split; [|split; [exact (f_equal (fun s => s.1.2) Hq)|by apply quiet_spare]].
  rewrite (quiet_view _ _ Hq). apply extends_refl.
Qed.

Lemma beside_refl db : beside_gifts db db.
Proof. split; [apply extends_refl|]. by split. Qed.

Lemma beside_trans a b c : beside_gifts a b -> beside_gifts b c -> beside_gifts a c.
Proof.
  intros (E1 & G1 & S1) (E2 & G2 & S2).
  split; [by eapply extends_trans|]. split; [congruence|by transitivity b].
Qed.

Lemma beside_transaction (m : G unit) w r w' :
  transaction m w = (r, w') ->
  (forall w1 w2, w_db w1 = w_db w -> m w1 = (Ok tt, w2) -> beside_gifts (w_db w1) (w_db w2)) ->
  beside_gifts (w_db w) (w_db w').
Proof.
  intros H Hm. destruct r as [[]|e]; [|apply transaction_err in H; rewrite H; apply beside_refl].
  apply transaction_ok in H as (w1 & w2 & E1 & H & ->). rewrite <- E1. by apply Hm.
Qed.

Lemma approved_beside db db' row order actorID note approval r :
  shelf_ok db -> return_approved db db' row order actorID note approval r -> beside_gifts db db'.
Proof.
  intros Hok [_ _ _ (a & db1 & db2 & _ & _ & Hopen & _ & Hq & Hout)].
  destruct (case_opened_books _ _ _ _ Hopen Hok) as (f & [B1 _]).
  apply (beside_trans _ db1); [by eapply beside_booked|].
  apply (beside_trans _ db2); [|by apply beside_quiet].
  destruct Hout as [[_ ->]|(now & _ & [B2 _])]; [apply beside_refl|by eapply beside_booked].
Qed.

Lemma apply_beside ctx fact w w' :
  RedemptionSettlement.apply ctx fact w = (Ok tt, w') -> shelf_ok (w_db w) ->
  beside_gifts (w_db w) (w_db w').
Proof.
  intros H Hok. apply apply_ok in H as (r & [_ _ _ [[_ ->]|(now & _ & _ & Hb & _)]]); [| |done].
  - apply beside_refl.
  - by eapply beside_booked.
Qed.

Lemma redemption_call_beside dispatch c w r w' :
  (forall d, dispatch = Some d -> Confined d) -> redemption_call dispatch c w = (r, w') ->
  redemption_call_ok c -> shelf_ok (w_db w) -> beside_gifts (w_db w) (w_db w').
Proof.
  intros Hd H Hc Hok. destruct c; simpl in H, Hc.
  - apply then_ret in H as (r0 & H & _). apply redemption_create_cases in H; [|done..].
    destruct r0; [|rewrite H; apply beside_refl].
    destruct H as (c & n & _ & _ & [H|(p & rid & oid & news & [_ _ [(i & k & Hb) _ _ _ _] _])]).
    + by apply beside_quiet, keys_quiet, (replay_keys _ _ _ _ _ _ _ H).
    + by eapply beside_booked.
  - apply then_ret in H as (r0 & H & _). apply redemption_cancel_cases in H; [|done..].
    destruct r0; [|rewrite H; apply beside_refl].
    destruct H as (c & _ & [H|[[H _]|(p & H)]]).
    + by apply beside_quiet, keys_quiet, (replay_keys _ _ _ _ _ _ _ H).
    + by apply beside_quiet.
    + destruct (closed_books _ _ _ (cancelled_closed _ _ _ _ _ _ _ H)) as (k & Hb).
      by eapply beside_booked.
  - apply (beside_transaction _ _ _ _ H). intros w1 w2 E1 H1. rewrite <- E1 in Hok.
    by eapply apply_beside.
  - apply (beside_transaction _ _ _ _ H). intros w1 w2 E1 H1. rewrite <- E1 in Hok.
    by eapply apply_beside.
  - apply (beside_transaction _ _ _ _ H). intros w1 w2 E1 H1. run_step H1.
    apply ret_ok_inv in H1 as [_ ->]. rewrite <- E1 in Hok.
    apply Approve_ok in R as (x & Hx); [|done]. by eapply approved_beside.
  - apply (beside_transaction _ _ _ _ H). intros w1 w2 E1 H1. run_step H1.
    apply ret_ok_inv in H1 as [_ ->]. rewrite <- E1 in Hok.
    apply SettleReceived_ok in R as (_ & x & now & [_ _ (t & Hb) _ _ _]); [|done].
    by eapply beside_booked.
Qed.

Lemma same_books_elsewhere db db' :
  shelf_ok db -> ledger_ok (view_db db') -> extends (view_db db) (view_db db') ->
  books db' = books db -> elsewhere db db'.
Proof.
  intros [H1 H2 H3 H4 H5 H6] Hl He Eb. split; [|done|by rewrite Eb|by rewrite Eb|].
  - split; [done|..]; by rewrite Eb.
  - intros s Hs. rewrite Eb in Hs. left. by exists s.
Qed.

Lemma expiry_run_steps R `{!PreOrder R} ctx batch :
  (forall ctx command, steps R (asset_op ctx (OpExpire command))) ->
  steps_any R (ExpireLotsOnce (WithBatchSize NewExpiryWorker batch) ctx ;;; ret tt).
Proof.
  intros HR. apply steps_any_bind; [exact _| |intros; auto with steps].
  apply worker_steps; try exact _; try done; unfold WithBatchSize; by destruct (_ && _).
Qed.

Lemma expiry_grows ctx batch w r w' :
  (ExpireLotsOnce (WithBatchSize NewExpiryWorker batch) ctx ;;; ret tt) w = (r, w') ->
  grows (w_db w) (w_db w') /\ spare (w_db w) (w_db w').
Proof.
  intros H. split; (eapply expiry_run_steps; [exact _| |exact H]); intros ctx' command.
  - by apply asset_grows.
  - by apply asset_op_spare.
Qed.

(** What spares the sales is apart from them. *)
Lemma spare_apart db db' :
  sales_ok (counter db) -> ledger_ok (view_db db') -> extends (view_db db) (view_db db') ->
  spare db db' -> apart (counter db) (counter db').
Proof.
  intros Hok Hl He [Es Hs]. split; simpl; rewrite ?Es; try done; [apply Hok|].
  split; [apply Hok|done].
Qed.

(** Gifts and redemptions stay while a purchase runs; where an order is settled
    or the provider answers, orders, stocks and slots may change as they may
    between redemption calls. *)
Definition shelves (db : Database) : Prop :=
  list_ok (bk_slots (books db)) /\ list_ok (bk_redemptions (books db)) /\
  list_ok (bk_allocations (books db)) /\ list_ok (bk_stocks (books db)) /\
  list_ok (bk_orders (books db)).

Record around (db db' : Database) : Prop := {
  ar_gifts : gift_tables db' = gift_tables db;
  ar_redemptions : bk_redemptions (books db') = bk_redemptions (books db);
  ar_allocations : bk_allocations (books db') = bk_allocations (books db);
  ar_slots : forall s', s' ∈ bk_slots (books db') ->
    (exists s, s ∈ bk_slots (books db) /\ Slot_ID s = Slot_ID s' /\
               Slot_ReservedOrders s = Slot_ReservedOrders s') \/
    Slot_ReservedOrders s' = 0 /\
    (forall r, r ∈ bk_redemptions (books db) -> Red_DeliveryTimeSlotID r <> Slot_ID s');
  ar_shelves : shelves db -> shelves db';
}.

Lemma around_same db db' : gift_tables db' = gift_tables db -> books db' = books db -> around db db'.
Proof.
  intros Hg Hb. split; unfold shelves; rewrite ?Hb; try done.
  intros s Hs. left. by exists s.
Qed.

#[export] Instance around_preorder : PreOrder around.
Proof.
  split; [intros db; by apply around_same|].
  intros a b c [G1 R1 A1 S1 T1] [G2 R2 A2 S2 T2]. split; [congruence..| |auto].
  intros s'' Hs. destruct (S2 _ Hs) as [(s' & Hs' & Ei & Er)|[E0 Hn]]; [|right; by rewrite <- R1].
  rewrite <- Ei, <- Er. destruct (S1 _ Hs') as [H|H]; [by left|by right].
Qed.

#[export] Instance around_writes : SalesWrites around.
Proof. split; [split; intros|intros l db..]; by apply around_same. Qed.

(** The program outside the wine tickets, as the whole needs it. *)
Record WholeOk (m : SalesProgram) : Prop := {
  whole_sales : ProgramOk m;
  whole_payments : Discreet around (prog_payments m);
  whole_retail ctx p state ty id key : steps around (prog_retail m ctx p state ty id key);
}.

Lemma around_elsewhere db db' :
  shelf_ok db -> ledger_ok (view_db db') -> extends (view_db db) (view_db db') -> around db db' ->
  elsewhere db db'.
Proof.
  intros [H1 H2 H3 H4 H5 H6] Hl He [_ Hr Ha Hs Ht].
  destruct Ht as (T1 & T2 & T3 & T4 & T5); [by split_and?|]. by split.
Qed.

(** The sales only add to lots and ledger. *)
Lemma sale_step_extends c c' :
  sale_step c c' -> sales_ok c -> extends (ct_assets c) (ct_assets c').
Proof.
  destruct 1; intros Hok; subst; try apply extends_refl; [done|]. by apply ap_extends.
Qed.

Lemma sale_steps_extends c c' :
  rtc sale_step c c' -> sales_ok c -> extends (ct_assets c) (ct_assets c') /\ sales_ok c'.
Proof.
  induction 1 as [c|c1 c2 c3 H _ IH]; intros Hok; [split; [apply extends_refl|done]|].
  destruct (IH (sale_step_ok _ _ H Hok)) as [He Hok'].
  split; [|done]. eapply extends_trans; [by apply sale_step_extends|done].
Qed.

Section Composition.
Context (pepper : string) (dispatch : option RedemptionDispatchCoordinator) (m : SalesProgram).
Context (Hdispatch : forall d, dispatch = Some d -> Confined d) (Hm : WholeOk m).

(** A history of the whole, seen from each part. *)
Record sides (w : World) : Prop := {
  side_gifts : gift_reachable pepper w;
  side_redemptions : redemption_reachable dispatch w;
  side_sales : purchase_reachable m w;
}.

Lemma sides_shelf w : sides w -> shelf_ok (w_db w).
Proof. intros Hs. apply good_shelf. by eapply redemption_reachable_good, Hs. Qed.

Lemma sides_sales w : sides w -> sales_ok (counter (w_db w)).
Proof. intros Hs. eapply purchase_reachable_ok; [apply Hm|apply Hs]. Qed.

Lemma gift_side c w r w' :
  gift_call pepper c w = (r, w') -> call_ok c -> sides w -> sides w'.
Proof.
  intros H Hc Hs. pose proof (sides_shelf _ Hs) as Hok.
  pose proof (gift_call_keeps (keep books) _ _ _ _ _ H) as Hb.
  pose proof (gift_call_keeps spare _ _ _ _ _ H) as Hsp.
  destruct (gift_call_moves _ _ _ _ _ H) as [Hok' He _ _]; [by eapply gift_reachable_ok, Hs|done|].
  pose proof (inv_ledger _ (gifts_inv _ Hok')) as Hl.
  split; [eapply gift_step; [apply Hs|done|exact H]| |].
  - eapply redemption_env; [apply Hs|]. by apply same_books_elsewhere.
  - eapply purchase_env; [apply Hs|]. apply spare_apart; try done. by apply sides_sales.
Qed.

Lemma redemption_side c w r w' :
  redemption_call dispatch c w = (r, w') -> redemption_call_ok c -> sides w -> sides w'.
Proof.
  intros H Hc Hs. pose proof (sides_shelf _ Hs) as Hok.
  assert (Hr : redemption_reachable dispatch w').
  { eapply redemption_step; [apply Hs|done|exact H]. }
  pose proof (good_shelf _ (redemption_reachable_good _ Hdispatch _ Hr)) as Hok'.
  destruct (redemption_call_beside _ _ _ _ _ Hdispatch H Hc Hok) as (He & Hg & Hsp).
  split; [|done|].
  - eapply gift_env; [apply Hs|done|apply Hok'|exact He].
  - eapply purchase_env; [apply Hs|]. apply spare_apart; try done; [by apply sides_sales|apply Hok'].
Qed.

Lemma expiry_side ctx batch w r w' :
  (ExpireLotsOnce (WithBatchSize NewExpiryWorker batch) ctx ;;; ret tt) w = (r, w') ->
  sides w -> sides w'.
Proof.
  intros H Hs. apply expiry_grows in H as [H Hsp].
  destruct (H (shelf_ledger _ (sides_shelf _ Hs))) as (Hl & He & Hf). split.
  - eapply gift_env; [apply Hs| |exact Hl|exact He].
    change (gift_tables (blank_assets (w_db w')) = gift_tables (blank_assets (w_db w))).
    by rewrite Hf.
  - eapply redemption_env; [apply Hs|]. apply same_books_elsewhere; try done; [by apply sides_shelf|].
    change (books (blank_assets (w_db w')) = books (blank_assets (w_db w))). by rewrite Hf.
  - eapply purchase_env; [apply Hs|]. apply spare_apart; try done. by apply sides_sales.
Qed.

Lemma sale_side c w r w' : purchase_call m c w = (r, w') -> sides w -> sides w'.
Proof.
  intros H Hs. pose proof (sides_sales _ Hs) as Hok.
  destruct (sale_steps_extends _ _ (purchase_call_steps m c (whole_sales _ Hm) _ _ _ H Hok) Hok)
    as [He Hok'].
  assert (Ha : around (w_db w) (w_db w')).
  { refine (purchase_call_frame around m c _ _ _ _ _ H); apply Hm. }
  split.
  - eapply gift_env; [apply Hs|apply Ha|apply (so_ledger _ Hok')|exact He].
  - eapply redemption_env; [apply Hs|]. apply around_elsewhere; try done; [by apply sides_shelf|].
    apply (so_ledger _ Hok').
  - eapply purchase_step; [apply Hs|exact H].
Qed.

(** A history of the whole is a history of each part. *)
Lemma wine_sides w : wine_reachable pepper dispatch m w -> sides w.
Proof.
  induction 1 as [w Hs Hg Hr Ha Hp Hst|w w' _ IH He Hg Hap|w c r w' _ IH Hc H].
  - split; [apply gift_start; [apply Hs|done]|by apply redemption_start|by apply purchase_start].
  - split.
    + eapply gift_env; [apply IH|done|apply (else_shelf _ _ He)|apply He].
    + eapply redemption_env; [apply IH|done].
    + eapply purchase_env; [apply IH|done].
  - destruct c as [c|c|ctx batch|c]; simpl in Hc, H.
    + by eapply gift_side.
    + by eapply redemption_side.
    + by eapply expiry_side.
    + by eapply sale_side.
Qed.
End Composition.

(** ** A sample: bottles are bought, given away and delivered *)

Definition small_redeem : WineCall :=
  RedemptionOp (RedeemCall Background (Some redeemer_claims) "POST" "/redemptions" "key-0003"
    {| RReq_ProductID := "5"; RReq_Quantity := 2; RReq_AddressID := "41";
       RReq_AddressVersion := 2; RReq_DeliveryTimeSlotID := "61"; RReq_Remark := None |}).

(** Four of the bottles of the first lot given away. *)
Definition give_four (w : World) : WineCall :=
  GiftOp (CallCreate Background (sample_claims "7") "POST" "/gifts" "create-key-1" {|
    Create_SourceLotNo := default "" (Lot_LotNo <$> head (v_lots (asset_view w)));
    Create_Quantity := 4; Create_Message := Some "enjoy" |}).

Definition sample_run (c : WineCall) (w : World) : World :=
  (wine_call sample_pepper sample_dispatch sample_program c w).2.

Definition stocked_world : World :=
  sample_run (SaleOp sample_paid_call) (sample_run (SaleOp sample_buy_call) purchase_world).

Definition wine_world : World :=
  sample_run (ExpiryRun Background 50)
    (sample_run small_redeem (sample_run (give_four stocked_world) stocked_world)).

Lemma sample_whole : WholeOk sample_program.
Proof.
  split; [apply sample_program_ok| |].
  - assert (Hret : forall A (a : A), steps_any around (remote (ret a))).
    { intros A a w r w' H. unfold remote, ret in H. by simplify_eq. }
    assert (Hh : forall r ty h, Svc_paymentSettlements sample_service = Some r ->
              resolve r ty = Some h -> h = purchase_handler).
    { intros r ty h [= <-]. unfold resolve, find. cbn [fst].
      destruct (String.eqb PurchasePaymentBusiness ty); [|done]. by intros [= <-]. }
    split; [intros p x [= <-]; apply Hret..| | | |]; intros r ty h ctx x; [| | |intros reason];
      intros Er Eh; rewrite (Hh _ _ _ Er Eh).
    + by apply lock_business_frame; exact _.
    + by apply apply_success_frame; exact _.
    + by apply apply_terminal_frame; exact _.
    + by apply apply_exception_frame; exact _.
  - intros. apply steps_throw; exact _.
Qed.

Lemma sample_run_reachable c w : wine_call_ok c ->
  wine_reachable sample_pepper sample_dispatch sample_program w ->
  wine_reachable sample_pepper sample_dispatch sample_program (sample_run c w).
Proof. intros Hc Hw. eapply wine_step; [exact Hw|exact Hc|apply surjective_pairing]. Qed.

Lemma wine_world_reachable : wine_reachable sample_pepper sample_dispatch sample_program wine_world.
Proof.
  do 5 (apply sample_run_reachable; [done|]).
  apply wine_start; try reflexivity; [|vm_compute; by repeat constructor|apply purchase_world_starts].
  split; [by apply ledger_check_ok|..]; split; try reflexivity; repeat constructor.
Qed.


