(* ===== verification/Paging.v ===== *)
(** * Paging through a customer's gifts

    [GiftService.List] and [giftRepository.listCustomerGifts]
    ([wineticket/gift/service.go], [repository.go]) over the signed tokens of
    [pkg/pagination].  A client that starts without a token and follows
    [next_page_token] until it is empty sees every gift of the list exactly
    once, the most recent first, in as many requests as there are pages. *)

From S2P Require Import Prelude GoInt GoString GoTime Json JsonParse Base64 Sha256 Problem.
From S2P Require Import RequestCtx CoreModel AssetService GiftModel AssetLaws AssetLedger Database.
From S2P Require Import Pagination Steps AssetRepository IntegrityScan Samples AssetTheorems.
From S2P Require Import Idempotency Snowflake GiftDto GiftRepository GiftService GiftList GiftSelection.
From S2P Require Import GiftInvariant GiftState GiftRuns GiftCalls GiftTheorems.
From Stdlib Require Import String.
#[local] Open Scope string_scope. #[local] Open Scope list_scope. #[local] Open Scope Z_scope.
#[local] Open Scope go_scope.

(** ** The token of a page *)

(** C39: A page token carries its cursor.  Presented with the query it was
    issued for, between a day after it was issued and five minutes before (by a
    clock that runs behind), it decodes to the cursor of the next page: the
    offset after the page, the keys of its last row and the time it was issued.
    Presented with another query, or outside that window, it is refused. *)
Theorem page_token_roundtrip secret query after w token w1 h w2 :
  nextPageToken secret query after w = (Ok token, w1) -> query_ok query after ->
  let issued := unix (w_clock w (w_ticks w)) in
  let now := unix (w_clock w2 (w_ticks w2)) in
  clock_ok issued -> clock_ok now ->
  (decodePageToken secret token h w2).1 =
  if String.eqb (Query_TokenHash query) h && (issued <=? now + 300) && (now - 86400 <=? issued)
  then Ok (next_cursor query after issued)
  else Err (invalidPageToken "page_token does not match query or has expired").
Proof.
  intros H Hq issued now Hi Hn. rewrite nextPageToken_run in H by done.
  assert (E : token = sign_token secret (bytes_of (marshal (pageCursor_json
    (next_cursor query after issued))))) by (unfold issued; congruence). rewrite E.
  rewrite decode_signed by apply bytes_of_range.
  rewrite unmarshal_printed by (apply next_cursor_ok; [done|]; clear - Hi;
    unfold clock_ok, in_i64, i64_half in *; lia).
  cbn [fst]. by rewrite next_cursor_valid.
Qed.

Definition sample_query : Query := {|
  Query_PageSize := 20; Query_PageToken := ""; Query_OrderBy := ""; Query_Filter := "";
  Query_Offset := 40; Query_TokenHash := "00c0ffee"; Query_Cursor := [] |}.

Lemma page_token_roundtrip_witness : exists token,
  (nextPageToken "secret" sample_query ["2026-01-01T08:00:00+08:00"; "17"] sample_world).1 = Ok token /\
  (decodePageToken "secret" token "00c0ffee" sample_world).1 =
  Ok {| Page_Version := 1; Page_Offset := 60; Page_QueryHash := "00c0ffee";
        Page_After := ["2026-01-01T08:00:00+08:00"; "17"]; Page_IssuedAt := 1767225600 |}.
Proof.
  eexists. split; [vm_compute; reflexivity|].
  erewrite (page_token_roundtrip "secret" sample_query _ sample_world _ _ "00c0ffee" sample_world).
  - vm_compute. reflexivity.
  - apply run_ok. vm_compute. reflexivity.
  - by constructor.
  - by vm_compute.
  - by vm_compute.
Defined.

(** Steps of a run whose result is known. *)
Lemma bind_lift {A B} (a : A) (f : A -> G B) w : bind (lift (Ok a)) f w = f a w.
Proof. done. Qed.

Lemma bind_pass {B} e (f : unit -> G B) w : bind (fail_if false e) f w = f tt w.
Proof. done. Qed.

(** ** The rows of a page *)

(** The order of the list: identifiers descending. *)
Abbreviation newest_first := (by_keys [fun row => - Gift_ID (Proj_Gift row)]).

Lemma project_gift_row_gift db g row : project_gift_row db g = Some row -> Proj_Gift row = g.
Proof.
  unfold project_gift_row. destruct (find _ (db_products db)); [|done].
  simpl. intros H. by injection H as <-.
Qed.

(** The joined row of the gifts [p] and [q] select. *)
Lemma omap_filter db (q : Gift -> bool) l :
  omap (project_gift_row db) (List.filter q l) =
  List.filter (fun row => q (Proj_Gift row)) (omap (project_gift_row db) l).
Proof.
  induction l as [|g l IH]; [done|]. cbn [List.filter omap list_omap].
  destruct (project_gift_row db g) as [row|] eqn:E.
  - apply project_gift_row_gift in E as Eg. cbn [List.filter]. rewrite Eg.
    destruct (q g); [|exact IH]. cbn [omap list_omap]. rewrite E. by f_equal.
  - destruct (q g); [|exact IH]. cbn [omap list_omap]. by rewrite E.
Qed.

Lemma omap_gift_ids db l : NoDup (map Gift_ID l) ->
  NoDup (map (fun row => Gift_ID (Proj_Gift row)) (omap (project_gift_row db) l)).
Proof.
  assert (Hin : forall k l0, k ∈ map (fun row => Gift_ID (Proj_Gift row))
      (omap (project_gift_row db) l0) -> k ∈ map Gift_ID l0).
  { intros k. induction l0 as [|g l0 IH]; [done|]. cbn [omap list_omap map].
    destruct (project_gift_row db g) as [row|] eqn:E; cbn [map].
    - apply project_gift_row_gift in E. rewrite E, !elem_of_cons. intros [|]; auto.
    - intros H. right. auto. }
  induction l as [|g l IH]; [done|]. cbn [map]. intros [Hn Hd]%NoDup_cons.
  cbn [omap list_omap]. destruct (project_gift_row db g) as [row|] eqn:E; [|auto].
  apply project_gift_row_gift in E. cbn [map]. rewrite E. apply NoDup_cons. split; [|auto].
  intros H. by apply Hin in H.
Qed.

(** Sorted rows in strictly descending order. *)
Definition descending (l : list giftProjection) : Prop :=
  StronglySorted (fun a b => Gift_ID (Proj_Gift b) < Gift_ID (Proj_Gift a)) l.

Lemma descending_sort l : NoDup (map (fun row => Gift_ID (Proj_Gift row)) l) ->
  descending (sort_by newest_first l).
Proof.
  intros Hnd. assert (Hnd' : NoDup (map (fun row => Gift_ID (Proj_Gift row)) (sort_by newest_first l))).
  { by rewrite (sort_by_perm newest_first l). }
  pose proof (sort_by_sorted [fun row => - Gift_ID (Proj_Gift row)] l) as Hs.
  unfold descending. revert Hnd' Hs. generalize (sort_by newest_first l). clear.
  induction l as [|x l IH]; intros Hnd Hs; [constructor|].
  cbn [map] in Hnd. apply NoDup_cons in Hnd as [Hx Hnd].
  apply StronglySorted_inv in Hs as [Hs Hall]. constructor; [auto|].
  rewrite Forall_forall in Hall |- *. intros y Hy. specialize (Hall y Hy). simpl in Hall.
  assert (Gift_ID (Proj_Gift y) <> Gift_ID (Proj_Gift x)).
  { intros E. apply Hx. rewrite <- E.
    apply list_elem_of_In, (in_map (fun row => Gift_ID (Proj_Gift row))), list_elem_of_In, Hy. }
  lia.
Qed.

Lemma selected_ids (p : Gift -> bool) l : NoDup (map Gift_ID l) ->
  NoDup (map Gift_ID (List.filter p l)).
Proof.
  induction l as [|g l IH]; [done|]. cbn [map List.filter]. intros [Hg Hd]%NoDup_cons.
  destruct (p g); [|auto]. cbn [map]. apply NoDup_cons. split; [|auto].
  intros Hin. apply Hg. apply list_elem_of_In, in_map_iff in Hin as (x & Ex & Hx).
  apply filter_In in Hx as [Hx _]. rewrite <- Ex. by apply list_elem_of_In, in_map.
Qed.

(** Selecting before and after sorting is the same. *)
Lemma projected_rows_filter p q db : NoDup (map Gift_ID (db_gifts db)) ->
  projected_rows (fun g => p g && q (Gift_ID g)) db =
  List.filter (fun row => q (Gift_ID (Proj_Gift row))) (projected_rows p db).
Proof.
  intros Hnd. unfold projected_rows.
  assert (E : List.filter (fun g => p g && q (Gift_ID g)) (db_gifts db) =
              List.filter (fun g => q (Gift_ID g)) (List.filter p (db_gifts db))).
  { clear Hnd. induction (db_gifts db) as [|g l IH]; [done|]. simpl.
    destruct (p g); simpl; [destruct (q (Gift_ID g)); by rewrite IH|done]. }
  rewrite E, omap_filter. set (L := omap (project_gift_row db) (List.filter p (db_gifts db))).
  assert (HL : NoDup (map (fun row => Gift_ID (Proj_Gift row)) L)).
  { by apply omap_gift_ids, selected_ids. }
  apply (strictly_sorted_unique [fun row => - Gift_ID (Proj_Gift row)]).
  - apply sort_by_sorted.
  - apply StronglySorted_filter. eapply StronglySorted_weaken; [|by apply descending_sort].
    simpl. intros a b Hab. lia.
  - rewrite sort_by_perm. apply Permutation_filter. by rewrite sort_by_perm.
Qed.

Lemma projected_rows_descending p db : NoDup (map Gift_ID (db_gifts db)) ->
  descending (projected_rows p db).
Proof. intros Hnd. by apply descending_sort, omap_gift_ids, selected_ids. Qed.

Lemma projected_rows_gift p db row : row ∈ projected_rows p db -> Proj_Gift row ∈ db_gifts db.
Proof.
  intros H. unfold projected_rows in H. apply elem_of_sort_by, list_elem_of_omap in H as (g & Hg & E).
  apply project_gift_row_gift in E as ->. apply list_elem_of_In, filter_In in Hg as [Hg _].
  by apply list_elem_of_In.
Qed.

(** The rows below the last one of a page are the rows after the page. *)
Lemma below_the_page n l row : descending l -> last (firstn n l) = Some row ->
  List.filter (fun x => Gift_ID (Proj_Gift x) <? Gift_ID (Proj_Gift row)) l = skipn n l.
Proof.
  revert n. induction l as [|x l IH]; intros n Hd Hl; [by destruct n|].
  apply StronglySorted_inv in Hd as [Hd Hall]. destruct n as [|n]; [done|].
  cbn [firstn] in Hl. cbn [List.filter skipn]. rewrite Forall_forall in Hall.
  destruct (firstn n l) as [|y l'] eqn:Ef.
  - injection Hl as <-. rewrite Z.ltb_irrefl. assert (Hn : skipn n l = l).
    { destruct n; [done|]. by destruct l. }
    rewrite Hn. rewrite <- (List.filter_ext_in (fun _ => true)).
    + clear. induction l as [|z l IH]; [done|]. simpl. by rewrite IH.
    + intros z Hz. symmetry. apply Z.ltb_lt, Hall. by apply list_elem_of_In.
  - rewrite last_cons_cons in Hl. rewrite <- Ef in Hl.
    assert (Hrow : row ∈ l).
    { apply last_Some in Hl as [l0 E]. rewrite <- (firstn_skipn n l), E, !elem_of_app.
      left. right. by left. }
    specialize (Hall row Hrow). replace (_ <? _) with false by lia. by apply IH.
Qed.

(** A condition that holds of every identifier below one it holds of. *)
Definition downward (cond : Z -> bool) : Prop :=
  forall i j, cond j = true -> i < j -> cond i = true.

Lemma filter_below (a : Z) cond (l : list giftProjection) : downward cond -> cond a = true ->
  List.filter (fun x => Gift_ID (Proj_Gift x) <? a)
    (List.filter (fun x => cond (Gift_ID (Proj_Gift x))) l) =
  List.filter (fun x => Gift_ID (Proj_Gift x) <? a) l.
Proof.
  intros Hd Ha. induction l as [|x l IH]; [done|]. cbn [List.filter].
  destruct (cond (Gift_ID (Proj_Gift x))) eqn:E; cbn [List.filter]; [by rewrite IH|].
  rewrite IH. destruct (Z.ltb_spec (Gift_ID (Proj_Gift x)) a); [|done].
  rewrite (Hd _ a) in E by done. done.
Qed.

(** ** Following the tokens *)

Section Walk.
Context (secret : string) (claims : Claims) (c : Request).

(** The request for the page a token leads to. *)
Definition with_token (token : string) : Request :=
  if String.eqb token "" then c
  else {| Req_Method := Req_Method c; Req_FullPath := Req_FullPath c; Req_Path := Req_Path c;
          Req_Query := Req_Query c ++ [("page_token", [token])] |}.

(** A client that asks for one page after the other, at most [fuel]. *)
Fixpoint walk (fuel : nat) (token : string) : G (list GiftDTO) :=
  match fuel with
  | O => ret []
  | S fuel' =>
      page <- handle_list secret claims (with_token token) ;;
      if String.eqb page.2 "" then ret page.1
      else rest <- walk fuel' page.2 ;; ret (page.1 ++ rest)
  end.

(** The clock of the process: the readings differ by at most five minutes. *)
Definition steady (w : World) : Prop := forall n m,
  clock_ok (unix (w_clock w n)) /\ unix (w_clock w m) <= unix (w_clock w n) + 300.

(** A first request the handler accepts. *)
Record first_request (customerID pageSize : Z) (direction status : string) : Prop := {
  fr_known : rejectUnknownGiftQuery c ["direction"; "status"; "page_size"; "page_token"] = Ok tt;
  fr_no_token : assoc "page_token" (Req_Query c) = None;
  fr_size : page_size_of (query_value c "page_size") = Ok pageSize;
  fr_claims : giftCustomerIDWithPermission (Some claims) "wine_ticket_gift:list" = Ok customerID;
  fr_direction : direction = (let d := trim_space (query_value c "direction") in
                              if String.eqb d "" then giftListDirectionOut else d) /\
                 validGiftDirection direction = true;
  fr_status : status = trim_space (query_value c "status") /\ validGiftStatus status = true;
}.

Context (customerID pageSize : Z) (direction status : string).
Context (Hc : first_request customerID pageSize direction status).

Lemma page_size_bounds : 1 <= pageSize <= 100.
Proof.
  pose proof (fr_size _ _ _ _ Hc) as H. unfold page_size_of in H.
  destruct (String.eqb _ ""); [injection H as <-; unfold DefaultPageSize; lia|].
  destruct (parse_int _) as [v|]; [|done]. unfold MaxPageSize in H.
  destruct ((v <=? 0) || (100 <? v)) eqn:E; [done|]. injection H as <-. lia.
Qed.

Lemma assoc_app {A} k (l : list (string * A)) l' :
  assoc k (l ++ l') = match assoc k l with Some v => Some v | None => assoc k l' end.
Proof. induction l as [|[k' v] l IH]; simpl; [done|]. by destruct (String.eqb k k'). Qed.

(** The other parameters do not depend on the token. *)
Lemma with_token_value token k : k <> "page_token" ->
  query_value (with_token token) k = query_value c k.
Proof.
  intros Hk. unfold with_token. destruct (String.eqb token ""); [done|].
  unfold query_value. cbn [Req_Query]. rewrite assoc_app. destruct (assoc k (Req_Query c)); [done|].
  simpl. by rewrite (proj2 (String.eqb_neq _ _) Hk).
Qed.

Lemma with_token_token token : query_value (with_token token) "page_token" = token.
Proof.
  unfold with_token. unfold query_value.
  destruct (String.eqb_spec token "") as [->|]; [by rewrite (fr_no_token _ _ _ _ Hc)|].
  cbn [Req_Query]. by rewrite assoc_app, (fr_no_token _ _ _ _ Hc).
Qed.

Lemma with_token_fingerprint token scope :
  queryFingerprint (with_token token) scope = queryFingerprint c scope.
Proof.
  unfold with_token. destruct (String.eqb token ""); [done|]. unfold queryFingerprint.
  cbn [Req_Query Req_Method Req_FullPath Req_Path]. by rewrite List.filter_app, app_nil_r.
Qed.

Lemma with_token_known token :
  rejectUnknownGiftQuery (with_token token) ["direction"; "status"; "page_size"; "page_token"] = Ok tt.
Proof.
  pose proof (fr_known _ _ _ _ Hc) as H. unfold with_token. destruct (String.eqb token ""); [done|].
  unfold rejectUnknownGiftQuery in *. cbn [Req_Query]. rewrite find_app_one.
  destruct (find _ (Req_Query c)); [done|]. done.
Qed.

(** A parameter that is not known is not there. *)
Lemma unknown_value k :
  member_of ["direction"; "status"; "page_size"; "page_token"] k = false -> query_value c k = "".
Proof.
  intros Hk. pose proof (fr_known _ _ _ _ Hc) as H. unfold rejectUnknownGiftQuery in H.
  destruct (find _ (Req_Query c)) eqn:F; [done|]. unfold query_value.
  destruct (assoc k (Req_Query c)) as [l|] eqn:E; [|done]. exfalso.
  assert (Hin : exists v, In (k, v) (Req_Query c)).
  { revert E. clear. induction (Req_Query c) as [|[k' v] l0 IH]; simpl; [done|].
    destruct (String.eqb_spec k k') as [->|]; intros E; [exists v; by left|].
    destruct (IH E) as [v' Hv]. exists v'. by right. }
  destruct Hin as [v Hv]. pose proof (find_none _ _ F _ Hv) as Hn. cbn [fst] in Hn.
  by rewrite Hk in Hn.
Qed.

(** ** One page *)

Definition scope : list string := ["wine_ticket_gifts"; Claims_CustomerID claims].
Definition fingerprint : string := queryFingerprint c scope.

Lemma fingerprint_plain : plain_str fingerprint = true.
Proof.
  unfold fingerprint, queryFingerprint, plain_str.
  set (v := join newline _). pose proof (sha256_hex_digits v) as Hd.
  apply forallb_forall. intros b Hb. rewrite Forall_forall in Hd.
  apply list_elem_of_In, Hd in Hb. unfold hex_byte in Hb. unfold plain_byte. lia.
Qed.

(** The world after a read. *)
Definition kept (w w' : World) : Prop :=
  w_db w' = w_db w /\ w_clock w' = w_clock w /\ w_fault w' = w_fault w.

Lemma kept_trans w1 w2 w3 : kept w1 w2 -> kept w2 w3 -> kept w1 w3.
Proof. unfold kept. intuition congruence. Qed.

(** The rows that are left at a token, and the offset it carries. *)
Inductive resumes (w : World) (all : list giftProjection) :
    string -> Z -> list giftProjection -> Prop :=
| resumes_first : resumes w all "" 0 all
| resumes_after id offset n : in_u64 id -> id <> 0 -> 0 <= offset < 2 ^ 62 ->
    resumes w all
      (sign_token secret (bytes_of (marshal (pageCursor_json {|
         Page_Version := 1; Page_Offset := offset; Page_QueryHash := fingerprint;
         Page_After := [IDString id]; Page_IssuedAt := unix (w_clock w n) |}))))
      offset (List.filter (fun row => Gift_ID (Proj_Gift row) <? id) all).

Lemma resumes_kept w w' all token offset rows : kept w w' ->
  resumes w all token offset rows -> resumes w' all token offset rows.
Proof. intros (_ & E & _) H. destruct H; [constructor|]. rewrite <- E. by constructor. Qed.

Lemma id_string_plain id : in_u64 id -> plain_str (IDString id) = true.
Proof.
  intros Hid. unfold IDString, plain_str, format_uint.
  destruct (dec_digits_bytes 19 id "") as (ds & E & Hd & _).
  { unfold in_u64, u64_mod in Hid. lia. }
  rewrite E. change (bytes_of "") with (@nil Z). rewrite app_nil_r.
  apply forallb_forall. intros b Hb. rewrite forallb_forall in Hd. apply Hd in Hb.
  unfold is_digit in Hb. unfold plain_byte. lia.
Qed.

(** The query of a request with a token. *)
Record page_query (query : Query) (offset : Z) (cond : Z -> bool) : Prop := {
  pq_size : Query_PageSize query = pageSize;
  pq_offset : Query_Offset query = offset;
  pq_hash : Query_TokenHash query = fingerprint;
  pq_cond : ApplyIDCursor query "desc" = Ok cond;
}.

Lemma decode_resumes w all token offset rows : steady w -> resumes w all token offset rows ->
  exists cursor cond w', decodePageToken secret token fingerprint w = (Ok cursor, w') /\
    kept w w' /\ Page_Offset cursor = offset /\
    (forall query, Query_Cursor query = Page_After cursor -> ApplyIDCursor query "desc" = Ok cond) /\
    downward cond /\ rows = List.filter (fun row => cond (Gift_ID (Proj_Gift row))) all.
Proof.
  intros Hw H. destruct H as [|id offset n Hid Hne Ho].
  - exists zero_cursor, (fun _ => true), w. split; [done|]. split; [done|]. split; [done|]. split.
    + intros q Hq. unfold ApplyIDCursor. by rewrite Hq.
    + split; [done|]. induction all as [|x l IH]; [done|]. simpl. by rewrite <- IH.
  - set (cur := {| Page_Version := 1 |}). destruct (Hw n (w_ticks w)) as [Hi Hn1].
    destruct (Hw (w_ticks w) n) as [Hn Hn2].
    exists cur, (fun i => i <? id), (time_now w).2. rewrite decode_signed by apply bytes_of_range.
    rewrite unmarshal_printed.
    2: { constructor; simpl; try done.
         - unfold in_i64, i64_half. lia.
         - apply fingerprint_plain.
         - by rewrite id_string_plain.
         - unfold in_i64, i64_half, clock_ok in *. lia. }
    assert (Hv : cursor_valid cur fingerprint (unix (w_clock w (w_ticks w))) = true).
    { unfold cursor_valid, cur, clock_ok, int_add in *. simpl. rewrite String.eqb_refl.
      rewrite !i64_small by (unfold in_i64, i64_half in *; lia). simpl. lia. }
    rewrite Hv. split; [done|]. split; [done|]. split; [done|].
    split; [|split; [|done]]; [|intros i j; lia].
    intros q Hq. unfold ApplyIDCursor. rewrite Hq. simpl. unfold cursor_id, IDString.
    rewrite parse_format_uint by done. by rewrite (proj2 (Z.eqb_neq _ _) Hne).
Qed.

Lemma FromGin_resumes w all token offset rows : steady w -> resumes w all token offset rows ->
  exists query cond w', FromGin secret (with_token token) scope w = (Ok query, w') /\ kept w w' /\
    page_query query offset cond /\ downward cond /\
    rows = List.filter (fun row => cond (Gift_ID (Proj_Gift row))) all.
Proof.
  intros Hw H. destruct (decode_resumes _ _ _ _ _ Hw H) as (cur & cond & w' & Hd & Hk & Ho & Ha & Hr).
  eexists _, cond, w'. split; [|split; [exact Hk|split; [|exact Hr]]].
  - unfold FromGin. rewrite !with_token_value by done. rewrite with_token_token, with_token_fingerprint.
    rewrite (fr_size _ _ _ _ Hc).
    rewrite (unknown_value "order_by"), (unknown_value "filter") by done.
    unfold bind, lift. cbn. fold fingerprint. rewrite Hd. reflexivity.
  - by constructor; simpl; auto.
Qed.

Lemma List_page w all query offset cond rows :
  no_faults w -> page_query query offset cond -> downward cond -> 0 <= offset < 2 ^ 61 ->
  NoDup (map Gift_ID (db_gifts (w_db w))) ->
  Forall (fun g => in_u64 (Gift_ID g) /\ Gift_ID g <> 0) (db_gifts (w_db w)) ->
  all = projected_rows (listed customerID direction status) (w_db w) ->
  rows = List.filter (fun row => cond (Gift_ID (Proj_Gift row))) all ->
  exists next w', List secret (Some claims) query (query_value c "direction") (query_value c "status") w
      = (Ok (map giftDTO (firstn (Z.to_nat pageSize) rows), next), w') /\ kept w w' /\
    if pageSize <? Z.of_nat (List.length rows)
    then next <> "" /\ resumes w' all next (offset + pageSize) (skipn (Z.to_nat pageSize) rows)
    else next = "".
Proof.
  intros Hn Hq Hdown Ho Hnd Hids Hall Hrows. pose proof page_size_bounds as Hps.
  destruct Hq as [Hs Hoff Hh Hcond]. destruct (fr_direction _ _ _ _ Hc) as [Hdir Hdv].
  destruct (fr_status _ _ _ _ Hc) as [Hst Hsv].
  assert (HL : listCustomerGifts customerID direction status query w =
               (Ok (firstn (Z.to_nat (pageSize + 1)) rows), bump w)).
  { unfold listCustomerGifts. rewrite Hcond, bind_lift, exec_run by done.
    rewrite Hs, projected_rows_filter by done. by rewrite Hrows, Hall. }
  unfold List. rewrite (fr_claims _ _ _ _ Hc). cbv zeta in Hdir |- *. rewrite <- Hdir, <- Hst.
  rewrite Hdv, Hsv. cbn [negb]. rewrite bind_lift, !bind_pass, (bind_ok _ _ _ _ _ HL), Hs.
  set (ps := Z.to_nat pageSize) in *. assert (Hpz : Z.of_nat ps = pageSize) by (subst ps; lia).
  replace (Z.to_nat (pageSize + 1)) with (S ps) by lia.
  assert (Hlen : (pageSize <? Z.of_nat (List.length (firstn (S ps) rows))) =
                 (pageSize <? Z.of_nat (List.length rows))).
  { rewrite length_take. destruct (Z.ltb_spec pageSize (Z.of_nat (S ps `min` List.length rows))),
      (Z.ltb_spec pageSize (Z.of_nat (List.length rows))); done || lia. }
  rewrite Hlen, take_take, Nat.min_l by lia.
  destruct (Z.ltb_spec pageSize (Z.of_nat (List.length rows))) as [Hmore|Hless].
  - destruct (last (firstn ps rows)) as [row|] eqn:Hlast.
    2: { apply last_None in Hlast. apply (f_equal List.length) in Hlast.
         rewrite length_take in Hlast. simpl in Hlast. lia. }
    assert (Hin : row ∈ rows).
    { apply last_Some in Hlast as [l0 E]. rewrite <- (firstn_skipn ps rows), E, !elem_of_app.
      left. right. by left. }
    assert (Hrow : cond (Gift_ID (Proj_Gift row)) = true /\ row ∈ all).
    { rewrite Hrows in Hin. apply list_elem_of_In, filter_In in Hin as [Hin ?].
      split; [done|by apply list_elem_of_In]. }
    destruct Hrow as [Hcr Hra].
    assert (Hid : in_u64 (Gift_ID (Proj_Gift row)) /\ Gift_ID (Proj_Gift row) <> 0).
    { rewrite Forall_forall in Hids. apply Hids. rewrite Hall in Hra. by eapply projected_rows_gift. }
    assert (Hok : query_ok query [IDString (Gift_ID (Proj_Gift row))]).
    { constructor; [rewrite Hh; apply fingerprint_plain|cbn [forallb]; by rewrite id_string_plain by apply Hid|].
      rewrite Hoff, Hs. unfold i64_half. lia. }
    assert (Hskip : skipn ps rows =
        List.filter (fun x => Gift_ID (Proj_Gift x) <? Gift_ID (Proj_Gift row)) all).
    { assert (Hd : descending rows).
      { rewrite Hrows. apply StronglySorted_filter. rewrite Hall.
        by apply projected_rows_descending. }
      rewrite <- (below_the_page ps rows row Hd Hlast), Hrows. by apply filter_below. }
    eexists _, (time_now (bump w)).2.
    rewrite (bind_ok _ _ _ _ _ (nextPageToken_run _ _ _ _ Hok)). split; [reflexivity|].
    split; [done|]. split; [apply String.eqb_neq, sign_token_nonempty|].
    unfold next_cursor. rewrite Hoff, Hs, Hh, Hskip.
    apply (resumes_after (time_now (bump w)).2); [apply Hid|apply Hid|lia].
  - exists "", (bump w). split; [|split; done].
    rewrite (take_ge rows (S ps)), (take_ge rows ps) by lia. done.
Qed.

(** ** All pages *)

Context (w0 : World).
Let all : list giftProjection := projected_rows (listed customerID direction status) (w_db w0).
Hypothesis Hfaults : no_faults w0.
Hypothesis Hclock : steady w0.
Hypothesis Hnd : NoDup (map Gift_ID (db_gifts (w_db w0))).
Hypothesis Hids : Forall (fun g => in_u64 (Gift_ID g) /\ Gift_ID g <> 0) (db_gifts (w_db w0)).

Lemma handle_page w token offset rows : kept w0 w -> resumes w all token offset rows ->
  0 <= offset < 2 ^ 61 ->
  exists next w', handle_list secret claims (with_token token) w =
      (Ok (map giftDTO (firstn (Z.to_nat pageSize) rows), next), w') /\ kept w0 w' /\
    if pageSize <? Z.of_nat (List.length rows)
    then next <> "" /\ resumes w' all next (offset + pageSize) (skipn (Z.to_nat pageSize) rows)
    else next = "".
Proof.
  intros Hk Hr Ho.
  assert (Hw : steady w) by (destruct Hk as (_ & E & _); intros n m; rewrite E; apply Hclock).
  destruct (FromGin_resumes w all token offset rows Hw Hr) as (q & cond & w1 & Hf & Hk1 & Hq & Hd & Hrows).
  pose proof (kept_trans _ _ _ Hk Hk1) as Hk01.
  destruct (List_page w1 all q offset cond rows) as (next & w2 & Hl & Hk2 & Hn); auto.
  - destruct Hk01 as (_ & _ & E). unfold no_faults in *. by rewrite E.
  - destruct Hk01 as (-> & _ & _). exact Hnd.
  - destruct Hk01 as (-> & _ & _). exact Hids.
  - unfold all. by destruct Hk01 as (-> & _ & _).
  - exists next, w2. split; [|split; [by eapply kept_trans|exact Hn]].
    unfold handle_list. rewrite with_token_known, bind_lift. rewrite !with_token_value by done.
    fold scope. by rewrite (bind_ok _ _ _ _ _ Hf).
Qed.

Lemma walk_rows fuel : forall w token offset rows, kept w0 w -> resumes w all token offset rows ->
  (List.length rows < fuel)%nat -> 0 <= offset -> offset + 100 * Z.of_nat fuel < 2 ^ 61 ->
  exists w', walk fuel token w = (Ok (map giftDTO rows), w') /\ kept w0 w'.
Proof.
  pose proof page_size_bounds as Hps.
  induction fuel as [|fuel IH]; intros w token offset rows Hk Hr Hlen Ho Hb; [lia|].
  destruct (handle_page w token offset rows Hk Hr) as (next & w1 & Hh & Hk1 & Hn); [lia|].
  cbn [walk]. rewrite (bind_ok _ _ _ _ _ Hh). cbn [fst snd].
  destruct (Z.ltb_spec pageSize (Z.of_nat (List.length rows))) as [Hmore|Hless].
  - destruct Hn as [Hne Hr1]. rewrite (proj2 (String.eqb_neq _ _) Hne).
    destruct (IH w1 next (offset + pageSize) (skipn (Z.to_nat pageSize) rows)) as (w2 & Hw2 & Hk2);
      [done|done|rewrite length_skipn; lia|lia|lia|].
    exists w2. split; [|done]. rewrite (bind_ok _ _ _ _ _ Hw2). unfold ret.
    by rewrite <- map_app, firstn_skipn.
  - rewrite Hn. exists w1. split; [|done]. simpl. by rewrite firstn_all2 by lia.
Qed.
End Walk.

(** C40: A client that starts without a page token and follows
    [next_page_token] until it is empty gets every gift of its list exactly
    once, the most recent first, whatever the page size; it needs at most one
    request more than there are gifts, and the requests change nothing.  It
    takes a database whose identifiers are positive 64-bit numbers and a clock
    whose readings differ by at most five minutes. *)
Theorem List_pages_cover_the_gifts secret claims c customerID pageSize direction status w fuel :
  first_request claims c customerID pageSize direction status ->
  gifts_ok (w_db w) -> no_faults w -> steady w ->
  Forall (fun g => in_u64 (Gift_ID g) /\ Gift_ID g <> 0) (db_gifts (w_db w)) ->
  let all := projected_rows (listed customerID direction status) (w_db w) in
  (List.length all < fuel)%nat -> Z.of_nat fuel < 2 ^ 50 ->
  (exists w', walk secret claims c fuel "" w = (Ok (map giftDTO all), w') /\ w_db w' = w_db w) /\
  descending all /\
  forall row, row ∈ all <->
    exists g, g ∈ db_gifts (w_db w) /\ listed customerID direction status g = true /\
      project_gift_row (w_db w) g = Some row.
Proof.
  intros Hc Hok Hn Hs Hids all Hlen Hfuel. pose proof (gift_ids _ (gifts_inv _ Hok)) as Hnd.
  split; [|split].
  - destruct (walk_rows secret claims c customerID pageSize direction status Hc w Hn Hs Hnd Hids
      fuel w "" 0 all) as (w' & Hw & E & _); [done|constructor|done|lia|lia|].
    by exists w'.
  - by apply projected_rows_descending.
  - intros row. unfold all, projected_rows. rewrite elem_of_sort_by, list_elem_of_omap.
    split; intros (g & H).
    + destruct H as [Hg E]. apply list_elem_of_In, filter_In in Hg as [Hg Hl].
      exists g. split; [by apply list_elem_of_In|done].
    + destruct H as (Hg & Hl & E). exists g. split; [|done].
      apply list_elem_of_In, filter_In. split; [by apply list_elem_of_In|done].
Qed.

(** Three gifts of a bottle each, listed two at a time. *)
Definition one_bottle (key : string) : GiftCall :=
  CallCreate Background (sample_claims "7") "POST" "/gifts" key
    {| Create_SourceLotNo := "WTL101"; Create_Quantity := 1; Create_Message := None |}.

Definition first_world : World := (gift_call sample_pepper (one_bottle "create-key-1") sample_world).2.
Definition second_world : World := (gift_call sample_pepper (one_bottle "create-key-2") first_world).2.
Definition third_world : World := (gift_call sample_pepper (one_bottle "create-key-3") second_world).2.

Lemma one_bottle_ok key w : gifts_ok (w_db w) ->
  (gift_call sample_pepper (one_bottle key) w).1 = Ok tt ->
  gifts_ok (w_db (gift_call sample_pepper (one_bottle key) w).2).
Proof.
  intros Hok H. apply run_ok in H.
  assert (Hc : call_ok (one_bottle key)) by (unfold one_bottle; cbn; lia).
  exact (moved_ok _ _ (gift_call_moves _ _ _ _ _ H Hok Hc)).
Qed.

Lemma third_world_ok : gifts_ok (w_db third_world).
Proof.
  unfold third_world. apply one_bottle_ok; [|vm_compute; reflexivity].
  unfold second_world. apply one_bottle_ok; [|vm_compute; reflexivity].
  unfold first_world. apply one_bottle_ok; [|vm_compute; reflexivity].
  exact sample_gifts_ok.
Qed.

(** The same world with a clock that stands still. *)
Definition at_noon (w : World) : World := {|
  w_db := w_db w; w_clock _ := sample_now + 12 * hour; w_fault _ := None;
  w_random := w_random w; w_uuid := w_uuid w; w_ticks := w_ticks w; w_stmts := w_stmts w;
  w_draws := w_draws w; w_uuids := w_uuids w; w_gen := w_gen w |}.

Lemma at_noon_db w : w_db (at_noon w) = w_db w.
Proof. done. Qed.

Lemma gift_ids_checked l :
  forallb (fun g => (0 <? Gift_ID g) && (Gift_ID g <? u64_mod)) l = true ->
  Forall (fun g => in_u64 (Gift_ID g) /\ Gift_ID g <> 0) l.
Proof.
  intros H. rewrite forallb_forall in H. apply Forall_forall. intros g Hg.
  apply list_elem_of_In, H in Hg. unfold in_u64. lia.
Qed.

Definition list_claims : Claims := {|
  Claims_AccountType := "customer"; Claims_CustomerID := "7";
  Claims_Permissions := ["wine_ticket_gift:list"] |}.

Definition list_request : Request := {|
  Req_Method := "GET"; Req_FullPath := "/gifts"; Req_Path := "/gifts";
  Req_Query := [("page_size", ["2"]); ("status", ["pending"])] |}.

Lemma List_pages_cover_the_gifts_witness :
  let all := projected_rows (listed 7 "sent" "pending") (w_db (at_noon third_world)) in
  List.length all = 3%nat /\
  exists w', walk "secret" list_claims list_request 4 "" (at_noon third_world) =
    (Ok (map giftDTO all), w').
Proof.
  cbv zeta. split; [vm_compute; reflexivity|].
  destruct (List_pages_cover_the_gifts "secret" list_claims list_request 7 2 "sent" "pending"
    (at_noon third_world) 4) as ((w' & Hw & _) & _).
  - by constructor.
  - rewrite at_noon_db. exact third_world_ok.
  - done.
  - intros n m. by vm_compute.
  - apply gift_ids_checked. vm_compute. reflexivity.
  - apply Nat.ltb_lt. vm_compute. reflexivity.
  - lia.
  - exists w'. exact Hw.
Defined.
