(* ===== verification/GiftSafety.v ===== *)
(** * The gift service: tokens, reading, expiry and failures

    What the rest of a gift's life promises: share tokens are few, short-lived
    and stored as digests; anonymous readers learn nothing from a bad token;
    the expiry worker returns exactly the gifts that are due; and a call that
    fails leaves no trace. *)

From S2P Require Import Prelude GoInt GoString GoTime Json Base64 Problem RequestCtx.
From S2P Require Import CoreModel AssetService GiftModel AssetLaws AssetLedger Database Steps.
From S2P Require Import AssetRepository IntegrityScan Samples AssetTheorems LedgerEntries Idempotency.
From S2P Require Import GiftDto GiftRepository GiftService GiftSelection.
From S2P Require Import GiftInvariant GiftState GiftRuns GiftCalls GiftTheorems.
From Stdlib Require Import String.
#[local] Open Scope string_scope. #[local] Open Scope list_scope. #[local] Open Scope Z_scope.
#[local] Open Scope go_scope.

(** ** Active tokens *)

Lemma active_count now tokens : forall count earliest,
  (activeGiftTokenCount tokens now count earliest).1 =
  count + Z.of_nat (List.length (List.filter (token_active now) tokens)).
Proof.
  induction tokens as [|t l IH]; intros count earliest; simpl; [lia|].
  destruct (token_active now t); simpl; rewrite IH; simpl; lia.
Qed.

Lemma filter_length_perm {A} (f : A -> bool) l l' :
  l ≡ₚ l' -> List.length (List.filter f l) = List.length (List.filter f l').
Proof. induction 1; simpl; repeat destruct (f _); simpl; congruence. Qed.

Lemma locked_active db id now :
  (activeGiftTokenCount (locked_tokens db id) now 0 None).1 =
  Z.of_nat (List.length (List.filter (token_active now) (tokens_of db id))).
Proof.
  rewrite active_count. unfold locked_tokens.
  by rewrite (filter_length_perm _ _ _ (sort_by_perm (by_keys [Token_ID]) (tokens_of db id))).
Qed.

(** C32: A successful [CreateShareToken] adds one token to a pending gift of
    the caller, at the version she saw, before its deadline.  Of the token
    only the digest is stored; it is open, and expires within 24 hours and not
    after the deadline or the first expiry of the gift.  The gift has at most
    three active tokens afterwards, and changes only its version. *)
Theorem CreateShareToken_issues_a_bounded_token pepper ctx claims giftNo request w dto w' :
  CreateShareToken pepper ctx claims giftNo request w = (Ok dto, w') -> gifts_ok (w_db w) ->
  exists customerID gift t now,
    giftCustomerIDWithPermission claims "wine_ticket_gift:share" = Ok customerID /\
    (gift ∈ db_gifts (w_db w) /\ Gift_GiftNo gift = giftNo /\
     Gift_GiverCustomerID gift = customerID /\ Gift_Status gift = GiftStatusPending /\
     Gift_Version gift = Share_ExpectedGiftVersion request /\ now < Gift_ClaimDeadline gift) /\
    db_gift_tokens (w_db w') = db_gift_tokens (w_db w) ++ [t] /\
    db_gifts (w_db w') = replace_gift (gift_touched now gift) (db_gifts (w_db w)) /\
    (Token_GiftID t = Gift_ID gift /\
     Token_TokenDigest t = tokenDigest pepper (ShareDTO_ShareToken dto) /\
     Token_ConsumedAt t = None /\ Token_RevokedAt t = None) /\
    (now < Token_ExpiresAt t <= now + 24 * hour /\
     Token_ExpiresAt t <= Gift_ClaimDeadline gift /\
     Token_ExpiresAt t <= Gift_EarliestExpiresAt gift) /\
    (List.length (List.filter (token_active now) (tokens_of (w_db w') (Gift_ID gift))) <= 3)%nat.
Proof.
  intros H Hok. apply Share_cases in H as (id & gift & t & now & Hp & Hi); [|done].
  destruct Hi as [[Hg Hno] Hgv Ht Hroom [Hpd Hv (_ & _ & Eg) Erow (Hid & Hd & _ & Hc & Hr & _) [He Hlt]]].
  exists id, gift, t, now. rewrite locked_active in Hroom. unfold giftActiveTokenMax in Hroom.
  repeat match goal with |- _ /\ _ => split end; auto.
  - rewrite He. unfold token_expiry, before, add_duration, giftShareTokenTTL, hour, second.
    unfold time in *. repeat case_match; lia.
  - rewrite He. unfold token_expiry, before. unfold time in *. repeat case_match; lia.
  - rewrite He. unfold token_expiry, before. unfold time in *. repeat case_match; lia.
  - unfold tokens_of in *. rewrite Erow, !List.filter_app, length_app. simpl.
    destruct (_ =? _); simpl; [destruct (token_active now t); simpl|]; lia.
Qed.

Lemma CreateShareToken_issues_a_bounded_token_witness : exists dto,
  (share_run gift_world).1 = Ok dto /\
  exists customerID gift,
    giftCustomerIDWithPermission (sample_claims "7") "wine_ticket_gift:share" = Ok customerID /\
    gift ∈ db_gifts (w_db gift_world).
Proof.
  eexists. split; [vm_compute; reflexivity|].
  edestruct (CreateShareToken_issues_a_bounded_token sample_pepper Background (sample_claims "7")
    sample_gift_no {| Share_ExpectedGiftVersion := 1 |} gift_world)
    as (c & g & _ & _ & H & [Hg _] & _).
  - apply run_ok. vm_compute. reflexivity.
  - exact gift_world_ok.
  - by exists c, g.
Defined.

(** ** The expiry worker *)

(** What a bounded batch of a sorted list leaves out comes after it. *)
Lemma batch_first {A} (le : A -> A -> bool) (l : list A) k x :
  StronglySorted (fun a b => le a b = true) l -> x ∈ l ->
  x ∈ take k l \/ List.length (take k l) = k /\ forall b, b ∈ take k l -> le b x = true.
Proof.
  intros Hs Hx. rewrite <- (take_drop k l) in Hs, Hx.
  apply elem_of_app in Hx as [Hx|Hx]; [by left|right]. split.
  - rewrite length_take. destruct (decide (List.length l <= k)%nat) as [Hk|Hk]; [|lia].
    rewrite drop_ge in Hx by lia. by apply not_elem_of_nil in Hx.
  - intros b Hb. by apply (StronglySorted_app_1_elem_of (fun a b => le a b = true) _ _ _ _ Hs).
Qed.

Lemma due_gifts_first db now limit g :
  let k := Z.to_nat (if (limit <=? 0) || (100 <? limit) then 100 else limit) in
  g ∈ db_gifts db -> timed_out g now = true ->
  g ∈ due_gifts db now limit \/
  List.length (due_gifts db now limit) = k /\
  forall b, b ∈ due_gifts db now limit -> Gift_ClaimDeadline b <= Gift_ClaimDeadline g.
Proof.
  intros k Hg Ht. pose proof (timed_out_spec g now) as Hs. rewrite Ht in Hs.
  destruct Hs as [Hp Hd]. unfold due_gifts. fold k.
  destruct (batch_first (by_keys [Gift_ClaimDeadline; Gift_ID]) _ k g
    (sort_by_sorted [Gift_ClaimDeadline; Gift_ID]
      (List.filter (fun g => String.eqb (Gift_Status g) GiftStatusPending &&
                             (Gift_ClaimDeadline g <=? now)) (db_gifts db)))) as [Hin|[Hl Hb]].
  - apply elem_of_sort_by, list_elem_of_In, filter_In. rewrite <- list_elem_of_In.
    split; [done|]. rewrite Hp. simpl. lia.
  - by left.
  - right. split; [done|]. intros b Hin. apply Hb in Hin. simpl in Hin. lia.
Qed.

Lemma returned_gift_good db ids now g :
  gifts_ok db -> expire_row ids now g ∈ db_gifts db -> Gift_ID g ∈ ids ->
  let g' := gift_returned GiftStatusExpiredReturned now g in
  g' ∈ db_gifts db /\ total (allocations_of db (Gift_ID g)) = Gift_Quantity g /\
  Forall (restored_allocation (view_db db) g') (allocations_of db (Gift_ID g)) /\
  Forall closed_token (tokens_of db (Gift_ID g)).
Proof.
  intros [_ Hgood _ _] Hg Hin. unfold expire_row in Hg. rewrite bool_decide_eq_true_2 in Hg by done.
  cbv zeta. split; [done|]. rewrite Forall_forall in Hgood. destruct (Hgood _ Hg) as [_ Ht Hs].
  split; [exact Ht|]. by destruct Hs.
Qed.

(** C34: [ExpireDue] returns exactly the due gifts, at most 100 of them and
    the longest overdue first: it counts them, each is marked returned at the
    time of the run with its bottles back on their lots and its tokens closed,
    and every other gift stays as it was.  A run that fails has returned the
    gifts before the failing one, each in a transaction of its own. *)
Theorem ExpireDue_returns_the_due_gifts ctx limit w r w' :
  ExpireDue ctx limit w = (r, w') -> gifts_ok (w_db w) ->
  let now := truncate_ms (w_clock w (w_ticks w)) in
  let batch := due_gifts (w_db w) now limit in
  exists done, done = firstn (List.length done) batch /\
    match r with
    | Ok n => done = batch /\ n = Z.of_nat (List.length batch) /\ n <= 100
    | Err _ => True
    end /\
    (forall g, g ∈ done ->
       let g' := gift_returned GiftStatusExpiredReturned now g in
       g' ∈ db_gifts (w_db w') /\
       total (allocations_of (w_db w') (Gift_ID g)) = Gift_Quantity g /\
       Forall (restored_allocation (asset_view w') g') (allocations_of (w_db w') (Gift_ID g)) /\
       Forall closed_token (tokens_of (w_db w') (Gift_ID g))) /\
    (forall g, g ∈ db_gifts (w_db w) -> ~ g ∈ done -> g ∈ db_gifts (w_db w')) /\
    (forall g, g ∈ db_gifts (w_db w) -> timed_out g now = true -> ~ g ∈ batch ->
       forall b, b ∈ batch -> Gift_ClaimDeadline b <= Gift_ClaimDeadline g).
Proof.
  intros H Hok now batch.
  destruct (ExpireDue_cases _ _ _ _ _ H Hok) as (ids & rest & Ei & Hr & Hok' & _ & Eg).
  fold now batch in Ei, Hr. fold now in Eg. exists (firstn (List.length ids) batch).
  assert (Hids : map Gift_ID (firstn (List.length ids) batch) = ids).
  { rewrite <- firstn_map, Ei. by rewrite take_app_length. }
  assert (Hsub : forall g, g ∈ firstn (List.length ids) batch -> g ∈ db_gifts (w_db w)).
  { intros g Hg. apply elem_of_take in Hg as (i & Hg & _). apply list_elem_of_lookup_2 in Hg.
    by apply due_gifts_spec in Hg as [Hg _]. }
  assert (Hlen : (List.length ids <= List.length batch)%nat).
  { rewrite <- (length_map Gift_ID batch), Ei, length_app. lia. }
  split; [by rewrite length_take, Nat.min_l by lia|]. split.
  { destruct r as [n|e]; [|done]. destruct Hr as [-> ->]. rewrite app_nil_r in Ei.
    split; [|split; [done|]].
    - rewrite take_ge; [done|]. by rewrite <- Ei, length_map.
    - unfold batch, due_gifts. rewrite length_take. destruct (_ || _) eqn:E; lia. }
  split; [|split].
  - intros g Hg. apply (returned_gift_good _ ids); [done| |].
    + rewrite Eg. apply list_elem_of_In, in_map, list_elem_of_In. auto.
    + rewrite <- Hids. by apply list_elem_of_In, in_map, list_elem_of_In.
  - intros g Hg Hno. rewrite Eg. apply list_elem_of_In, in_map_iff. exists g.
    rewrite <- list_elem_of_In. split; [|done]. unfold expire_row.
    rewrite bool_decide_eq_false_2; [done|]. intros Hin. apply Hno.
    rewrite <- Hids in Hin. apply list_elem_of_In, in_map_iff in Hin as (x & Ex & Hx).
    apply list_elem_of_In in Hx.
    by rewrite (NoDup_map_inj Gift_ID _ _ _ (gift_ids _ (gifts_inv _ Hok)) Hg (Hsub x Hx) (eq_sym Ex)).
  - intros g Hg Ht Hno. by destruct (due_gifts_first (w_db w) now limit g Hg Ht) as [|[_ Hb]].
Qed.

(** The same world with a clock two days and an hour later. *)
Definition later (w : World) : World := {|
  w_db := w_db w; w_clock n := w_clock w n + 49 * hour; w_fault := w_fault w;
  w_random := w_random w; w_uuid := w_uuid w; w_ticks := w_ticks w; w_stmts := w_stmts w;
  w_draws := w_draws w; w_uuids := w_uuids w; w_gen := w_gen w |}.

Lemma later_db w : w_db (later w) = w_db w.
Proof. reflexivity. Qed.

Definition expire_run (w : World) : res Z * World := ExpireDue Background 0 w.

Lemma ExpireDue_returns_the_due_gifts_witness :
  (expire_run (later shared_world)).1 = Ok 1 /\
  exists done, done = firstn (List.length done)
    (due_gifts (w_db (later shared_world)) (truncate_ms (w_clock (later shared_world)
       (w_ticks (later shared_world)))) 0).
Proof.
  split; [vm_compute; reflexivity|].
  destruct (ExpireDue_returns_the_due_gifts Background 0 (later shared_world) (Ok 1)
    (expire_run (later shared_world)).2) as (dn & H & _).
  - unfold expire_run. apply run_ok. vm_compute. reflexivity.
  - rewrite later_db. exact shared_world_ok.
  - by exists dn.
Defined.

(** ** Calls that fail *)

(** A call of the gift service that fails leaves the database as it was,
    with one exception that is committed on purpose: sharing, claiming or
    cancelling a pending gift whose deadline has passed returns it to the giver
    and reports that it expired. *)
Theorem failed_gift_call_rolls_back pepper c w e w' :
  gift_call pepper c w = (Err e, w') -> gifts_ok (w_db w) -> call_ok c ->
  match c with CallExpireDue _ _ => False | _ => True end ->
  w_db w' = w_db w \/
  e = giftExpired /\ returned_late (w_db w) (w_db w') /\
  match c with
  | CallShare _ _ _ _ | CallClaim _ _ _ _ _ _ | CallCancel _ _ _ _ _ _ _ => True
  | _ => False
  end.
Proof.
  intros H Hok Hc Hx. destruct c; try done; simpl in H; apply then_ret in H as (r0 & H & Hr);
    (destruct r0 as [d|e']; [done|injection Hr as <-]).
  - apply Create_cases in H; auto.
  - apply Share_cases in H; [|done]. destruct H as [H|[? ?]]; auto.
  - apply Claim_cases in H; [|done]. destruct H as [H|[? ?]]; auto.
  - apply Cancel_cases in H; [|done]. destruct H as [H|[? ?]]; auto.
  - apply Detail_reads in H. by left.
  - apply Preview_reads in H. by left.
Qed.

Lemma failed_gift_call_rolls_back_witness :
  let run := gift_call sample_pepper sample_claiming (later shared_world) in
  run.1 = Err giftExpired /\ db_gifts (w_db run.2) <> db_gifts (w_db (later shared_world)) /\
  (w_db run.2 = w_db (later shared_world) \/
   giftExpired = giftExpired /\ returned_late (w_db (later shared_world)) (w_db run.2) /\ True).
Proof.
  cbv zeta. split; [vm_compute; reflexivity|]. split; [vm_compute; discriminate|].
  refine (failed_gift_call_rolls_back sample_pepper sample_claiming (later shared_world)
    giftExpired (gift_call sample_pepper sample_claiming (later shared_world)).2 _ _ I I).
  - apply run_err. vm_compute. reflexivity.
  - rewrite later_db. exact shared_world_ok.
Defined.

(** ** The public preview of a gift *)

Lemma preview_gift_spec digest now db g : preview_gift digest now db g = true ->
  Gift_Status g = GiftStatusPending /\ now < Gift_ClaimDeadline g /\
  now < Gift_EarliestExpiresAt g /\
  exists t, t ∈ db_gift_tokens db /\ Token_GiftID t = Gift_ID g /\
    Token_TokenDigest t = digest /\ token_active now t = true.
Proof.
  unfold preview_gift, preview_token, token_active, after.
  rewrite !andb_true_iff, existsb_exists, !Z.ltb_lt, String.eqb_eq.
  intros [[[(t & Ht & Hp) Hs] Hd] He]. repeat split; [done..|]. exists t.
  rewrite !andb_true_iff, Z.eqb_eq, String.eqb_eq, Z.ltb_lt in Hp. rewrite list_elem_of_In.
  rewrite !andb_true_iff, Z.ltb_lt. tauto.
Qed.

(** The public preview tells an anonymous caller one thing only.  Every
    failure, whatever its cause, is the same "gift is unavailable"; a success
    shows a gift that is pending before its deadline and its first expiry, by
    an open, unexpired token with the digest of the one presented.  Previewing
    changes nothing. *)
Theorem Preview_fails_uniformly pepper rawToken w r w' :
  Preview pepper rawToken w = (r, w') ->
  w_db w' = w_db w /\
  match r with
  | Err e => e = invalidGiftTokenProblem
  | Ok d =>
      let now := truncate_ms (w_clock w (w_ticks w)) in
      32 <= str_len pepper /\ validGiftShareToken rawToken = true /\
      exists row g t, Proj_Gift row = g /\ d = giftPreviewDTO row /\
        g ∈ db_gifts (w_db w) /\ Gift_Status g = GiftStatusPending /\
        now < Gift_ClaimDeadline g /\ now < Gift_EarliestExpiresAt g /\
        t ∈ db_gift_tokens (w_db w) /\ Token_GiftID t = Gift_ID g /\
        Token_TokenDigest t = tokenDigest pepper rawToken /\ token_active now t = true
  end.
Proof.
  intros H. pose proof (Preview_reads _ _ _ _ _ H) as E. split; [by rewrite <- E|].
  unfold Preview in H. unfold bind at 1, fail_if in H.
  destruct (_ || _) eqn:Hg; [by injection H as <- <-|].
  apply orb_false_iff in Hg as [Hp Hv]. apply negb_false_iff in Hv.
  set (now := truncate_ms (w_clock w (w_ticks w))).
  assert (Hnow : nowShanghai w = (Ok now, (time_now w).2)) by done.
  unfold ret at 1 in H. rewrite (bind_ok _ _ _ _ _ Hnow) in H. set (w1 := (time_now w).2) in H.
  unfold or_error, attempt, bind in H.
  destruct (previewByTokenDigest (tokenDigest pepper rawToken) now w1) as [[row|e] w2] eqn:R;
    [|by injection H as <- <-].
  injection H as <- <-. split; [lia|]. split; [done|].
  unfold previewByTokenDigest, take_projection in R. apply exec_ok in R.
  change (w_db w1) with (w_db w) in R.
  destruct (first_projection _ _ _) as [r|] eqn:F; [|done]. injection R as <- _.
  apply first_projection_spec in F as [Hin Hpg].
  apply preview_gift_spec in Hpg as (Hs & Hd & He & t & Ht & Hid & Hdig & Ha).
  exists r, (Proj_Gift r), t. tauto.
Qed.

Definition preview_run (w : World) : res GiftPreviewDTO * World :=
  Preview sample_pepper sample_token w.

Lemma Preview_fails_uniformly_witness : exists d,
  (preview_run shared_world).1 = Ok d /\ Preview_GiverDisplayName d = "g***" /\
  w_db (preview_run shared_world).2 = w_db shared_world.
Proof.
  eexists. split; [vm_compute; reflexivity|]. split; [reflexivity|].
  refine (proj1 (Preview_fails_uniformly sample_pepper sample_token shared_world _
    (preview_run shared_world).2 _)).
  unfold preview_run. apply surjective_pairing.
Defined.

(** ** Who may call what *)

(** The caller is the customer [id] and was granted the permission. *)
Definition authorised (claims : option Claims) (permission : string) (id : Z) : Prop :=
  exists c, claims = Some c /\ Claims_AccountType c = "customer" /\
    parse_uint (Claims_CustomerID c) = Some id /\ id <> 0 /\
    permission ∈ Claims_Permissions c.

Lemma guard_authorised claims permission id :
  giftCustomerIDWithPermission claims permission = Ok id -> authorised claims permission id.
Proof.
  unfold giftCustomerIDWithPermission. destruct claims as [c|]; [|done].
  destruct (String.eqb_spec (Claims_AccountType c) "customer") as [Et|]; [|done]. simpl.
  destruct (parse_uint (Claims_CustomerID c)) as [n|] eqn:En; [|done].
  destruct (Z.eqb_spec n 0); [done|]. destruct (existsb _ _) eqn:Ep; [|done].
  intros [= <-]. apply existsb_exists in Ep as (p & Hp & E). apply String.eqb_eq in E as ->.
  exists c. rewrite list_elem_of_In. auto.
Qed.

(** The claims a call presents and the permission it needs. *)
Definition call_permission (c : GiftCall) : option (option Claims * string) :=
  match c with
  | CallCreate _ claims _ _ _ _ => Some (claims, "wine_ticket_gift:create")
  | CallShare _ claims _ _ => Some (claims, "wine_ticket_gift:share")
  | CallClaim _ claims _ _ _ _ => Some (claims, "wine_ticket_gift:claim")
  | CallCancel _ claims _ _ _ _ _ => Some (claims, "wine_ticket_gift:cancel")
  | CallDetail claims _ => Some (claims, "wine_ticket_gift:view")
  | CallExpireDue _ _ | CallPreview _ => None
  end.

Lemma guard_refuses {A} claims permission (f : Z -> G A) w :
  (forall id, ~ authorised claims permission id) ->
  exists e, (customerID <- lift (giftCustomerIDWithPermission claims permission) ;;
             f customerID) w = (Err e, w).
Proof.
  intros Hno. destruct (giftCustomerIDWithPermission claims permission) as [id|e] eqn:E.
  - apply guard_authorised in E. by destruct (Hno id).
  - exists e. done.
Qed.

(** Every operation of a customer needs its permission: a call without
    claims, of another account type, with a customer identifier that is not a
    positive number or without the permission granted fails before it reads
    or writes anything. *)
Theorem gift_calls_need_permission pepper c claims permission w :
  call_permission c = Some (claims, permission) ->
  (forall id, ~ authorised claims permission id) ->
  exists e, gift_call pepper c w = (Err e, w).
Proof.
  intros Hc Hno. destruct c; try done; injection Hc as <- <-; cbn [gift_call];
    unfold Create, CreateShareToken, Claim, Cancel, Detail;
    match goal with |- context [bind (lift ?g) ?f] =>
      destruct (guard_refuses _ _ f w Hno) as [e E] end;
    exists e; unfold bind at 1; by rewrite E.
Qed.

Lemma gift_calls_need_permission_witness : exists e,
  gift_call sample_pepper (CallDetail None sample_gift_no) gift_world = (Err e, gift_world).
Proof.
  apply (gift_calls_need_permission sample_pepper _ None "wine_ticket_gift:view"); [reflexivity|].
  intros id (c & H & _). discriminate.
Defined.
