(* ===== verification/GiftRetry.v ===== *)
(** * Retries of gift calls

    A client that repeats a call with the same idempotency key, because it
    never saw the answer, gets the answer of the first run: the call that
    succeeded recorded its response under the key, and the repetition finds
    it there.  The first part shows that nothing else a call does touches the
    table of keys. *)

From S2P Require Import Prelude GoInt GoString GoTime Json Base64 Problem RequestCtx.
From S2P Require Import CoreModel AssetService GiftModel AssetLaws AssetLedger Database Steps.
From S2P Require Import AssetRepository IntegrityScan Samples AssetTheorems LedgerEntries Idempotency.
From S2P Require Import Snowflake GiftDto GiftRepository GiftService GiftSelection.
From S2P Require Import GiftInvariant GiftState GiftRuns GiftCalls GiftTheorems.
From Stdlib Require Import String.
#[local] Open Scope string_scope. #[local] Open Scope list_scope. #[local] Open Scope Z_scope.
#[local] Open Scope go_scope.

(** ** What the asset operations write *)

Section Through.
Context (Q : Database -> Database -> Prop) `{!PreOrder Q}.
Context (repo : AssetIssuanceRepository World) (ids : G Z) (now_ : G time).

(** The calls an operation makes. *)
Class Within : Prop := {
  within_ids : steps_any Q ids;
  within_now : steps_any Q now_;
  within_lookup key : steps_any Q (TransactionByActionKey repo key);
  within_lock id : steps_any Q (LockLot repo id);
  within_update id v c : steps_any Q (UpdateLot repo id v c);
  within_record t : steps_any Q (CreateTransaction repo t);
  within_create l : steps_any Q (CreateLot repo l);
}.
Context `{HW : !Within}.
Let ledger : AssetLedgerRepository World := ledger_repository repo.

Lemma within_occurredAt value : steps Q (occurredAt now_ value).
Proof. unfold occurredAt. go_steps; apply steps_any_steps, HW. Qed.

Lemma within_newTransaction ctx lot ty d b a bt bi k md now :
  steps Q (newTransaction ids ctx lot ty d b a bt bi k md now).
Proof. unfold newTransaction. go_steps; apply steps_any_steps, HW. Qed.

Lemma within_replay key lot ty bt bi d : steps Q (replayAssetMutation ledger key lot ty bt bi d).
Proof.
  unfold replayAssetMutation. go_steps; (apply HW || apply steps_any_steps, HW).
Qed.

Lemma within_first m k : (forall t, steps Q (k t)) -> steps Q (first_transaction m k).
Proof. intros Hk. unfold first_transaction. destruct (Mutation_Transactions m); [|done]. go_steps. Qed.

Lemma within_lockOrNotFound id : steps Q (lockLotOrNotFound ledger id).
Proof. unfold lockLotOrNotFound. go_steps; apply HW. Qed.

(** Past [ready] the operation has its three dependencies. *)
Lemma within_ready {A} (k : G Z * G time * AssetIssuanceRepository World -> G A) :
  steps Q (k (ids, now_, repo)) ->
  steps Q (bind (lift (ready (NewAssetService now_ ids) (Some repo))) k).
Proof. intros Hk. apply Hk. Qed.

Lemma within_ready_ledger {A} (k : G Z * G time * AssetLedgerRepository World -> G A) :
  steps Q (k (ids, now_, ledger)) ->
  steps Q (bind (lift (ready (NewAssetService now_ ids) (Some ledger))) k).
Proof. intros Hk. apply Hk. Qed.

Ltac within :=
  go_steps;
  solve [ apply within_replay | apply within_lockOrNotFound | apply within_occurredAt
        | apply within_newTransaction | apply HW | apply steps_any_steps, HW
        | apply within_first; within ].

Lemma debit_within ctx command b :
  steps Q (debit (NewAssetService now_ ids) ctx (Some ledger) command b).
Proof. unfold debit. apply within_ready_ledger. cbv beta iota. within. Qed.

Lemma Issue_within ctx command :
  steps Q (Issue (NewAssetService now_ ids) ctx (Some repo) command).
Proof.
  unfold Issue. apply within_ready. cbv beta iota. unfold replayIssueAssetMutation. within.
Qed.

Lemma Transfer_within ctx command :
  steps Q (Transfer (NewAssetService now_ ids) ctx (Some repo) command).
Proof. unfold Transfer. go_steps. apply Issue_within. Qed.

Lemma Restore_within ctx command :
  steps Q (Restore (NewAssetService now_ ids) ctx (Some ledger) command).
Proof.
  unfold Restore. apply within_ready_ledger. cbv beta iota.
  unfold validateRestoreReplay, restoreExpiry. within.
Qed.
End Through.

(** ** What a call leaves of the keys *)

Abbreviation keys_kept := (keep db_idempotency).

Lemma query_any Q `{!PreOrder Q} {A} (m : G A) : steps_any Q m -> steps_any Q (asset_query m).
Proof.
  intros Hm w r w' H. unfold asset_query, attempt, bind in H.
  destruct (m w) as [r0 w1] eqn:E. apply Hm in E. by destruct r0; cbv in H; simplify_eq.
Qed.

#[export] Instance repository_keeps_keys :
  Within keys_kept NewTransactionAssetRepository next_id time_now.
Proof.
  split; intros; eauto with steps; simpl;
    unfold asset_TransactionByActionKey, asset_LockLot, asset_UpdateLot, asset_CreateTransaction,
      asset_CreateLot.
  - apply query_any; auto with steps.
  - apply query_any; auto with steps.
  - apply steps_any_bind; [exact _| |intros; eauto with steps].
    apply steps_any_update; [exact _|]. intros. unfold keep. reflexivity.
  - apply steps_any_create; [exact _|]. intros. unfold keep. reflexivity.
  - apply steps_any_create; [exact _|]. intros. unfold keep. reflexivity.
Qed.

Lemma create_keeps_keys {R} `{Table R} (r : R) :
  (forall db l, db_idempotency (set_rows (R:=R) l db) = db_idempotency db) ->
  steps keys_kept (create_row r).
Proof. intros Hk. apply steps_any_steps, steps_any_create; [exact _|]. intros db _ _. apply Hk. Qed.

Lemma update_keeps_keys {R} `{Table R} (p : R -> bool) f :
  (forall db l, db_idempotency (set_rows (R:=R) l db) = db_idempotency db) ->
  steps keys_kept (update_one p f).
Proof.
  intros Hk. apply steps_update_one; [exact _|]. apply steps_any_update; [exact _|].
  intros db _ _. apply Hk.
Qed.

(** A writing call of the service, followed down to its statements. *)
Ltac keeps_keys :=
  go_steps; try (by apply create_keeps_keys); try (by apply update_keeps_keys).

Lemma writeGiftAudit_keys ctx ty id action gift before after md :
  steps keys_kept (writeGiftAudit ctx ty id action gift before after md).
Proof. unfold writeGiftAudit, createAudit. keeps_keys. Qed.

Lemma writeGiftOutbox_keys ctx ty gift md : steps keys_kept (writeGiftOutbox ctx ty gift md).
Proof. unfold writeGiftOutbox, createOutbox. keeps_keys. Qed.

Lemma hold_selection_keys ctx customerID giftID now item :
  steps keys_kept (hold_selection ctx customerID giftID now item).
Proof.
  unfold hold_selection, createGiftAllocation. keeps_keys.
  apply (debit_within keys_kept NewTransactionAssetRepository next_id time_now).
Qed.

Lemma claim_allocation_keys ctx customerID gift sources now a :
  steps keys_kept (claim_allocation ctx customerID gift sources now a).
Proof.
  unfold claim_allocation, updateGiftAllocation. keeps_keys.
  apply (Transfer_within keys_kept NewTransactionAssetRepository next_id time_now).
Qed.

Lemma restore_allocation_keys ctx gift sources now a :
  steps keys_kept (restore_allocation ctx gift sources now a).
Proof.
  unfold restore_allocation, updateGiftAllocation. keeps_keys.
  apply (Restore_within keys_kept NewTransactionAssetRepository next_id time_now).
Qed.

Lemma restoreGiftLocked_keys ctx gift tokens allocations lots status now :
  steps keys_kept (restoreGiftLocked ctx gift tokens allocations lots status now).
Proof.
  unfold restoreGiftLocked, updateGift. go_steps.
  - apply steps_for_each; [exact _|]. intros ? _. apply restore_allocation_keys.
  - apply steps_for_each; [exact _|]. intros ? _. unfold revoke_open_token, updateGiftToken.
    keeps_keys.
  - by apply update_keeps_keys.
  - apply writeGiftOutbox_keys.
Qed.

#[export] Hint Resolve writeGiftAudit_keys writeGiftOutbox_keys hold_selection_keys
  claim_allocation_keys restoreGiftLocked_keys : steps.

(** ** The answer under a key *)

Section Key.
Variables (customerID : Z) (path key : string).

Let row (w : World) : option IdempotencyRecord := key_row "customer" customerID path key w.

(** The row holds the answer [d] to the request of hash [h]. *)
Definition answered (h : string) (d : GiftDTO) (w : World) : Prop :=
  exists r, row w = Some r /\ Idem_RequestHash r = h /\ Idem_Status r = "succeeded" /\
    stored_response r = Ok (Some d).

(** The row belongs to the request of hash [h]. *)
Definition claimed_for (h : string) (w : World) : Prop :=
  exists r, row w = Some r /\ Idem_RequestHash r = h.

Lemma row_db w w' : db_idempotency (w_db w') = db_idempotency (w_db w) -> row w' = row w.
Proof. unfold row, key_row. by intros ->. Qed.

Lemma claimed_for_kept h w w' :
  keys_kept (w_db w) (w_db w') -> claimed_for h w -> claimed_for h w'.
Proof. intros Hk (r & Hr & Hh). exists r. by rewrite (row_db w w'). Qed.

Lemma Succeed_answers h (d : GiftDTO) w u w' :
  Succeed "customer" customerID path key d w = (Ok u, w') -> claimed_for h w -> codec_ok d ->
  answered h d w'.
Proof.
  intros H (r & Hr & Hh) Hd. destruct u.
  destruct (Succeed_row _ _ _ _ _ _ _ _ H Hr) as [now Hr'].
  eexists. split; [exact Hr'|]. split; [exact Hh|]. split; [done|].
  unfold stored_response. cbn [Idem_ResponseBody completed]. by rewrite (decode_encode d Hd).
Qed.

(** A world a call can start in: no faults, and the next identifier is not
    one of the table's. *)
Record claim_ready (w : World) : Prop := {
  ready_faults : no_faults w;
  ready_rows : no_conflict row_conflict (db_idempotency (w_db w)) = true;
  ready_fresh : forall id w1 r, next_id w = (Ok id, w1) -> r ∈ db_idempotency (w_db w) ->
    Idem_ID r <> id;
}.

Lemma claim_verdict_hash r h now : claim_verdict (Some r) h now = Idempotency.Claim ->
  Idem_RequestHash r = h.
Proof.
  unfold claim_verdict. destruct (String.eqb_spec (Idem_RequestHash r) h); [done|]. done.
Qed.

Lemma replay_verdict row0 h now : claim_verdict row0 h now = Replay ->
  exists r, row0 = Some r /\ Idem_RequestHash r = h /\ Idem_Status r = "succeeded".
Proof.
  destruct row0 as [r|]; simpl; [|done].
  destruct (String.eqb_spec (Idem_RequestHash r) h); simpl; [|done].
  destruct (String.eqb_spec (Idem_Status r) "succeeded"); simpl; [by exists r|].
  destruct (Idem_LockedUntil r) as [until|]; [destruct (_ <=? _)|]; done.
Qed.

(** [startIdempotency] on a ready world: it claims the key for the request, or
    finds it completed for the same request. *)
Lemma startIdempotency_runs method h w :
  claim_ready w -> 8 <= str_len key <= 128 ->
  exists now rid w', let verdict := claim_verdict (row w) h now in
    startIdempotency customerID method path key h w =
      (match verdict with
       | Idempotency.Claim => Ok true | Replay => Ok false
       | Reused => Err idempotencyKeyReused | InProgress => Err idempotencyInProgress
       end, w') /\
    row w' = match verdict with
             | Idempotency.Claim => Some (Idempotency.claimed_row "customer" customerID path key rid method h now (row w))
             | _ => row w
             end /\
    idem_frame w' = idem_frame w /\ no_faults w'.
Proof.
  intros [Hn Hc Hf] Hlen. unfold startIdempotency.
  destruct (next_id w) as [[rid|e] w1] eqn:E1; [|unfold next_id in E1; by destruct (Snowflake.Next _ _)].
  rewrite (bind_ok _ _ _ _ _ E1). pose proof (next_id_db _ _ _ E1) as D1.
  assert (F1 : no_faults w1).
  { unfold next_id in E1. destruct (Snowflake.Next _ _). injection E1 as <- <-. exact Hn. }
  destruct (time_now w1) as [[now|e] w2] eqn:E2; [|by unfold time_now in E2].
  rewrite (bind_ok _ _ _ _ _ E2). pose proof (time_now_db _ _ _ E2) as D2.
  assert (F2 : no_faults w2) by (unfold time_now in E2; injection E2 as <- <-; exact F1).
  assert (R2 : row w2 = row w) by (unfold row, key_row; congruence).
  destruct (StartAt_run "customer" customerID path key rid method h now w2 F2 Hlen)
    as (w' & H & Hr & Hi & Hn').
  - rewrite D2, D1. intros r Hin. by apply (Hf _ _ _ eq_refl).
  - by rewrite D2, D1.
  - exists now, rid, w'. cbv zeta. unfold row in *. rewrite R2 in *.
    split; [exact H|]. split; [exact Hr|]. split.
    + rewrite Hi. unfold idem_frame. by rewrite D2, D1.
    + exact Hn'.
Qed.

Lemma startIdempotency_length method h w b w' :
  startIdempotency customerID method path key h w = (Ok b, w') -> 8 <= str_len key <= 128.
Proof.
  unfold startIdempotency, StartAt. intros H. run_step H. run_step H. run_step H. run_step H.
  lia.
Qed.

Lemma started_claims method h w w' :
  startIdempotency customerID method path key h w = (Ok true, w') -> claim_ready w ->
  claimed_for h w'.
Proof.
  intros H Hw. pose proof (startIdempotency_length _ _ _ _ _ H) as Hlen.
  destruct (startIdempotency_runs method h w Hw Hlen) as (now & rid & w1 & E & Hr & _).
  rewrite H in E. destruct (claim_verdict (row w) h now) eqn:V; try discriminate.
  injection E as <-. eexists. split; [exact Hr|]. unfold Idempotency.claimed_row.
  destruct (row w) as [r|]; [|done]. simpl. by eapply claim_verdict_hash.
Qed.

Lemma cachedIdempotency_row d w w' r :
  cachedIdempotency customerID path key w = (Ok d, w') -> row w = Some r ->
  Idem_Status r = "succeeded" -> stored_response r = Ok (Some d) /\ w_db w' = w_db w.
Proof.
  intros H Hr Hs. unfold cachedIdempotency, CachedResponse in H.
  run_step H. destruct a as [x|]; run H. run_step R. destruct a as [r'|e].
  - apply exec_ok in R0.
    destruct (find _ (rows (w_db w))) as [r1|] eqn:F; [|done]. injection R0 as <- E.
    change (rows (w_db w)) with (db_idempotency (w_db w)) in F.
    rewrite (find_and _ _ _ _ Hr) in F by (by apply String.eqb_eq). injection F as <-.
    apply lift_ok_inv in R as [R ->]. done.
  - destruct (is_record_not_found e); run R. discriminate.
Qed.

Lemma replay_answers method h d w w1 w2 :
  startIdempotency customerID method path key h w = (Ok false, w1) ->
  cachedIdempotency customerID path key w1 = (Ok d, w2) -> claim_ready w -> answered h d w2.
Proof.
  intros H Hc Hw. pose proof (startIdempotency_length _ _ _ _ _ H) as Hlen.
  destruct (startIdempotency_runs method h w Hw Hlen) as (now & rid & w1' & E & Hr & _).
  rewrite H in E. destruct (claim_verdict (row w) h now) eqn:V; try discriminate.
  injection E as <-. apply replay_verdict in V as (r & Hrow & Hh & Hs).
  rewrite Hrow in Hr. destruct (cachedIdempotency_row d w1 w2 r Hc Hr Hs) as [Hst Hdb].
  exists r. rewrite (row_db w1 w2) by (by rewrite Hdb). done.
Qed.

(** An answered request is answered again, and nothing else happens. *)
Lemma answered_replays method h d w :
  answered h d w -> claim_ready w -> 8 <= str_len key <= 128 ->
  exists w1 w2, startIdempotency customerID method path key h w = (Ok false, w1) /\
    cachedIdempotency customerID path key w1 = (Ok d, w2) /\
    idem_frame w2 = idem_frame w /\ answered h d w2 /\ no_faults w2.
Proof.
  intros (r & Hr & Hh & Hs & Hst) Hw Hlen.
  destruct (startIdempotency_runs method h w Hw Hlen) as (now & rid & w1 & E & Hr1 & Hf & Hn).
  assert (V : claim_verdict (row w) h now = Replay).
  { rewrite Hr. unfold claim_verdict. by rewrite Hh, Hs, !String.eqb_refl. }
  rewrite V in E, Hr1. exists w1, (bump w1). split; [exact E|].
  assert (Hc : CachedResponse "customer" customerID path key w1 = (Ok (Some d), bump w1)).
  { unfold CachedResponse. unfold bind, attempt. rewrite take_row_run by done.
    change (rows (w_db w1)) with (db_idempotency (w_db w1)).
    rewrite Hr in Hr1. rewrite (find_and _ _ _ _ Hr1) by (by apply String.eqb_eq).
    unfold lift. by rewrite Hst. }
  split; [|split; [exact Hf|split; [|exact Hn]]].
  - unfold cachedIdempotency. by rewrite (bind_ok _ _ _ _ _ Hc).
  - exists r. split; [|done]. by rewrite <- Hr.
Qed.
End Key.

(** ** Calls that record their answer last *)

Section Finishing.
Variables (customerID : Z) (path key : string).

Abbreviation keys_and_gifts_kept := (keep (fun db => (db_idempotency db, db_gifts db))).

(** What [m] returns as an answer, by [out], it recorded just before, as the
    projection of a stored gift; until then it left the keys alone. *)
Definition finishes {B} (out : B -> option GiftDTO) (m : G B) : Prop :=
  forall w b w' d, m w = (Ok b, w') -> out b = Some d ->
    exists w1 u p, keys_kept (w_db w) (w_db w1) /\
      Proj_Gift p ∈ db_gifts (w_db w1) /\ d = giftDTO p /\
      Succeed "customer" customerID path key d w1 = (Ok u, w').

Lemma finishes_bind {A B} (out : B -> option GiftDTO) (m : G A) (f : A -> G B) :
  steps keys_kept m -> (forall a, finishes out (f a)) -> finishes out (bind m f).
Proof.
  intros Hm Hf w b w' d H Hd. apply bind_ok_inv in H as (a & w1 & H1 & H2).
  destruct (Hf a _ _ _ _ H2 Hd) as (w2 & u & p & Hk & Hs). exists w2, u, p. split; [|done].
  transitivity (w_db w1); [exact (Hm _ _ _ H1)|done].
Qed.

(** The last calls of every handler. *)
Lemma finishes_projected {B} (out : B -> option GiftDTO) giftID (k : giftProjection -> G unit)
    (b : GiftDTO -> B) :
  (forall d, out (b d) = Some d) -> (forall p, steps keys_and_gifts_kept (k p)) ->
  finishes out (p <- giftProjectionByID giftID ;; k p ;;;
                Succeed "customer" customerID path key (giftDTO p) ;;; ret (b (giftDTO p))).
Proof.
  intros Hb Hk w b' w' d H Hd. run_step H. apply take_projection_gift in R as (E & _ & Hin).
  run_step H. apply Hk in R as E1. run_step H. run H. rewrite Hb in Hd. injection Hd as <-.
  unfold keep in E1. injection E1 as Ei Eg. exists w1, tt, a. split; [|split; [|done]].
  - unfold keep. congruence.
  - rewrite Eg, E. exact Hin.
Qed.

Lemma finishes_projected_now {B} (out : B -> option GiftDTO) giftID (b : GiftDTO -> B) :
  (forall d, out (b d) = Some d) ->
  finishes out (p <- giftProjectionByID giftID ;;
                Succeed "customer" customerID path key (giftDTO p) ;;; ret (b (giftDTO p))).
Proof.
  intros Hb w b' w' d H Hd.
  apply (finishes_projected out giftID (fun _ => ret tt) b Hb) with b'; [|exact H|exact Hd].
  intros p. apply steps_ret. exact _.
Qed.

Lemma finishes_throw {B} (out : B -> option GiftDTO) e : finishes out (throw e).
Proof. intros w b w' d H. by apply throw_ok_inv in H. Qed.

Lemma finishes_otherwise {B} (out : B -> option GiftDTO) b : out b = None -> finishes out (ret b).
Proof. intros Hb w b' w' d H Hd. apply ret_ok_inv in H as [-> _]. congruence. Qed.

Lemma finishes_map {B C} (out : B -> option GiftDTO) (out' : C -> option GiftDTO) (m : G B) f :
  finishes out m -> (forall b, out' (f b) = out b) ->
  finishes out' (b <- m ;; ret (f b)).
Proof.
  intros Hm Hf w c w' d H Hd. apply bind_ok_inv in H as (b & w1 & H1 & H2).
  apply ret_ok_inv in H2 as [-> ->]. rewrite Hf in Hd. by eapply Hm.
Qed.

Lemma gift_codec_ok db p : inv db -> Proj_Gift p ∈ db_gifts db -> codec_ok (giftDTO p).
Proof.
  intros Hi Hin. destruct (inv_gifts _ Hi) as [_ Hf]. rewrite Forall_forall in Hf.
  apply Hf in Hin. simpl in Hin. unfold gift_row_check, fits_uint32 in Hin.
  rewrite !andb_true_iff in Hin. simpl. unfold in_u64, u64_mod. lia.
Qed.

(** Follows a handler to its last calls. *)
Ltac finish :=
  repeat first
    [ apply (finishes_projected _ _ _ (fun d => d)); [reflexivity|intros p]
    | apply (finishes_projected _ _ _ Ok); [reflexivity|intros p]
    | apply (finishes_projected_now _ _ (fun d => d)); reflexivity
    | apply finishes_throw
    | apply finishes_otherwise; reflexivity
    | apply finishes_bind;
        [ first [ solve [go_steps] | idtac ]
        | intros ?; cbv zeta beta ]
    | match goal with
      | |- finishes _ (let '(_, _) := ?p in _) => destruct p
      | |- finishes _ (if ?c then _ else _) => destruct c
      | |- finishes _ (match ?c with _ => _ end) => destruct c
      end ].

Lemma writeGiftAudit_keys_and_gifts ctx ty id action gift before after md :
  steps keys_and_gifts_kept (writeGiftAudit ctx ty id action gift before after md).
Proof.
  unfold writeGiftAudit, createAudit. go_steps.
  apply steps_any_steps, steps_any_create; [exact _|]. reflexivity.
Qed.
#[local] Hint Resolve writeGiftAudit_keys_and_gifts : steps.

Lemma create_started_finishes ctx request :
  finishes Some (create_started ctx customerID path key request).
Proof.
  unfold create_started, lock_group, giftAnchorLot, lockGiftGroupLots, createGift. finish.
  - apply steps_gift_write; [exact _|]. by apply create_keeps_keys.
  - apply steps_for_each; [exact _|]. intros item _. apply hold_selection_keys.
  - go_steps.
Qed.

Lemma claim_gift_finishes ctx gift tokens matched allocations lots now :
  finishes Some (claim_gift ctx customerID path key gift tokens matched allocations lots now).
Proof.
  unfold claim_gift, updateGift. finish.
  - apply steps_for_each; [exact _|]. intros x _. apply claim_allocation_keys.
  - apply steps_for_each; [exact _|]. intros t _.
    unfold settle_token, revoke_open_token, updateGiftToken. keeps_keys.
  - apply steps_or_error; [exact _|]. by apply update_keeps_keys.
Qed.

Lemma Succeed_gifts d : steps (keep db_gifts) (Succeed "customer" customerID path key d).
Proof.
  unfold Succeed. go_steps.
  apply steps_any_steps, steps_any_update; [exact _|]. reflexivity.
Qed.

Lemma finishes_answers {B} (out : B -> option GiftDTO) (m : G B) h w b w' d :
  finishes out m -> m w = (Ok b, w') -> out b = Some d ->
  claimed_for customerID path key h w -> inv (w_db w') -> answered customerID path key h d w'.
Proof.
  intros Hm H Hd Hc Hi. destruct (Hm _ _ _ _ H Hd) as (w1 & u & p & Hk & Hin & -> & Hs).
  eapply Succeed_answers; [exact Hs| |].
  - by eapply claimed_for_kept.
  - apply (gift_codec_ok (w_db w')); [done|].
    assert (E : keep db_gifts (w_db w1) (w_db w')).
    { revert Hs. apply Succeed_gifts. }
    unfold keep in E. congruence.
Qed.
End Finishing.

(** ** The transaction of a call with a key *)

Lemma claim_ready_same w w' :
  w_db w' = w_db w -> w_clock w' = w_clock w -> w_fault w' = w_fault w ->
  w_ticks w' = w_ticks w -> w_gen w' = w_gen w -> claim_ready w -> claim_ready w'.
Proof.
  intros Ed Ec Ef Et Eg [Hn Hc Hf]. split.
  - unfold no_faults in *. by rewrite Ef.
  - by rewrite Ed.
  - intros id w1 r H Hin. rewrite Ed in Hin. unfold next_id in *. rewrite Ec, Et, Eg in H.
    destruct (Snowflake.Next _ _) as [id' gen]. injection H as -> _. by eapply Hf.
Qed.

Lemma claim_ready_bump w : claim_ready w -> claim_ready (bump w).
Proof. by apply claim_ready_same. Qed.

Lemma transaction_run {A} (fn : G A) w a w1 :
  no_faults w -> fn (bump w) = (Ok a, w1) -> no_faults w1 ->
  transaction fn w = (Ok a, bump w1).
Proof.
  intros Hn H Hn1. unfold transaction. rewrite exec_run by done.
  change (with_db (bump w) (w_db w)) with (bump w). rewrite H, exec_run by done. done.
Qed.

Lemma transaction_begin {A} (fn : G A) w a w' :
  no_faults w -> transaction fn w = (Ok a, w') ->
  exists w1, fn (bump w) = (Ok a, w1) /\ w_db w' = w_db w1.
Proof.
  intros Hn H. unfold transaction in H. rewrite exec_run in H by done.
  change (with_db (bump w) (w_db w)) with (bump w) in H.
  destruct (fn (bump w)) as [[a1|e] w2] eqn:E; [|done].
  destruct (exec _ w2) as [[u|e] w3] eqn:E3; [|done]. apply exec_ok in E3. simplify_eq.
  exists w2. split; [done|congruence].
Qed.

Section Keyed.
Variables (customerID : Z) (path key h : string).
Context {B : Type} (out : B -> option GiftDTO) (inj : GiftDTO -> B) (again body : G B).

(** The call answers a completed request with [again]. *)
Hypothesis out_inj : forall d, out (inj d) = Some d.
Hypothesis again_cached : forall w,
  again w = match cachedIdempotency customerID path key w with
            | (Ok d, w') => (Ok (inj d), w')
            | (Err e, w') => (Err e, w')
            end.
Hypothesis body_finishes : finishes customerID path key out body.

Definition keyed_steps (method : string) : G B :=
  started <- startIdempotency customerID method path key h ;;
  if negb started then again else body.

Definition keyed (method : string) : G B := transaction (keyed_steps method).

Lemma keyed_answers method w b w' d :
  keyed method w = (Ok b, w') -> out b = Some d -> claim_ready w -> inv (w_db w') ->
  answered customerID path key h d w' /\ 8 <= str_len key <= 128.
Proof.
  intros H Hd Hw Hi. pose proof (claim_ready_bump w Hw) as Hb.
  apply transaction_begin in H as (w1 & H & E); [|apply Hw].
  unfold keyed_steps in H. run_step H. apply startIdempotency_length in R as Hlen. split; [|done].
  assert (Ha : answered customerID path key h d w1).
  { destruct a; simpl in H.
    - apply started_claims in R; [|done]. eapply finishes_answers; eauto. by rewrite <- E.
    - rewrite again_cached in H. destruct (cachedIdempotency _ _ _ _) as [[d0|e] w2] eqn:Ec; [|done].
      injection H as <- <-. rewrite out_inj in Hd. injection Hd as <-.
      by eapply replay_answers. }
  destruct Ha as (r & Hr & Hx). exists r. split; [|done]. rewrite <- Hr. unfold key_row. by rewrite E.
Qed.

Lemma keyed_replays method d w :
  answered customerID path key h d w -> 8 <= str_len key <= 128 -> claim_ready w ->
  exists w', keyed method w = (Ok (inj d), w') /\ idem_frame w' = idem_frame w /\
    answered customerID path key h d w'.
Proof.
  intros Ha Hlen Hw. pose proof (claim_ready_bump w Hw) as Hb.
  destruct (answered_replays customerID path key method h d (bump w) Ha Hb Hlen)
    as (w1 & w2 & H1 & H2 & Hf & Ha2 & Hn).
  exists (bump w2). split; [|by split]. apply transaction_run; [apply Hw| |done].
  unfold keyed_steps. rewrite (bind_ok _ _ _ _ _ H1). simpl. by rewrite again_cached, H2.
Qed.
End Keyed.

(** ** The handlers *)

(** The answer a committed transaction carries. *)
Definition delivered (r : res GiftDTO) : option GiftDTO :=
  match r with Ok d => Some d | Err _ => None end.

(** Answering from the stored response. *)
Definition answer_again (customerID : Z) (path key : string) : G (res GiftDTO) :=
  d <- cachedIdempotency customerID path key ;; ret (Ok d).

Lemma answer_again_cached customerID path key w :
  answer_again customerID path key w = match cachedIdempotency customerID path key w with
            | (Ok d, w') => (Ok (Ok d), w')
            | (Err e, w') => (Err e, w')
            end.
Proof. unfold answer_again, bind. by destruct (cachedIdempotency _ _ _ w) as [[d|e] w1]. Qed.

Lemma cached_plain customerID path key w :
  cachedIdempotency customerID path key w = match cachedIdempotency customerID path key w with
            | (Ok d, w') => (Ok d, w')
            | (Err e, w') => (Err e, w')
            end.
Proof. by destruct (cachedIdempotency _ _ _ w) as [[d|e] w1]. Qed.

(** A branch that reports a timeout delivers no answer. *)
Lemma timeout_finishes customerID path key (m1 m2 : G unit) :
  finishes customerID path key delivered (m1 ;;; m2 ;;; ret (Err giftExpired)).
Proof. intros w b w' d H Hd. run_step H. run_step H. run H. done. Qed.

Section Bodies.
Variables (ctx : Context) (customerID : Z) (path key : string).

Definition claim_body (digest : string) (giftID : Z) : G (res GiftDTO) :=
  now <- nowShanghai ;;
  gift <- or_missing invalidGiftTokenProblem (lockGiftByID giftID) ;;
  tokens <- lockGiftTokens (Gift_ID gift) ;;
  locked <- lockGiftAllocationsAndLots (Gift_ID gift) ;;
  if timed_out gift now then
    restore_timeout ctx "customer" customerID "claim" gift tokens locked.1 locked.2 now ;;;
    fail_quietly customerID path key ;;;
    ret (Err giftExpired)
  else
    matched <- lift (claim_guard customerID gift (findLockedToken tokens digest) now) ;;
    dto <- claim_gift ctx customerID path key gift tokens matched locked.1 locked.2 now ;;
    ret (Ok dto).

Definition cancel_body (giftNo : string) (version : Z) : G (res GiftDTO) :=
  now <- nowShanghai ;;
  gift <- lock_own_gift customerID giftNo ;;
  tokens <- lockGiftTokens (Gift_ID gift) ;;
  locked <- lockGiftAllocationsAndLots (Gift_ID gift) ;;
  if timed_out gift now then
    restore_timeout ctx "customer" customerID "cancel" gift tokens locked.1 locked.2 now ;;;
    fail_quietly customerID path key ;;;
    ret (Err giftExpired)
  else
    lift (pendingGiftProblem gift) ;;;
    fail_if (negb (Gift_Version gift =? version)) giftVersionChanged ;;;
    restoreGiftLocked ctx gift tokens locked.1 locked.2 GiftStatusCancelled now ;;;
    writeGiftAudit ctx "customer" customerID "wine_ticket.gift.cancel" gift
      GiftStatusPending GiftStatusCancelled
      [("gift_no", JStr (Gift_GiftNo gift)); ("quantity", JNum (Gift_Quantity gift))] ;;;
    projected <- giftProjectionByID (Gift_ID gift) ;;
    let response := giftDTO projected in
    Succeed "customer" customerID path key response ;;;
    ret (Ok response).

Lemma claim_body_finishes digest giftID :
  finishes customerID path key delivered (claim_body digest giftID).
Proof.
  unfold claim_body, lockGiftByID, lockGiftTokens, lockGiftAllocationsAndLots, lockGiftLots.
  repeat (apply finishes_bind; [go_steps|intros ?]).
  destruct (timed_out _ _); [apply timeout_finishes|].
  apply finishes_bind; [go_steps|intros matched].
  apply (finishes_map _ _ _ Some); [apply claim_gift_finishes|done].
Qed.

Lemma cancel_body_finishes giftNo version :
  finishes customerID path key delivered (cancel_body giftNo version).
Proof.
  unfold cancel_body, lock_own_gift, lockGiftTokens, lockGiftAllocationsAndLots, lockGiftLots.
  repeat (apply finishes_bind; [go_steps|intros ?]).
  destruct (timed_out _ _); [apply timeout_finishes|].
  do 4 (apply finishes_bind; [go_steps|intros ?]).
  apply (finishes_projected_now _ _ _ _ _ Ok). reflexivity.
Qed.
End Bodies.

(** ** Repeated calls *)

(** A second world the call can be repeated in: nothing touched the key. *)
Record repeatable (customerID : Z) (path key : string) (w1 w2 : World) : Prop := {
  repeat_ready : claim_ready w2;
  repeat_row : key_row "customer" customerID path key w2 = key_row "customer" customerID path key w1;
}.

Lemma answered_repeats customerID path key h d w1 w2 :
  answered customerID path key h d w1 -> repeatable customerID path key w1 w2 ->
  answered customerID path key h d w2.
Proof. intros (r & Hr & Hx) [_ E]. exists r. by rewrite E. Qed.

(** C33: A client that repeats a successful [Create] with the same
    idempotency key and body gets the same gift back, whatever happened to
    the other rows in between, and the repetition changes no table but that of
    the keys: a gift is not created twice. *)
Theorem Create_is_idempotent ctx ctx2 claims method path key request w d w1 customerID w2 :
  Create ctx claims method path key request w = (Ok d, w1) ->
  gifts_ok (w_db w) -> 0 <= Create_Quantity request -> claim_ready w ->
  giftCustomerIDWithPermission claims "wine_ticket_gift:create" = Ok customerID ->
  repeatable customerID path key w1 w2 ->
  exists w3, Create ctx2 claims method path key request w2 = (Ok d, w3) /\
    idem_frame w3 = idem_frame w2.
Proof.
  intros H Hok Hq Hw Hc Hrep.
  assert (Hi : inv (w_db w1)).
  { apply gifts_inv. refine (moved_ok _ _ (gift_call_moves "" (CallCreate ctx claims method path key
      request) w (Ok tt) w1 _ Hok Hq)). simpl. by rewrite (bind_ok _ _ _ _ _ H). }
  unfold Create in H |- *. rewrite Hc in *. run_step H. injection E as <-.
  destruct (normalizeGiftCreateRequest request) as [rq|e] eqn:Hn; [|done].
  run_step H. injection E as <-. cbv zeta in H.
  pose (h := RequestHash (GiftCreateRequest_json request)).
  assert (H' : keyed customerID path key h (cachedIdempotency customerID path key)
                 (create_started ctx customerID path key rq) method w = (Ok d, w1)) by exact H.
  destruct (keyed_answers customerID path key h Some (fun d => d) _ _ (fun _ => eq_refl)
    (cached_plain _ _ _) (create_started_finishes _ _ _ ctx rq) _ _ _ _ _ H' eq_refl Hw Hi)
    as [Ha Hlen].
  destruct (keyed_replays customerID path key h (fun d => d)
    (cachedIdempotency customerID path key) (create_started ctx2 customerID path key rq)
    (cached_plain _ _ _) method d w2) as (w3 & H3 & Hf & _);
    [by eapply answered_repeats|done|apply Hrep|].
  exists w3. split; [|done]. exact H3.
Qed.

(** The shared step of [Claim] and [Cancel]: the first call leaves its answer,
    and any later one finds it. *)
Lemma terminal_call_answers customerID path key h body method d w w1 :
  commit_then (keyed_steps customerID path key h (answer_again customerID path key) body method) w
    = (Ok d, w1) ->
  finishes customerID path key delivered body -> claim_ready w -> inv (w_db w1) ->
  answered customerID path key h d w1 /\ 8 <= str_len key <= 128.
Proof.
  intros H Hf Hw Hi. unfold commit_then in H. run_step H. run H.
  refine (keyed_answers customerID path key h delivered Ok _ body (fun _ => eq_refl)
    (answer_again_cached _ _ _) Hf _ _ _ _ _ R eq_refl Hw Hi).
Qed.

Lemma terminal_call_repeats customerID path key h body method d w :
  answered customerID path key h d w -> 8 <= str_len key <= 128 -> claim_ready w ->
  exists w', commit_then
      (keyed_steps customerID path key h (answer_again customerID path key) body method) w
      = (Ok d, w') /\ idem_frame w' = idem_frame w.
Proof.
  intros Ha Hlen Hw.
  destruct (keyed_replays customerID path key h Ok _ body (answer_again_cached _ _ _)
    method d w Ha Hlen Hw) as (w' & H & Hf & _).
  exists w'. split; [|done]. unfold commit_then. unfold keyed in H.
  by rewrite (bind_ok _ _ _ _ _ H).
Qed.

(** A decision procedure for [claim_ready]. *)
Definition claim_ready_check (w : World) : bool :=
  no_conflict row_conflict (db_idempotency (w_db w)) &&
  match (next_id w).1 with
  | Ok id => forallb (fun r => negb (Idem_ID r =? id)) (db_idempotency (w_db w))
  | Err _ => true
  end.

Lemma claim_ready_by_check w : no_faults w -> claim_ready_check w = true -> claim_ready w.
Proof.
  intros Hn H. unfold claim_ready_check in H. apply andb_true_iff in H as [Hc Hf]. split; [done..|].
  intros id w1 r E Hin. rewrite E in Hf. simpl in Hf. rewrite forallb_forall in Hf.
  apply list_elem_of_In, Hf in Hin. lia.
Qed.

(** The gift was created, and shared since. *)
Lemma Create_is_idempotent_witness : exists d,
  (create_run sample_world).1 = Ok d /\
  exists w3, Create Background (sample_claims "7") "POST" "/gifts" "create-key-1" sample_create
      shared_world = (Ok d, w3) /\ idem_frame w3 = idem_frame shared_world.
Proof.
  eexists. split; [vm_compute; reflexivity|].
  apply (Create_is_idempotent Background Background (sample_claims "7") "POST" "/gifts"
    "create-key-1" sample_create sample_world _ (create_run sample_world).2 7 shared_world).
  - apply run_ok. vm_compute. reflexivity.
  - exact sample_gifts_ok.
  - done.
  - apply claim_ready_by_check; [done|vm_compute; reflexivity].
  - reflexivity.
  - split; [|vm_compute; reflexivity].
    apply claim_ready_by_check; [|vm_compute; reflexivity]. intros n. vm_compute. reflexivity.
Defined.

(** The lookup of the gift a token is for, without faults. *)
Lemma giftIDByTokenDigest_bumps digest w id w' :
  no_faults w -> giftIDByTokenDigest digest w = (Ok id, w') -> w' = bump w.
Proof.
  intros Hn H. unfold giftIDByTokenDigest, bind in H. rewrite take_row_run in H by done.
  destruct (find _ _); [|done]. unfold ret in H. by injection H.
Qed.

Lemma giftIDByTokenDigest_finds digest w t :
  no_faults w -> t ∈ db_gift_tokens (w_db w) -> Token_TokenDigest t = digest ->
  exists id, or_missing invalidGiftTokenProblem (giftIDByTokenDigest digest) w = (Ok id, bump w).
Proof.
  intros Hn Hin Hd. unfold giftIDByTokenDigest, or_missing, attempt, bind.
  rewrite take_row_run by done. destruct (find _ _) as [x|] eqn:F; [by eexists|].
  apply list_elem_of_In in Hin. pose proof (find_none _ _ F t Hin) as E. simpl in E.
  by rewrite Hd, String.eqb_refl in E.
Qed.

(** The same for [Claim]: repeated with its key and token, a successful
    claim returns the same gift, although by then its token is consumed, and
    hands nothing over a second time. *)
Theorem Claim_is_idempotent pepper ctx ctx2 claims method path key rawToken w d w1 customerID w2 :
  Claim pepper ctx claims method path key rawToken w = (Ok d, w1) ->
  gifts_ok (w_db w) -> claim_ready w ->
  giftCustomerIDWithPermission claims "wine_ticket_gift:claim" = Ok customerID ->
  repeatable customerID path key w1 w2 ->
  (exists t, t ∈ db_gift_tokens (w_db w2) /\ Token_TokenDigest t = tokenDigest pepper rawToken) ->
  exists w3, Claim pepper ctx2 claims method path key rawToken w2 = (Ok d, w3) /\
    idem_frame w3 = idem_frame w2.
Proof.
  intros H Hok Hw Hc Hrep (t & Ht & Hdig).
  assert (Hi : inv (w_db w1)).
  { apply gifts_inv. refine (moved_ok _ _ (gift_call_moves pepper (CallClaim ctx claims method path
      key rawToken) w (Ok tt) w1 _ Hok I)). simpl. by rewrite (bind_ok _ _ _ _ _ H). }
  unfold Claim in H |- *. rewrite Hc in *. run_step H. injection E as <-.
  destruct ((str_len pepper <? 32) || negb (validGiftShareToken rawToken)) eqn:Hg; [done|].
  run_step H. cbv zeta in H. run_step H. apply or_missing_ok in R.
  apply giftIDByTokenDigest_bumps in R; [subst|apply Hw].
  pose (h := ResourceRequestHash "wine_ticket_gift_claim"
               (JStr (tokenDigest pepper rawToken)) (JObj [])).
  assert (H' : commit_then (keyed_steps customerID path key h (answer_again customerID path key)
    (claim_body ctx customerID path key (tokenDigest pepper rawToken) a) method) (bump w)
    = (Ok d, w1)) by exact H.
  apply terminal_call_answers in H' as [Ha Hlen];
    [|apply claim_body_finishes|by apply claim_ready_bump|done].
  pose proof (answered_repeats _ _ _ _ _ _ _ Ha Hrep) as Ha2. destruct Hrep as [Hw2 _].
  destruct (giftIDByTokenDigest_finds _ w2 t (ready_faults _ Hw2) Ht Hdig) as [id Hid].
  destruct (terminal_call_repeats customerID path key h
    (claim_body ctx2 customerID path key (tokenDigest pepper rawToken) id) method d (bump w2)
    Ha2 Hlen (claim_ready_bump _ Hw2)) as (w3 & H3 & Hf).
  exists w3. split; [|exact Hf]. unfold bind at 1, lift, bind at 1. cbn.
  rewrite (bind_ok _ _ _ _ _ Hid). exact H3.
Qed.

(** Claimed, and claimed again. *)
Lemma Claim_is_idempotent_witness : exists d,
  (claim_run shared_world).1 = Ok d /\
  exists w3, Claim sample_pepper Background (sample_claims "8") "POST" "/claims" "claim-key-1"
      sample_token given_world = (Ok d, w3) /\ idem_frame w3 = idem_frame given_world.
Proof.
  eexists. split; [vm_compute; reflexivity|].
  apply (Claim_is_idempotent sample_pepper Background Background (sample_claims "8") "POST"
    "/claims" "claim-key-1" sample_token shared_world _ (claim_run shared_world).2 8 given_world).
  - apply run_ok. vm_compute. reflexivity.
  - exact shared_world_ok.
  - apply claim_ready_by_check; [intros n|]; vm_compute; reflexivity.
  - reflexivity.
  - split; [|vm_compute; reflexivity].
    apply claim_ready_by_check; [intros n|]; vm_compute; reflexivity.
  - eexists. split; [vm_compute; by left|vm_compute; reflexivity].
Defined.

(** The same for [Cancel]: repeated with its key, gift and version, a
    successful cancellation returns the same gift, although its version has
    moved on, and gives nothing back a second time. *)
Theorem Cancel_is_idempotent ctx ctx2 claims method path key giftNo request w d w1 customerID w2 :
  Cancel ctx claims method path key giftNo request w = (Ok d, w1) ->
  gifts_ok (w_db w) -> claim_ready w ->
  giftCustomerIDWithPermission claims "wine_ticket_gift:cancel" = Ok customerID ->
  repeatable customerID path key w1 w2 ->
  exists w3, Cancel ctx2 claims method path key giftNo request w2 = (Ok d, w3) /\
    idem_frame w3 = idem_frame w2.
Proof.
  intros H Hok Hw Hc Hrep.
  assert (Hi : inv (w_db w1)).
  { apply gifts_inv. refine (moved_ok _ _ (gift_call_moves "" (CallCancel ctx claims method path
      key giftNo request) w (Ok tt) w1 _ Hok I)). simpl. by rewrite (bind_ok _ _ _ _ _ H). }
  unfold Cancel in H |- *. rewrite Hc in *. run_step H. injection E as <-.
  destruct (validateBusinessNo giftNo "gift_no") as [[]|e] eqn:Hno; [|done].
  destruct (Expected_ExpectedVersion request =? 0) eqn:Hv; [done|].
  pose (h := ResourceRequestHash "wine_ticket_gift_cancel" (JStr giftNo)
               (GiftExpectedVersionRequest_json request)).
  assert (H' : commit_then (keyed_steps customerID path key h (answer_again customerID path key)
    (cancel_body ctx customerID path key giftNo (Expected_ExpectedVersion request)) method) w
    = (Ok d, w1)) by exact H.
  apply terminal_call_answers in H' as [Ha Hlen]; [|apply cancel_body_finishes|done..].
  destruct (terminal_call_repeats customerID path key h
    (cancel_body ctx2 customerID path key giftNo (Expected_ExpectedVersion request)) method d w2)
    as (w3 & H3 & Hf); [by eapply answered_repeats|done|apply Hrep|].
  exists w3. split; [exact H3|exact Hf].
Qed.

(** Cancelled, and cancelled again. *)
Lemma Cancel_is_idempotent_witness : exists d,
  (cancel_run shared_world).1 = Ok d /\
  exists w3, Cancel Background (sample_claims "7") "POST" "/cancel" "cancel-key-1" sample_gift_no
      {| Expected_ExpectedVersion := 2 |} (cancel_run shared_world).2 = (Ok d, w3) /\
    idem_frame w3 = idem_frame (cancel_run shared_world).2.
Proof.
  eexists. split; [vm_compute; reflexivity|].
  apply (Cancel_is_idempotent Background Background (sample_claims "7") "POST" "/cancel"
    "cancel-key-1" sample_gift_no {| Expected_ExpectedVersion := 2 |} shared_world _
    (cancel_run shared_world).2 7 (cancel_run shared_world).2).
  - apply run_ok. vm_compute. reflexivity.
  - exact shared_world_ok.
  - apply claim_ready_by_check; [intros n|]; vm_compute; reflexivity.
  - reflexivity.
  - split; [|reflexivity].
    apply claim_ready_by_check; [intros n|]; vm_compute; reflexivity.
Defined.
