(* ===== verification/IntegrityTheorems.v ===== *)
(** * The ledger auditor: its theorems

    The two checks of a lot are exact, the cursor visits every phase, and
    removing duplicates loses no finding. *)

From S2P Require Import Prelude GoInt GoString GoTime Json Problem CoreModel GiftModel.
From S2P Require Import AssetService Integrity AssetLaws AssetLedger.
From Stdlib Require Import String.
#[local] Open Scope string_scope. #[local] Open Scope list_scope. #[local] Open Scope Z_scope.

(** ** The replay check *)

(** C35: The auditor's replay check of a lot is exact: on rows the tables can
    hold it reports nothing precisely when the lot has entries, they form an
    unbroken chain from zero to the stored balance, all of the lot's owner and
    never above its total, and the status fits the balance.  No machine
    arithmetic it does can wrap. *)
Theorem checkLotReplay_is_exact lot transactions :
  lot_row_check lot = true -> Forall (fun t => transaction_row_check t = true) transactions ->
  checkLotReplay lot transactions = None <->
  transactions <> [] /\ lot_chain lot 0 transactions = Some (Lot_AvailableQuantity lot) /\
  lot_status_valid lot = true.
Proof. apply checkLotReplay_iff. Qed.

(** A lot of six bottles, two of them available: four were given. *)
Definition audited_lot : Lot := {|
  Lot_ID := 9; Lot_LotNo := "WTL9"; Lot_OwnerCustomerID := 7; Lot_PurchaseID := 1;
  Lot_SourceType := LotSourcePurchase; Lot_SourceLotID := None; Lot_SourceGiftID := None;
  Lot_IssuerMerchantID := 3; Lot_ProductID := 5; Lot_RedeemCityCode := "310100";
  Lot_TotalQuantity := 6; Lot_AvailableQuantity := 2; Lot_OriginalExpiresAt := 100;
  Lot_ExpiresAt := 100; Lot_ExpiryChangedAt := 1; Lot_RenewalCount := 0; Lot_EverUsed := true;
  Lot_Status := LotStatusActive; Lot_Version := 2; Lot_CreatedAt := 1; Lot_UpdatedAt := 2 |}.

Definition audited_entry (id before delta : Z) (type bizType : string) (bizID : Z)
    : Transaction := {|
  Tx_ID := id; Tx_TransactionNo := "WTT" +:+ format_uint id; Tx_LotID := 9;
  Tx_OwnerCustomerID := 7; Tx_TransactionType := type; Tx_QuantityDelta := delta;
  Tx_BeforeAvailableQuantity := before; Tx_AfterAvailableQuantity := before + delta;
  Tx_BizType := bizType; Tx_BizID := bizID; Tx_ActionKey := type +:+ format_uint id;
  Tx_MetadataJSON := JNull; Tx_RequestID := None; Tx_CreatedAt := id |}.

Definition audited_entries : list Transaction :=
  [audited_entry 1 0 6 TransactionTypePurchaseIssue "purchase" 11;
   audited_entry 2 6 (-4) TransactionTypeGiftHold "gift" 55].

Lemma checkLotReplay_is_exact_witness :
  checkLotReplay audited_lot audited_entries = None /\
  checkLotReplay audited_lot (tl audited_entries) <> None.
Proof.
  split.
  - apply (checkLotReplay_is_exact audited_lot audited_entries); [reflexivity|by repeat constructor|].
    by repeat split.
  - intros H. apply (checkLotReplay_is_exact audited_lot (tl audited_entries)) in H;
      [|reflexivity|by repeat constructor].
    destruct H as (_ & H & _). discriminate.
Defined.

(** ** The allocation check *)

(** What an allocation means for the projection of its lot. *)
Inductive effect :=
| Holding (quantity : Z) (backed : bool)
| Extracted (quantity : Z) (backed : bool)
| Settled
| Unknown (status : string) (bizID : Z).

Definition apply_effect (p : projection) (e : effect) : projection :=
  match e with
  | Holding q b => project_held p q b
  | Extracted q b => project_extracted p q b
  | Settled => p
  | Unknown s id => project_invalid p s id
  end.

Section Effects.
Variable lot : Lot.
Variable facts : reconciliationTransactionKey -> reconciliationTransactionAggregate.

Definition hold_backed (type bizType : string) (bizID quantity : Z) : bool :=
  allocationHoldBacked facts (hold_key lot type bizType bizID) quantity.

Definition redemption_effect (a : RedemptionAllocation) : effect :=
  let backed := hold_backed TransactionTypeRedemptionHold "wine_ticket_redemption"
                  (RA_RedemptionID a) (RA_Quantity a) in
  if String.eqb (RA_Status a) "held" then Holding (RA_Quantity a) backed
  else if String.eqb (RA_Status a) "consumed" then Extracted (RA_Quantity a) backed
  else if String.eqb (RA_Status a) "restored" then Settled
  else Unknown (RA_Status a) (RA_RedemptionID a).

Definition gift_effect (a : GiftAllocation) : effect :=
  if String.eqb (GA_Status a) "held" then
    Holding (GA_Quantity a)
      (hold_backed TransactionTypeGiftHold "gift" (GA_GiftID a) (GA_Quantity a))
  else if String.eqb (GA_Status a) "claimed" || String.eqb (GA_Status a) "restored" then Settled
  else Unknown (GA_Status a) (GA_GiftID a).

Definition refund_effect (a : RefundAllocation) : effect :=
  if String.eqb (FA_Status a) "held" then
    Holding (FA_Quantity a)
      (hold_backed TransactionTypeRefundHold "refund" (FA_WineTicketRefundID a) (FA_Quantity a))
  else if String.eqb (FA_Status a) "consumed" || String.eqb (FA_Status a) "restored" then Settled
  else Unknown (FA_Status a) (FA_WineTicketRefundID a).

Definition effects (redemptions : list RedemptionAllocation) (gifts : list GiftAllocation)
    (refunds : list RefundAllocation) : list effect :=
  map redemption_effect redemptions ++ map gift_effect gifts ++ map refund_effect refunds.

Lemma fold_effects {A} (project : projection -> A -> projection) (eff : A -> effect) l :
  (forall p a, project p a = apply_effect p (eff a)) ->
  forall p, fold_left project l p = fold_left apply_effect (map eff l) p.
Proof. intros H. induction l as [|a l IH]; simpl; intros p; [done|]. by rewrite H, IH. Qed.

Lemma lot_projection_effects rs gs fs :
  lot_projection lot facts rs gs fs =
  fold_left apply_effect (effects rs gs fs)
    {| P_heldQuantity := 0; P_extractedQuantity := 0; P_backingValid := true;
       P_invalidStatus := ""; P_invalidBizID := 0 |}.
Proof.
  unfold lot_projection, effects. rewrite !fold_left_app.
  rewrite (fold_effects (project_redemption lot facts) redemption_effect).
  2: { intros p a. unfold project_redemption, redemption_effect, hold_backed.
       by repeat case_match. }
  rewrite (fold_effects (project_gift lot facts) gift_effect).
  2: { intros p a. unfold project_gift, gift_effect, hold_backed. by repeat case_match. }
  rewrite (fold_effects (project_refund lot facts) refund_effect); [done|].
  intros p a. unfold project_refund, refund_effect, hold_backed. by repeat case_match.
Qed.
End Effects.

Definition held_of (e : effect) : Z := match e with Holding q _ => q | _ => 0 end.
Definition extracted_of (e : effect) : Z := match e with Extracted q _ => q | _ => 0 end.

(** An allocation the projection accepts. *)
Definition accounted (e : effect) : bool :=
  match e with
  | Holding _ b | Extracted _ b => b
  | Settled => true
  | Unknown s _ => String.eqb s ""
  end.

Definition effect_bounded (e : effect) : Prop :=
  0 <= held_of e < 2 ^ 32 /\ 0 <= extracted_of e < 2 ^ 32 /\
  match e with Unknown s _ => s <> "" | _ => True end.

Definition sum_of {A} (f : A -> Z) (l : list A) : Z := fold_right (fun x s => f x + s) 0 l.

Lemma sum_of_bound {A} (f : A -> Z) l : Forall (fun x => 0 <= f x < 2 ^ 32) l ->
  0 <= sum_of f l <= Z.of_nat (List.length l) * 2 ^ 32.
Proof.
  unfold sum_of. induction 1; [simpl; lia|]. cbn [fold_right Datatypes.length].
  rewrite Nat2Z.inj_succ. lia.
Qed.

Lemma apply_effects l : forall p,
  Forall effect_bounded l ->
  0 <= P_heldQuantity p -> P_heldQuantity p + Z.of_nat (List.length l) * 2 ^ 32 < u64_mod ->
  0 <= P_extractedQuantity p ->
  P_extractedQuantity p + Z.of_nat (List.length l) * 2 ^ 32 < u64_mod ->
  let p' := fold_left apply_effect l p in
  P_heldQuantity p' = P_heldQuantity p + sum_of held_of l /\
  P_extractedQuantity p' = P_extractedQuantity p + sum_of extracted_of l /\
  (P_backingValid p' && String.eqb (P_invalidStatus p') "") =
  (P_backingValid p && String.eqb (P_invalidStatus p) "" && forallb accounted l).
Proof.
  induction l as [|e l IH]; intros p Hl H1 H2 H3 H4.
  { cbn. rewrite andb_true_r. split; [lia|]. split; [lia|done]. }
  apply Forall_cons in Hl as [(Hh & Hx & Hs) Hl].
  cbn [fold_left Datatypes.length] in *. rewrite Nat2Z.inj_succ in *.
  assert (Hp : P_heldQuantity (apply_effect p e) = P_heldQuantity p + held_of e /\
               P_extractedQuantity (apply_effect p e) = P_extractedQuantity p + extracted_of e).
  { destruct e; cbn in *; rewrite ?uint_add_small by int_range; lia. }
  destruct Hp as [Ph Px].
  destruct (IH (apply_effect p e)) as (E1 & E2 & E3); rewrite ?Ph, ?Px; auto; try lia.
  cbv zeta. unfold sum_of in *. cbn [fold_right forallb].
  rewrite E1, E2, E3, Ph, Px. split; [lia|]. split; [lia|].
  destruct e as [q b|q b| |s id]; cbn.
  - destruct (P_backingValid p), (String.eqb (P_invalidStatus p) ""), b; reflexivity.
  - destruct (P_backingValid p), (String.eqb (P_invalidStatus p) ""), b; reflexivity.
  - reflexivity.
  - apply String.eqb_neq in Hs. rewrite Hs, !andb_false_r. reflexivity.
Qed.

(** ** Backing by the ledger *)

(** Exactly one entry has the key, and it takes the quantity out. *)
Definition backed_by (transactions : list Transaction) (key : reconciliationTransactionKey)
    (quantity : Z) : Prop :=
  exists t, List.filter (fun t => bool_decide (transaction_key t = key)) transactions = [t] /\
    Tx_QuantityDelta t = - quantity.

Definition with_entry (agg : reconciliationTransactionAggregate) (t : Transaction)
    : reconciliationTransactionAggregate :=
  {| Agg_Count := Agg_Count agg + 1;
     Agg_Delta := int_add (Agg_Delta agg) (Tx_QuantityDelta t) |}.

Lemma fold_filter {A B} (p : B -> bool) (f : A -> B -> A) l : forall a,
  fold_left (fun a b => if p b then f a b else a) l a = fold_left f (List.filter p l) a.
Proof. induction l as [|b l IH]; intros a; simpl; [done|]. destruct (p b); simpl; apply IH. Qed.

Lemma entries_count l : forall agg,
  Agg_Count (fold_left with_entry l agg) = Agg_Count agg + Z.of_nat (List.length l).
Proof. induction l as [|t l IH]; intros agg; simpl; [lia|]. rewrite IH. simpl. lia. Qed.

Lemma holdBacked_spec txs key q :
  Forall (fun t => transaction_row_check t = true) txs -> 0 <= q < 2 ^ 32 ->
  allocationHoldBacked (transaction_facts txs) key q = true <-> backed_by txs key q.
Proof.
  intros Hrows Hq. unfold allocationHoldBacked, transaction_facts, backed_by.
  rewrite (fold_filter (fun t => bool_decide (transaction_key t = key)) with_entry).
  set (hits := List.filter _ txs).
  assert (Hhits : Forall (fun t => transaction_row_check t = true) hits).
  { apply Forall_forall. intros t Ht. apply list_elem_of_In, filter_In in Ht as [Ht _].
    rewrite Forall_forall in Hrows. by apply Hrows, list_elem_of_In. }
  rewrite i64_small, int_neg_small, andb_true_iff, Z.eqb_eq, Z.eqb_eq, entries_count by int_range.
  cbn [Agg_Count]. split.
  - intros [Hn Hd]. destruct hits as [|t [|t' l]]; simpl in *; try lia. exists t.
    split; [done|]. apply Forall_cons in Hhits as [Ht _].
    apply transaction_row_values in Ht as (_ & Hb & Ha & E).
    unfold int_add in Hd. rewrite i64_small in Hd by int_range. lia.
  - intros (t & -> & E). simpl. split; [lia|]. rewrite E. unfold int_add. apply i64_small. int_range.
Qed.

(** ** The allocation check is exact *)

(** One case of an effect: its bounds, whether it is accounted, its sums. *)
Ltac effect_cases :=
  simpl; split; [split_and!; (done || lia)|];
  split; [rewrite ?String.eqb_eq; intuition congruence|done].

Section Exact.
Variable transactions : list Transaction.
Variable lot : Lot.

Definition redemption_accounted (a : RedemptionAllocation) : Prop :=
  (RA_Status a = "held" \/ RA_Status a = "consumed") /\
    backed_by transactions (hold_key lot TransactionTypeRedemptionHold
      "wine_ticket_redemption" (RA_RedemptionID a)) (RA_Quantity a) \/
  RA_Status a = "restored".

Definition gift_accounted (a : GiftAllocation) : Prop :=
  GA_Status a = "held" /\
    backed_by transactions (hold_key lot TransactionTypeGiftHold "gift" (GA_GiftID a))
      (GA_Quantity a) \/
  GA_Status a = "claimed" \/ GA_Status a = "restored".

Definition refund_accounted (a : RefundAllocation) : Prop :=
  FA_Status a = "held" /\
    backed_by transactions (hold_key lot TransactionTypeRefundHold "refund"
      (FA_WineTicketRefundID a)) (FA_Quantity a) \/
  FA_Status a = "consumed" \/ FA_Status a = "restored".

(** The bottles an allocation holds back from its lot, and those it took out. *)
Definition quantity_if (status wanted : string) (quantity : Z) : Z :=
  if String.eqb status wanted then quantity else 0.

Definition held_total (rs : list RedemptionAllocation) (gs : list GiftAllocation)
    (fs : list RefundAllocation) : Z :=
  sum_of (fun a => quantity_if (RA_Status a) "held" (RA_Quantity a)) rs +
  sum_of (fun a => quantity_if (GA_Status a) "held" (GA_Quantity a)) gs +
  sum_of (fun a => quantity_if (FA_Status a) "held" (FA_Quantity a)) fs.

Definition extracted_total (rs : list RedemptionAllocation) : Z :=
  sum_of (fun a => quantity_if (RA_Status a) "consumed" (RA_Quantity a)) rs.

(** What the columns and CHECKs of the allocation tables give. *)
Definition allocation_value (status : string) (quantity : Z) : Prop :=
  status <> "" /\ 0 <= quantity < 2 ^ 32.

Hypothesis rows : Forall (fun t => transaction_row_check t = true) transactions.
Let facts := transaction_facts transactions.

Lemma redemption_effect_ok a : allocation_value (RA_Status a) (RA_Quantity a) ->
  effect_bounded (redemption_effect lot facts a) /\
  (accounted (redemption_effect lot facts a) = true <-> redemption_accounted a) /\
  held_of (redemption_effect lot facts a) = quantity_if (RA_Status a) "held" (RA_Quantity a) /\
  extracted_of (redemption_effect lot facts a) =
    quantity_if (RA_Status a) "consumed" (RA_Quantity a).
Proof.
  intros [Hs Hq]. unfold redemption_effect, redemption_accounted, quantity_if, effect_bounded.
  pose proof (holdBacked_spec transactions (hold_key lot TransactionTypeRedemptionHold
    "wine_ticket_redemption" (RA_RedemptionID a)) (RA_Quantity a) rows Hq) as Hb.
  fold facts in Hb. unfold hold_backed. rewrite <- Hb.
  destruct (String.eqb_spec (RA_Status a) "held") as [E|]; [rewrite E; effect_cases|].
  destruct (String.eqb_spec (RA_Status a) "consumed") as [E|]; [rewrite E; effect_cases|].
  destruct (String.eqb_spec (RA_Status a) "restored") as [E|]; [rewrite E; effect_cases|].
  effect_cases.
Qed.

Lemma gift_effect_ok a : allocation_value (GA_Status a) (GA_Quantity a) ->
  effect_bounded (gift_effect lot facts a) /\
  (accounted (gift_effect lot facts a) = true <-> gift_accounted a) /\
  held_of (gift_effect lot facts a) = quantity_if (GA_Status a) "held" (GA_Quantity a) /\
  extracted_of (gift_effect lot facts a) = 0.
Proof.
  intros [Hs Hq]. unfold gift_effect, gift_accounted, quantity_if, effect_bounded.
  pose proof (holdBacked_spec transactions (hold_key lot TransactionTypeGiftHold "gift"
    (GA_GiftID a)) (GA_Quantity a) rows Hq) as Hb.
  fold facts in Hb. unfold hold_backed. rewrite <- Hb.
  destruct (String.eqb_spec (GA_Status a) "held") as [E|]; [rewrite E; effect_cases|].
  destruct (String.eqb_spec (GA_Status a) "claimed") as [E|]; [rewrite E; effect_cases|].
  destruct (String.eqb_spec (GA_Status a) "restored") as [E|]; [rewrite E; effect_cases|].
  effect_cases.
Qed.

Lemma refund_effect_ok a : allocation_value (FA_Status a) (FA_Quantity a) ->
  effect_bounded (refund_effect lot facts a) /\
  (accounted (refund_effect lot facts a) = true <-> refund_accounted a) /\
  held_of (refund_effect lot facts a) = quantity_if (FA_Status a) "held" (FA_Quantity a) /\
  extracted_of (refund_effect lot facts a) = 0.
Proof.
  intros [Hs Hq]. unfold refund_effect, refund_accounted, quantity_if, effect_bounded.
  pose proof (holdBacked_spec transactions (hold_key lot TransactionTypeRefundHold "refund"
    (FA_WineTicketRefundID a)) (FA_Quantity a) rows Hq) as Hb.
  fold facts in Hb. unfold hold_backed. rewrite <- Hb.
  destruct (String.eqb_spec (FA_Status a) "held") as [E|]; [rewrite E; effect_cases|].
  destruct (String.eqb_spec (FA_Status a) "consumed") as [E|]; [rewrite E; effect_cases|].
  destruct (String.eqb_spec (FA_Status a) "restored") as [E|]; [rewrite E; effect_cases|].
  effect_cases.
Qed.

(** The effects of a list of allocations, from those of one. *)
Lemma effects_of {A} (eff : A -> effect) (ok : A -> Prop) (held extracted : A -> Z) l :
  Forall (fun a => effect_bounded (eff a) /\ (accounted (eff a) = true <-> ok a) /\
                   held_of (eff a) = held a /\ extracted_of (eff a) = extracted a) l ->
  Forall effect_bounded (map eff l) /\
  (forallb accounted (map eff l) = true <-> Forall ok l) /\
  sum_of held_of (map eff l) = sum_of held l /\
  sum_of extracted_of (map eff l) = sum_of extracted l.
Proof.
  unfold sum_of. induction 1 as [|a l (H1 & H2 & H3 & H4) _ (I1 & I2 & I3 & I4)]; simpl.
  { by rewrite Forall_nil. }
  split; [by constructor|].
  rewrite andb_true_iff, Forall_cons, H2, H3, H4, I2, I3, I4. done.
Qed.

Lemma sum_of_app {A} (f : A -> Z) l l' : sum_of f (l ++ l') = sum_of f l + sum_of f l'.
Proof. unfold sum_of. induction l as [|x l IH]; cbn [fold_right app]; [lia|]. rewrite IH. lia. Qed.

Lemma sum_of_zero {A} (l : list A) : sum_of (fun _ => 0) l = 0.
Proof. unfold sum_of. induction l as [|x l IH]; cbn [fold_right]; lia. Qed.

Lemma none_if {A} (c : bool) (d : A) : (if c then None else Some d) = None <-> c = true.
Proof. by destruct c. Qed.

Lemma projection_exact rs gs fs :
  lot_row_check lot = true ->
  Forall (fun a => allocation_value (RA_Status a) (RA_Quantity a)) rs ->
  Forall (fun a => allocation_value (GA_Status a) (GA_Quantity a)) gs ->
  Forall (fun a => allocation_value (FA_Status a) (FA_Quantity a)) fs ->
  Z.of_nat (List.length rs + List.length gs + List.length fs) < 2 ^ 30 ->
  checkLotAllocationProjection lot facts rs gs fs = None <->
  Forall redemption_accounted rs /\ Forall gift_accounted gs /\ Forall refund_accounted fs /\
  Lot_AvailableQuantity lot + held_total rs gs fs + extracted_total rs <= Lot_TotalQuantity lot.
Proof.
  intros Hl Hr Hg Hf Hn. pose proof (lot_row_values _ Hl) as Hv.
  destruct (effects_of _ _ _ _ rs (Forall_impl _ _ _ Hr redemption_effect_ok)) as (R1 & R2 & R3 & R4).
  destruct (effects_of _ _ _ _ gs (Forall_impl _ _ _ Hg gift_effect_ok)) as (G1 & G2 & G3 & G4).
  destruct (effects_of _ _ _ _ fs (Forall_impl _ _ _ Hf refund_effect_ok)) as (F1 & F2 & F3 & F4).
  assert (Hb : Forall effect_bounded (effects lot facts rs gs fs)).
  { unfold effects. rewrite !Forall_app. auto. }
  assert (Hlen : Z.of_nat (List.length (effects lot facts rs gs fs)) < 2 ^ 30).
  { unfold effects. rewrite !length_app, !length_map. lia. }
  set (p0 := {| P_heldQuantity := 0; P_extractedQuantity := 0; P_backingValid := true;
       P_invalidStatus := ""; P_invalidBizID := 0 |}).
  destruct (apply_effects _ p0 Hb) as (E1 & E2 & E3); [unfold p0; cbn [P_heldQuantity P_extractedQuantity]; int_range..|].
  unfold checkLotAllocationProjection, projection_bounded.
  rewrite none_if, lot_projection_effects. fold p0. rewrite E1, E2, E3.
  unfold p0. cbn [P_heldQuantity P_extractedQuantity P_backingValid P_invalidStatus].
  pose proof (sum_of_bound held_of _ (Forall_impl _ _ _ Hb (fun e H => proj1 H))) as Sh.
  pose proof (sum_of_bound extracted_of _ (Forall_impl _ _ _ Hb (fun e H => proj1 (proj2 H)))) as Sx.
  rewrite (uint_add_small (Lot_AvailableQuantity lot)) by int_range.
  rewrite uint_add_small by int_range.
  unfold effects in *. rewrite !sum_of_app, R3, R4, G3, G4, F3, F4, !sum_of_zero.
  rewrite !forallb_app, !andb_true_iff, R2, G2, F2, Z.leb_le.
  unfold held_total, extracted_total. intuition lia.
Qed.
End Exact.


Definition audited_gift (status : string) : GiftAllocation := {|
  GA_ID := 3; GA_GiftID := 55; GA_SourceLotID := 9; GA_ReceiverLotID := None;
  GA_Quantity := 4; GA_SourceExpiresAt := 100; GA_Status := status; GA_CreatedAt := 2;
  GA_UpdatedAt := 2 |}.


(** ** The cursor *)

Definition next_phase (c : IntegrityCursor) : IntegrityCursor :=
  (nextIntegrityCursor (Cursor_Phase c) (Cursor_LastID c) true (Cursor_UpperID c)).1.

Lemma normalized_phase cursor c : normalizeIntegrityCursor cursor = Ok c ->
  Cursor_Phase c ∈ reconciliationPhases.
Proof.
  unfold normalizeIntegrityCursor. destruct (existsb _ _) eqn:E; [|done]. intros [= <-].
  apply existsb_exists in E as (p & Hp & E). apply String.eqb_eq in E as ->.
  by apply list_elem_of_In.
Qed.

(** C37: The auditor never gets stuck and never skips a phase.  From any
    cursor it accepts, completing phases reaches each of the nine phases
    within eight steps; the cursor it produces is accepted again, keeps its
    place while the phase is not completed, and the cycle is reported complete
    exactly when the last phase is, with the first phase next. *)
Theorem nextIntegrityCursor_visits_every_phase cursor c :
  normalizeIntegrityCursor cursor = Ok c ->
  (forall phase, phase ∈ reconciliationPhases ->
     exists n, (n <= 8)%nat /\ Cursor_Phase (Nat.iter n next_phase c) = phase) /\
  forall lastID completed upperID,
    let '(c', cycled) := nextIntegrityCursor (Cursor_Phase c) lastID completed upperID in
    normalizeIntegrityCursor c' = Ok c' /\
    cycled = completed && String.eqb (Cursor_Phase c) IntegrityPhaseReminders /\
    (cycled = true -> Cursor_Phase c' = IntegrityPhasePayments) /\
    if completed then Cursor_LastID c' = 0 /\ Cursor_UpperID c' = None
    else c' = {| Cursor_Phase := Cursor_Phase c; Cursor_LastID := lastID;
                 Cursor_UpperID := upperID |}.
Proof.
  intros H. apply normalized_phase in H. destruct c as [phase lastID upperID].
  cbn [Cursor_Phase] in *. unfold reconciliationPhases in H. rewrite !elem_of_cons in H.
  split.
  - intros p Hp. unfold reconciliationPhases in Hp. rewrite !elem_of_cons in Hp.
    set (dist := fun a b => match find (fun n => String.eqb (Cursor_Phase (Nat.iter n next_phase
       {| Cursor_Phase := a; Cursor_LastID := 0; Cursor_UpperID := None |})) b) (seq 0 9) with
       | Some n => n | None => O end).
    exists (dist phase p).
    destruct_or! H; try (by apply not_elem_of_nil in H); subst phase;
      (destruct_or! Hp; try (by apply not_elem_of_nil in Hp); subst p);
      (split; [vm_compute; lia|reflexivity]).
  - intros last [|] upper; destruct_or! H; try (by apply not_elem_of_nil in H); subst phase;
      by repeat split.
Qed.

Lemma nextIntegrityCursor_visits_every_phase_witness :
  exists n, (n <= 8)%nat /\
    Cursor_Phase (Nat.iter n next_phase (cursor_at IntegrityPhaseLots)) = IntegrityPhasePurchases.
Proof.
  refine (proj1 (nextIntegrityCursor_visits_every_phase (cursor_at IntegrityPhaseLots)
    (cursor_at IntegrityPhaseLots) _) IntegrityPhasePurchases _).
  - reflexivity.
  - apply list_elem_of_further, list_elem_of_here.
Defined.

(** ** Duplicates *)

Lemma dedup_spec rows : forall seen,
  let out := dedup_discrepancies seen rows in
  NoDup (map discrepancy_key out) /\ out `sublist_of` rows /\
  (forall d, d ∈ out -> ~ discrepancy_key d ∈ seen) /\
  forall d, d ∈ rows -> ~ discrepancy_key d ∈ seen ->
    exists d', d' ∈ out /\ discrepancy_key d' = discrepancy_key d.
Proof.
  induction rows as [|row rows IH]; intros seen; simpl.
  { split; [constructor|]. split; [constructor|].
    split; [by intros d ?%not_elem_of_nil|by intros d ?%not_elem_of_nil]. }
  destruct (existsb (String.eqb (discrepancy_key row)) seen) eqn:E.
  - apply existsb_exists in E as (k & Hk & Ek). apply String.eqb_eq in Ek as <-.
    apply list_elem_of_In in Hk. destruct (IH seen) as (H1 & H2 & H3 & H4).
    split; [done|]. split; [by apply sublist_cons|]. split; [done|].
    intros d [->|Hd]%elem_of_cons Hn; [done|]. by apply H4.
  - destruct (IH (discrepancy_key row :: seen)) as (H1 & H2 & H3 & H4). simpl.
    assert (Hrow : ~ discrepancy_key row ∈ seen).
    { intros Hin. apply not_true_iff_false in E. apply E, existsb_exists.
      exists (discrepancy_key row). by rewrite String.eqb_refl, <- list_elem_of_In. }
    split; [|split; [by apply sublist_skip|split]].
    + apply NoDup_cons. split; [|done]. intros Hin.
      apply list_elem_of_In, in_map_iff in Hin as (d & Ed & Hd). apply list_elem_of_In in Hd.
      apply (H3 d Hd). rewrite Ed. left.
    + intros d [->|Hd]%elem_of_cons; [done|]. specialize (H3 d Hd).
      intros Hin. apply H3. by right.
    + intros d [->|Hd]%elem_of_cons Hn; [exists row; split; [left|done]|].
      destruct (decide (discrepancy_key d = discrepancy_key row)) as [Ed|Ed].
      { exists row. split; [left|done]. }
      destruct (H4 d Hd) as (d' & Hd' & Ed').
      { intros [?|?]%elem_of_cons; done. }
      exists d'. split; [by right|done].
Qed.

(** Removing duplicates keeps one discrepancy per rule, kind, business
    type and business identifier, the first found, in the order they were
    found, and loses none. *)
Theorem deduplicate_keeps_every_finding rows :
  let out := deduplicateIntegrityDiscrepancies rows in
  NoDup (map discrepancy_key out) /\ out `sublist_of` rows /\
  forall d, d ∈ rows -> exists d', d' ∈ out /\ discrepancy_key d' = discrepancy_key d.
Proof.
  destruct rows as [|row [|row' rows]].
  - split; [constructor|]. split; [constructor|]. by intros d ?%not_elem_of_nil.
  - split; [apply NoDup_singleton|]. split; [done|]. intros d Hd. by exists d.
  - destruct (dedup_spec (row :: row' :: rows) []) as (H1 & H2 & _ & H4).
    split; [done|]. split; [done|]. intros d Hd. apply H4; [done|apply not_elem_of_nil].
Qed.
